(* ===== verification/_CoqProject ===== *)
-Q . S2P
Prelude.v
Go.v
Url.v
Mux.v
Model.v
Dag.v
State.v
Json.v
Schema.v
Sql.v
StoreWorker.v
StoreWorkflow.v
Scheduler.v
Outbox.v
Auth.v
Stream.v
Artifacts.v
RateLimit.v
Config.v
Metrics.v
Api.v
Service.v
Http.v
Rpc.v
Client.v
WorkerGo.v
Python.v
PythonExample.v
Console.v
Process.v
Preserve.v
Frame.v
Lifecycle.v
Refinement.v
Creation.v
Aloof.v
System.v
History.v
SchemaSpec.v
MetricsSpec.v
WorkerSpec.v
RunSpec.v
SchedulerSpec.v
Numbering.v
OutboxSpec.v
Trace.v
AuthSpec.v
ArtifactSpec.v
Requests.v
Progress.v
RpcSpec.v
WorkerGoSpec.v
PythonSpec.v
Deployment.v
Settling.v
Calls.v
Completion.v
Scenario.v
Witnesses.v
DeploymentWitnesses.v
ProcessWitnesses.v
