(* ===== verification/Prelude.v ===== *)
(** * RunMesh: a verification of the durable workflow engine

    RunMesh stores versioned workflow graphs, creates runs of them, releases
    the tasks of a run as their dependencies succeed, and delivers them to
    workers through Kafka.  PostgreSQL is the only source of truth.  This
    library translates the Go program into executable definitions and proves
    what the parts promise to each other and to their users.

    ** The parts and their interaction

    The control plane ([cmd/control-plane]) serves users over HTTP
    ([internal/api]) and workers over gRPC ([internal/rpc]) and HTTP; both end
    in the operations of [internal/storage].  The scheduler ([cmd/scheduler],
    [internal/scheduler]) runs two loops on the same database: [tick] fires
    schedules, recovers expired leases, promotes retries and dispatches ready
    tasks; the outbox publisher claims the events other transactions queued,
    sends them to Kafka and acknowledges them, and notifies Redis subscribers.
    A worker ([cmd/worker-go], with [sdk/go]) consumes dispatch messages, leases,
    starts, executes and completes or fails the task, sending heartbeats; the
    Python SDK ([sdk/python]) does the same over gRPC with handlers of its users,
    of which [examples/python_worker.py] has some.  The web console ([web/src])
    calls the HTTP API and subscribes to the live stream.

    ** Files

    Foundations.
    - [Prelude]: notations, tactics, hint databases, generic lemmas.
    - [Go], [Url], [Mux]: the standard library's string, number and duration
      parsers, [net/url.Parse] and [http.ServeMux], as far as they are used.
    - [Schema]: the tables of [migrations/] as finite maps to rows ([Db]).
    - [Sql]: the monad [M] of a database session.  [Env] holds every answer the
      program does not choose, indexed by a statement counter: clocks, fresh
      identifiers, the order of unordered results, rows locked by others,
      failures, and commits whose acknowledgement is lost.  [in_tx] is a
      transaction: its effect is kept or dropped as a whole.

    The program.
    - [Model], [Dag], [State], [Json]: [internal/workflow] and the stored JSON.
    - [StoreWorker], [StoreWorkflow]: [internal/storage/worker.go] and
      [postgres.go], one definition per Go function, statement by statement.
    - [Scheduler], [Outbox], [Service]: [internal/scheduler/scheduler.go],
      [internal/messaging/kafka.go], the publishing half of [internal/live], and
      what the two mains build from the configuration.
    - [Auth], [Artifacts], [RateLimit], [Config], [Stream], [Metrics]:
      [internal/auth] with [storage/api_keys.go]; [internal/artifact] with
      [storage/artifacts.go]; [internal/ratelimit]; [internal/config];
      [internal/api/stream.go] with the subscribing half of [internal/live];
      [internal/telemetry/dbmetrics.go].
    - [Api], [Http], [Rpc]: the handlers of [internal/api/server.go], its routing
      and middleware, and [internal/rpc/worker.go].
    - [Client], [WorkerGo]: [sdk/go/client.go] and [cmd/worker-go/main.go], in a
      monad [W] of a process whose calls may be lost, doubled by a lost reply or
      overtaken by other parties.  The class [WorkerService] is the interface of
      the generated stub between client and server.
    - [Python], [PythonExample]: [sdk/python/runmesh/worker.py], whose consumer
      slots are coroutines in a monad [Y] with exceptions, and the handlers of
      [examples/python_worker.py].
    - [Console]: [web/src/api.ts] and the token of [web/src/auth.ts]: the calls,
      and the subscription as a machine over the events of the browser.
    - [Process]: both mains with the constructors they call
      ([telemetry.Setup], [storage.New], [ratelimit.New], [live.New], [auth.New],
      [api.New]) in a monad [X] of a process with open resources, deferred calls
      and a metrics registry; the machines of the control plane while it serves
      and stops, and of the scheduler's metrics listener.

    The theory.
    - [Preserve], [Frame], [Aloof]: relations between the databases before and
      after an operation, proved statement by statement.
    - [Lifecycle]: the abstract specification, a step relation on the statuses,
      leases, counters and edges of runs and tasks, with its invariant.
    - [Refinement], [Creation]: every operation refines it.
    - [System]: all operations in any interleaving ([system_reachable]) and the
      invariants of what they reach; [History]: what they never rewrite;
      [SchemaSpec]: the constraints of the migrations, which they keep.
    - [WorkerSpec], [RunSpec], [SchedulerSpec], [OutboxSpec], [AuthSpec],
      [ArtifactSpec], [MetricsSpec], [Numbering]: the behaviour of the single
      components; [Trace]: [internal/tracecontext] and the way of a trace from
      the request that creates a run to the workers.
    - [Requests], [RpcSpec], [WorkerGoSpec], [PythonSpec], [Deployment]: the
      interfaces, the workers against [WorkerServiceSpec] and [DownloadSpec], and
      the deployed whole.  [WorkerGoSpec.drives] lifts a relation that the calls
      respect to whatever the worker does.
    - [Progress], [Settling]: what each operation does when nothing fails, and
      what the operations of a round leave alone; [Calls]: what the calls of a
      worker leave alone; [Completion]: rounds of scheduler, publisher and Go
      worker, up to the completion of a run.
    - [Scenario], [Witnesses], [DeploymentWitnesses], [ProcessWitnesses]:
      concrete executions that meet the theorems' hypotheses, and those that show
      the findings.

    ** What the theorems show

    - Safety of execution: no task is released or attempted before its
      dependencies have succeeded; a worker without an unexpired lease changes
      nothing; the status of a run agrees with its tasks; a run stays an instance
      of its definition; a recorded success is never undone.
    - Refinement: storage and scheduler operations, however interleaved and
      whatever fails, execute [Lifecycle.lstep]; the publisher executes the
      outbox protocol; HTTP, gRPC, service loops, scrapes and workers execute
      the engine ([deployment_is_execution]), so that the invariants hold of the
      deployed system.
    - Progress: when database and broker do not fail and the worker's executions
      return no error, a created run succeeds after as many rounds of scheduler,
      publisher and Go worker as it has tasks ([created_run_completes]);
      a RUNNING run is never stuck with blocked tasks only; dispatch
      and recovery reach exactly the due tasks, a hundred at a time; the outbox
      drains.  [running_run_progress] admits runs whose other
      tasks are DEAD or CANCELLED: [Scenario.retry_strands_run] shows why.
    - Delivery: an event marked published was sent, and no event is sent before
      the earlier events of its ordering key that are visible then
      ([outbox_key_order] for a call, [outbox_key_order_concurrent] for publishers
      side by side).  An event whose transaction commits late can still be
      overtaken ([outbox_overtaken]).  The Python worker commits offsets in order,
      and none of a task for its own handlers that nobody had leased; the Go
      worker does not have the second property ([lost_lease_strands_task]).
    - Functional behaviour of each storage operation, of graph validation, of
      artifact completion, of the worker's execution and of the collector's
      histograms; the answers to calls that are refused.
    - Security: tenants are isolated in the store, over gRPC and on live
      streams; production requests need an accepted key or token; readers change
      nothing but the time their key was used; withdrawn keys are rejected.
    - Bounds: the rate limiter's grants, with the rounding of its numbers, and
      what an accepted configuration guarantees.
    - Processes: how the control plane and the scheduler start, what each failure
      leads to, and how they end; a graceful stop waits for the gRPC calls but not
      for the HTTP requests ([shutdown_cuts_requests]).
    - Clients: the console's calls reach the handlers they are meant for and its
      subscription keeps one connection; where the example workers agree and
      where they do not; a cancelled
      run ends a consumer slot of the Python worker ([cancelled_run_ends_slot]).

    ** Bounds and fuel

    [Dag.visit] gets one unit of fuel more than there are tasks; [ValidateDAG_total]
    proves that it is never used up.  [Outbox.publishBatch] gets fuel for its
    rounds; [publishBatch_drains] proves that one round per pending event and one
    more suffice when nothing fails, and the other theorems hold for every
    amount.  [WorkerGo.consume] and [report] take the number of fetches and
    rounds, and [Service.Run] the list of turns of its two goroutines: they are
    endless loops, and the theorems hold for every length; so for
    [Python.consume_loop].  [Completion.rounds] takes the number of rounds;
    [created_run_completes] proves that the number of tasks suffices, and each
    round lets [consume] fetch once more than there are messages.

    ** What is idealized

    - Transactions are atomic and take effect one after the other; [FOR UPDATE
      SKIP LOCKED] skips the rows [Env] says others hold.  The transactions of
      one tick or one request are separate steps.
    - Identifiers are compared as text, so the spellings of one UUID that
      PostgreSQL identifies are distinct.  Instants are nanoseconds and are not
      truncated to microseconds.  Counters and priorities are unbounded integers;
      that they fit the INTEGER columns is not checked.
    - JSON numbers are integers; objects are read by exact key.  The order of
      text columns is a rank of the environment.
    - The limiter's script rounds after every operation by a function of which only
      the guarantees of IEEE 754 are used ([RateLimit.rounding]); the collector's
      values are [SpecFloat] numbers.  The fractions [ParseDuration] reads are
      exact.  [TrimSpace] and [ToLower] treat ASCII only, and [%q] takes every other
      character as printable.
    - A query either fails or delivers all its rows, except those of the metrics
      collector, which does not look at [rows.Err] and whose connection may break
      at any row.  A statement with a parameter of undetermined type is refused
      ([Sql.undetermined]).
    - A cycle of the scheduler or the publisher returns: that it panics or hangs is
      not represented.

    ** Parameters

    Code that is not in the repository is an argument: SHA-256, UUID parsing,
    the verification of OIDC tokens, the cron parser and the time zones, the S3
    client, Kafka, Redis, gRPC dialling, the OpenTelemetry propagator and exporters
    ([Trace.Tracing], [Process.Host]), the decoding of request bodies
    ([Decoders]) and of downloaded bytes, Python's [json.loads] and [str], the text
    form of an instant, and upper case outside ASCII.

    ** Not modelled

    Log lines, the attributes of spans and the values of counters of the process,
    which have no influence on the engine; of [internal/live], the [Ping] that
    nothing calls.  [gen/] is generated: its messages are the arguments and
    results of the methods.  [openapi/spec.go] embeds a file.  Of the mains, the
    timeouts of the transports; of the Python SDK, joining and leaving the
    consumer group.  Of the migrations, indexes and seed rows.  Of the web
    console, the pages and the sign-in: components of a user interface and calls
    of the OIDC library; the theorems about the API hold for arbitrary
    requests. *)
From stdpp Require Export base gmap strings list fin_maps sorting option relations.
From Stdlib Require Export ZArith Lia Ascii.
From coqutil Require Export Datatypes.RecordSettersUsingExistingGetters.

(** * Notations and automation *)

Declare Scope runmesh_scope.
Delimit Scope runmesh_scope with rm.
Open Scope Z_scope.

#[global] Arguments const {E} newValue _ /.

Create HintDb runmesh discriminated.
Create Rewrite HintDb runmesh_rw.

(** Split a conjunction of boolean tests, as the conditions of the source
    are written, into the propositions they decide. *)
Ltac bool_split :=
  repeat match goal with
  | H : _ && _ = true |- _ => apply andb_true_iff in H as [? ?]
  | H : Is_true _ |- _ => apply Is_true_true in H
  | H : bool_decide _ = true |- _ => apply bool_decide_eq_true_1 in H
  | H : bool_decide _ = false |- _ => apply bool_decide_eq_false_1 in H
  | H : _ || _ = false |- _ => apply orb_false_iff in H as [? ?]
  | H : negb _ = true |- _ => apply negb_true_iff in H
  | H : negb _ = false |- _ => apply negb_false_iff in H
  end.

(** Open every existential and conjunction among the hypotheses. *)
Ltac deex :=
  repeat match goal with
  | H : ∃ _, _ |- _ => destruct H
  | H : _ ∧ _ |- _ => destruct H
  end.

(** * Go errors *)

(** The error values the Go code returns or tests.  [ErrNotFound],
    [ErrConflict] and [ErrLeaseLost] are the sentinel errors of
    [internal/storage]; [ErrText] is [fmt.Errorf]/[errors.New]; [ErrPg] is an
    error PostgreSQL reports with its SQLSTATE; [ErrConn] is a failure of the
    connection (or of a context) that carries no SQLSTATE. *)
Inductive error : Type :=
  | ErrNotFound
  | ErrConflict
  | ErrLeaseLost
  | ErrText (msg : string)
  | ErrPg (sqlstate msg : string)
  | ErrConn (msg : string).

#[export] Instance error_eq_dec : EqDecision error.
Proof. solve_decision. Defined.

(** [err.Error()]: the sentinels have the texts of [errors.New]; pgx renders
    a server error with its SQLSTATE in parentheses. *)
Definition error_text (e : error) : string :=
  match e with
  | ErrNotFound => "not found"
  | ErrConflict => "conflict"
  | ErrLeaseLost => "lease lost"
  | ErrText m => m
  | ErrPg code m => "ERROR: " +:+ m +:+ " (SQLSTATE " +:+ code +:+ ")"
  | ErrConn m => m
  end.

Inductive result (A : Type) : Type :=
  | Ok (a : A)
  | Err (e : error).
Arguments Ok {A} a.
Arguments Err {A} e.

Definition is_ok {A} (r : result A) : bool :=
  match r with Ok _ => true | Err _ => false end.

(** * Orders chosen outside the program

    Go's [range] over a map and PostgreSQL's unordered scans visit their
    elements in an order the program does not choose.  Both are modelled by
    sorting with an arbitrary rank, so a statement that holds for every rank
    holds for every visiting order. *)
Section Order.
Context {A : Type}.

Definition by_rank (rank : A → Z) (x y : A) : Prop := rank x ≤ rank y.

#[global] Instance by_rank_dec rank x y : Decision (by_rank rank x y) :=
  Z.le_dec (rank x) (rank y).

#[global] Instance by_rank_total rank : Total (by_rank rank).
Proof. intros x y. unfold by_rank. lia. Qed.

#[global] Instance by_rank_trans rank : Transitive (by_rank rank).
Proof. intros x y z. unfold by_rank. lia. Qed.

Definition order_by (rank : A → Z) (l : list A) : list A :=
  merge_sort (by_rank rank) l.

Lemma order_by_perm rank l : order_by rank l ≡ₚ l.
Proof. apply merge_sort_Permutation. Qed.

Lemma elem_of_order_by rank l x : x ∈ order_by rank l ↔ x ∈ l.
Proof. by rewrite order_by_perm. Qed.
End Order.

(** [ORDER BY k1, k2, ...]: the keys of a row are compared as a list, the first
    that differs decides.  A [uuid] or text key is the list of its bytes. *)
Fixpoint lex_leb (x y : list Z) : bool :=
  match x, y with
  | [], _ => true
  | _ :: _, [] => false
  | a :: x, b :: y => (a <? b) || ((a =? b) && lex_leb x y)
  end.

Lemma lex_leb_refl x : lex_leb x x = true.
Proof. induction x as [|a x IH]; simpl; [done|]. by rewrite Z.eqb_refl, IH, orb_true_r. Qed.

Lemma lex_leb_total x y : lex_leb x y = true ∨ lex_leb y x = true.
Proof.
  revert y. induction x as [|a x IH]; intros [|b y]; simpl; auto.
  destruct (Z.lt_total a b) as [?|[->|?]].
  - left. by rewrite (proj2 (Z.ltb_lt a b)).
  - rewrite Z.eqb_refl, Z.ltb_irrefl. simpl. apply IH.
  - right. by rewrite (proj2 (Z.ltb_lt b a)).
Qed.

Lemma lex_leb_trans x y z : lex_leb x y = true → lex_leb y z = true → lex_leb x z = true.
Proof.
  revert y z. induction x as [|a x IH]; intros [|b y] [|c z]; simpl; auto; [done|].
  rewrite !orb_true_iff, !andb_true_iff, !Z.ltb_lt, !Z.eqb_eq.
  intros [?|[-> ?]] [?|[-> ?]]; [left; lia|by left|by left|right; eauto].
Qed.

Definition bytes_of (s : string) : list Z :=
  (λ c, Z.of_N (N_of_ascii c)) <$> String.list_ascii_of_string s.

Section OrderByKeys.
Context {A : Type}.

Definition by_keys (keys : A → list Z) (x y : A) : Prop := lex_leb (keys x) (keys y).

#[global] Instance by_keys_dec keys x y : Decision (by_keys keys x y).
Proof. unfold by_keys. apply _. Defined.

Definition order_by_keys (keys : A → list Z) (l : list A) : list A :=
  merge_sort (by_keys keys) l.

Lemma order_by_keys_perm keys l : order_by_keys keys l ≡ₚ l.
Proof. apply merge_sort_Permutation. Qed.

Lemma elem_of_order_by_keys keys l x : x ∈ order_by_keys keys l ↔ x ∈ l.
Proof. by rewrite order_by_keys_perm. Qed.
End OrderByKeys.

(** [for key, value := range m]. *)
Definition range_map {V} (rank : string → Z) (m : gmap string V) : list (string * V) :=
  order_by (rank ∘ fst) (map_to_list m).

Lemma range_map_perm {V} rank (m : gmap string V) : range_map rank m ≡ₚ map_to_list m.
Proof. apply order_by_perm. Qed.

Lemma elem_of_range_map {V} rank (m : gmap string V) k v :
  (k, v) ∈ range_map rank m ↔ m !! k = Some v.
Proof. rewrite range_map_perm. apply elem_of_map_to_list. Qed.

#[export] Hint Rewrite @elem_of_order_by @elem_of_order_by_keys @elem_of_range_map : runmesh_rw.

Lemma list_filter_ext_in {A} (P Q : A → Prop) `{∀ x, Decision (P x), ∀ x, Decision (Q x)} (l : list A) :
  (∀ x, x ∈ l → P x ↔ Q x) → filter P l = filter Q l.
Proof.
  induction l as [|x l IH]; intros H'; [done|]. rewrite !filter_cons, IH by set_solver.
  by rewrite (decide_ext (P x) (Q x)) by (apply H'; by left).
Qed.
