(* ===== verification/Go.v ===== *)
(** The parts of Go's [strings], [strconv] and [time] packages the program
    uses, on byte strings.  [TrimSpace] and [ToLower] treat ASCII only. *)
From stdpp Require Import pretty.
From S2P Require Import Prelude.

(** * strings *)

Fixpoint has_prefix (p s : string) : bool :=
  match p, s with
  | "", _ => true
  | String a p, String b s => Ascii.eqb a b && has_prefix p s
  | _, _ => false
  end%string.

(** [strings.TrimPrefix]. *)
Fixpoint drop_string (n : nat) (s : string) : string :=
  match n, s with
  | S n, String _ s => drop_string n s
  | _, _ => s
  end.

Definition trim_prefix (p s : string) : string :=
  if has_prefix p s then drop_string (String.length p) s else s.

(** [strings.Contains]. *)
Fixpoint string_contains (s sub : string) : bool :=
  has_prefix sub s || match s with String _ s => string_contains s sub | "" => false end%string.

Definition is_space (c : ascii) : bool :=
  match N_of_ascii c with 9 | 10 | 11 | 12 | 13 | 32 => true | _ => false end%N.

Fixpoint trim_left (cut : ascii → bool) (s : string) : string :=
  match s with
  | String c s' => if cut c then trim_left cut s' else s
  | "" => ""
  end%string.

Fixpoint trim_right (cut : ascii → bool) (s : string) : string :=
  match s with
  | String c s' =>
      let t := trim_right cut s' in
      if cut c && bool_decide (t = "") then "" else String c t
  | "" => ""
  end%string.

Definition trim (cut : ascii → bool) (s : string) : string := trim_right cut (trim_left cut s).
Definition trim_space (s : string) : string := trim is_space s.

Definition lower (c : ascii) : ascii :=
  let n := N_of_ascii c in
  if (65 <=? n)%N && (n <=? 90)%N then ascii_of_N (n + 32) else c.

Fixpoint to_lower (s : string) : string :=
  match s with String c s => String (lower c) (to_lower s) | "" => "" end%string.

(** [strings.Split(s, sep)] for a separator of one byte. *)
Fixpoint split (sep : ascii) (s : string) : list string :=
  match s with
  | "" => [""]
  | String c s =>
      if Ascii.eqb c sep then "" :: split sep s
      else match split sep s with
           | part :: parts => String c part :: parts
           | [] => [String c ""]
           end
  end%string.

(** Cut at the first separator; [rest] splits what follows it. *)
Fixpoint split_first (sep : ascii) (rest : string → list string) (s : string) : list string :=
  match s with
  | "" => [""]
  | String c s =>
      if Ascii.eqb c sep then "" :: rest s
      else match split_first sep rest s with
           | part :: parts => String c part :: parts
           | [] => [String c ""]
           end
  end%string.

(** [strings.SplitN(s, sep, n)] for [n > 0]. *)
Fixpoint splitN (sep : ascii) (n : nat) (s : string) : list string :=
  match n with
  | O => []
  | S O => [s]
  | S n => split_first sep (splitN sep n) s
  end.

Fixpoint join (sep : string) (parts : list string) : string :=
  match parts with
  | [] => ""
  | [p] => p
  | p :: parts => p +:+ sep +:+ join sep parts
  end.

(** [s] without the suffix [p], if it has it: [strings.CutSuffix]. *)
Fixpoint cut_suffix (p s : string) : option string :=
  if String.eqb s p then Some ""
  else match s with "" => None | String c s => String c <$> cut_suffix p s end%string.

Definition has_suffix (p s : string) : bool := bool_decide (is_Some (cut_suffix p s)).
Definition trim_suffix (p s : string) : string := default s (cut_suffix p s).

(** [strings.Cut] at a separator of one byte; [None] when there is none. *)
Fixpoint cut (sep : ascii) (s : string) : string * option string :=
  match s with
  | "" => ("", None)
  | String c s =>
      if Ascii.eqb c sep then ("", Some s) else let '(a, b) := cut sep s in (String c a, b)
  end%string.

(** Before and after the last separator, as with [strings.LastIndex]. *)
Fixpoint cut_last (sep : ascii) (s : string) : option (string * string) :=
  match s with
  | "" => None
  | String c s =>
      match cut_last sep s with
      | Some (a, b) => Some (String c a, b)
      | None => if Ascii.eqb c sep then Some ("", s) else None
      end
  end%string.

Fixpoint all_chars (p : ascii → bool) (s : string) : bool :=
  match s with "" => true | String c s => p c && all_chars p s end%string.

(** [strings.EqualFold], on ASCII. *)
Definition equal_fold (s t : string) : bool := String.eqb (to_lower s) (to_lower t).

(** * strconv *)

Definition digit (c : ascii) : option Z :=
  let n := Z.of_N (N_of_ascii c) in if (48 <=? n) && (n <=? 57) then Some (n - 48) else None.

Fixpoint digits (s : string) (acc : Z) : option Z :=
  match s with
  | "" => Some acc
  | String c s => d ← digit c; digits s (10 * acc + d)
  end%string.

Definition int64 (z : Z) : bool := bool_decide (- 2 ^ 63 ≤ z < 2 ^ 63).

(** [strconv.Atoi]: an optional sign and decimal digits, within 64 bits. *)
Definition Atoi (s : string) : option Z :=
  let unsigned s := if bool_decide (s = "") then None else digits s 0 in
  let signed := match s with
                | String "-" s => Z.opp <$> unsigned s
                | String "+" s => unsigned s
                | s => unsigned s
                end%string in
  z ← signed; if int64 z then Some z else None.

(** [strconv.ParseBool]. *)
Definition ParseBool (s : string) : option bool :=
  if bool_decide (s ∈ ["1"; "t"; "T"; "TRUE"; "true"; "True"]) then Some true
  else if bool_decide (s ∈ ["0"; "f"; "F"; "FALSE"; "false"; "False"]) then Some false
  else None.

(** * time.Duration *)

Fixpoint zeros_dropped (ds : list Z) : list Z :=
  match ds with
  | [] => []
  | d :: ds => match zeros_dropped ds with [] => if d =? 0 then [] else [d] | ds' => d :: ds' end
  end.

Fixpoint decimals (prec : nat) (v : Z) : list Z :=
  match prec with O => [] | S p => (v / 10 ^ Z.of_nat p) mod 10 :: decimals p v end.

(** The fraction of [v / 10^prec], without trailing zeros. *)
Definition fmtFrac (v : Z) (prec : nat) : string :=
  match zeros_dropped (decimals prec v) with
  | [] => ""
  | ds => "." +:+ String.concat "" (pretty <$> ds)
  end.

(** [time.Duration.String]. *)
Definition Duration_String (d : Z) : string :=
  let u := Z.abs d in
  let unit prec name := pretty (u / 10 ^ Z.of_nat prec) +:+ fmtFrac u prec +:+ name in
  let text :=
    if u =? 0 then "0s"
    else if u <? 10 ^ 3 then unit 0%nat "ns"
    else if u <? 10 ^ 6 then unit 3%nat "µs"
    else if u <? 10 ^ 9 then unit 6%nat "ms"
    else
      let s := u / 10 ^ 9 in
      let seconds := pretty (s mod 60) +:+ fmtFrac u 9 +:+ "s" in
      if s <? 60 then seconds
      else if s <? 3600 then pretty (s / 60) +:+ "m" +:+ seconds
      else pretty (s / 3600) +:+ "h" +:+ pretty (s / 60 mod 60) +:+ "m" +:+ seconds in
  if d <? 0 then "-" +:+ text else text.

(** The examples of Go's documentation. *)
Example duration_strings :
  Duration_String (3600 * 10 ^ 9 + 15 * 60 * 10 ^ 9 + 30 * 10 ^ 9 + 918 * 10 ^ 6) = "1h15m30.918s" ∧
  Duration_String (1500 * 10 ^ 6) = "1.5s" ∧ Duration_String (500 * 10 ^ 6) = "500ms" ∧
  Duration_String 0 = "0s" ∧ Duration_String (- 61 * 10 ^ 9) = "-1m1s".
Proof. by vm_compute. Qed.

(** * Lemmas on strings *)

Lemma string_app_nil_r s : s +:+ "" = s.
Proof. induction s as [|c s IH]; [done|]. change (String c (s +:+ "") = String c s). by rewrite IH. Qed.

Lemma all_chars_app p s t : all_chars p (s +:+ t) = all_chars p s && all_chars p t.
Proof. induction s as [|c s IH]; simpl; [done|]. by rewrite IH, andb_assoc. Qed.

Lemma all_chars_impl (p q : ascii → bool) s :
  (∀ c, p c = true → q c = true) → all_chars p s = true → all_chars q s = true.
Proof.
  intros Hpq. induction s as [|c s IH]; simpl; [done|]. intros [Hc Hs]%andb_true_iff.
  by rewrite (Hpq c Hc), IH.
Qed.

Lemma cut_lacks sep s : all_chars (λ c, negb (Ascii.eqb c sep)) s = true → cut sep s = (s, None).
Proof.
  induction s as [|c s IH]; simpl; [done|]. intros [Hc%negb_true_iff Hs]%andb_true_iff.
  by rewrite Hc, IH.
Qed.

Lemma cut_app sep s t :
  all_chars (λ c, negb (Ascii.eqb c sep)) s = true → cut sep (s +:+ String sep t) = (s, Some t).
Proof.
  induction s as [|c s IH]; simpl; [by rewrite Ascii.eqb_refl|].
  intros [Hc%negb_true_iff Hs]%andb_true_iff. by rewrite Hc, IH.
Qed.

Lemma cut_last_lacks sep s :
  all_chars (λ c, negb (Ascii.eqb c sep)) s = true → cut_last sep s = None.
Proof.
  induction s as [|c s IH]; simpl; [done|]. intros [Hc%negb_true_iff Hs]%andb_true_iff.
  by rewrite IH, Hc.
Qed.

Lemma cut_last_app sep s t :
  all_chars (λ c, negb (Ascii.eqb c sep)) t = true → cut_last sep (s +:+ String sep t) = Some (s, t).
Proof.
  intros Ht. induction s as [|c s IH]; simpl.
  - by rewrite cut_last_lacks, Ascii.eqb_refl.
  - by rewrite IH.
Qed.

(** A property of characters, decided for all of them. *)
Definition every_ascii (p : ascii → bool) : bool := forallb p (ascii_of_nat <$> seq 0 256).

Lemma every_ascii_spec p : every_ascii p = true → ∀ c, p c = true.
Proof.
  unfold every_ascii. intros H c. rewrite forallb_forall in H. apply H, list_elem_of_In.
  rewrite <-(ascii_nat_embedding c). apply list_elem_of_fmap_2, elem_of_seq.
  pose proof (nat_ascii_bounded c). lia.
Qed.

Lemma trim_right_lacks cut s : all_chars (λ c, negb (cut c)) s = true → trim_right cut s = s.
Proof.
  induction s as [|c s IH]; [done|]. simpl. intros [Hc Hs]%andb_true_iff. apply negb_true_iff in Hc.
  by rewrite Hc, IH.
Qed.

Lemma trim_space_lacks s : all_chars (λ c, negb (is_space c)) s = true → trim_space s = s.
Proof.
  intros Hs. unfold trim_space, trim. assert (trim_left is_space s = s) as ->.
  { destruct s as [|c s]; [done|]. simpl in *. apply andb_true_iff in Hs as [Hc _].
    apply negb_true_iff in Hc. by rewrite Hc. }
  by apply trim_right_lacks.
Qed.
