(* ===== verification/Url.v ===== *)
(** Go's [net/url.Parse], as far as [internal/artifact/manager.go]
    ([ParseURI]), [internal/api/stream.go] ([CheckOrigin]) and
    [sdk/go/client.go] ([postHTTP]) look at its result: the scheme, the host
    and the path of a URL, or an error. *)
From S2P Require Import Prelude Go.

Record URL := mkURL {
  url_Scheme : string;
  url_Host : string;
  url_Path : string
}.

Definition code_of (c : ascii) : Z := Z.of_N (N_of_ascii c).
Definition between (a b : Z) (c : ascii) : bool := (a <=? code_of c) && (code_of c <=? b).
Definition one_of (s : string) (c : ascii) : bool := negb (all_chars (λ d, negb (Ascii.eqb d c)) s).

Definition letter (c : ascii) : bool := between 65 90 c || between 97 122 c.
Definition decimal (c : ascii) : bool := between 48 57 c.

(** [stringContainsCTLByte]. *)
Definition control (c : ascii) : bool := (code_of c <? 32) || (code_of c =? 127).

(** * Percent escapes *)

Definition unhex (c : ascii) : option Z :=
  if decimal c then Some (code_of c - 48)
  else if between 97 102 c then Some (code_of c - 87)
  else if between 65 70 c then Some (code_of c - 55)
  else None.

(** Where an escaped text stands; a host restricts what may be escaped and what
    must be. *)
Inductive mode : Type :=
  | EncodePath
  | EncodeHost
  | EncodeZone
  | EncodeUserinfo
  | EncodeFragment.

(** ASCII characters that may stand in a host ([shouldEscape] denies it). *)
Definition quote_mark : ascii := "034"%char.
Definition host_char (c : ascii) : bool :=
  letter c || decimal c || one_of "!$&'()*+,;=:[]<>-_.~" c || bool_decide (c = quote_mark).

Definition escape_ok (md : mode) (h l : ascii) (v : Z) : bool :=
  let percent := bool_decide (h = "2"%char) && bool_decide (l = "5"%char) in
  match md with
  | EncodeHost => percent || (8 <=? v / 16)
  | EncodeZone => percent || (v =? 32) || host_char (ascii_of_N (Z.to_N v))
  | _ => true
  end.

Definition plain_ok (md : mode) (c : ascii) : bool :=
  match md with
  | EncodeHost | EncodeZone => (128 <=? code_of c) || host_char c
  | _ => true
  end.

(** [unescape]; [None] is an [EscapeError] or [InvalidHostError]. *)
Fixpoint unescape (md : mode) (s : string) : option string :=
  match s with
  | "" => Some ""
  | String "%" (String h (String l s)) =>
      a ← unhex h; b ← unhex l;
      if escape_ok md h l (16 * a + b)
      then String (ascii_of_N (Z.to_N (16 * a + b))) <$> unescape md s
      else None
  | String "%" _ => None
  | String c s => if plain_ok md c then String c <$> unescape md s else None
  end%string.

(** [EscapedPath] of a URL whose path has its default encoding. *)
Definition path_char (c : ascii) : bool := letter c || decimal c || one_of "-_.~$&+,/:;=@" c.

Definition upper_hex (n : N) : ascii := ascii_of_N (if (n <? 10)%N then 48 + n else 55 + n).

Fixpoint escape_path (s : string) : string :=
  match s with
  | "" => ""
  | String c s =>
      if path_char c then String c (escape_path s)
      else
        let n := N_of_ascii c in
        String "%" (String (upper_hex (n / 16)) (String (upper_hex (n mod 16)) (escape_path s)))
  end%string.

Lemma escape_path_plain s : all_chars path_char s = true → escape_path s = s.
Proof.
  induction s as [|c s IH]; [done|]. intros [Hc Hs]%andb_true_iff.
  change (escape_path (String c s)) with
    (if path_char c then String c (escape_path s) else
     let n := N_of_ascii c in
     String "%" (String (upper_hex (n / 16)) (String (upper_hex (n mod 16)) (escape_path s)))).
  by rewrite Hc, IH.
Qed.

(** * Authority *)

(** [validOptionalPort]. *)
Definition valid_port (s : string) : bool :=
  match s with "" => true | String ":" s => all_chars decimal s | _ => false end%string.

(** The position of [%25] in the text between brackets. *)
Fixpoint cut_zone (s : string) : option (string * string) :=
  if has_prefix "%25" s then Some ("", s)
  else match s with
       | "" => None
       | String c s => prod_map (String c) id <$> cut_zone s
       end%string.

Definition parseHost (host : string) : option string :=
  match host with
  | String "[" _ =>
      '(inside, port) ← cut_last "]" host;
      if valid_port port then
        match cut_zone inside with
        | Some (address, zone) =>
            h1 ← unescape EncodeHost address;
            h2 ← unescape EncodeZone zone;
            h3 ← unescape EncodeHost ("]" +:+ port);
            Some (h1 +:+ h2 +:+ h3)
        | None => unescape EncodeHost host
        end
      else None
  | _ =>
      match cut_last ":" host with
      | Some (_, port) => if valid_port (":" +:+ port) then unescape EncodeHost host else None
      | None => unescape EncodeHost host
      end
  end%string.

(** [validUserinfo]. *)
Definition userinfo_char (c : ascii) : bool := letter c || decimal c || one_of "-._:~!$&'()*+,;=%@" c.

Definition parseAuthority (authority : string) : option string :=
  match cut_last "@" authority with
  | None => parseHost authority
  | Some (userinfo, host) =>
      h ← parseHost host;
      if all_chars userinfo_char userinfo then unescape EncodeUserinfo userinfo ≫= λ _, Some h else None
  end.

(** * URLs *)

(** [getScheme]: the scheme and what follows its colon. *)
Fixpoint scheme_chars (s : string) : option (string * string) :=
  match s with
  | "" => None
  | String c s =>
      if Ascii.eqb c ":" then Some ("", s)
      else if letter c || decimal c || one_of "+-." c
      then prod_map (String c) id <$> scheme_chars s
      else None
  end%string.

Definition getScheme (s : string) : option (string * string) :=
  match s with
  | String c _ =>
      if Ascii.eqb c ":" then None
      else if letter c then Some (default ("", s) (scheme_chars s))
      else Some ("", s)
  | "" => Some ("", "")
  end%string.

(** [parse(rawURL, false)]; the query is dropped. *)
Definition parse (raw : string) : option URL :=
  if negb (all_chars (negb ∘ control) raw) then None
  else if bool_decide (raw = "*") then Some (mkURL "" "" "*")
  else
    '(scheme, rest) ← getScheme raw;
    let scheme := to_lower scheme in
    let rest := (cut "?" rest).1 in
    if negb (has_prefix "/" rest) && bool_decide (scheme ≠ "") then Some (mkURL scheme "" "")
    else if negb (has_prefix "/" rest) && string_contains (cut "/" rest).1 ":" then None
    else if has_prefix "//" rest && (bool_decide (scheme ≠ "") || negb (has_prefix "///" rest)) then
      let '(authority, path) := cut "/" (drop_string 2 rest) in
      host ← parseAuthority authority;
      p ← unescape EncodePath (match path with Some path => "/" +:+ path | None => "" end);
      Some (mkURL scheme host p)
    else p ← unescape EncodePath rest; Some (mkURL scheme "" p).

Definition Parse (raw : string) : option URL :=
  let '(u, frag) := cut "#" raw in
  url ← parse u;
  match frag with
  | None => Some url
  | Some frag => unescape EncodeFragment frag ≫= λ _, Some url
  end.

Lemma unescape_plain md s :
  all_chars (λ c, plain_ok md c && negb (Ascii.eqb c "%")) s = true → unescape md s = Some s.
Proof.
  induction s as [|c s IH]; [done|]. intros [[Hc Hp%negb_true_iff]%andb_true_iff Hs]%andb_true_iff.
  specialize (IH Hs). apply Ascii.eqb_neq in Hp.
  transitivity (if plain_ok md c then String c <$> unescape md s else None).
  - destruct c as [[] [] [] [] [] [] [] []]; try reflexivity. by destruct Hp.
  - by rewrite Hc, IH.
Qed.

(** * Examples of Go's test-suite *)

Definition parsed (raw : string) : option (string * string * string) :=
  (λ u, (url_Scheme u, url_Host u, url_Path u)) <$> Parse raw.

Example parse_examples :
  parsed "http://www.google.com/file%20one%26two" = Some ("http", "www.google.com", "/file one&two") ∧
  parsed "ftp://john%20doe@www.google.com/" = Some ("ftp", "www.google.com", "/") ∧
  parsed "http:www.google.com/?q=go+language" = Some ("http", "", "") ∧
  parsed "//foo" = Some ("", "foo", "") ∧ parsed "///threeslashes" = Some ("", "", "///threeslashes") ∧
  parsed "http://[fe80::1%25en0]:8080/" = Some ("http", "[fe80::1%en0]:8080", "/") ∧
  parsed "http://192.168.0.1:foo/" = None ∧ parsed "cache_object:foo/bar" = None ∧
  parsed "http://a b.com/" = None ∧ parsed "s3://runmesh/t/input/1" = Some ("s3", "runmesh", "/t/input/1").
Proof. by vm_compute. Qed.
