(* ===== verification/Mux.v ===== *)
(** Go's [net/http.ServeMux] with method and wildcard patterns, as the server
    of [internal/api/server.go] registers them: literal segments, [{id}]
    wildcards for one segment, and trailing slashes that match every longer
    path.  Patterns carry no host.  Requests with the method CONNECT, whose path
    Go leaves as it is, are treated like all others. *)
From S2P Require Import Prelude Go Url.

Inductive segment : Type :=
  | Lit (s : string)
  | Wild.

(** [pat_rest]: the pattern ends in a slash. *)
Record pattern := mkPattern {
  pat_method : option string;
  pat_segments : list segment;
  pat_rest : bool
}.

#[export] Instance segment_eq_dec : EqDecision segment.
Proof. solve_decision. Defined.
#[export] Instance pattern_eq_dec : EqDecision pattern.
Proof. solve_decision. Defined.

(** * Patterns *)

Definition to_segment (s : string) : segment :=
  if has_prefix "{" s && has_suffix "}" s then Wild else Lit s.

(** The last byte is a slash. *)
Definition ends_slash (path : string) : bool := bool_decide (last (split "/" path) = Some "").

(** [parsePattern] on texts such as [POST /v1/runs/{id}/cancel] or [/v1/]. *)
Definition parse_pattern (s : string) : pattern :=
  let '(method, path) := match cut " " s with
                         | (m, Some p) => (Some m, p)
                         | (p, None) => (None, p)
                         end in
  let parts := split "/" (trim_prefix "/" path) in
  mkPattern method (to_segment <$> filter (λ x, x ≠ "") parts) (ends_slash path).

(** * Paths *)

(** [path.Clean] on the segments of a rooted path, those passed in reverse. *)
Fixpoint clean_segments (done todo : list string) : list string :=
  match todo with
  | [] => rev done
  | x :: todo =>
      if bool_decide (x = "") || bool_decide (x = ".") then clean_segments done todo
      else if bool_decide (x = "..") then clean_segments (tail done) todo
      else clean_segments (x :: done) todo
  end.

(** A path as the mux sees it: its segments, and whether it ends in a slash. *)
Record mux_path := mkPath {
  mp_segments : list string;
  mp_slash : bool
}.

#[export] Instance mux_path_eq_dec : EqDecision mux_path.
Proof. solve_decision. Defined.

(** [cleanPath]; the root is a slash only. *)
Definition cleanPath (p : string) : mux_path :=
  let segments := clean_segments [] (split "/" p) in
  mkPath segments (ends_slash p || bool_decide (segments = [])).

Definition path_text (p : mux_path) : string :=
  "/" +:+ join "/" (mp_segments p)
  +:+ (if mp_slash p && negb (bool_decide (mp_segments p = [])) then "/" else "").

(** * Matching *)

(** [pathUnescape]: a segment whose escapes are malformed stands for itself. *)
Definition path_unescape (s : string) : string := default s (unescape EncodePath s).

(** The values of the wildcards, if the segments fit. *)
Fixpoint match_segments (ps : list segment) (rest slash : bool) (segs : list string)
    : option (list string) :=
  match ps, segs with
  | [], [] => if bool_decide (rest = slash) then Some [] else None
  | [], _ :: _ => if rest then Some [] else None
  | Lit l :: ps, x :: segs =>
      if String.eqb (path_unescape x) l then match_segments ps rest slash segs else None
  | Wild :: ps, x :: segs => (path_unescape x ::.) <$> match_segments ps rest slash segs
  | _ :: _, [] => None
  end.

(** A pattern for GET also serves HEAD. *)
Definition match_method (m : option string) (method : string) : bool :=
  match m with
  | None => true
  | Some m => bool_decide (m = method) || (bool_decide (m = "GET") && bool_decide (method = "HEAD"))
  end.

Definition match_path (p : pattern) (path : mux_path) : option (list string) :=
  match_segments (pat_segments p) (pat_rest p) (mp_slash path) (mp_segments path).

Definition matches (p : pattern) (method : string) (path : mux_path) : option (list string) :=
  if match_method (pat_method p) method then match_path p path else None.

(** [exactMatch]: not by a trailing slash that stands for a longer path. *)
Definition exact (p : pattern) (path : mux_path) : bool :=
  negb (pat_rest p)
  || (mp_slash path && bool_decide (length (pat_segments p) = length (mp_segments path))).

(** * The multiplexer *)

Section Mux.
Context {A : Type}.

(** Registered handlers, given the values of the wildcards. *)
Definition table : Type := list (pattern * (list string → A)).

Inductive routed : Type :=
  | Handled (a : A)
  | MovedPermanently (location : string)
  | MethodNotAllowed (allow : list string)
  | PageNotFound.

Fixpoint lookup_table (t : table) (method : string) (path : mux_path) : option (pattern * A) :=
  match t with
  | [] => None
  | (p, h) :: t =>
      match matches p method path with
      | Some values => Some (p, h values)
      | None => lookup_table t method path
      end
  end.

(** [matchOrRedirect]: a path without trailing slash that only a pattern with one
    fits is redirected there. *)
Definition redirect_slash (t : table) (method : string) (path : mux_path) : bool :=
  let found := match lookup_table t method path with Some (p, _) => exact p path | None => false end in
  let slashed := mkPath (mp_segments path) true in
  negb found && negb (mp_slash path)
  && match lookup_table t method slashed with Some (p, _) => exact p slashed | None => false end.

(** [matchingMethods], sorted as the [Allow] header has them; the path is also
    tried with a trailing slash. *)
Definition allowed_methods (t : table) (path : mux_path) : list string :=
  let fits p := bool_decide (is_Some (match_path p path))
                || bool_decide (is_Some (match_path p (mkPath (mp_segments path) true))) in
  filter (λ m, existsb (λ ph, match_method (pat_method ph.1) m && fits ph.1) t)
    ["DELETE"; "GET"; "HEAD"; "PATCH"; "POST"; "PUT"].

(** [findHandler]. *)
Definition mux (t : table) (method escaped : string) : routed :=
  let path := cleanPath escaped in
  if redirect_slash t method path then MovedPermanently (path_text (mkPath (mp_segments path) true))
  else if bool_decide (path_text path ≠ escaped) then MovedPermanently (path_text path)
  else
    match lookup_table t method path with
    | Some (_, a) => Handled a
    | None => match allowed_methods t path with [] => PageNotFound | ms => MethodNotAllowed ms end
    end.
End Mux.
Arguments table A : clear implicits.
Arguments routed A : clear implicits.

(** * Patterns that exclude each other *)

Fixpoint segments_disjoint (ps : list segment) (r : bool) (qs : list segment) (r' : bool) : bool :=
  match ps, qs with
  | [], [] => negb (Bool.eqb r r')
  | [], _ :: _ => negb r
  | _ :: _, [] => negb r'
  | Lit a :: ps, Lit b :: qs => negb (String.eqb a b) || segments_disjoint ps r qs r'
  | _ :: ps, _ :: qs => segments_disjoint ps r qs r'
  end.

Definition methods_disjoint (m m' : option string) : bool :=
  match m, m' with
  | Some a, Some b =>
      negb (bool_decide (a = b)) && negb (bool_decide (a = "GET") && bool_decide (b = "HEAD"))
      && negb (bool_decide (a = "HEAD") && bool_decide (b = "GET"))
  | _, _ => false
  end.

Definition disjoint_patterns (p q : pattern) : bool :=
  methods_disjoint (pat_method p) (pat_method q)
  || segments_disjoint (pat_segments p) (pat_rest p) (pat_segments q) (pat_rest q).

Fixpoint unambiguous (l : list pattern) : bool :=
  match l with
  | [] => true
  | p :: l => forallb (disjoint_patterns p) l && unambiguous l
  end.

Lemma segments_disjoint_spec ps r qs r' slash segs :
  segments_disjoint ps r qs r' = true →
  is_Some (match_segments ps r slash segs) → is_Some (match_segments qs r' slash segs) → False.
Proof.
  revert qs segs. induction ps as [|p ps IH]; intros [|q qs] segs Hd Hp Hq; simpl in Hd.
  - apply negb_true_iff, eqb_false_iff in Hd.
    destruct segs, r, r', slash; simpl in *; by (destruct Hp + destruct Hq).
  - apply negb_true_iff in Hd as ->. destruct segs; [by destruct q, Hq|by destruct Hp].
  - assert (r' = false) as -> by (apply negb_true_iff; by destruct p).
    destruct segs; [by destruct p, Hp|by destruct Hq].
  - destruct segs as [|x segs]; [by destruct p, Hp|].
    assert (segments_disjoint ps r qs r' = true ∨ ∃ a b, p = Lit a ∧ q = Lit b ∧ a ≠ b) as [Hd'|Hd'].
    { destruct p as [a|], q as [b|]; [|by left..]. apply orb_true_iff in Hd as [Hd|Hd]; [|by left].
      right. exists a, b. apply negb_true_iff, String.eqb_neq in Hd. done. }
    + assert (∀ y ys, is_Some (match_segments (y :: ys) r slash (x :: segs)) →
        is_Some (match_segments ys r slash segs)) as Hs.
      { intros [l|] ys; simpl; [by destruct (String.eqb _ _); [|intros []]|by rewrite fmap_is_Some]. }
      assert (∀ y ys, is_Some (match_segments (y :: ys) r' slash (x :: segs)) →
        is_Some (match_segments ys r' slash segs)) as Hs'.
      { intros [l|] ys; simpl; [by destruct (String.eqb _ _); [|intros []]|by rewrite fmap_is_Some]. }
      eapply IH; eauto.
    + destruct Hd' as (a & b & -> & -> & Hne). simpl in Hp, Hq.
      destruct (String.eqb_spec (path_unescape x) a), (String.eqb_spec (path_unescape x) b);
        try (by destruct Hp); try (by destruct Hq). congruence.
Qed.

Lemma disjoint_patterns_spec p q method path :
  disjoint_patterns p q = true → is_Some (matches p method path) → is_Some (matches q method path) →
  False.
Proof.
  unfold disjoint_patterns, matches. intros [Hm|Hs]%orb_true_iff Hp Hq.
  - destruct (match_method (pat_method p) method) eqn:H1; [|by destruct Hp].
    destruct (match_method (pat_method q) method) eqn:H2; [|by destruct Hq].
    destruct (pat_method p) as [a|], (pat_method q) as [b|]; simpl in *; try done.
    repeat case_bool_decide; simplify_eq; by simpl in *.
  - destruct (match_method (pat_method p) method); [|by destruct Hp].
    destruct (match_method (pat_method q) method); [|by destruct Hq].
    by eapply segments_disjoint_spec.
Qed.

Lemma lookup_table_entry {A} (t : table A) p h method path values :
  unambiguous t.*1 = true → (p, h) ∈ t → matches p method path = Some values →
  lookup_table t method path = Some (p, h values).
Proof.
  induction t as [|[q g] t IH]; simpl; [by intros _ ?%not_elem_of_nil|].
  intros [Hd Hu]%andb_true_iff Hin Hm. apply elem_of_cons in Hin as [[= -> ->]|Hin]; [by rewrite Hm|].
  destruct (matches q method path) as [v|] eqn:Hq; [|by apply IH].
  exfalso. eapply (disjoint_patterns_spec q p method path); [|by rewrite Hq|by rewrite Hm].
  rewrite forallb_forall in Hd. apply Hd, list_elem_of_In, (list_elem_of_fmap_2 fst t (p, h) Hin).
Qed.

Lemma lookup_table_elem {A} (t : table A) method path p a :
  lookup_table t method path = Some (p, a) →
  ∃ h values, (p, h) ∈ t ∧ matches p method path = Some values ∧ a = h values.
Proof.
  induction t as [|[q g] t IH]; simpl; [done|].
  destruct (matches q method path) as [v|] eqn:Hq.
  - intros [= <- <-]. exists g, v. split; [by left|done].
  - intros (h & v & Hin & Hv)%IH. exists h, v. split; [by right|done].
Qed.

(** * Paths of routes *)

(** A segment that stands for itself. *)
Definition plain_segment (s : string) : bool :=
  negb (bool_decide (s ∈ [""; "."; ".."]))
  && all_chars (λ c, negb (Ascii.eqb c "/") && negb (Ascii.eqb c "%")) s.

Lemma path_unescape_plain s : plain_segment s = true → path_unescape s = s.
Proof.
  intros [_ H]%andb_true_iff. unfold path_unescape. rewrite unescape_plain; [done|].
  revert H. apply all_chars_impl. by intros c [_ Hc]%andb_true_iff.
Qed.

Lemma split_lacks sep s : all_chars (λ c, negb (Ascii.eqb c sep)) s = true → split sep s = [s].
Proof.
  induction s as [|c s IH]; simpl; [done|]. intros [Hc%negb_true_iff Hs]%andb_true_iff.
  by rewrite Hc, IH.
Qed.

Lemma split_app sep s t :
  all_chars (λ c, negb (Ascii.eqb c sep)) s = true → split sep (s +:+ String sep t) = s :: split sep t.
Proof.
  induction s as [|c s IH]; simpl; [by rewrite Ascii.eqb_refl|].
  intros [Hc%negb_true_iff Hs]%andb_true_iff. by rewrite Hc, IH.
Qed.

Lemma split_join l :
  l ≠ [] → Forall (λ s, plain_segment s = true) l → split "/" (join "/" l) = l.
Proof.
  assert (∀ s, plain_segment s = true → all_chars (λ c, negb (Ascii.eqb c "/")) s = true) as Hp.
  { intros s [_ H]%andb_true_iff. revert H. apply all_chars_impl. by intros c [Hc _]%andb_true_iff. }
  induction l as [|s l IH]; intros Hne Hf; [done|]. apply Forall_cons in Hf as [Hs Hf].
  destruct l as [|s' l]; [apply split_lacks; auto|].
  assert (join "/" (s :: s' :: l) = s +:+ String "/" (join "/" (s' :: l))) as -> by done.
  rewrite split_app by auto. by rewrite IH.
Qed.

Lemma clean_segments_plain done l :
  Forall (λ s, plain_segment s = true) l → clean_segments done l = rev done ++ l.
Proof.
  revert done. induction l as [|s l IH]; intros done Hf; simpl; [by rewrite app_nil_r|].
  apply Forall_cons in Hf as [Hs Hf]. unfold plain_segment in Hs. bool_split.
  rewrite !bool_decide_false by set_solver. simpl. rewrite IH by exact Hf. simpl. by rewrite <-app_assoc.
Qed.

Lemma cleanPath_text l :
  l ≠ [] → Forall (λ s, plain_segment s = true) l →
  cleanPath (path_text (mkPath l false)) = mkPath l false ∧
  path_text (mkPath l false) = "/" +:+ join "/" l.
Proof.
  intros Hne Hf. assert (path_text (mkPath l false) = "/" +:+ join "/" l) as Ht.
  { unfold path_text. simpl. f_equal. by rewrite string_app_nil_r. }
  split; [|exact Ht]. rewrite Ht. unfold cleanPath, ends_slash.
  change (split "/" ("/" +:+ join "/" l)) with ("" :: split "/" (join "/" l)).
  rewrite split_join by done. simpl. rewrite clean_segments_plain by done. simpl. f_equal.
  rewrite (bool_decide_false (l = [])) by done. rewrite orb_false_r. apply bool_decide_false.
  destruct l as [|x l] using rev_ind; [done|]. apply Forall_app in Hf as [_ [Hx _]%Forall_cons].
  rewrite app_comm_cons, last_snoc. intros [= ->]. done.
Qed.

(** * Requests for a pattern *)

(** The segments of a path of the pattern, with [id] for its wildcards. *)
Definition fill (id : string) (ps : list segment) : list string :=
  (λ p, match p with Lit l => l | Wild => id end) <$> ps.

Definition wildcards (id : string) (ps : list segment) : list string :=
  omap (λ p, match p with Lit _ => None | Wild => Some id end) ps.

(** A pattern for one method, without trailing slash, made of plain segments. *)
Definition simple_pattern (p : pattern) : bool :=
  bool_decide (is_Some (pat_method p)) && negb (pat_rest p) && negb (bool_decide (pat_segments p = []))
  && forallb (λ s, match s with Lit l => plain_segment l | Wild => true end) (pat_segments p).

Lemma fill_plain id ps :
  plain_segment id = true →
  forallb (λ s, match s with Lit l => plain_segment l | Wild => true end) ps = true →
  Forall (λ s, plain_segment s = true) (fill id ps).
Proof.
  intros Hid. induction ps as [|[l|] ps IH]; simpl; [constructor|..].
  - intros [Hl Hps]%andb_true_iff. constructor; auto.
  - intros Hps. constructor; auto.
Qed.

Lemma match_fill id ps :
  Forall (λ s, plain_segment s = true) (fill id ps) →
  match_segments ps false false (fill id ps) = Some (wildcards id ps).
Proof.
  induction ps as [|[l|] ps IH]; simpl; [done|..]; intros [Hl Hps]%Forall_cons;
    rewrite path_unescape_plain by done.
  - rewrite String.eqb_refl. auto.
  - by rewrite IH.
Qed.

(** In a table without ambiguities every simple pattern gets its requests. *)
Lemma mux_entry {A} (t : table A) p h id :
  unambiguous t.*1 = true → (p, h) ∈ t → simple_pattern p = true → plain_segment id = true →
  mux t (default "" (pat_method p)) ("/" +:+ join "/" (fill id (pat_segments p)))
    = Handled (h (wildcards id (pat_segments p))).
Proof.
  intros Hu Hin Hp Hid. unfold simple_pattern in Hp. bool_split.
  destruct p as [m ps rest]; simpl in *. subst rest. destruct m as [m|]; [|by destruct H].
  assert (Forall (λ s, plain_segment s = true) (fill id ps)) as Hf by (by apply fill_plain).
  assert (fill id ps ≠ []) as Hne by (by intros ?%fmap_nil_inv).
  destruct (cleanPath_text (fill id ps) Hne Hf) as [Hclean Htext]. rewrite Htext in Hclean.
  unfold mux. rewrite Hclean.
  assert (lookup_table t m (mkPath (fill id ps) false) = Some (mkPattern (Some m) ps false, h (wildcards id ps)))
    as Hl.
  { apply lookup_table_entry; [done..|]. unfold matches, match_path, match_method. simpl.
    rewrite bool_decide_true by done. by apply match_fill. }
  unfold redirect_slash. simpl. rewrite Hl. simpl. rewrite Htext, bool_decide_false by naive_solver. done.
Qed.
