(* ===== verification/Model.v ===== *)
(** The data model of workflow definitions: [internal/workflow/model.go]
    (lines 8-28).  The run, task-run and attempt structures of the same file
    are the row types of [Schema]. *)
From S2P Require Import Prelude.

(** [type TaskSpec struct].  Go's [int] is kept as [Z]; the bounds the code
    enforces are stated where it enforces them. *)
Record TaskSpec := {
  Handler : string;
  DependsOn : list string;
  MaximumAttempts : Z;
  TimeoutSeconds : Z;
  Priority : Z
}.

(** [type DAG struct]. *)
Record DAG := {
  dag_Name : string;
  Tasks : gmap string TaskSpec
}.

(** [dag.Tasks[key].DependsOn]: indexing a Go map with a missing key gives the
    zero [TaskSpec], whose dependency slice is nil. *)
Definition deps_of (tasks : gmap string TaskSpec) (key : string) : list string :=
  from_option DependsOn [] (tasks !! key).
