(* ===== verification/Dag.v ===== *)
(** Validation of workflow graphs: [internal/workflow/dag.go].

    [ValidateDAG] is translated with its three phases (size bounds, per-task
    checks, three-colour depth-first search).  The orders in which Go ranges
    over the task map in its two loops are the parameters [rank1] and [rank2];
    the theorems hold for every rank.  The search is given fuel one larger than
    the number of tasks, which is shown to be enough. *)
From S2P Require Import Prelude Model.

Definition MaxTasks : Z := 500.
Definition MaxEdges : Z := 5000.

(** * The key pattern [^[A-Za-z][A-Za-z0-9_.-]{0,127}$] *)

Definition in_range (lo hi c : ascii) : bool :=
  (N_of_ascii lo <=? N_of_ascii c)%N && (N_of_ascii c <=? N_of_ascii hi)%N.

Definition key_start (c : ascii) : bool := in_range "A" "Z" c || in_range "a" "z" c.

Definition key_char (c : ascii) : bool :=
  key_start c || in_range "0" "9" c
  || bool_decide (c = "_"%char) || bool_decide (c = "."%char) || bool_decide (c = "-"%char).

Definition taskKeyPattern (s : string) : bool :=
  match s with
  | EmptyString => false
  | String c rest =>
      key_start c && forallb key_char (String.list_ascii_of_string rest)
      && (String.length rest <=? 127)%nat
  end.

(** * Errors *)

Inductive dag_error : Type :=
  | NoTasks
  | TooManyTasks
  | InvalidKey (key : string)
  | InvalidHandler (key : string)
  | BadAttempts (key : string)
  | BadTimeout (key : string)
  | SelfDependency (key : string)
  | MissingDependency (key dep : string)
  | RepeatedDependency (key dep : string)
  | TooManyEdges
  | CycleInvolving (key : string)
  | SearchFuel.

(** [%q]: exact for printable ASCII, where only the quote and the backslash are
    escaped. *)
Definition quote_char (c : ascii) : string :=
  if bool_decide (N_of_ascii c = 34%N) || bool_decide (N_of_ascii c = 92%N)
  then String (ascii_of_N 92) (String c EmptyString) else String c EmptyString.

Definition go_quote (s : string) : string :=
  let q := String (ascii_of_N 34) EmptyString in
  q +:+ String.concat EmptyString (quote_char <$> String.list_ascii_of_string s) +:+ q.

Definition dag_error_text (e : dag_error) : string :=
  match e with
  | NoTasks => "workflow requires at least one task"
  | TooManyTasks => "workflow exceeds 500 tasks"
  | InvalidKey k => "invalid task key " +:+ go_quote k
  | InvalidHandler k => "task " +:+ go_quote k +:+ " has invalid handler"
  | BadAttempts k => "task " +:+ go_quote k +:+ " maximum_attempts must be between 1 and 100"
  | BadTimeout k => "task " +:+ go_quote k +:+ " timeout_seconds must be between 1 and 86400"
  | SelfDependency k => "task " +:+ go_quote k +:+ " cannot depend on itself"
  | MissingDependency k d => "task " +:+ go_quote k +:+ " depends on missing task " +:+ go_quote d
  | RepeatedDependency k d => "task " +:+ go_quote k +:+ " repeats dependency " +:+ go_quote d
  | TooManyEdges => "workflow exceeds 5000 dependency edges"
  | CycleInvolving k => "workflow contains a cycle involving " +:+ go_quote k
  | SearchFuel => ""
  end.

(** * The per-task checks *)

(** The loop over [task.DependsOn]; returns the updated edge count. *)
Fixpoint check_deps (tasks : gmap string TaskSpec) (key : string)
    (deps : list string) (seen : gset string) (edges : Z) : dag_error + Z :=
  match deps with
  | [] => inr edges
  | dep :: rest =>
      let edges := edges + 1 in
      if bool_decide (dep = key) then inl (SelfDependency key)
      else if bool_decide (tasks !! dep = None) then inl (MissingDependency key dep)
      else if bool_decide (dep ∈ seen) then inl (RepeatedDependency key dep)
      else check_deps tasks key rest ({[dep]} ∪ seen) edges
  end.

Definition check_task (tasks : gmap string TaskSpec) (key : string) (task : TaskSpec)
    (edges : Z) : dag_error + Z :=
  if negb (taskKeyPattern key) then inl (InvalidKey key)
  else if negb (taskKeyPattern (Handler task)) then inl (InvalidHandler key)
  else if bool_decide (MaximumAttempts task < 0) || bool_decide (MaximumAttempts task > 100)
       then inl (BadAttempts key)
  else if bool_decide (TimeoutSeconds task < 0) || bool_decide (TimeoutSeconds task > 86400)
       then inl (BadTimeout key)
  else check_deps tasks key (DependsOn task) ∅ edges.

Fixpoint check_tasks (tasks : gmap string TaskSpec) (l : list (string * TaskSpec))
    (edges : Z) : dag_error + Z :=
  match l with
  | [] => inr edges
  | (key, task) :: l =>
      match check_task tasks key task edges with
      | inl e => inl e
      | inr edges => check_tasks tasks l edges
      end
  end.

(** * The depth-first search *)

(** A colour map; Go's [map[string]uint8] reads 0 for an absent key. *)
Abbreviation colors := (gmap string Z).

Definition color_of (c : colors) (key : string) : Z := from_option id 0 (c !! key).

Inductive visit_result : Type :=
  | Visited (c : colors)
  | FoundCycle (key : string)
  | OutOfFuel.

(** A loop that stops at the first call that does not return nil: the loop
    over the dependencies of a task and the one over all tasks. *)
Fixpoint visit_all (v : colors → string → visit_result) (c : colors) (keys : list string)
    : visit_result :=
  match keys with
  | [] => Visited c
  | k :: keys =>
      match v c k with
      | Visited c => visit_all v c keys
      | r => r
      end
  end.

(** The recursive closure [visit]. *)
Fixpoint visit (fuel : nat) (tasks : gmap string TaskSpec) (c : colors) (key : string)
    : visit_result :=
  match fuel with
  | O => OutOfFuel
  | S fuel =>
      if bool_decide (color_of c key = 1) then FoundCycle key
      else if bool_decide (color_of c key = 2) then Visited c
      else
        match visit_all (visit fuel tasks) (<[key := 1]> c) (deps_of tasks key) with
        | Visited c => Visited (<[key := 2]> c)
        | r => r
        end
  end.

(** [None] is Go's nil error. *)
Definition ValidateDAG (rank1 rank2 : string → Z) (dag : DAG) : option dag_error :=
  if bool_decide (size (Tasks dag) = 0%nat) then Some NoTasks
  else if bool_decide (Z.of_nat (size (Tasks dag)) > MaxTasks) then Some TooManyTasks
  else
    match check_tasks (Tasks dag) (range_map rank1 (Tasks dag)) 0 with
    | inl e => Some e
    | inr edges =>
        if bool_decide (edges > MaxEdges) then Some TooManyEdges
        else
          match visit_all (visit (S (size (Tasks dag))) (Tasks dag)) ∅
                  (range_map rank2 (Tasks dag)).*1 with
          | Visited _ => None
          | FoundCycle key => Some (CycleInvolving key)
          | OutOfFuel => Some SearchFuel
          end
    end.

(** [WithDefaults]. *)
Definition WithDefaults (spec : TaskSpec) : TaskSpec :=
  {| Handler := Handler spec;
     DependsOn := DependsOn spec;
     MaximumAttempts := if bool_decide (MaximumAttempts spec = 0) then 3 else MaximumAttempts spec;
     TimeoutSeconds := if bool_decide (TimeoutSeconds spec = 0) then 300 else TimeoutSeconds spec;
     Priority := Priority spec |}.

(** * Specification *)

(** [dep_edge tasks k d]: task [k] names [d] among its dependencies. *)
Definition dep_edge (tasks : gmap string TaskSpec) (k d : string) : Prop :=
  d ∈ deps_of tasks k.

Definition acyclic (tasks : gmap string TaskSpec) : Prop :=
  ∀ k, ¬ tc (dep_edge tasks) k k.

Definition edge_count (tasks : gmap string TaskSpec) : nat :=
  sum_list_with (λ kt, length (DependsOn kt.2)) (map_to_list tasks).

(** What a definition must satisfy to be accepted. *)
Record task_ok (tasks : gmap string TaskSpec) (key : string) (task : TaskSpec) : Prop := {
  ok_key : taskKeyPattern key = true;
  ok_handler : taskKeyPattern (Handler task) = true;
  ok_attempts : 0 ≤ MaximumAttempts task ≤ 100;
  ok_timeout : 0 ≤ TimeoutSeconds task ≤ 86400;
  ok_self : key ∉ DependsOn task;
  ok_known : ∀ d, d ∈ DependsOn task → is_Some (tasks !! d);
  ok_distinct : NoDup (DependsOn task)
}.

Record valid_dag (dag : DAG) : Prop := {
  valid_nonempty : (0 < size (Tasks dag))%nat;
  valid_size : Z.of_nat (size (Tasks dag)) ≤ MaxTasks;
  valid_tasks : ∀ key task, Tasks dag !! key = Some task → task_ok (Tasks dag) key task;
  valid_edges : Z.of_nat (edge_count (Tasks dag)) ≤ MaxEdges;
  valid_acyclic : acyclic (Tasks dag)
}.

(** * The per-task checks meet their specification *)

Lemma check_deps_spec tasks key deps seen edges n :
  check_deps tasks key deps seen edges = inr n ↔
  (key ∉ deps) ∧ (∀ d, d ∈ deps → is_Some (tasks !! d)) ∧ NoDup deps ∧
  (∀ d, d ∈ deps → d ∉ seen) ∧ n = edges + Z.of_nat (length deps).
Proof.
  revert seen edges; induction deps as [|d deps IH]; intros seen edges; simpl.
  { rewrite Z.add_0_r. setoid_rewrite elem_of_nil.
    split; [intros [= <-]|intros (_&_&_&_&->); done].
    repeat split; [naive_solver|naive_solver|constructor|naive_solver]. }
  setoid_rewrite elem_of_cons. rewrite NoDup_cons.
  case_bool_decide as Hself; [naive_solver|].
  case_bool_decide as Hmiss; [split; [done|]|].
  { intros (_ & Hin & _). destruct (Hin d); [by left|congruence]. }
  case_bool_decide as Hseen; [naive_solver|].
  apply not_eq_None_Some in Hmiss. rewrite IH. setoid_rewrite elem_of_union.
  setoid_rewrite elem_of_singleton. split.
  - intros (? & Hk & ? & Hs & ->).
    repeat split; [naive_solver|naive_solver|naive_solver|done|naive_solver|lia].
  - intros (? & Hk & [? ?] & Hs & ->). repeat split; [naive_solver..|lia].
Qed.

Lemma check_task_spec tasks key task edges n :
  check_task tasks key task edges = inr n ↔
  task_ok tasks key task ∧ n = edges + Z.of_nat (length (DependsOn task)).
Proof.
  unfold check_task.
  destruct (taskKeyPattern key) eqn:Hk; simpl; [|split; [done|intros [[] _]; congruence]].
  destruct (taskKeyPattern (Handler task)) eqn:Hh; simpl; [|split; [done|intros [[] _]; congruence]].
  destruct (bool_decide (MaximumAttempts task < 0) || _) eqn:Ha.
  { split; [done|]. intros [[] _]. apply orb_true_iff in Ha as [?|?]; bool_split; lia. }
  destruct (bool_decide (TimeoutSeconds task < 0) || _) eqn:Ht.
  { split; [done|]. intros [[] _]. apply orb_true_iff in Ht as [?|?]; bool_split; lia. }
  bool_split. rewrite check_deps_spec. split.
  - intros (? & ? & ? & _ & ->). split; [|done]. split; try done; lia.
  - intros [[] ->]. repeat split; done.
Qed.

Lemma check_tasks_spec tasks l edges n :
  check_tasks tasks l edges = inr n ↔
  (∀ key task, (key, task) ∈ l → task_ok tasks key task) ∧
  n = edges + Z.of_nat (sum_list_with (λ kt, length (DependsOn kt.2)) l).
Proof.
  revert edges; induction l as [|[key task] l IH]; intros edges; simpl.
  { rewrite Z.add_0_r. split; [intros [= <-]|intros [_ ->]; done].
    split; [|done]. by intros ?? ?%elem_of_nil. }
  destruct (check_task tasks key task edges) as [e|m] eqn:Hc.
  - split; [done|]. intros [Hok _]. exfalso.
    assert (check_task tasks key task edges =
            inr (edges + Z.of_nat (length (DependsOn task)))); [|congruence].
    apply check_task_spec. split; [|done]. apply Hok. by left.
  - apply check_task_spec in Hc as [Hok ->]. rewrite IH. split.
    + intros [Hl ->]. split; [|lia]. intros k t [[= -> ->]|?]%elem_of_cons; eauto.
    + intros [Hl ->]. split; [|lia]. intros k t ?. apply Hl. by right.
Qed.

(** * The search

    [visit_post] is what one call of [visit] guarantees about the colours: the
    visited task is black, tasks already coloured keep their colour, no task
    turns grey, and every black task is accessible along dependency edges (so
    it lies on no cycle and reaches none). *)
Definition grey (c : colors) : gset string := dom (filter (λ kv, kv.2 = 1) c).

Lemma elem_of_grey c k : k ∈ grey c ↔ c !! k = Some 1.
Proof.
  unfold grey. rewrite elem_of_dom. unfold is_Some.
  setoid_rewrite map_lookup_filter_Some. naive_solver.
Qed.

Lemma color_of_Some c k n : n ≠ 0 → color_of c k = n ↔ c !! k = Some n.
Proof. unfold color_of. destruct (c !! k); naive_solver. Qed.

Section Search.
Context (tasks : gmap string TaskSpec).
Implicit Types (c : colors) (k d : string).

Definition black_ok c : Prop :=
  ∀ k, c !! k = Some 2 → Acc (flip (dep_edge tasks)) k.

Record frame c c' : Prop := {
  frame_black : ∀ k, c !! k = Some 2 → c' !! k = Some 2;
  frame_grey : ∀ k, c' !! k = Some 1 ↔ c !! k = Some 1
}.

#[local] Instance frame_refl : Reflexive frame.
Proof. done. Qed.

#[local] Instance frame_trans : Transitive frame.
Proof. intros c1 c2 c3 [] []. split; naive_solver. Qed.

(** Tasks on the recursion stack are grey; each reaches [k]. *)
Definition stack_reaches c k : Prop := ∀ g, c !! g = Some 1 → tc (dep_edge tasks) g k.

Definition visit_post c (k : string) (r : visit_result) : Prop :=
  match r with
  | Visited c' => c' !! k = Some 2 ∧ frame c c' ∧ black_ok c'
  | FoundCycle g => tc (dep_edge tasks) g g
  | OutOfFuel => False
  end.

(** Fuel is counted against the tasks that are not on the stack. *)
Definition fuel_ok (fuel : nat) c : Prop :=
  (size tasks < fuel + size (grey c))%nat ∧ grey c ⊆ dom tasks.

Lemma fuel_ok_frame fuel c c' : frame c c' → fuel_ok fuel c → fuel_ok fuel c'.
Proof.
  intros [_ Hg]. unfold fuel_ok. assert (grey c' = grey c) as ->; [|done].
  apply set_eq; intros k. by rewrite !elem_of_grey, Hg.
Qed.

Lemma fuel_ok_push fuel c k :
  k ∈ dom tasks → c !! k ≠ Some 1 → fuel_ok (S fuel) c → fuel_ok fuel (<[k := 1]> c).
Proof.
  intros Hk Hc [Hf Hs]. assert (grey (<[k := 1]> c) = {[k]} ∪ grey c) as Hg.
  { apply set_eq; intros x. rewrite elem_of_union, elem_of_singleton, !elem_of_grey.
    rewrite lookup_insert. case_decide; naive_solver. }
  unfold fuel_ok. rewrite Hg, size_union, size_singleton; [split; [lia|set_solver]|].
  intros x ->%elem_of_singleton. by rewrite elem_of_grey.
Qed.

Lemma fuel_ok_zero c : ¬ fuel_ok 0 c.
Proof.
  intros [Hf Hs%subseteq_size]. rewrite size_dom in Hs. lia.
Qed.

(** The loop over a list of tasks, given what one call guarantees. *)
Lemma visit_all_post v c keys :
  black_ok c →
  (∀ c' k, k ∈ keys → frame c c' → black_ok c' → visit_post c' k (v c' k)) →
  match visit_all v c keys with
  | Visited c' => (∀ k, k ∈ keys → c' !! k = Some 2) ∧ frame c c' ∧ black_ok c'
  | FoundCycle g => tc (dep_edge tasks) g g
  | OutOfFuel => False
  end.
Proof.
  revert c; induction keys as [|k keys IH]; intros c Hb Hv; simpl.
  { split; [by intros ? ?%elem_of_nil|done]. }
  pose proof (Hv c k ltac:(by left) (reflexivity _) Hb) as Hk.
  destruct (v c k) as [c1|g|]; simpl in Hk; [|done..].
  destruct Hk as (Hk2 & Hfr & Hb1).
  specialize (IH c1 Hb1). destruct (visit_all v c1 keys) as [c2|g|].
  2,3: apply IH; intros; apply Hv; [by right|by etrans|done].
  destruct IH as (Hall & Hfr2 & Hb2).
  { intros; apply Hv; [by right|by etrans|done]. }
  split; [|split; [by etrans|done]].
  intros k' [->|?]%elem_of_cons; [by apply Hfr2|by apply Hall].
Qed.

Context (known : ∀ k d, dep_edge tasks k d → d ∈ dom tasks).

Lemma visit_meets_post fuel c k :
  k ∈ dom tasks → fuel_ok fuel c → black_ok c → stack_reaches c k →
  visit_post c k (visit fuel tasks c k).
Proof.
  revert c k; induction fuel as [|fuel IH]; intros c k Hk Hf Hb Hst.
  { by apply fuel_ok_zero in Hf. }
  simpl. case_bool_decide as H1; [by apply Hst, color_of_Some|].
  case_bool_decide as H2; [apply color_of_Some in H2; done|].
  rewrite color_of_Some in H1, H2 by done.
  assert (black_ok (<[k := 1]> c)) as Hb0.
  { intros x. rewrite lookup_insert. case_decide; naive_solver. }
  assert (∀ c' d, d ∈ deps_of tasks k → frame (<[k := 1]> c) c' → black_ok c' →
                  visit_post c' d (visit fuel tasks c' d)) as Hv.
  { intros c1 d Hd Hfr Hb1. apply IH; [by eapply known| |done|].
    - by eapply fuel_ok_frame; [done|apply fuel_ok_push].
    - intros g. rewrite (frame_grey _ _ Hfr), lookup_insert. case_decide; subst.
      + intros _. by apply tc_once.
      + intros Hg. eapply tc_r; [by apply Hst|done]. }
  pose proof (visit_all_post _ _ _ Hb0 Hv) as Hall.
  destruct (visit_all _ _ _) as [c'|g|]; [|done..].
  destruct Hall as (Hdeps & [Hfb Hfg] & Hb').
  simpl. split; [by rewrite lookup_insert_eq|]. split.
  - split; intros x; rewrite lookup_insert; case_decide as Hx; subst; [done| |naive_solver|].
    + intros Hc. apply Hfb. by rewrite lookup_insert_ne.
    + by rewrite Hfg, lookup_insert_ne.
  - intros x. rewrite lookup_insert. case_decide as Hx; [|apply Hb'].
    intros _; subst. constructor. intros d Hd. by apply Hb', Hdeps.
Qed.
End Search.

(** Accessibility along dependencies rules out cycles. *)
Lemma Acc_not_tc tasks k : Acc (flip (dep_edge tasks)) k → ¬ tc (dep_edge tasks) k k.
Proof.
  induction 1 as [k _ IH]; intros Hc. inversion Hc as [|? z ? Hkz Hzk]; subst.
  - by eapply IH; [|done].
  - eapply (IH z Hkz). by eapply tc_r.
Qed.

(** The search over all tasks of a graph whose dependencies are all known:
    it always returns, with no error exactly when the graph has no cycle, and
    an error names a task on a cycle. *)
Lemma search_spec tasks keys :
  (∀ k d, dep_edge tasks k d → d ∈ dom tasks) →
  (∀ k, k ∈ keys ↔ k ∈ dom tasks) →
  match visit_all (visit (S (size tasks)) tasks) ∅ keys with
  | Visited _ => acyclic tasks
  | FoundCycle g => tc (dep_edge tasks) g g
  | OutOfFuel => False
  end.
Proof.
  intros Hknown Hkeys.
  assert (black_ok tasks ∅) as Hb by (by intros k; rewrite lookup_empty).
  pose proof (visit_all_post tasks (visit (S (size tasks)) tasks) ∅ keys Hb) as Hall.
  assert (∀ c' k, k ∈ keys → frame ∅ c' → black_ok tasks c' →
                  visit_post tasks c' k (visit (S (size tasks)) tasks c' k)) as Hv.
  { intros c' k Hk [_ Hfg] Hb'. apply visit_meets_post; try done; [by apply Hkeys| |].
    - assert (grey c' = ∅) as Hg.
      { apply set_eq; intros x. rewrite elem_of_grey, Hfg, lookup_empty. set_solver. }
      unfold fuel_ok. rewrite Hg. split; [lia|set_solver].
    - intros g. by rewrite Hfg, lookup_empty. }
  specialize (Hall Hv). destruct (visit_all _ _ _) as [c|g|]; [|done..].
  destruct Hall as (Hdone & _ & Hb'). intros k Hc. eapply Acc_not_tc; [|done].
  apply Hb', Hdone, Hkeys. inversion Hc as [? ? Hd|? z ? Hd]; subst;
    apply elem_of_dom; unfold dep_edge, deps_of in Hd;
    destruct (tasks !! k); [done|by apply elem_of_nil in Hd|done|by apply elem_of_nil in Hd].
Qed.

Lemma range_keys_spec {V} rank (m : gmap string V) k :
  k ∈ (range_map rank m).*1 ↔ k ∈ dom m.
Proof.
  rewrite elem_of_dom, list_elem_of_fmap. split.
  - intros ([k' v] & -> & Hin%elem_of_range_map). by exists v.
  - intros [v Hv]. exists (k, v). by rewrite elem_of_range_map.
Qed.

Lemma check_phase_spec rank tasks n :
  check_tasks tasks (range_map rank tasks) 0 = inr n ↔
  (∀ key task, tasks !! key = Some task → task_ok tasks key task) ∧
  n = Z.of_nat (edge_count tasks).
Proof.
  rewrite check_tasks_spec. unfold edge_count. setoid_rewrite elem_of_range_map.
  assert (∀ f, sum_list_with f (range_map rank tasks) = sum_list_with f (map_to_list tasks))
    as -> by (intros f; apply sum_list_with_Permutation_proper, range_map_perm).
  by rewrite Z.add_0_l.
Qed.

Lemma tasks_ok_known tasks :
  (∀ key task, tasks !! key = Some task → task_ok tasks key task) →
  ∀ k d, dep_edge tasks k d → d ∈ dom tasks.
Proof.
  intros Hok k d. unfold dep_edge, deps_of. destruct (tasks !! k) as [t|] eqn:Ht; simpl.
  - intros Hd. by apply elem_of_dom, (ok_known _ _ _ (Hok _ _ Ht)).
  - by intros ?%elem_of_nil.
Qed.

(** What the search returns once the per-task checks have passed. *)
Lemma search_phase_spec rank tasks :
  (∀ key task, tasks !! key = Some task → task_ok tasks key task) →
  match visit_all (visit (S (size tasks)) tasks) ∅ (range_map rank tasks).*1 with
  | Visited _ => acyclic tasks
  | FoundCycle g => tc (dep_edge tasks) g g
  | OutOfFuel => False
  end.
Proof.
  intros Hok. apply search_spec; [by apply tasks_ok_known|intros; apply range_keys_spec].
Qed.

(** The per-task phase raises only its own errors. *)
Definition search_error (e : dag_error) : bool :=
  match e with CycleInvolving _ | SearchFuel => true | _ => false end.

Lemma check_deps_no_search tasks key deps seen edges e :
  check_deps tasks key deps seen edges = inl e → search_error e = false.
Proof.
  revert seen edges; induction deps as [|d deps IH]; intros seen edges; simpl; [done|].
  repeat case_bool_decide; [naive_solver..|apply IH].
Qed.

Lemma check_tasks_no_search tasks l edges e :
  check_tasks tasks l edges = inl e → search_error e = false.
Proof.
  revert edges; induction l as [|[k t] l IH]; intros edges; simpl; [done|].
  destruct (check_task tasks k t edges) as [e'|n] eqn:Hc; [|apply IH].
  intros [= ->]. revert Hc. unfold check_task.
  repeat case_match; [naive_solver..|apply check_deps_no_search].
Qed.

(** * Accepted definitions *)

Lemma ValidateDAG_valid (rank1 rank2 : string → Z) (dag : DAG) :
  ValidateDAG rank1 rank2 dag = None ↔ valid_dag dag.
Proof.
  unfold ValidateDAG. case_bool_decide as H0; [split; [done|intros []; lia]|].
  case_bool_decide as H1; [split; [done|intros []; lia]|].
  destruct (check_tasks _ _ _) as [e|n] eqn:Hc.
  { split; [done|]. intros []. enough (check_tasks (Tasks dag) (range_map rank1 (Tasks dag)) 0
      = inr (Z.of_nat (edge_count (Tasks dag)))) by congruence.
    by apply check_phase_spec. }
  apply check_phase_spec in Hc as [Hok ->].
  case_bool_decide as H2; [split; [done|intros []; lia]|].
  pose proof (search_phase_spec rank2 _ Hok) as Hs.
  destruct (visit_all _ _ _) as [c|g|]; [|split; [done|]..].
  - split; [|done]. intros _. split; try done; lia.
  - intros []. exfalso. by eapply valid_acyclic0.
  - done.
Qed.

(** The dependencies of an accepted definition can be followed only finitely
    often. *)
Lemma valid_dag_wf dag k : valid_dag dag → Acc (flip (dep_edge (Tasks dag))) k.
Proof.
  intros V. apply tc_finite_sn; [intros x; by apply (valid_acyclic _ V)|].
  exists (elements (dom (Tasks dag))). intros d Hd. apply elem_of_elements.
  induction Hd as [k d Hd|k d' d _ _ IH]; [|done].
  eapply tasks_ok_known; [|done]. apply (valid_tasks _ V).
Qed.

(** * Properties *)

(** C30: [ValidateDAG] returns nil exactly for the definitions that satisfy
    [valid_dag]: between 1 and 500 tasks, well-formed keys, handlers, attempt
    and timeout bounds, known, distinct and non-reflexive dependencies, at
    most 5000 edges and no dependency cycle; whatever orders Go ranges over the
    task map in. *)
Theorem ValidateDAG_correct (rank1 rank2 : string → Z) (dag : DAG) :
  ValidateDAG rank1 rank2 dag = None ↔ valid_dag dag.
Proof. apply ValidateDAG_valid. Qed.

(** The search never runs out of fuel: [ValidateDAG] always returns a
    verdict of the source program. *)
Theorem ValidateDAG_total (rank1 rank2 : string → Z) (dag : DAG) :
  ValidateDAG rank1 rank2 dag ≠ Some SearchFuel.
Proof.
  unfold ValidateDAG. repeat case_bool_decide; try done.
  destruct (check_tasks _ _ _) as [e|n] eqn:Hc.
  - intros [= ->]. by apply check_tasks_no_search in Hc.
  - apply check_phase_spec in Hc as [Hok ->]. case_bool_decide; [done|].
    pose proof (search_phase_spec rank2 _ Hok) as Hs. by destruct (visit_all _ _ _).
Qed.

(** A cycle error names a task that really depends on itself through one
    or more dependency edges. *)
Theorem ValidateDAG_cycle_sound (rank1 rank2 : string → Z) (dag : DAG) (key : string) :
  ValidateDAG rank1 rank2 dag = Some (CycleInvolving key) →
  tc (dep_edge (Tasks dag)) key key.
Proof.
  unfold ValidateDAG. repeat case_bool_decide; try done.
  destruct (check_tasks _ _ _) as [e|n] eqn:Hc.
  - intros [= ->]. by apply check_tasks_no_search in Hc.
  - apply check_phase_spec in Hc as [Hok ->]. case_bool_decide; [done|].
    pose proof (search_phase_spec rank2 _ Hok) as Hs.
    destruct (visit_all _ _ _); naive_solver.
Qed.

(** The defaults turn the accepted range of an attempt or timeout setting
    into one that starts at 1, so the database checks [maximum_attempts > 0]
    and [timeout_seconds > 0] hold for every validated task; handler,
    dependencies and priority are unchanged. *)
Theorem WithDefaults_bounds (tasks : gmap string TaskSpec) (key : string) (spec : TaskSpec) :
  task_ok tasks key spec →
  1 ≤ MaximumAttempts (WithDefaults spec) ≤ 100 ∧
  1 ≤ TimeoutSeconds (WithDefaults spec) ≤ 86400 ∧
  Handler (WithDefaults spec) = Handler spec ∧
  DependsOn (WithDefaults spec) = DependsOn spec ∧
  Priority (WithDefaults spec) = Priority spec.
Proof.
  intros []. simpl. repeat case_bool_decide; repeat split; lia.
Qed.

Definition cyclic_dag : DAG :=
  {| dag_Name := "loop";
     Tasks := {[ "a" := {| Handler := "h"; DependsOn := ["b"]; MaximumAttempts := 0;
                           TimeoutSeconds := 0; Priority := 0 |};
                 "b" := {| Handler := "h"; DependsOn := ["a"]; MaximumAttempts := 0;
                           TimeoutSeconds := 0; Priority := 0 |} ]} |}.

Lemma ValidateDAG_cycle_sound_witness : ∃ key, tc (dep_edge (Tasks cyclic_dag)) key key.
Proof.
  eexists. apply (ValidateDAG_cycle_sound (λ _, 0) (λ _, 0) cyclic_dag). vm_compute. reflexivity.
Defined.

Lemma WithDefaults_bounds_witness :
  1 ≤ MaximumAttempts (WithDefaults {| Handler := "h"; DependsOn := []; MaximumAttempts := 0;
                                       TimeoutSeconds := 0; Priority := 0 |}).
Proof.
  destruct (WithDefaults_bounds ∅ "a" {| Handler := "h"; DependsOn := []; MaximumAttempts := 0;
                                         TimeoutSeconds := 0; Priority := 0 |}) as [[H _] _];
    [|exact H].
  split; simpl; try reflexivity; try lia; [set_solver..|constructor].
Defined.
