(* ===== verification/State.v ===== *)
(** Task states: [internal/workflow/state.go] and the enumerations of
    [migrations/001_initial.up.sql].

    The Go code handles statuses as strings and PostgreSQL as enumerations;
    [task_status_text] and [run_status_text] relate the two. *)
From S2P Require Import Prelude.

(** [CREATE TYPE task_status AS ENUM (...)]. *)
Inductive task_status : Type :=
  | BLOCKED | READY | DISPATCHING | LEASED | RUNNING
  | SUCCEEDED | FAILED | RETRY_WAIT | DEAD | CANCELLED.

(** [CREATE TYPE workflow_status AS ENUM (...)]. *)
Inductive run_status : Type :=
  | RUN_PENDING | RUN_RUNNING | RUN_SUCCEEDED | RUN_FAILED | RUN_CANCELLED.

#[export] Instance task_status_eq_dec : EqDecision task_status.
Proof. solve_decision. Defined.

#[export] Instance run_status_eq_dec : EqDecision run_status.
Proof. solve_decision. Defined.

Definition task_status_text (s : task_status) : string :=
  match s with
  | BLOCKED => "BLOCKED" | READY => "READY" | DISPATCHING => "DISPATCHING"
  | LEASED => "LEASED" | RUNNING => "RUNNING" | SUCCEEDED => "SUCCEEDED"
  | FAILED => "FAILED" | RETRY_WAIT => "RETRY_WAIT" | DEAD => "DEAD"
  | CANCELLED => "CANCELLED"
  end.

Definition run_status_text (s : run_status) : string :=
  match s with
  | RUN_PENDING => "PENDING" | RUN_RUNNING => "RUNNING" | RUN_SUCCEEDED => "SUCCEEDED"
  | RUN_FAILED => "FAILED" | RUN_CANCELLED => "CANCELLED"
  end.

(** [var transitions = map[string]map[string]bool{...}]. *)
Definition transitions : gmap string (gmap string bool) :=
  list_to_map [
    ("BLOCKED", list_to_map [("READY", true); ("CANCELLED", true)]);
    ("READY", list_to_map [("DISPATCHING", true); ("CANCELLED", true)]);
    ("DISPATCHING", list_to_map [("LEASED", true); ("READY", true); ("CANCELLED", true)]);
    ("LEASED", list_to_map [("RUNNING", true); ("RETRY_WAIT", true); ("DEAD", true);
                            ("CANCELLED", true)]);
    ("RUNNING", list_to_map [("SUCCEEDED", true); ("RETRY_WAIT", true); ("DEAD", true);
                             ("CANCELLED", true)]);
    ("RETRY_WAIT", list_to_map [("READY", true); ("CANCELLED", true)])
  ].

(** [func CanTransition(from, to string) bool { return transitions[from][to] }];
    a missing key of either map reads as the zero value. *)
Definition CanTransition (from to : string) : bool :=
  from_option (λ row : gmap string bool, from_option id false (row !! to)) false
    (transitions !! from).

Definition can_transition (from to : task_status) : bool :=
  CanTransition (task_status_text from) (task_status_text to).

(** [time.Second] in nanoseconds. *)
Definition Second : Z := 1000000000.

(** [RetryDelay].  [math.Pow(2, n)] is exact for the integers involved until
    it overflows to [+Inf], far above the cap, so the float computation is the
    integer one. *)
Definition RetryDelay (attempt : Z) : Z :=
  let attempt := if bool_decide (attempt < 1) then 1 else attempt in
  Z.min 3600 (2 * 2 ^ (attempt - 1)) * Second.

(** * Properties of the table *)

(** States a task leaves only by an operator's retry or replay. *)
Definition terminal (s : task_status) : bool :=
  match s with SUCCEEDED | FAILED | DEAD | CANCELLED => true | _ => false end.

(** The transition table is exactly the documented life cycle: nothing
    leaves a terminal state or the unused state FAILED, every non-terminal
    state can be cancelled, SUCCEEDED is entered only from RUNNING, RUNNING
    only from LEASED, LEASED only from DISPATCHING and DISPATCHING only from
    READY. *)
Theorem transitions_lifecycle (from to : task_status) :
  (terminal from = true → can_transition from to = false) ∧
  (terminal from = false → can_transition from CANCELLED = true) ∧
  (can_transition from SUCCEEDED = true ↔ from = RUNNING) ∧
  (can_transition from RUNNING = true ↔ from = LEASED) ∧
  (can_transition from LEASED = true ↔ from = DISPATCHING) ∧
  (can_transition from DISPATCHING = true ↔ from = READY) ∧
  can_transition from FAILED = false ∧ can_transition from BLOCKED = false.
Proof. destruct from, to; vm_compute; naive_solver. Qed.

(** The retry delay of attempt [n] is [2^n] seconds capped at one hour:
    it doubles while below the cap, never decreases with the attempt number,
    and always lies between two seconds and one hour. *)
Theorem RetryDelay_backoff (n m : Z) :
  2 * Second ≤ RetryDelay n ≤ 3600 * Second ∧
  (n ≤ m → RetryDelay n ≤ RetryDelay m) ∧
  (1 ≤ n ≤ 11 → RetryDelay n = 2 ^ n * Second) ∧
  (12 ≤ n → RetryDelay n = 3600 * Second).
Proof.
  assert (∀ k, 1 ≤ k → 2 * 2 ^ (k - 1) = 2 ^ k) as Hpow.
  { intros k Hk. rewrite <-Z.pow_succ_r by lia. f_equal. lia. }
  assert (∀ k, RetryDelay k = Z.min 3600 (2 ^ Z.max 1 k) * Second) as Hrd.
  { intros k. unfold RetryDelay. case_bool_decide; rewrite Hpow by lia; do 3 f_equal; lia. }
  rewrite !Hrd. unfold Second.
  assert (2 ^ 1 ≤ 2 ^ Z.max 1 n) by (apply Z.pow_le_mono_r; lia).
  repeat split; try lia.
  - intros Hle. assert (2 ^ Z.max 1 n ≤ 2 ^ Z.max 1 m) by (apply Z.pow_le_mono_r; lia). lia.
  - intros Hn. assert (2 ^ n ≤ 2 ^ 11) by (apply Z.pow_le_mono_r; lia).
    rewrite Z.max_r by lia. lia.
  - intros Hn. assert (2 ^ 12 ≤ 2 ^ Z.max 1 n) by (apply Z.pow_le_mono_r; lia). lia.
Qed.
