(* ===== verification/Json.v ===== *)
(** JSON values and the stored form of workflow definitions.

    [json] is the value a JSON document or a [jsonb] column holds.  Numbers are
    the integers the code writes; [JTime] is a [time.Time], which [encoding/json]
    renders as its RFC 3339 text; objects are association lists read with the
    first binding of a key.  [marshal_dag] and [unmarshal_dag] are the
    [encoding/json] form of [workflow.DAG] (the field tags of
    [internal/workflow/model.go]), in which [storage.CreateWorkflow] stores a
    definition and [storage.CreateRun] reads it back. *)
From S2P Require Import Prelude Model.

Inductive json : Type :=
  | JNull
  | JBool (b : bool)
  | JNum (n : Z)
  | JStr (s : string)
  | JTime (t : Z)
  | JArr (l : list json)
  | JObj (fields : list (string * json)).

(** [json.RawMessage(`{}`)]. *)
Definition empty_object : json := JObj [].

Fixpoint assoc {V} (k : string) (l : list (string * V)) : option V :=
  match l with
  | [] => None
  | (k', v) :: l => if String.eqb k' k then Some v else assoc k l
  end.

(** [v ->> key] for a key that holds a string. *)
Definition json_text (v : json) (key : string) : option string :=
  match v with
  | JObj fields => match assoc key fields with Some (JStr s) => Some s | _ => None end
  | _ => None
  end.

(** * Encoding: the tags [json:"...,omitempty"] drop zero values *)

Definition omit_num (key : string) (n : Z) : list (string * json) :=
  if bool_decide (n = 0) then [] else [(key, JNum n)].

Definition marshal_spec (t : TaskSpec) : json :=
  JObj ([("handler", JStr (Handler t))]
        ++ (if bool_decide (DependsOn t = []) then []
            else [("depends_on", JArr (JStr <$> DependsOn t))])
        ++ omit_num "maximum_attempts" (MaximumAttempts t)
        ++ omit_num "timeout_seconds" (TimeoutSeconds t)
        ++ omit_num "priority" (Priority t)).

Definition marshal_dag (d : DAG) : json :=
  JObj ((if bool_decide (dag_Name d = "") then [] else [("name", JStr (dag_Name d))])
        ++ [("tasks", JObj (prod_map id marshal_spec <$> map_to_list (Tasks d)))]).

(** * Decoding: absent and null fields keep their zero value, a value of another
    type is an error *)

Definition field_string (fields : list (string * json)) (key : string) : option string :=
  match assoc key fields with
  | None | Some JNull => Some ""
  | Some (JStr s) => Some s
  | Some _ => None
  end.

Definition field_num (fields : list (string * json)) (key : string) : option Z :=
  match assoc key fields with
  | None | Some JNull => Some 0
  | Some (JNum n) => Some n
  | Some _ => None
  end.

Definition json_string (v : json) : option string :=
  match v with JStr s => Some s | JNull => Some "" | _ => None end.

Definition field_strings (fields : list (string * json)) (key : string) : option (list string) :=
  match assoc key fields with
  | None | Some JNull => Some []
  | Some (JArr l) => mapM json_string l
  | Some _ => None
  end.

Definition unmarshal_spec (v : json) : option TaskSpec :=
  match v with
  | JObj fields =>
      h ← field_string fields "handler";
      deps ← field_strings fields "depends_on";
      att ← field_num fields "maximum_attempts";
      tmo ← field_num fields "timeout_seconds";
      pri ← field_num fields "priority";
      Some {| Handler := h; DependsOn := deps; MaximumAttempts := att;
              TimeoutSeconds := tmo; Priority := pri |}
  | JNull => Some {| Handler := ""; DependsOn := []; MaximumAttempts := 0;
                     TimeoutSeconds := 0; Priority := 0 |}
  | _ => None
  end.

Definition unmarshal_entry (kv : string * json) : option (string * TaskSpec) :=
  t ← unmarshal_spec kv.2; Some (kv.1, t).

Definition unmarshal_dag (v : json) : option DAG :=
  match v with
  | JObj fields =>
      name ← field_string fields "name";
      entries ← match assoc "tasks" fields with
                | None | Some JNull => Some []
                | Some (JObj l) => mapM unmarshal_entry l
                | Some _ => None
                end;
      Some {| dag_Name := name; Tasks := list_to_map entries |}
  | JNull => Some {| dag_Name := ""; Tasks := ∅ |}
  | _ => None
  end.

(** * Round trip *)

Lemma mapM_json_string (l : list string) : mapM json_string (JStr <$> l) = Some l.
Proof. by apply mapM_fmap_Some. Qed.

Lemma unmarshal_marshal_spec t : unmarshal_spec (marshal_spec t) = Some t.
Proof.
  destruct t as [h deps a tm pr]. unfold marshal_spec, omit_num.
  unfold unmarshal_spec, field_string, field_strings, field_num.
  cbn -[mapM fmap]. repeat case_bool_decide; subst; cbn -[mapM fmap];
    rewrite ?mapM_json_string; done.
Qed.

Lemma unmarshal_entries (l : list (string * TaskSpec)) :
  mapM unmarshal_entry (prod_map id marshal_spec <$> l) = Some l.
Proof.
  apply mapM_fmap_Some. intros [k t].
  unfold unmarshal_entry; cbn -[unmarshal_spec marshal_spec].
  by rewrite unmarshal_marshal_spec.
Qed.

Lemma unmarshal_marshal_dag d : unmarshal_dag (marshal_dag d) = Some d.
Proof.
  destruct d as [name tasks]. unfold marshal_dag; simpl.
  case_bool_decide; subst; cbn -[mapM fmap];
    rewrite unmarshal_entries; cbn; by rewrite list_to_map_to_list.
Qed.

(** A workflow definition read back from its stored JSON is the definition
    that was stored. *)
Theorem dag_json_roundtrip (d : DAG) : unmarshal_dag (marshal_dag d) = Some d.
Proof. apply unmarshal_marshal_dag. Qed.
