(* ===== verification/Schema.v ===== *)
(** The PostgreSQL schema: [migrations/*.up.sql] and the structures of
    [internal/workflow/model.go] and [internal/storage] that mirror its rows.

    Each table is a finite map from its primary key to its row.  A [uuid] is
    the canonical text form PostgreSQL prints; a [timestamptz] is an instant in
    nanoseconds.  [task_attempts] is keyed by its unique pair (task run, attempt
    number) and [task_dependencies] by its primary key. *)
From S2P Require Import Prelude Model State Json.

Abbreviation uuid := string.
Abbreviation time := Z.

(** [workflow_definitions], [workflow.Definition]. *)
Record DefinitionRow := mkDefinition {
  d_tenant_id : uuid;
  d_name : string;
  d_version : Z;
  d_dag_spec : json;
  d_created_by : option uuid;
  d_created_at : time
}.

(** [workflow_runs], [workflow.Run]. *)
Record RunRow := mkRun {
  r_tenant_id : uuid;
  r_workflow_definition_id : uuid;
  r_workflow_version : Z;
  r_status : run_status;
  r_input : json;
  r_input_artifact_uri : option string;
  r_idempotency_key : string;
  r_trace_parent : option string;
  r_started_at : option time;
  r_completed_at : option time;
  r_created_at : time
}.

(** [task_runs], [workflow.TaskRun]. *)
Record TaskRow := mkTask {
  t_workflow_run_id : uuid;
  t_task_key : string;
  t_handler : string;
  t_status : task_status;
  t_priority : Z;
  t_available_at : time;
  t_attempt_count : Z;
  t_maximum_attempts : Z;
  t_timeout_seconds : Z;
  t_lease_owner : option string;
  t_lease_expires_at : option time;
  t_input : json;
  t_output : option json;
  t_output_artifact_uri : option string;
  t_created_at : time;
  t_updated_at : time
}.

(** [task_attempts], [workflow.TaskAttempt]. *)
Record AttemptRow := mkAttempt {
  a_worker_id : string;
  a_scheduled_at : time;
  a_executing_at : option time;
  a_started_at : time;
  a_ended_at : option time;
  a_exit_status : option string;
  a_error_type : option string;
  a_error_message : option string;
  a_trace_id : option string;
  a_artifact_uri : option string;
  a_log_artifact_uri : option string
}.

(** [outbox_events], with the claim columns of migration 007. *)
Record OutboxRow := mkOutbox {
  o_aggregate_type : string;
  o_aggregate_id : uuid;
  o_event_type : string;
  o_payload : json;
  o_trace_parent : option string;
  o_published_at : option time;
  o_created_at : time;
  o_claim_token : option uuid;
  o_claim_expires_at : option time;
  o_publish_attempts : Z
}.

(** The generated column [ordering_key]:
    [COALESCE(NULLIF(payload->>'workflow_run_id','')::UUID, aggregate_id)]. *)
Definition o_ordering_key (e : OutboxRow) : uuid :=
  match json_text (o_payload e) "workflow_run_id" with
  | Some s => if bool_decide (s = "") then o_aggregate_id e else s
  | None => o_aggregate_id e
  end.

(** [audit_events]; the table is append-only. *)
Record AuditRow := mkAudit {
  au_tenant_id : uuid;
  au_actor_id : option uuid;
  au_action : string;
  au_resource_type : string;
  au_resource_id : uuid;
  au_metadata : json;
  au_created_at : time
}.

(** [artifacts], [storage.Artifact]. *)
Record ArtifactRow := mkArtifact {
  f_tenant_id : uuid;
  f_kind : string;
  f_status : string;
  f_object_key : string;
  f_object_uri : string;
  f_content_type : string;
  f_declared_size : Z;
  f_size_bytes : option Z;
  f_checksum_sha256 : option string;
  f_workflow_run_id : option uuid;
  f_task_run_id : option uuid;
  f_created_by : option uuid;
  f_ready_at : option time;
  f_created_at : time
}.

(** [schedules]. *)
Record ScheduleRow := mkSchedule {
  s_tenant_id : uuid;
  s_workflow_definition_id : uuid;
  s_cron_expression : string;
  s_timezone : string;
  s_next_execution_at : time;
  s_misfire_policy : string;
  s_enabled : bool;
  s_created_at : time
}.

(** [api_keys], [storage.APIKey]. *)
Record ApiKeyRow := mkApiKey {
  k_tenant_id : uuid;
  k_name : string;
  k_key_hash : string;
  k_scopes : list string;
  k_expires_at : option time;
  k_revoked_at : option time;
  k_last_used_at : option time;
  k_created_by : option uuid;
  k_created_at : time
}.

(** [users]. *)
Record UserRow := mkUser {
  u_tenant_id : uuid;
  u_oidc_subject : string;
  u_role : string
}.

(** [worker_heartbeats], keyed by (tenant, worker). *)
Record HeartbeatRow := mkHeartbeat {
  h_handlers : list string;
  h_active_tasks : Z;
  h_metadata : json;
  h_last_seen_at : time
}.

Record Db := mkDb {
  tenants : gset uuid;
  users : gmap uuid UserRow;
  api_keys : gmap uuid ApiKeyRow;
  workflow_definitions : gmap uuid DefinitionRow;
  workflow_runs : gmap uuid RunRow;
  task_runs : gmap uuid TaskRow;
  task_dependencies : gmap (uuid * uuid) uuid;
  task_attempts : gmap (uuid * Z) AttemptRow;
  outbox_events : gmap uuid OutboxRow;
  schedules : gmap uuid ScheduleRow;
  audit_events : list AuditRow;
  worker_heartbeats : gmap (uuid * string) HeartbeatRow;
  artifacts : gmap uuid ArtifactRow
}.

(** * Table operations

    [update_where P f] is [UPDATE ... SET f WHERE P]; [rows_where] lists the
    rows a condition selects in the physical order [rank].  Every condition is
    evaluated on the rows as they were when the statement started. *)
Section Table.
Context {K V : Type} `{Countable K}.
Implicit Types (m : gmap K V) (P : K → V → bool) (rank : K → Z).

Definition update_where P (f : V → V) m : gmap K V :=
  map_imap (λ k v, Some (if P k v then f v else v)) m.

Definition rows_where rank P m : list (K * V) :=
  filter (λ kv, P kv.1 kv.2) (order_by (rank ∘ fst) (map_to_list m)).

Lemma lookup_update_where P f m k :
  update_where P f m !! k = (λ v, if P k v then f v else v) <$> m !! k.
Proof. unfold update_where. rewrite map_lookup_imap. by destruct (m !! k). Qed.

Lemma elem_of_rows_where rank P m k v :
  (k, v) ∈ rows_where rank P m ↔ m !! k = Some v ∧ P k v = true.
Proof.
  unfold rows_where. rewrite list_elem_of_filter, elem_of_order_by, elem_of_map_to_list.
  simpl. rewrite Is_true_true. naive_solver.
Qed.

Lemma NoDup_rows_where rank P m : NoDup (rows_where rank P m).*1.
Proof.
  unfold rows_where. eapply sublist_NoDup; [|apply fmap_sublist, sublist_filter].
  rewrite order_by_perm. apply NoDup_fst_map_to_list.
Qed.

(** A condition that holds of at most one row. *)
Lemma rows_where_key rank P m k0 :
  (∀ k v, m !! k = Some v → P k v = true → k = k0) →
  rows_where rank P m =
    match m !! k0 with
    | Some v => if P k0 v then [(k0, v)] else []
    | None => []
    end.
Proof.
  intros HP. pose proof (NoDup_rows_where rank P m) as Hnd.
  assert (∀ k v, (k, v) ∈ rows_where rank P m ↔ k = k0 ∧ m !! k0 = Some v ∧ P k0 v = true)
    as Hin by (intros; rewrite elem_of_rows_where; naive_solver).
  destruct (rows_where rank P m) as [|[k v] [|[k' v'] l]] eqn:Hl.
  - repeat case_match; try done.
    exfalso. eapply (not_elem_of_nil (k0, v)), Hin. eauto.
  - destruct (proj1 (Hin k v)) as (-> & -> & ->); [by left|done].
  - exfalso. destruct (proj1 (Hin k v)) as (-> & _); [by left|].
    destruct (proj1 (Hin k' v')) as (-> & _); [right; by left|].
    apply NoDup_cons in Hnd as [Hnd _]. apply Hnd. by left.
Qed.

Lemma update_where_key P f m k0 :
  (∀ k v, P k v = true → k = k0) →
  update_where P f m =
    match m !! k0 with
    | Some v => if P k0 v then <[k0 := f v]> m else m
    | None => m
    end.
Proof.
  intros HP. apply map_eq; intros k. rewrite lookup_update_where.
  destruct (decide (k = k0)) as [->|Hne].
  - destruct (m !! k0) as [v|] eqn:Hv; simpl; [|by rewrite Hv].
    destruct (P k0 v); [by rewrite lookup_insert_eq|done].
  - assert ((λ v, if P k v then f v else v) <$> m !! k = m !! k) as ->.
    { destruct (m !! k) as [v|]; simpl; [|done].
      destruct (P k v) eqn:?; [by apply HP in Heqb|done]. }
    repeat case_match; try done. by rewrite lookup_insert_ne.
Qed.

Lemma update_where_none P f m :
  (∀ k v, m !! k = Some v → P k v = false) → update_where P f m = m.
Proof.
  intros HP. apply map_eq; intros k. rewrite lookup_update_where.
  destruct (m !! k) eqn:?; simpl; [|done]. by rewrite HP.
Qed.

Lemma dom_update_where P f m : dom (update_where P f m) = dom m.
Proof.
  apply set_eq; intros k. rewrite !elem_of_dom, lookup_update_where, fmap_is_Some. done.
Qed.
End Table.

#[export] Hint Rewrite @lookup_update_where @elem_of_rows_where : runmesh_rw.
