(* ===== verification/Sql.v ===== *)
(** The database session the storage layer runs in.

    [M A] is a computation over a session: it reads an environment, changes
    the session and returns a value or a Go error.  What the program does not
    choose is in [Env] and is indexed by a counter that grows with every
    statement, so that successive statements may meet different answers:
    - PostgreSQL's [now()] (the start of the transaction) and Go's [time.Now()];
    - fresh identifiers ([uuid.NewString], [gen_random_uuid()]);
    - failures of statements and of commits; a commit may fail, or succeed with
      its acknowledgement lost;
    - which rows other sessions hold locked ([SKIP LOCKED]) and the physical
      order of unordered scans.

    A transaction ([in_tx]) is atomic with respect to other sessions: its
    statements run on the session's database and take effect together at the
    commit.  A result set that is still open makes the connection unusable for
    further statements, as pgx documents ("conn busy"). *)
From S2P Require Import Prelude Json Schema.

(** What the server or the connection answers instead of executing. *)
Inductive fault : Type :=
  | FaultPg (sqlstate msg : string)
  | FaultConn (msg : string).

Definition fault_error (f : fault) : error :=
  match f with FaultPg c m => ErrPg c m | FaultConn m => ErrConn m end.

Inductive commit_outcome : Type :=
  | Committed
  | CommitFailed (f : fault)
  | CommitLost (f : fault).

Record Env := {
  env_now : nat → time;
  env_clock : nat → time;
  env_uuid : nat → uuid;
  env_fault : nat → option fault;
  env_commit : nat → commit_outcome;
  env_locked : nat → uuid → bool;
  env_rank : nat → uuid → Z;
  env_trace : string
}.

Record Sess := mkSess {
  s_tick : nat;
  s_rows_open : bool;
  s_db : Db
}.

Definition M (A : Type) : Type := Env → Sess → result A * Sess.

#[export] Instance M_ret : MRet M := λ A a env s, (Ok a, s).
#[export] Instance M_bind : MBind M := λ A B k m env s,
  match m env s with
  | (Ok a, s') => k a env s'
  | (Err e, s') => (Err e, s')
  end.

Definition throw {A} (e : error) : M A := λ env s, (Err e, s).

(** [time.Now()] and [uuid.NewString()]. *)
Definition time_now : M time := λ env s,
  (Ok (env_clock env (s_tick s)), mkSess (S (s_tick s)) (s_rows_open s) (s_db s)).

Definition new_uuid : M uuid := λ env s,
  (Ok (env_uuid env (s_tick s)), mkSess (S (s_tick s)) (s_rows_open s) (s_db s)).

(** The order of the next [range] over a map. *)
Definition range_rank : M (string → Z) := λ env s,
  (Ok (env_rank env (s_tick s)), mkSess (S (s_tick s)) (s_rows_open s) (s_db s)).

(** [_, _ = f()] and [if err := f(); ...]: the call's error as a value. *)
Definition try {A} (m : M A) : M (result A) := λ env s,
  let '(r, s') := m env s in (Ok r, s').

(** [tracecontext.FromContext(ctx)]: the propagator's text. *)
Definition trace_parent : M string := λ env s, (Ok (env_trace env), s).

(** * Statements *)

(** A statement sees the environment, its index and the database, and either
    violates a constraint or returns a value and the new database. *)
Definition Stmt (A : Type) : Type := Env → nat → Db → result (A * Db).

(** [tx.Exec], [tx.QueryRow], and [tx.Query] whose rows are read and closed. *)
Definition tx_stmt {A} (f : Stmt A) : M A := λ env s,
  let n := s_tick s in
  if s_rows_open s then (Err (ErrConn "conn busy"), mkSess (S n) true (s_db s))
  else
    match env_fault env n with
    | Some e => (Err (fault_error e), mkSess (S n) false (s_db s))
    | None =>
        match f env n (s_db s) with
        | Ok (a, db) => (Ok a, mkSess (S n) false db)
        | Err e => (Err e, mkSess (S n) false (s_db s))
        end
    end.

(** [tx.Query] whose rows stay open until [rows_close]. *)
Definition tx_query_open {A} (f : Stmt A) : M A := λ env s,
  match tx_stmt f env s with
  | (Ok a, s') => (Ok a, mkSess (s_tick s') true (s_db s'))
  | r => r
  end.

Definition rows_close : M unit := λ env s, (Ok tt, mkSess (s_tick s) false (s_db s)).

(** The effect of a commit attempt: the database the other sessions see. *)
Definition commit {A} (env : Env) (n : nat) (open : bool) (before after : Db) (a : A)
    : result A * Sess :=
  match env_commit env n with
  | Committed => (Ok a, mkSess (S n) open after)
  | CommitFailed e => (Err (fault_error e), mkSess (S n) open before)
  | CommitLost e => (Err (fault_error e), mkSess (S n) open after)
  end.

(** [pool.Exec], [pool.QueryRow], [pool.Query]: a statement on a connection of
    its own, committed by itself. *)
Definition pool_stmt {A} (f : Stmt A) : M A := λ env s,
  let n := s_tick s in
  match env_fault env n with
  | Some e => (Err (fault_error e), mkSess (S n) (s_rows_open s) (s_db s))
  | None =>
      match f env n (s_db s) with
      | Ok (a, db) => commit env (S n) (s_rows_open s) (s_db s) db a
      | Err e => (Err e, mkSess (S n) (s_rows_open s) (s_db s))
      end
  end.

(** How the body of a transaction returns without error: after [tx.Commit], or
    leaving the deferred [tx.Rollback] to undo it. *)
Inductive outcome (A : Type) : Type :=
  | Commit (a : A)
  | Abandon (a : A).
Arguments Commit {A} a.
Arguments Abandon {A} a.

(** [tx, err := pool.Begin(ctx); defer tx.Rollback(ctx); ...].  The body gets
    the transaction's [now()]. *)
Definition in_tx {A} (body : time → M (outcome A)) : M A := λ env s,
  let n := s_tick s in
  match env_fault env n with
  | Some e => (Err (fault_error e), mkSess (S n) false (s_db s))
  | None =>
      match body (env_now env n) env (mkSess (S n) false (s_db s)) with
      | (Err e, s') => (Err e, mkSess (s_tick s') false (s_db s))
      | (Ok (Abandon a), s') => (Ok a, mkSess (s_tick s') false (s_db s))
      | (Ok (Commit a), s') => commit env (s_tick s') false (s_db s) (s_db s') a
      end
  end.

(** [for _, x := range l { ... }] whose body may return an error. *)
Fixpoint mfor {A} (l : list A) (f : A → M unit) : M unit :=
  match l with
  | [] => mret tt
  | x :: l => f x ;; mfor l f
  end.

(** * Statement forms *)

Definition sql_select {A} (q : Env → nat → Db → A) : Stmt A :=
  λ env n db, Ok (q env n db, db).

Definition sql_check {A} (ok : Db → bool) (sqlstate msg : string) (f : Stmt A) : Stmt A :=
  λ env n db, if ok db then f env n db else Err (ErrPg sqlstate msg).

(** [UPDATE task_runs SET f WHERE P RETURNING *]; [P] may use subqueries on the
    database the statement started from.  The result lists the updated rows. *)
Definition update_tasks (P : Db → uuid → TaskRow → bool) (f : Db → uuid → TaskRow → TaskRow)
    : Stmt (list (uuid * TaskRow)) := λ env n db,
  let rows := rows_where (env_rank env n) (P db) (task_runs db) in
  Ok ((λ kv, (kv.1, f db kv.1 kv.2)) <$> rows,
      db<| task_runs := map_imap (λ k t, Some (if P db k t then f db k t else t)) (task_runs db) |>).

Definition update_runs (P : uuid → RunRow → bool) (f : RunRow → RunRow)
    : Stmt (list (uuid * RunRow)) := λ env n db,
  Ok (prod_map id f <$> rows_where (env_rank env n) P (workflow_runs db),
      db<| workflow_runs := update_where P f (workflow_runs db) |>).

Definition update_attempts (P : uuid * Z → AttemptRow → bool) (f : AttemptRow → AttemptRow)
    : Stmt unit := λ env n db,
  Ok (tt, db<| task_attempts := update_where P f (task_attempts db) |>).

Definition update_outbox (P : uuid → OutboxRow → bool) (f : OutboxRow → OutboxRow)
    : Stmt (list (uuid * OutboxRow)) := λ env n db,
  Ok (prod_map id f <$> rows_where (env_rank env n) P (outbox_events db),
      db<| outbox_events := update_where P f (outbox_events db) |>).

Definition update_artifacts (P : uuid → ArtifactRow → bool) (f : ArtifactRow → ArtifactRow)
    : Stmt (list (uuid * ArtifactRow)) := λ env n db,
  Ok (prod_map id f <$> rows_where (env_rank env n) P (artifacts db),
      db<| artifacts := update_where P f (artifacts db) |>).

(** PostgreSQL's [INTEGER]. *)
Definition int4 (z : Z) : bool := bool_decide (- 2 ^ 31 ≤ z < 2 ^ 31).

Definition unique_violation : string := "23505".
Definition foreign_key_violation : string := "23503".
Definition check_violation : string := "23514".
Definition out_of_range : string := "22003".
Definition indeterminate_datatype : string := "42P18".

(** A statement with a parameter whose type nothing determines, such as an
    argument of [jsonb_build_object] without a cast: PostgreSQL refuses to
    prepare it. *)
Definition undetermined {A} (parameter : string) (f : Stmt A) : Stmt A :=
  sql_check (λ _, false) indeterminate_datatype
    ("could not determine data type of parameter " +:+ parameter) f.

(** [INSERT INTO outbox_events(aggregate_type,aggregate_id,event_type,payload,
    trace_parent)]: identifier and creation time are column defaults. *)
Definition insert_outbox (now : time) (aggregate_type : string) (aggregate_id : uuid)
    (event_type : string) (payload : json) (trace : option string) : Stmt unit := λ env n db,
  let id := env_uuid env n in
  if bool_decide (is_Some (outbox_events db !! id)) then
    Err (ErrPg unique_violation "outbox_events_pkey")
  else
    Ok (tt, db<| outbox_events ::= <[id :=
      {| o_aggregate_type := aggregate_type; o_aggregate_id := aggregate_id;
         o_event_type := event_type; o_payload := payload; o_trace_parent := trace;
         o_published_at := None; o_created_at := now; o_claim_token := None;
         o_claim_expires_at := None; o_publish_attempts := 0 |}]> |>).

(** [INSERT INTO audit_events(...)]. *)
Definition insert_audit (now : time) (tenant : uuid) (actor : option uuid)
    (action resource_type : string) (resource_id : uuid) (metadata : json) : Stmt unit :=
  λ env n db,
  if bool_decide (tenant ∈ tenants db) then
    Ok (tt, db<| audit_events ::= λ l, l ++ [
      {| au_tenant_id := tenant; au_actor_id := actor; au_action := action;
         au_resource_type := resource_type; au_resource_id := resource_id;
         au_metadata := metadata; au_created_at := now |}] |>)
  else Err (ErrPg foreign_key_violation "audit_events_tenant_id_fkey").

(** [nullableUUID] and SQL's [NULLIF(v,'')]. *)
Definition nullableUUID (v : string) : option uuid :=
  if bool_decide (v = "") then None else Some v.

(** * Reasoning about sessions *)

(** No statement fails and every commit is acknowledged. *)
Definition calm (env : Env) : Prop :=
  (∀ n, env_fault env n = None) ∧ (∀ n, env_commit env n = Committed).

Section Reasoning.
Context {A B : Type}.
Implicit Types (env : Env) (s : Sess) (r : result A).

Lemma bind_Ok (m : M A) (k : A → M B) env s b s2 :
  (m ≫= k) env s = (Ok b, s2) ↔
  ∃ a s1, m env s = (Ok a, s1) ∧ k a env s1 = (Ok b, s2).
Proof.
  unfold mbind, M_bind. destruct (m env s) as [[a|e] s1]; naive_solver.
Qed.

(** Forward execution. *)
Lemma bind_run (m : M A) (k : A → M B) env s a s1 :
  m env s = (Ok a, s1) → (m ≫= k) env s = k a env s1.
Proof. intros Hm. unfold mbind, M_bind. by rewrite Hm. Qed.

Lemma tx_stmt_run (f : Stmt A) env n db a db' :
  env_fault env n = None → f env n db = Ok (a, db') →
  tx_stmt f env (mkSess n false db) = (Ok a, mkSess (S n) false db').
Proof. intros Hf Hr. unfold tx_stmt. simpl. by rewrite Hf, Hr. Qed.

Lemma pool_stmt_run (f : Stmt A) env s a db' :
  calm env → f env (s_tick s) (s_db s) = Ok (a, db') →
  pool_stmt f env s = (Ok a, mkSess (S (S (s_tick s))) (s_rows_open s) db').
Proof. intros [Hc Hm] Hf. unfold pool_stmt, commit. by rewrite Hc, Hf, Hm. Qed.

Lemma pool_stmt_Ok (f : Stmt A) env s a s' :
  pool_stmt f env s = (Ok a, s') →
  f env (s_tick s) (s_db s) = Ok (a, s_db s') ∧
  s' = mkSess (S (S (s_tick s))) (s_rows_open s) (s_db s').
Proof.
  unfold pool_stmt. destruct (env_fault env (s_tick s)); [done|].
  destruct (f env (s_tick s) (s_db s)) as [[b db]|]; [|done].
  unfold commit. destruct (env_commit env _); [|done..]. by intros [= -> <-].
Qed.

Lemma ret_Ok (a b : A) env s s2 : mret (M := M) a env s = (Ok b, s2) ↔ a = b ∧ s = s2.
Proof. unfold mret, M_ret. naive_solver. Qed.

Lemma throw_Ok (e : error) env s (a : A) s2 : throw e env s = (Ok a, s2) ↔ False.
Proof. done. Qed.

Lemma tx_stmt_Ok (f : Stmt A) env s a s2 :
  tx_stmt f env s = (Ok a, s2) ↔
  s_rows_open s = false ∧ env_fault env (s_tick s) = None ∧
  ∃ db, f env (s_tick s) (s_db s) = Ok (a, db) ∧ s2 = mkSess (S (s_tick s)) false db.
Proof.
  unfold tx_stmt. destruct (s_rows_open s); [naive_solver|].
  destruct (env_fault env (s_tick s)); [naive_solver|].
  destruct (f env (s_tick s) (s_db s)) as [[a' db]|e]; naive_solver.
Qed.

(** A transaction leaves the database as it was or takes full effect;
    an error never hides a partial effect. *)
Lemma in_tx_db (body : time → M (outcome A)) env s r s2 :
  in_tx body env s = (r, s2) →
  s_db s2 = s_db s ∨
  ∃ a s1, body (env_now env (s_tick s)) env (mkSess (S (s_tick s)) false (s_db s))
            = (Ok (Commit a), s1) ∧ s_db s2 = s_db s1 ∧ ∀ a', r = Ok a' → a' = a.
Proof.
  unfold in_tx. destruct (env_fault env (s_tick s)); [naive_solver|].
  destruct (body _ _ _) as [[[a|a]|e] s1]; [|naive_solver..].
  unfold commit. destruct (env_commit env (s_tick s1)); intros [= <- <-]; simpl; eauto;
    right; naive_solver.
Qed.

(** A transaction that returns a value has committed or abandoned. *)
Lemma in_tx_Ok (body : time → M (outcome A)) env s a s2 :
  in_tx body env s = (Ok a, s2) →
  (s_db s2 = s_db s ∧ ∃ s1,
     body (env_now env (s_tick s)) env (mkSess (S (s_tick s)) false (s_db s))
       = (Ok (Abandon a), s1)) ∨
  (∃ s1, body (env_now env (s_tick s)) env (mkSess (S (s_tick s)) false (s_db s))
           = (Ok (Commit a), s1) ∧ s_db s2 = s_db s1).
Proof.
  unfold in_tx. destruct (env_fault env (s_tick s)); [naive_solver|].
  destruct (body _ _ _) as [[[a1|a1]|e] s1]; [|naive_solver..].
  unfold commit. destruct (env_commit env (s_tick s1)); naive_solver.
Qed.

Lemma pool_stmt_db (f : Stmt A) env s r s2 :
  pool_stmt f env s = (r, s2) →
  s_db s2 = s_db s ∨
  ∃ a db, f env (s_tick s) (s_db s) = Ok (a, db) ∧ s_db s2 = db ∧ ∀ a', r = Ok a' → a' = a.
Proof.
  unfold pool_stmt. destruct (env_fault env (s_tick s)); [naive_solver|].
  destruct (f env (s_tick s) (s_db s)) as [[a db]|e]; [|naive_solver].
  unfold commit. destruct (env_commit env _); intros [= <- <-]; simpl; eauto;
    right; naive_solver.
Qed.
End Reasoning.

(** Take a successful run of a sequence of statements apart, one statement at a
    time; the hypothesis names the final session. *)
Ltac run_step :=
  match goal with
  | H : mbind _ _ _ _ = (Ok _, _) |- _ =>
      let a := fresh "v" in let s := fresh "s" in let H1 := fresh "Hm" in
      apply bind_Ok in H as (a & s & H1 & H)
  | H : mret _ _ _ = (Ok _, _) |- _ => apply ret_Ok in H as [? ?]; subst
  | H : throw _ _ _ = (Ok _, _) |- _ => by apply throw_Ok in H
  | H : tx_stmt _ _ _ = (Ok _, _) |- _ =>
      let db := fresh "db" in let Hf := fresh "Hf" in
      apply tx_stmt_Ok in H as (_ & _ & db & Hf & ->)
  | H : time_now _ _ = (Ok _, _) |- _ => unfold time_now in H; injection H as <- <-
  | H : range_rank _ _ = (Ok _, _) |- _ => unfold range_rank in H; injection H as <- <-
  | H : new_uuid _ _ = (Ok _, _) |- _ => unfold new_uuid in H; injection H as <- <-
  | H : trace_parent _ _ = (Ok _, _) |- _ => unfold trace_parent in H; injection H as <- <-
  end.
