(* ===== verification/StoreWorker.v ===== *)
(** Worker protocol and dead letters: [internal/storage/worker.go].

    Each function is its transaction, statement by statement, with the guards
    of the [WHERE] clauses and the early returns of the Go code. *)
From S2P Require Import Prelude State Json Schema Sql.

(** [workflow.TaskRun] as the worker protocol returns it: the row with its
    identifier, and the input artifact [LeaseTask] adds. *)
Record TaskRun := mkTaskRun {
  tr_id : uuid;
  tr_row : TaskRow;
  tr_input_artifact_uri : option string
}.

(** [storage.Failure]. *)
Record Failure := mkFailure {
  Retryable : bool;
  ErrorType : string;
  ErrorMessage : string;
  TraceID : string
}.

(** [pgx.ErrNoRows], where the code returns it as it is. *)
Definition ErrNoRows : error := ErrText "no rows in result set".

Definition nowPlus (d : Z) : M time := t ← time_now; mret (t + d).

(** [NULLIF(v,'')]. *)
Definition nullif_empty (v : string) : option string :=
  if bool_decide (v = "") then None else Some v.

(** [lease_expires_at > now()]: false for NULL. *)
Definition unexpired (now : time) (t : TaskRow) : bool :=
  match t_lease_expires_at t with Some e => bool_decide (now < e) | None => false end.

(** [lease_owner=$w AND lease_expires_at>now()]. *)
Definition holds_lease (now : time) (worker : string) (t : TaskRow) : bool :=
  bool_decide (t_lease_owner t = Some worker) && unexpired now t.

Definition leased_or_running (t : TaskRow) : bool :=
  bool_decide (t_status t = LEASED) || bool_decide (t_status t = RUNNING).

(** [status IN ('BLOCKED','READY','DISPATCHING','RETRY_WAIT')]: work that no
    worker holds. *)
Definition not_started (t : TaskRow) : bool :=
  match t_status t with BLOCKED | READY | DISPATCHING | RETRY_WAIT => true | _ => false end.

(** [UPDATE task_runs SET f WHERE id=$1 AND guard RETURNING ...]. *)
Definition update_task (id : uuid) (guard : TaskRow → bool) (f : TaskRow → TaskRow)
    : Stmt (list (uuid * TaskRow)) :=
  update_tasks (λ _ k t, bool_decide (k = id) && guard t) (λ _ _ t, f t).

(** [UPDATE workflow_runs SET f WHERE id=$1 AND guard]. *)
Definition update_run (id : uuid) (guard : RunRow → bool) (f : RunRow → RunRow)
    : Stmt (list (uuid * RunRow)) :=
  update_runs (λ k r, bool_decide (k = id) && guard r) f.

(** [UPDATE task_attempts SET f WHERE task_run_id=$1 AND attempt_number=$2 AND
    guard]. *)
Definition update_attempt (id : uuid) (number : Z) (guard : AttemptRow → bool)
    (f : AttemptRow → AttemptRow) : Stmt unit :=
  update_attempts (λ k a, bool_decide (k = (id, number)) && guard a) f.

(** [SELECT t.*, r.* FROM task_runs t JOIN workflow_runs r ON
    r.id=t.workflow_run_id WHERE t.id=$1 AND guard]. *)
Definition select_task_run (id : uuid) (guard : TaskRow → RunRow → bool)
    : Stmt (option (TaskRow * RunRow)) :=
  sql_select (λ _ _ db,
    t ← task_runs db !! id;
    r ← workflow_runs db !! t_workflow_run_id t;
    if guard t r then Some (t, r) else None).

(** [UPDATE workflow_runs SET status='FAILED',completed_at=now() WHERE id=$1
    AND status='RUNNING'] and the like. *)
Definition run_running (r : RunRow) : bool := bool_decide (r_status r = RUN_RUNNING).

Definition finish_run (now : time) (st : run_status) (r : RunRow) : RunRow :=
  r<| r_status := st |><| r_completed_at := Some now |>.

(** [INSERT INTO task_attempts(task_run_id,attempt_number,worker_id,
    scheduled_at)]; [started_at] defaults to now(). *)
Definition insert_attempt (now : time) (id : uuid) (number : Z) (worker : string)
    (scheduled : time) : Stmt unit := λ env n db,
  if bool_decide (is_Some (task_attempts db !! (id, number))) then
    Err (ErrPg unique_violation "task_attempts_task_run_id_attempt_number_key")
  else
    Ok (tt, db<| task_attempts ::= <[(id, number) :=
      {| a_worker_id := worker; a_scheduled_at := scheduled; a_executing_at := None;
         a_started_at := now; a_ended_at := None; a_exit_status := None;
         a_error_type := None; a_error_message := None; a_trace_id := None;
         a_artifact_uri := None; a_log_artifact_uri := None |}]> |>).

(** * The new values of an updated task, one function per [SET] clause *)

Definition leased_row (worker : string) (expires now : time) (t : TaskRow) : TaskRow :=
  t<| t_status := LEASED |><| t_lease_owner := Some worker |>
   <| t_lease_expires_at := Some expires |><| t_attempt_count ::= Z.succ |>
   <| t_updated_at := now |>.

Definition completed_row (output : json) (uri : string) (now : time) (t : TaskRow) : TaskRow :=
  t<| t_status := SUCCEEDED |><| t_output := Some output |>
   <| t_output_artifact_uri := nullif_empty uri |><| t_lease_expires_at := None |>
   <| t_updated_at := now |>.

Definition ready_row (now : time) (c : TaskRow) : TaskRow :=
  c<| t_status := READY |><| t_available_at := now |><| t_updated_at := now |>.

Definition failed_row (st : task_status) (available now : time) (t : TaskRow) : TaskRow :=
  t<| t_status := st |><| t_available_at := available |><| t_lease_owner := None |>
   <| t_lease_expires_at := None |><| t_updated_at := now |>.

(** * Leases *)

Definition LeaseTask (taskID workerID : string) (lease : Z) : M TaskRun :=
  in_tx (λ now,
    expires ← nowPlus lease;
    rows ← tx_stmt (update_task taskID (λ t, bool_decide (t_status t = DISPATCHING))
      (leased_row workerID expires now));
    match rows with
    | [] => throw ErrLeaseLost
    | (id, t) :: _ =>
        run ← tx_stmt (sql_select (λ _ _ db, workflow_runs db !! t_workflow_run_id t));
        match run with
        | None => throw ErrNoRows
        | Some r =>
            tx_stmt (insert_attempt now id (t_attempt_count t) workerID (t_available_at t)) ;;
            trace ← trace_parent;
            tx_stmt (insert_outbox now "task_run" id "task.leased"
              (JObj [("workflow_run_id", JStr (t_workflow_run_id t)); ("task_run_id", JStr id);
                     ("task_key", JStr (t_task_key t)); ("worker_id", JStr workerID);
                     ("attempt", JNum (t_attempt_count t))]) (Some trace)) ;;
            mret (Commit (mkTaskRun id t (r_input_artifact_uri r)))
        end
    end).

Definition StartTask (taskID workerID : string) : M TaskRun :=
  in_tx (λ now,
    row ← tx_stmt (select_task_run taskID (λ t _,
            bool_decide (t_status t = LEASED) && holds_lease now workerID t));
    match row with
    | None => throw ErrLeaseLost
    | Some (_, r) =>
        if negb (run_running r) then throw ErrLeaseLost
        else
          rows ← tx_stmt (update_task taskID
            (λ t, bool_decide (t_status t = LEASED) && holds_lease now workerID t)
            (λ t, t<| t_status := RUNNING |><| t_updated_at := now |>));
          match rows with
          | [] => throw ErrLeaseLost
          | (id, t) :: _ =>
              tx_stmt (update_attempt id (t_attempt_count t)
                (λ a, bool_decide (a_executing_at a = None))
                (λ a, a<| a_executing_at := Some now |>)) ;;
              mret (Commit (mkTaskRun id t None))
          end
    end).

(** The renewal and the cancellation flag of [HeartbeatTask] come from one
    statement on the pool; its [now()] is that statement's. *)
Definition heartbeat_stmt (taskID workerID : string) (expires : time) : Stmt (option bool) :=
  λ env n db,
    match update_task taskID
            (λ t, leased_or_running t && holds_lease (env_now env n) workerID t)
            (λ t, t<| t_lease_expires_at := Some expires |><| t_updated_at := env_now env n |>)
            env n db with
    | Err e => Err e
    | Ok (rows, db') =>
        Ok ('(_, t) ← head rows;
            r ← workflow_runs db !! t_workflow_run_id t;
            Some (bool_decide (r_status r = RUN_CANCELLED)), db')
    end.

Definition HeartbeatTask (taskID workerID : string) (lease : Z) : M (time * bool) :=
  expires ← nowPlus lease;
  row ← pool_stmt (heartbeat_stmt taskID workerID expires);
  match row with
  | None => throw ErrLeaseLost
  | Some cancelled => mret (expires, cancelled)
  end.

(** * Completion *)

(** The tasks a task run depends on, [task_dependencies d WHERE
    d.task_run_id=child]. *)
Definition upstreams (db : Db) (child : uuid) : list uuid :=
  (λ kv, kv.1.2) <$> filter (λ kv, kv.1.1 = child) (map_to_list (task_dependencies db)).

(** [EXISTS(SELECT 1 FROM task_dependencies d JOIN task_runs upstream ON
    upstream.id=d.depends_on_task_run_id WHERE d.task_run_id=child AND
    upstream.status<>'SUCCEEDED')]. *)
Definition unmet (db : Db) (child : uuid) : bool :=
  existsb (λ u, match task_runs db !! u with
                | Some up => bool_decide (t_status up ≠ SUCCEEDED)
                | None => false
                end) (upstreams db child).

(** The [WHERE] clause that makes blocked tasks ready once [done] succeeded. *)
Definition unblocked_by (runID done : uuid) (db : Db) (child : uuid) (c : TaskRow) : bool :=
  bool_decide (t_workflow_run_id c = runID) && bool_decide (t_status c = BLOCKED)
  && bool_decide (is_Some (task_dependencies db !! (child, done))) && negb (unmet db child).

(** [SELECT count( * ) FROM task_runs WHERE workflow_run_id=$1 AND
    status<>'SUCCEEDED']. *)
Definition count_remaining (runID : uuid) : Stmt nat :=
  sql_select (λ env n db, length (rows_where (env_rank env n)
    (λ _ t, bool_decide (t_workflow_run_id t = runID) && bool_decide (t_status t ≠ SUCCEEDED))
    (task_runs db))).

Definition task_payload (runID id : uuid) (key : string) (more : list (string * json)) : json :=
  JObj ([("workflow_run_id", JStr runID); ("task_run_id", JStr id); ("task_key", JStr key)]
        ++ more).

Definition complete_tx (taskID workerID : string) (output : json) (artifactURI : string)
    (logArtifactURIs : list string) (now : time) : M (outcome TaskRun) :=
  row ← tx_stmt (select_task_run taskID (λ t _,
          bool_decide (t_status t = RUNNING) && holds_lease now workerID t));
  match row with
  | None => throw ErrLeaseLost
  | Some (_, r) =>
      if negb (run_running r) then throw ErrLeaseLost
      else
        rows ← tx_stmt (update_task taskID
          (λ t, bool_decide (t_status t = RUNNING) && holds_lease now workerID t)
          (completed_row output artifactURI now));
        match rows with
        | [] => throw ErrLeaseLost
        | (id, t) :: _ =>
            let logArtifactURI := default "" (head logArtifactURIs) in
            tx_stmt (update_attempt id (t_attempt_count t) (λ _, true)
              (λ a, a<| a_ended_at := Some now |><| a_exit_status := Some "SUCCEEDED" |>
                     <| a_artifact_uri := nullif_empty artifactURI |>
                     <| a_log_artifact_uri := nullif_empty logArtifactURI |>)) ;;
            children ← tx_stmt (update_tasks (unblocked_by (t_workflow_run_id t) id)
              (λ _ _, ready_row now));
            mfor children (λ c,
              trace ← trace_parent;
              tx_stmt (insert_outbox now "task_run" c.1 "task.ready"
                (task_payload (t_workflow_run_id t) c.1 (t_task_key c.2) []) (Some trace))) ;;
            trace ← trace_parent;
            tx_stmt (insert_outbox now "task_run" id "task.succeeded"
              (task_payload (t_workflow_run_id t) id (t_task_key t)
                [("attempt", JNum (t_attempt_count t))]) (Some trace)) ;;
            remaining ← tx_stmt (count_remaining (t_workflow_run_id t));
            (if bool_decide (remaining = 0%nat) then
               tx_stmt (update_run (t_workflow_run_id t) run_running
                          (finish_run now RUN_SUCCEEDED)) ;; mret tt
             else mret tt) ;;
            mret (Commit (mkTaskRun id t None))
        end
  end.

Definition CompleteTask (taskID workerID : string) (output : option json)
    (artifactURI : string) (logArtifactURIs : list string) : M TaskRun :=
  let output := default empty_object output in
  in_tx (complete_tx taskID workerID output artifactURI logArtifactURIs).

(** * Failure *)

(** The status a failed or expired attempt moves its task to. *)
Definition failure_status (run : run_status) (may_retry : bool) : task_status :=
  if bool_decide (run = RUN_CANCELLED) then CANCELLED
  else if may_retry then RETRY_WAIT else DEAD.

(** [available := time.Now()], or the end of the retry delay. *)
Definition available_at (status : task_status) (attempt : Z) : M time :=
  available ← time_now;
  if bool_decide (status = RETRY_WAIT) then nowPlus (RetryDelay attempt) else mret available.

Definition failure_event (st : task_status) : string :=
  match st with
  | CANCELLED => "task.cancelled"
  | DEAD => "task.dead"
  | _ => "task.retry_wait"
  end.

(** [UPDATE task_runs SET status='CANCELLED',updated_at=now() WHERE
    workflow_run_id=$1 AND status IN (...)]. *)
Definition cancel_not_started (now : time) (runID : uuid) : Stmt (list (uuid * TaskRow)) :=
  update_tasks (λ _ _ t, bool_decide (t_workflow_run_id t = runID) && not_started t)
    (λ _ _ t, t<| t_status := CANCELLED |><| t_updated_at := now |>).

Definition FailTask (taskID workerID : string) (f : Failure) : M TaskRun :=
  in_tx (λ now,
    row ← tx_stmt (select_task_run taskID (λ t _,
            leased_or_running t && holds_lease now workerID t));
    match row with
    | None => throw ErrLeaseLost
    | Some (t0, r) =>
        let runID := t_workflow_run_id t0 in
        let attempt := t_attempt_count t0 in
        let status := failure_status (r_status r)
          (Retryable f && bool_decide (attempt < t_maximum_attempts t0)) in
        available ← available_at status attempt;
        rows ← tx_stmt (update_task taskID (λ t, bool_decide (t_lease_owner t = Some workerID))
          (failed_row status available now));
        match rows with
        | [] => throw ErrNoRows
        | (id, t) :: _ =>
            tx_stmt (update_attempt taskID attempt (λ _, true)
              (λ a, a<| a_ended_at := Some now |>
                     <| a_exit_status := Some (task_status_text status) |>
                     <| a_error_type := Some (ErrorType f) |>
                     <| a_error_message := Some (ErrorMessage f) |>
                     <| a_trace_id := nullif_empty (TraceID f) |>)) ;;
            (if bool_decide (status = DEAD) then
               tx_stmt (update_run runID run_running (finish_run now RUN_FAILED)) ;;
               tx_stmt (cancel_not_started now runID) ;;
               mret tt
             else mret tt) ;;
            trace ← trace_parent;
            tx_stmt (insert_outbox now "task_run" taskID (failure_event status)
              (task_payload runID taskID (t_task_key t0)
                [("attempt", JNum attempt); ("error_type", JStr (ErrorType f));
                 ("error_message", JStr (ErrorMessage f)); ("available_at", JTime available)])
              (Some trace)) ;;
            mret (Commit (mkTaskRun id t None))
        end
    end).

(** * Dead letters *)

(** The state a cancelled task is rebuilt to: the [CASE] of [ReplayDead]. *)
Definition rebuilt_status (now : time) (db : Db) (id : uuid) (t : TaskRow) : task_status :=
  if unmet db id then BLOCKED
  else if bool_decide (now < t_available_at t) then RETRY_WAIT
  else READY.

Definition ReplayDead (tenantID userID taskID : string) : M unit :=
  in_tx (λ now,
    row ← tx_stmt (select_task_run taskID (λ t r,
            bool_decide (r_tenant_id r = tenantID) && bool_decide (t_status t = DEAD)));
    match row with
    | None => throw ErrNotFound
    | Some (t, r) =>
        let runID := t_workflow_run_id t in
        tx_stmt (update_run runID (λ r, bool_decide (r_status r = RUN_FAILED))
          (λ r, r<| r_status := RUN_RUNNING |><| r_completed_at := None |>)) ;;
        tx_stmt (update_task taskID (λ _, true)
          (λ t, t<| t_status := READY |><| t_available_at := now |>
                 <| t_maximum_attempts := Z.max (t_maximum_attempts t) (t_attempt_count t + 1) |>
                 <| t_updated_at := now |>)) ;;
        tx_stmt (update_tasks
          (λ _ _ t, bool_decide (t_workflow_run_id t = runID) && bool_decide (t_status t = CANCELLED))
          (λ db k t, t<| t_status := rebuilt_status now db k t |><| t_updated_at := now |>)) ;;
        tx_stmt (insert_outbox now "task_run" taskID "task.replayed"
          (task_payload runID taskID (t_task_key t) []) (r_trace_parent r)) ;;
        tx_stmt (insert_audit now tenantID (nullableUUID userID) "task.replay" "task_run" taskID
          empty_object) ;;
        mret (Commit tt)
    end).

(** [DeadLetter]: the dead tasks of a tenant, most recently updated first. *)
Definition DeadLetter (tenantID : string) : M (list (uuid * TaskRow)) :=
  pool_stmt (sql_select (λ env n db,
    order_by (λ kt, - t_updated_at kt.2)
      (rows_where (env_rank env n)
        (λ _ t, bool_decide (t_status t = DEAD) &&
                match workflow_runs db !! t_workflow_run_id t with
                | Some r => bool_decide (r_tenant_id r = tenantID)
                | None => false
                end) (task_runs db)))).

(** * Ownership checks and worker heartbeats *)

Definition TaskBelongsToTenant (taskID tenantID : string) : M unit :=
  exists_ ← pool_stmt (select_task_run taskID (λ _ r, bool_decide (r_tenant_id r = tenantID)));
  match exists_ with
  | None => throw ErrNotFound
  | Some _ => mret tt
  end.

Definition ActiveTaskLeaseBelongsToWorker (taskID tenantID workerID : string) : M unit :=
  row ← pool_stmt (λ env n db,
    match select_task_run taskID (λ _ _, true) env n db with
    | Ok (Some (t, r), db') =>
        Ok (Some (r_tenant_id r,
                  leased_or_running t && holds_lease (env_now env n) workerID t && run_running r),
            db')
    | Ok (None, db') => Ok (None, db')
    | Err e => Err e
    end);
  match row with
  | None => throw ErrNotFound
  | Some (taskTenantID, active) =>
      if bool_decide (taskTenantID ≠ tenantID) then throw ErrNotFound
      else if negb active then throw ErrLeaseLost
      else mret tt
  end.

(** [WorkerHeartbeat]: insert or overwrite the row of (tenant, worker). *)
Definition WorkerHeartbeat (tenantID workerID : string) (handlers : list string) (active : Z)
    (metadata : option json) : M unit :=
  pool_stmt (sql_check (λ db, bool_decide (tenantID ∈ tenants db)) foreign_key_violation
      "worker_heartbeats_tenant_id_fkey"
    (sql_check (λ _, int4 active) out_of_range "integer out of range"
      (λ env n db, Ok (tt, db<| worker_heartbeats ::= <[(tenantID, workerID) :=
        {| h_handlers := handlers; h_active_tasks := active;
           h_metadata := default empty_object metadata;
           h_last_seen_at := env_now env n |}]> |>)))).

(** [ListWorkers]: the workers of a tenant, most recently seen first. *)
Definition ListWorkers (tenantID : string) : M (list (string * HeartbeatRow)) :=
  pool_stmt (sql_select (λ env n db,
    order_by (λ kh, - h_last_seen_at kh.2)
      (prod_map snd id <$>
        rows_where (env_rank env n ∘ snd) (λ k _, bool_decide (k.1 = tenantID))
          (worker_heartbeats db)))).
