(* ===== verification/StoreWorkflow.v ===== *)
(** Definitions and runs: [internal/storage/postgres.go].

    Creation of workflow definitions and versions, creation of runs with their
    tasks and dependency edges, cancellation, operator retry, and the read
    operations.  Constraints of the schema that a statement can violate are
    part of the statement. *)
From S2P Require Import Prelude Model Dag State Json Schema Sql StoreWorker.

(** * Text search and error classification *)

(** [contains]: the offsets the loop tries are [0 .. len(s)-len(sub)]. *)
Definition contains (s sub : string) : bool :=
  existsb (λ i, String.eqb (String.substring i (String.length sub) s) sub)
    (seq 0 (S (String.length s) - String.length sub)).

Definition isUnique (e : error) : bool :=
  bool_decide (e = ErrConflict) || contains (error_text e) "SQLSTATE 23505".

(** * Definitions *)

(** [workflow.Definition]. *)
Record Definition_ := mkDefinition_ {
  def_ID : uuid;
  def_TenantID : uuid;
  def_Name : string;
  def_Version : Z;
  def_DAG : DAG;
  def_CreatedAt : time
}.

Definition empty_dag : DAG := {| dag_Name := EmptyString; Tasks := ∅ |}.

(** The row as the code scans it; [_ = json.Unmarshal(raw,&d.DAG)]. *)
Definition scan_definition (id : uuid) (d : DefinitionRow) : Definition_ :=
  {| def_ID := id; def_TenantID := d_tenant_id d; def_Name := d_name d;
     def_Version := d_version d; def_DAG := default empty_dag (unmarshal_dag (d_dag_spec d));
     def_CreatedAt := d_created_at d |}.

(** [workflow.ValidateDAG(dag)]. *)
Definition validate (dag : DAG) : M unit :=
  rank1 ← range_rank;
  rank2 ← range_rank;
  match ValidateDAG rank1 rank2 dag with
  | Some e => throw (ErrText (dag_error_text e))
  | None => mret tt
  end.

(** A nullable reference to [users]. *)
Definition user_ok (db : Db) (u : option uuid) : bool :=
  match u with None => true | Some u => bool_decide (is_Some (users db !! u)) end.

(** [INSERT INTO workflow_definitions(tenant_id,name,version,dag_spec,
    created_by) ... RETURNING ...]. *)
Definition insert_definition (now : time) (tenant name : string) (version : Z) (dag_spec : json)
    (created_by : option uuid) : Stmt Definition_ :=
  sql_check (λ _, int4 version) out_of_range "integer out of range"
  (sql_check (λ _, bool_decide (0 < version)) check_violation
     "workflow_definitions_version_check"
  (sql_check (λ db, bool_decide (map_Forall (λ _ d,
       ¬ (d_tenant_id d = tenant ∧ d_name d = name ∧ d_version d = version))
       (workflow_definitions db))) unique_violation
     "workflow_definitions_tenant_id_name_version_key"
  (sql_check (λ db, bool_decide (tenant ∈ tenants db)) foreign_key_violation
     "workflow_definitions_tenant_id_fkey"
  (sql_check (λ db, user_ok db created_by) foreign_key_violation
     "workflow_definitions_created_by_fkey"
  (λ env n db,
     let id := env_uuid env n in
     let row := {| d_tenant_id := tenant; d_name := name; d_version := version;
                   d_dag_spec := dag_spec; d_created_by := created_by; d_created_at := now |} in
     if bool_decide (is_Some (workflow_definitions db !! id)) then
       Err (ErrPg unique_violation "workflow_definitions_pkey")
     else Ok (scan_definition id row, db<| workflow_definitions ::= <[id := row]> |>)))))).

Definition CreateWorkflow (tenantID userID name : string) (dag : DAG) : M Definition_ :=
  validate dag ;;
  let name := if bool_decide (name = "") then dag_Name dag else name in
  if bool_decide (name = "") then throw (ErrText "name is required")
  else
    r ← try (pool_stmt (λ env n,
          insert_definition (env_now env n) tenantID name 1 (marshal_dag dag)
            (nullableUUID userID) env n));
    match r with
    | Err e => throw (if isUnique e then ErrConflict else e)
    | Ok d =>
        try (pool_stmt (λ env n,
          insert_audit (env_now env n) tenantID (nullableUUID userID) "workflow.create" "workflow"
            (def_ID d) empty_object env n)) ;;
        mret d
    end.

(** [SELECT ... FROM workflow_definitions WHERE id=$1 AND tenant_id=$2]. *)
Definition select_definition (id tenantID : string) : Stmt (option DefinitionRow) :=
  sql_select (λ _ _ db,
    d ← workflow_definitions db !! id;
    if bool_decide (d_tenant_id d = tenantID) then Some d else None).

Definition same_name (tenantID name : string) (d : DefinitionRow) : bool :=
  bool_decide (d_tenant_id d = tenantID) && bool_decide (d_name d = name).

Definition CreateVersion (tenantID userID definitionID : string) (dag : DAG) : M Definition_ :=
  validate dag ;;
  in_tx (λ now,
    row ← tx_stmt (select_definition definitionID tenantID);
    match row with
    | None => throw ErrNotFound
    | Some d0 =>
        latest ← tx_stmt (sql_select (λ env n db, head (order_by (λ kd, - d_version kd.2)
          (rows_where (env_rank env n) (λ _ d, same_name tenantID (d_name d0) d)
            (workflow_definitions db)))));
        match latest with
        | None => throw ErrNoRows
        | Some (_, l) =>
            d ← tx_stmt (insert_definition now tenantID (d_name d0) (d_version l + 1)
                  (marshal_dag dag) (nullableUUID userID));
            tx_stmt (undetermined "$4"
              (insert_audit now tenantID (nullableUUID userID) "workflow.version" "workflow"
                (def_ID d) (JObj [("version", JNum (def_Version d))]))) ;;
            mret (Commit d)
        end
    end).

(** [SELECT DISTINCT ON (name) ... ORDER BY name,version DESC]: of each name the
    row with the highest version; names are compared by the collation. *)
Definition latest_version (db : Db) (d : DefinitionRow) : bool :=
  bool_decide (map_Forall (λ _ d', same_name (d_tenant_id d) (d_name d) d' → d_version d' ≤ d_version d)
    (workflow_definitions db)).

Definition ListWorkflows (tenantID : string) : M (list Definition_) :=
  pool_stmt (sql_select (λ env n db,
    (λ kd, scan_definition kd.1 kd.2) <$>
      order_by (λ kd, env_rank env n (d_name kd.2))
        (rows_where (env_rank env n)
          (λ _ d, bool_decide (d_tenant_id d = tenantID) && latest_version db d)
          (workflow_definitions db)))).

Definition GetWorkflow (tenantID id : string) : M Definition_ :=
  row ← pool_stmt (select_definition id tenantID);
  match row with
  | None => throw ErrNotFound
  | Some d => mret (scan_definition id d)
  end.

(** * Creation of runs *)

(** [SELECT object_uri FROM artifacts WHERE id=$1 AND tenant_id=$2 AND
    kind='input' AND status='READY']. *)
Definition select_input_artifact (id tenantID : string) : Stmt (option string) :=
  sql_select (λ _ _ db,
    f ← artifacts db !! id;
    if bool_decide (f_tenant_id f = tenantID) && bool_decide (f_kind f = "input")
       && bool_decide (f_status f = "READY")
    then Some (f_object_uri f) else None).

Definition same_idempotency (tenantID key : string) (r : RunRow) : bool :=
  bool_decide (r_tenant_id r = tenantID) && bool_decide (r_idempotency_key r = key).

(** [INSERT INTO workflow_runs(...) ... ON CONFLICT(tenant_id,idempotency_key)
    DO NOTHING RETURNING ...]; [None] when the conflict suppressed the row. *)
Definition insert_run (row : RunRow) : Stmt (option (uuid * RunRow)) := λ env n db,
  let id := env_uuid env n in
  if bool_decide (map_Forall (λ _ r,
       same_idempotency (r_tenant_id row) (r_idempotency_key row) r = false) (workflow_runs db))
  then
    if bool_decide (is_Some (workflow_runs db !! id)) then
      Err (ErrPg unique_violation "workflow_runs_pkey")
    else if negb (bool_decide (r_tenant_id row ∈ tenants db)) then
      Err (ErrPg foreign_key_violation "workflow_runs_tenant_id_fkey")
    else if negb (bool_decide (is_Some (workflow_definitions db !! r_workflow_definition_id row)))
    then Err (ErrPg foreign_key_violation "workflow_runs_workflow_definition_id_fkey")
    else Ok (Some (id, row), db<| workflow_runs ::= <[id := row]> |>)
  else Ok (None, db).

(** [INSERT INTO task_runs(id,workflow_run_id,task_key,...)]. *)
Definition insert_task (id : uuid) (row : TaskRow) : Stmt unit :=
  sql_check (λ _, int4 (t_priority row) && int4 (t_maximum_attempts row)
                  && int4 (t_timeout_seconds row)) out_of_range "integer out of range"
  (sql_check (λ _, bool_decide (0 < t_maximum_attempts row)) check_violation
     "task_runs_maximum_attempts_check"
  (sql_check (λ _, bool_decide (0 < t_timeout_seconds row)) check_violation
     "task_runs_timeout_seconds_check"
  (sql_check (λ db, bool_decide (task_runs db !! id = None)) unique_violation "task_runs_pkey"
  (sql_check (λ db, bool_decide (map_Forall (λ _ t,
       ¬ (t_workflow_run_id t = t_workflow_run_id row ∧ t_task_key t = t_task_key row))
       (task_runs db))) unique_violation "task_runs_workflow_run_id_task_key_key"
  (sql_check (λ db, bool_decide (is_Some (workflow_runs db !! t_workflow_run_id row)))
     foreign_key_violation "task_runs_workflow_run_id_fkey"
  (λ _ _ db, Ok (tt, db<| task_runs ::= <[id := row]> |>))))))).

Definition invalid_text : string := "22P02".

(** [INSERT INTO task_dependencies(workflow_run_id,task_run_id,
    depends_on_task_run_id)]; the empty text is not a UUID. *)
Definition insert_dependency (runID task dep : uuid) : Stmt unit :=
  sql_check (λ _, negb (bool_decide (task = "")) && negb (bool_decide (dep = ""))) invalid_text
     "invalid input syntax for type uuid"
  (sql_check (λ _, bool_decide (task ≠ dep)) check_violation "task_dependencies_check"
  (sql_check (λ db, bool_decide (task_dependencies db !! (task, dep) = None)) unique_violation
     "task_dependencies_pkey"
  (sql_check (λ db, bool_decide (is_Some (workflow_runs db !! runID)))
     foreign_key_violation "task_dependencies_workflow_run_id_fkey"
  (sql_check (λ db, bool_decide (is_Some (task_runs db !! task)))
     foreign_key_violation "task_dependencies_task_run_id_fkey"
  (sql_check (λ db, bool_decide (is_Some (task_runs db !! dep)))
     foreign_key_violation "task_dependencies_depends_on_task_run_id_fkey"
  (λ _ _ db, Ok (tt, db<| task_dependencies ::= <[(task, dep) := runID]> |>))))))).

(** [ids[key] = uuid.NewString()] for every key. *)
Fixpoint assign_ids (keys : list string) (ids : gmap string uuid) : M (gmap string uuid) :=
  match keys with
  | [] => mret ids
  | key :: keys => id ← new_uuid; assign_ids keys (<[key := id]> ids)
  end.

(** [ids[key]]: the zero value of a missing key is the empty string. *)
Definition id_of (ids : gmap string uuid) (key : string) : uuid := default "" (ids !! key).

Definition initial_status (spec : TaskSpec) : task_status :=
  if bool_decide (DependsOn spec = []) then READY else BLOCKED.

(** The row of a new task; the remaining columns have their defaults. *)
Definition new_task (now : time) (runID : uuid) (input : json) (key : string) (spec : TaskSpec)
    : TaskRow :=
  let spec := WithDefaults spec in
  {| t_workflow_run_id := runID; t_task_key := key; t_handler := Handler spec;
     t_status := initial_status spec; t_priority := Priority spec; t_available_at := now;
     t_attempt_count := 0; t_maximum_attempts := MaximumAttempts spec;
     t_timeout_seconds := TimeoutSeconds spec; t_lease_owner := None;
     t_lease_expires_at := None; t_input := input; t_output := None;
     t_output_artifact_uri := None; t_created_at := now; t_updated_at := now |}.

(** The two loops of [CreateRun] that insert the tasks and their edges. *)
Definition insert_tasks (now : time) (runID : uuid) (input : json) (ids : gmap string uuid)
    (l : list (string * TaskSpec)) : M unit :=
  mfor l (λ ks, tx_stmt (insert_task (id_of ids ks.1) (new_task now runID input ks.1 ks.2))).

Definition insert_dependencies (runID : uuid) (ids : gmap string uuid)
    (l : list (string * TaskSpec)) : M unit :=
  mfor l (λ ks, mfor (DependsOn ks.2) (λ dep,
    tx_stmt (insert_dependency runID (id_of ids ks.1) (id_of ids dep)))).

Definition new_run (now : time) (tenantID definitionID : string) (version : Z) (input : json)
    (inputArtifactURI idempotencyKey trace : string) : RunRow :=
  {| r_tenant_id := tenantID; r_workflow_definition_id := definitionID;
     r_workflow_version := version; r_status := RUN_RUNNING; r_input := input;
     r_input_artifact_uri := nullif_empty inputArtifactURI;
     r_idempotency_key := idempotencyKey; r_trace_parent := Some trace;
     r_started_at := Some now; r_completed_at := None; r_created_at := now |}.

Definition getRunTx (tenantID idempotencyKey : string) : M (uuid * RunRow) :=
  row ← tx_stmt (sql_select (λ env n db, head (rows_where (env_rank env n)
          (λ _ r, same_idempotency tenantID idempotencyKey r) (workflow_runs db))));
  match row with
  | None => throw ErrNoRows
  | Some r => mret r
  end.

(** The input artifact is looked up before the run exists and attached to it
    afterwards. *)
Definition input_artifact_uri (inputArtifactID tenantID : string) : M string :=
  if bool_decide (inputArtifactID = "") then mret ""
  else
    row ← tx_stmt (select_input_artifact inputArtifactID tenantID);
    match row with
    | None => throw ErrNotFound
    | Some uri => mret uri
    end.

Definition attach_artifact (inputArtifactID runID : string) : M unit :=
  if bool_decide (inputArtifactID = "") then mret tt
  else
    rows ← tx_stmt (update_artifacts
      (λ k f, bool_decide (k = inputArtifactID) && bool_decide (f_workflow_run_id f = None))
      (λ f, f<| f_workflow_run_id := Some runID |>));
    if bool_decide (length rows = 1%nat) then mret tt else throw ErrConflict.

(** The statements after the run row exists: artifact, tasks, edges, event and
    audit record. *)
Definition populate_run (now : time) (tenantID userID definitionID inputArtifactID : string)
    (input : json) (trace : string) (dag : DAG) (runID : uuid) : M unit :=
  attach_artifact inputArtifactID runID ;;
  rank1 ← range_rank;
  ids ← assign_ids (range_map rank1 (Tasks dag)).*1 ∅;
  rank2 ← range_rank;
  insert_tasks now runID input ids (range_map rank2 (Tasks dag)) ;;
  rank3 ← range_rank;
  insert_dependencies runID ids (range_map rank3 (Tasks dag)) ;;
  tx_stmt (insert_outbox now "workflow_run" runID "workflow.run.created"
    (JObj [("workflow_run_id", JStr runID); ("definition_id", JStr definitionID);
           ("status", JStr "RUNNING")]) (Some trace)) ;;
  tx_stmt (insert_audit now tenantID (nullableUUID userID) "run.create" "workflow_run" runID
    empty_object).

Definition CreateRun (tenantID userID definitionID idempotencyKey : string) (input : option json)
    (inputArtifactIDs : list string) : M ((uuid * RunRow) * bool) :=
  if bool_decide (idempotencyKey = "") then throw (ErrText "idempotency key is required")
  else
    let input := default empty_object input in
    let inputArtifactID := default "" (head inputArtifactIDs) in
    in_tx (λ now,
      uri ← input_artifact_uri inputArtifactID tenantID;
      def ← tx_stmt (select_definition definitionID tenantID);
      match def with
      | None => throw ErrNotFound
      | Some d =>
          match unmarshal_dag (d_dag_spec d) with
          | None => throw (ErrText "json: cannot unmarshal")
          | Some dag =>
              trace ← trace_parent;
              row ← tx_stmt (insert_run (new_run now tenantID definitionID (d_version d) input uri
                      idempotencyKey trace));
              match row with
              | None =>
                  existing ← getRunTx tenantID idempotencyKey;
                  mret (Abandon (existing, false))
              | Some (runID, run) =>
                  populate_run now tenantID userID definitionID inputArtifactID input trace dag
                    runID ;;
                  mret (Commit ((runID, run), true))
              end
          end
      end).

(** * Cancellation and operator retry *)

(** [status NOT IN ('SUCCEEDED','FAILED','CANCELLED')]. *)
Definition run_open (r : RunRow) : bool :=
  match r_status r with RUN_SUCCEEDED | RUN_FAILED | RUN_CANCELLED => false | _ => true end.

(** [SELECT true FROM workflow_runs WHERE id=$1 AND tenant_id=$2]. *)
Definition select_run (id tenantID : string) : Stmt (option RunRow) :=
  sql_select (λ _ _ db,
    r ← workflow_runs db !! id;
    if bool_decide (r_tenant_id r = tenantID) then Some r else None).

Definition CancelRun (tenantID userID id : string) : M unit :=
  in_tx (λ now,
    rows ← tx_stmt (update_run id (λ r, bool_decide (r_tenant_id r = tenantID) && run_open r)
      (finish_run now RUN_CANCELLED));
    match rows with
    | [] =>
        e ← try (tx_stmt (select_run id tenantID));
        match e with
        | Ok None => throw ErrNotFound
        | _ => throw ErrConflict
        end
    | _ :: _ =>
        tx_stmt (cancel_not_started now id) ;;
        tx_stmt (insert_audit now tenantID (nullableUUID userID) "run.cancel" "workflow_run" id
          empty_object) ;;
        mret (Commit tt)
    end).

Definition RetryRun (tenantID userID id : string) : M unit :=
  in_tx (λ now,
    row ← tx_stmt (select_run id tenantID);
    match row with
    | None => throw ErrNotFound
    | Some _ =>
        rows ← tx_stmt (update_tasks
          (λ _ _ t, bool_decide (t_workflow_run_id t = id) && bool_decide (t_status t = DEAD))
          (λ _ _ t, t<| t_status := READY |><| t_available_at := now |>
            <| t_maximum_attempts := Z.max (t_maximum_attempts t) (t_attempt_count t + 1) |>
            <| t_lease_owner := None |><| t_lease_expires_at := None |>
            <| t_updated_at := now |>));
        match rows with
        | [] => throw ErrConflict
        | _ :: _ =>
            tx_stmt (update_run id (λ _, true)
              (λ r, r<| r_status := RUN_RUNNING |><| r_completed_at := None |>)) ;;
            tx_stmt (insert_audit now tenantID (nullableUUID userID) "run.retry" "workflow_run" id
              empty_object) ;;
            mret (Commit tt)
        end
    end).

(** * Reads *)

(** [workflow.TaskAttempt], absent texts as the empty string. *)
Record TaskAttempt := mkTaskAttempt {
  ta_AttemptNumber : Z;
  ta_WorkerID : string;
  ta_ScheduledAt : time;
  ta_ExecutingAt : option time;
  ta_StartedAt : time;
  ta_EndedAt : option time;
  ta_ExitStatus : string;
  ta_ErrorType : string;
  ta_ErrorMessage : string;
  ta_TraceID : string;
  ta_ArtifactURI : string;
  ta_LogArtifactURI : string;
  ta_ArtifactDownloadURL : string;
  ta_LogArtifactDownloadURL : string
}.

Definition coalesce (v : option string) : string := default "" v.

Definition scan_attempt (number : Z) (a : AttemptRow) : TaskAttempt :=
  {| ta_AttemptNumber := number; ta_WorkerID := a_worker_id a;
     ta_ScheduledAt := a_scheduled_at a; ta_ExecutingAt := a_executing_at a;
     ta_StartedAt := a_started_at a; ta_EndedAt := a_ended_at a;
     ta_ExitStatus := coalesce (a_exit_status a); ta_ErrorType := coalesce (a_error_type a);
     ta_ErrorMessage := coalesce (a_error_message a); ta_TraceID := coalesce (a_trace_id a);
     ta_ArtifactURI := coalesce (a_artifact_uri a);
     ta_LogArtifactURI := coalesce (a_log_artifact_uri a);
     ta_ArtifactDownloadURL := ""; ta_LogArtifactDownloadURL := "" |}.

(** [workflow.TaskRun] and [workflow.Run] as [GetRun] fills them; the download
    URLs are left to the API. *)
Record TaskView := mkTaskView {
  tv_id : uuid;
  tv_row : TaskRow;
  tv_LogArtifactURI : option string;
  tv_OutputArtifactDownloadURL : string;
  tv_LogArtifactDownloadURL : string;
  tv_DependsOn : list string;
  tv_Attempts : list TaskAttempt
}.

Record RunView := mkRunView {
  rv_id : uuid;
  rv_row : RunRow;
  rv_InputArtifactDownloadURL : string;
  rv_Tasks : list TaskView
}.

(** [(SELECT log_artifact_uri FROM task_attempts WHERE task_run_id=... AND
    log_artifact_uri IS NOT NULL ORDER BY attempt_number DESC LIMIT 1)]. *)
Definition last_log (rank : uuid → Z) (db : Db) (id : uuid) : option string :=
  '(_, a) ← head (order_by (λ ka, - ka.1.2) (rows_where (rank ∘ fst)
    (λ k a, bool_decide (k.1 = id) && bool_decide (is_Some (a_log_artifact_uri a)))
    (task_attempts db)));
  a_log_artifact_uri a.

(** [ARRAY(SELECT upstream.task_key ... ORDER BY upstream.task_key)]; [rank] on
    keys is the collation. *)
Definition upstream_keys (rank : string → Z) (db : Db) (id : uuid) : list string :=
  order_by rank (omap (λ u, t_task_key <$> task_runs db !! u) (upstreams db id)).

(** The task query of [GetRun]. *)
Definition select_run_tasks (runID : uuid) : Stmt (list TaskView) :=
  sql_select (λ env n db,
    (λ kt, mkTaskView kt.1 kt.2 (last_log (env_rank env n) db kt.1) "" ""
             (upstream_keys (env_rank env n) db kt.1) []) <$>
      order_by_keys (λ kt, [t_created_at kt.2; env_rank env n (t_task_key kt.2)])
        (rows_where (env_rank env n) (λ _ t, bool_decide (t_workflow_run_id t = runID))
          (task_runs db))).

(** The attempt query: attempts joined with their task, in the order of the
    tasks and of the attempt numbers. *)
Definition select_run_attempts (runID : uuid) : Stmt (list (uuid * TaskAttempt)) :=
  sql_select (λ env n db,
    let joined := omap (λ ka, t ← task_runs db !! ka.1.1; Some (ka, t))
      (rows_where (env_rank env n ∘ fst) (λ _ _, true) (task_attempts db)) in
    (λ kat, (kat.1.1.1, scan_attempt kat.1.1.2 kat.1.2)) <$>
      order_by_keys (λ kat, [t_created_at kat.2; env_rank env n (t_task_key kat.2); kat.1.1.2])
        (filter (λ kat, t_workflow_run_id kat.2 = runID) joined)).

(** [r.Tasks[index].Attempts = append(...)] when [taskIndexes] has the task. *)
Definition append_attempt (tasks : list TaskView) (ta : uuid * TaskAttempt) : list TaskView :=
  (λ v, if bool_decide (tv_id v = ta.1) then v<| tv_Attempts ::= λ l, l ++ [ta.2] |> else v)
    <$> tasks.

Definition GetRun (tenantID id : string) : M RunView :=
  row ← pool_stmt (select_run id tenantID);
  match row with
  | None => throw ErrNotFound
  | Some r =>
      tasks ← pool_stmt (select_run_tasks id);
      attempts ← pool_stmt (select_run_attempts id);
      mret (mkRunView id r "" (foldl append_attempt tasks attempts))
  end.

Definition ListRuns (tenantID : string) (limit : Z) : M (list (uuid * RunRow)) :=
  let limit := if bool_decide (limit < 1) || bool_decide (limit > 200) then 50 else limit in
  pool_stmt (sql_select (λ env n db,
    take (Z.to_nat limit) (order_by (λ kr, - r_created_at kr.2)
      (rows_where (env_rank env n) (λ _ r, bool_decide (r_tenant_id r = tenantID))
        (workflow_runs db))))).

(** [workflow.Event]. *)
Record Event := mkEvent {
  e_ID : uuid;
  e_Type : string;
  e_Payload : json;
  e_CreatedAt : time
}.

Definition scan_event (id : uuid) (o : OutboxRow) : Event :=
  {| e_ID := id; e_Type := o_event_type o; e_Payload := o_payload o;
     e_CreatedAt := o_created_at o |}.

(** [ORDER BY created_at,id]. *)
Definition event_keys (ko : uuid * OutboxRow) : list Z := o_created_at ko.2 :: bytes_of ko.1.

Definition event_of_run (runID : uuid) (o : OutboxRow) : bool :=
  bool_decide (o_aggregate_id o = runID)
  || bool_decide (json_text (o_payload o) "workflow_run_id" = Some runID).

Definition Events (tenantID runID : string) : M (list Event) :=
  row ← pool_stmt (select_run runID tenantID);
  match row with
  | None => throw ErrNotFound
  | Some _ =>
      pool_stmt (sql_select (λ env n db,
        (λ ko, scan_event ko.1 ko.2) <$>
          order_by_keys event_keys
            (rows_where (env_rank env n) (λ _ o, event_of_run runID o) (outbox_events db))))
  end.
