(* ===== verification/Scheduler.v ===== *)
(** The scheduler's cycle: [internal/scheduler/scheduler.go], lines 59-61 and
    84-243.

    [tick] fires due schedules, promotes retries whose delay has passed,
    recovers tasks whose lease has expired and dispatches ready tasks.  The
    cron library, the time-zone database and the text form of an instant are
    parameters. *)
From S2P Require Import Prelude State Json Schema Sql StoreWorker StoreWorkflow.

Definition Minute : Z := 60 * Second.

(** A task run with its workflow run: [task_runs t JOIN workflow_runs r ON
    r.id=t.workflow_run_id]. *)
Definition join_run (db : Db) (kt : uuid * TaskRow) : option (uuid * TaskRow * RunRow) :=
  r ← workflow_runs db !! t_workflow_run_id kt.2; Some (kt, r).

(** * Retries *)

(** [UPDATE task_runs SET status='READY',updated_at=now() WHERE
    status='RETRY_WAIT' AND available_at<=now()]. *)
Definition promote_retries : M unit :=
  pool_stmt (λ env n, update_tasks
    (λ _ _ t, bool_decide (t_status t = RETRY_WAIT) && bool_decide (t_available_at t ≤ env_now env n))
    (λ _ _ t, t<| t_status := READY |><| t_updated_at := env_now env n |>) env n) ;;
  mret tt.

(** * Expired leases *)

(** [lease_expires_at<=now()]: false for NULL. *)
Definition expired (now : time) (t : TaskRow) : bool :=
  match t_lease_expires_at t with Some e => bool_decide (e ≤ now) | None => false end.

Definition select_expired (now : time) : Stmt (list (uuid * TaskRow * RunRow)) :=
  sql_select (λ env n db,
    take 100 (omap (join_run db) (rows_where (env_rank env n)
      (λ k t, leased_or_running t && expired now t && negb (env_locked env n k))
      (task_runs db)))).

(** [INSERT INTO outbox_events(...) SELECT 'task_run',$1,$2,$3,trace_parent FROM
    workflow_runs WHERE id=$4]. *)
Definition insert_outbox_from_run (now : time) (id : uuid) (event : string) (payload : json)
    (runID : uuid) : Stmt unit := λ env n db,
  match workflow_runs db !! runID with
  | Some r => insert_outbox now "task_run" id event payload (r_trace_parent r) env n db
  | None => Ok (tt, db)
  end.

(** The body of the loop of [recoverExpired]. *)
Definition recover_one (now : time) (e : uuid * TaskRow * RunRow) : M unit :=
  let '(id, t, r) := e in
  let runID := t_workflow_run_id t in
  let attempt := t_attempt_count t in
  let status := failure_status (r_status r) (bool_decide (attempt < t_maximum_attempts t)) in
  available ← available_at status attempt;
  tx_stmt (update_task id (λ _, true) (failed_row status available now)) ;;
  tx_stmt (update_attempt id attempt (λ _, true)
    (λ a, a<| a_ended_at := Some now |><| a_exit_status := Some (task_status_text status) |>
           <| a_error_type := Some "LeaseExpired" |>
           <| a_error_message := Some "worker heartbeat lease expired" |>)) ;;
  tx_stmt (insert_outbox_from_run now id (failure_event status)
    (task_payload runID id (t_task_key t)
      [("attempt", JNum attempt); ("available_at", JTime available);
       ("error_type", JStr "LeaseExpired")]) runID) ;;
  if bool_decide (status = DEAD) then
    tx_stmt (update_run runID run_running (finish_run now RUN_FAILED)) ;; mret tt
  else mret tt.

Definition recoverExpired : M unit :=
  in_tx (λ now,
    all ← tx_stmt (select_expired now);
    mfor all (recover_one now) ;;
    mret (Commit tt)).

(** * Dispatch *)

Definition select_ready (now : time) : Stmt (list (uuid * TaskRow * RunRow)) :=
  sql_select (λ env n db,
    take 100 (order_by_keys (λ ktr, [- t_priority ktr.1.2; t_available_at ktr.1.2])
      (omap (join_run db) (rows_where (env_rank env n)
        (λ k t, bool_decide (t_status t = READY) && bool_decide (t_available_at t ≤ now)
                && negb (env_locked env n k)) (task_runs db))))).

(** The body of the dispatch loop of [tick]. *)
Definition dispatch_one (now : time) (e : uuid * TaskRow * RunRow) : M unit :=
  let '(id, t, r) := e in
  rows ← tx_stmt (update_task id (λ t, bool_decide (t_status t = READY))
    (λ t, t<| t_status := DISPATCHING |><| t_updated_at := now |>));
  if bool_decide (length rows = 1%nat) then
    tx_stmt (insert_outbox now "task_run" id "task.dispatch"
      (JObj [("task_run_id", JStr id); ("workflow_run_id", JStr (t_workflow_run_id t));
             ("task_key", JStr (t_task_key t)); ("handler", JStr (t_handler t))])
      (Some (coalesce (r_trace_parent r))))
  else mret tt.

Definition dispatch_ready : M unit :=
  in_tx (λ now,
    tasks ← tx_stmt (select_ready now);
    mfor tasks (dispatch_one now) ;;
    mret (Commit tt)).

(** * Schedules *)

Section Schedules.
(** [time.LoadLocation], [cron.Parser.Parse], [cron.Schedule.Next] in a
    location, and [time.Time.Format(time.RFC3339Nano)]. *)
Context {location cron : Type}.
Context (LoadLocation : string → result location).
Context (cron_parse : string → result cron).
Context (cron_next : cron → location → time → time).
Context (format_rfc3339 : time → string).

Definition select_due (now : time) : Stmt (list (uuid * ScheduleRow)) :=
  sql_select (λ env n db,
    take 50 (order_by (λ ks, s_next_execution_at ks.2) (rows_where (env_rank env n)
      (λ k s, s_enabled s && bool_decide (s_next_execution_at s ≤ now)
              && negb (env_locked env n k)) (schedules db)))).

(** [UPDATE schedules SET next_execution_at=$2 WHERE id=$1]. *)
Definition update_schedule (id : uuid) (next : time) : Stmt unit := λ env n db,
  Ok (tt, db<| schedules := update_where (λ k _, bool_decide (k = id))
                              (λ s, s<| s_next_execution_at := next |>) (schedules db) |>).

Definition lift_result {A} (r : result A) : M A :=
  match r with Ok a => mret a | Err e => throw e end.

(** The instant from which the next execution is computed. *)
Definition misfire_base (s : ScheduleRow) : M time :=
  if bool_decide (s_misfire_policy s = "skip") then
    since ← time_now;
    if bool_decide (since - s_next_execution_at s > Minute) then time_now
    else mret (s_next_execution_at s)
  else mret (s_next_execution_at s).

(** The loop over the open result set: each schedule is moved on by a
    statement on the connection that is still delivering the rows. *)
Fixpoint advance_schedules (l : list (uuid * ScheduleRow)) : M (list (uuid * ScheduleRow)) :=
  match l with
  | [] => mret []
  | (id, item) :: l =>
      loc ← lift_result (LoadLocation (s_timezone item));
      sched ← lift_result (cron_parse (s_cron_expression item));
      base ← misfire_base item;
      tx_stmt (update_schedule id (cron_next sched loc base)) ;;
      due ← advance_schedules l;
      mret ((id, item) :: due)
  end.

Definition schedule_key (id : uuid) (due : time) : string :=
  "schedule:" +:+ id +:+ ":" +:+ format_rfc3339 due.

Definition fire_one (ks : uuid * ScheduleRow) : M unit :=
  r ← try (CreateRun (s_tenant_id ks.2) "" (s_workflow_definition_id ks.2)
             (schedule_key ks.1 (s_next_execution_at ks.2)) (Some empty_object) []);
  match r with
  | Err e => if bool_decide (e = ErrConflict) then mret tt else throw e
  | Ok _ => mret tt
  end.

Definition fireSchedules : M unit :=
  due ← in_tx (λ now,
    rows ← tx_query_open (select_due now);
    due ← advance_schedules rows;
    rows_close ;;
    mret (Commit due));
  mfor due fire_one.

Definition tick : M unit :=
  fireSchedules ;;
  promote_retries ;;
  recoverExpired ;;
  dispatch_ready.

Definition RunOnce : M unit := tick.
End Schedules.
