(* ===== verification/Outbox.v ===== *)
(** The transactional outbox: [internal/scheduler/scheduler.go], lines 24-43,
    63-68 and 245-376, [internal/messaging/kafka.go] and the publishing side of
    [internal/live/broker.go].

    A publisher claims a batch of events with one statement, sends each to
    Kafka and acknowledges it with a statement of its own.  Kafka's topic and
    the live channel are lists that grow; whether a delivery succeeds is chosen
    by [Bus].  A delivery that reports an error may have reached the topic. *)
From S2P Require Import Prelude Go State Json Schema Sql StoreWorker StoreWorkflow.

(** The fields of [Service] the outbox uses; [Live] tells whether a broker is
    configured. *)
Record Service := {
  OutboxBatchSize : Z;
  OutboxClaimTTL : Z;
  OutboxPublishTimeout : Z;
  Live : bool
}.

Definition defaultOutboxBatchSize : Z := 100.
Definition defaultOutboxClaimTTL : Z := 30 * Second.
Definition defaultOutboxPublishTimeout : Z := 10 * Second.

(** The structure the claim is scanned into. *)
Record event := mkClaimed {
  ev_id : uuid;
  ev_aggregateID : uuid;
  ev_orderingKey : uuid;
  ev_eventType : string;
  ev_payload : json;
  ev_traceParent : string;
  ev_createdAt : time;
  ev_tenantID : string
}.

(** A record of the topic, without the propagated trace header. *)
Record Message := mkMessage {
  m_key : string;
  m_value : json;
  m_event_type : string;
  m_event_id : string
}.

(** [live.Event], without its text encoding. *)
Record LiveEvent := mkLive {
  le_ID : string;
  le_Type : string;
  le_AggregateID : string;
  le_Payload : json;
  le_OccurredAt : time
}.

Definition channelPrefix : string := "runmesh:live:tenant:".

(** The Redis channel of a tenant. *)
Definition channel (tenantID : string) : string := channelPrefix +:+ tenantID.

(** * Statements *)

(** [(earlier.created_at,earlier.id)<(o.created_at,o.id)]. *)
Definition earlier (x y : uuid * OutboxRow) : bool := negb (lex_leb (event_keys y) (event_keys x)).

Definition unpublished (o : OutboxRow) : bool := bool_decide (o_published_at o = None).

(** [o.claim_token IS NULL OR o.claim_expires_at<=now()]. *)
Definition claimable (now : time) (o : OutboxRow) : bool :=
  bool_decide (o_claim_token o = None)
  || match o_claim_expires_at o with Some e => bool_decide (e ≤ now) | None => false end.

(** No unpublished event of the same ordering key is earlier. *)
Definition head_of_key (m : gmap uuid OutboxRow) (k : uuid) (o : OutboxRow) : bool :=
  forallb (λ ko, negb (bool_decide (o_ordering_key ko.2 = o_ordering_key o) && unpublished ko.2
                       && earlier ko (k, o))) (map_to_list m).

Definition candidates (batch : Z) (env : Env) (n : nat) (m : gmap uuid OutboxRow)
    : list (uuid * OutboxRow) :=
  take (Z.to_nat batch) (order_by_keys event_keys (rows_where (env_rank env n)
    (λ k o, unpublished o && claimable (env_now env n) o && head_of_key m k o
            && negb (env_locked env n k)) m)).

(** The tenant an event belongs to: three scalar subqueries, the first that is
    not NULL. *)
Definition event_tenant (db : Db) (o : OutboxRow) : string :=
  let of_type ty (t : option uuid) := if bool_decide (o_aggregate_type o = ty) then t else None in
  let id := o_aggregate_id o in
  default "" (union (of_type "workflow_run" (r_tenant_id <$> workflow_runs db !! id))
    (union (of_type "task_run" (t ← task_runs db !! id;
                                r ← workflow_runs db !! t_workflow_run_id t; Some (r_tenant_id r)))
           (of_type "workflow_definition" (d_tenant_id <$> workflow_definitions db !! id)))).

Definition scan_claimed (db : Db) (ko : uuid * OutboxRow) : event :=
  {| ev_id := ko.1; ev_aggregateID := o_aggregate_id ko.2; ev_orderingKey := o_ordering_key ko.2;
     ev_eventType := o_event_type ko.2; ev_payload := o_payload ko.2;
     ev_traceParent := coalesce (o_trace_parent ko.2); ev_createdAt := o_created_at ko.2;
     ev_tenantID := event_tenant db ko.2 |}.

Definition claim_row (token : uuid) (expires : time) (o : OutboxRow) : OutboxRow :=
  o<| o_claim_token := Some token |><| o_claim_expires_at := Some expires |>
   <| o_publish_attempts := o_publish_attempts o + 1 |>.

(** [WITH candidates AS (...) UPDATE outbox_events ... RETURNING ...]: the rows
    come back in the order the update meets them. *)
Definition claim_stmt (batch : Z) (token : uuid) (ttl : Z) : Stmt (list event) := λ env n db,
  let ids := (candidates batch env n (outbox_events db)).*1 in
  let chosen k (_ : OutboxRow) := bool_decide (k ∈ ids) in
  let db' := db<| outbox_events := update_where chosen (claim_row token (env_now env n + ttl))
                                     (outbox_events db) |> in
  Ok (scan_claimed db <$> rows_where (env_rank env n) chosen (outbox_events db'), db').

Definition publish_row (now : time) (o : OutboxRow) : OutboxRow :=
  o<| o_published_at := Some now |><| o_claim_token := None |><| o_claim_expires_at := None |>.

(** [UPDATE outbox_events SET published_at=now(),... WHERE id=$1 AND
    published_at IS NULL AND claim_token=$2]. *)
Definition ack_stmt (token id : uuid) : Stmt (list (uuid * OutboxRow)) := λ env n db,
  update_outbox (λ k o, bool_decide (k = id) && unpublished o
                        && bool_decide (o_claim_token o = Some token))
                (publish_row (env_now env n)) env n db.

Definition release_row (o : OutboxRow) : OutboxRow :=
  o<| o_claim_token := None |><| o_claim_expires_at := None |>.

(** [UPDATE outbox_events SET claim_token=NULL,claim_expires_at=NULL WHERE
    claim_token=$1 AND published_at IS NULL]. *)
Definition release_stmt (token : uuid) : Stmt (list (uuid * OutboxRow)) := λ env n db,
  update_outbox (λ _ o, bool_decide (o_claim_token o = Some token) && unpublished o)
                release_row env n db.

(** * The publisher *)

(** What becomes of a delivery: it reaches the topic; it does, but the caller
    gets an error (a lost acknowledgement, an elapsed deadline); or it fails. *)
Inductive delivery : Type :=
  | Delivered
  | DeliveredLost (e : error)
  | Undelivered (e : error).

(** The answers of Kafka and of the live broker, by statement counter. *)
Record Bus := {
  bus_publish : nat → delivery;
  bus_live : nat → option error
}.

Record World := mkWorld {
  w_sess : Sess;
  w_topic : list Message;
  w_live : list (string * LiveEvent)
}.

Definition P (A : Type) : Type := Env → Bus → World → result A * World.

#[export] Instance P_ret : MRet P := λ A a env bus w, (Ok a, w).
#[export] Instance P_bind : MBind P := λ A B k m env bus w,
  match m env bus w with
  | (Ok a, w') => k a env bus w'
  | (Err e, w') => (Err e, w')
  end.

Definition pthrow {A} (e : error) : P A := λ env bus w, (Err e, w).

Definition ptry {A} (m : P A) : P (result A) := λ env bus w,
  let '(r, w') := m env bus w in (Ok r, w').

Definition lift {A} (m : M A) : P A := λ env bus w,
  let '(r, s') := m env (w_sess w) in (r, w<| w_sess := s' |>).

Definition tick_once (s : Sess) : Sess := mkSess (S (s_tick s)) (s_rows_open s) (s_db s).

(** [messaging.Publisher.Publish]: key, value and the two headers. *)
Definition message_of (e : event) : Message :=
  {| m_key := ev_orderingKey e; m_value := ev_payload e; m_event_type := ev_eventType e;
     m_event_id := ev_id e |}.

Definition Publish (e : event) : P unit := λ env bus w,
  let w1 := w<| w_sess ::= tick_once |> in
  let sent := w1<| w_topic := w_topic w ++ [message_of e] |> in
  match bus_publish bus (s_tick (w_sess w)) with
  | Delivered => (Ok tt, sent)
  | DeliveredLost err => (Err err, sent)
  | Undelivered err => (Err err, w1)
  end.

(** [live.Broker.Publish]: nothing for an event without tenant. *)
Definition Live_Publish (tenantID : string) (e : LiveEvent) : P unit := λ env bus w,
  if bool_decide (tenantID = "") then (Ok tt, w)
  else
    let w1 := w<| w_sess ::= tick_once |> in
    match bus_live bus (s_tick (w_sess w)) with
    | None => (Ok tt, w1<| w_live := w_live w ++ [(channel tenantID, e)] |>)
    | Some err => (Err err, w1)
    end.

(** The envelope the publisher sends for an event. *)
Definition live_event (e : event) : LiveEvent :=
  mkLive (ev_id e) (ev_eventType e) (ev_aggregateID e) (ev_payload e) (ev_createdAt e).

Definition releaseClaims (token : uuid) : P unit :=
  ptry (lift (pool_stmt (release_stmt token))) ;; mret tt.

(** [if s.Live != nil { ... }]: a failure is only logged. *)
Definition notify (s : Service) (e : event) : P unit :=
  if Live s then ptry (Live_Publish (ev_tenantID e) (live_event e)) ;; mret tt else mret tt.

(** The body of the loop over the claimed events: the acknowledgement of an
    event that was sent, then the whole. *)
Definition publish_acked (s : Service) (token : uuid) (e : event) : P unit :=
  command ← ptry (lift (pool_stmt (ack_stmt token (ev_id e))));
  match command with
  | Err ackErr => releaseClaims token ;; pthrow ackErr
  | Ok rows =>
      if bool_decide (length rows ≠ 1%nat) then
        releaseClaims token ;;
        pthrow (ErrText ("outbox claim lost before acknowledgement: event " +:+ ev_id e))
      else notify s e
  end.

Definition publish_one (s : Service) (token : uuid) (e : event) : P unit :=
  sent ← ptry (Publish e);
  match sent with
  | Err err => releaseClaims token ;; pthrow err
  | Ok _ => publish_acked s token e
  end.

Fixpoint publish_all (s : Service) (token : uuid) (events : list event) : P unit :=
  match events with
  | [] => mret tt
  | e :: events => publish_one s token e ;; publish_all s token events
  end.

Definition positive_or (v fallback : Z) : Z := if bool_decide (v ≤ 0) then fallback else v.

Definition publishClaimedBatch (s : Service) : P nat :=
  let batchSize := positive_or (OutboxBatchSize s) defaultOutboxBatchSize in
  let claimTTL := positive_or (OutboxClaimTTL s) defaultOutboxClaimTTL in
  let publishTimeout := positive_or (OutboxPublishTimeout s) defaultOutboxPublishTimeout in
  if bool_decide (claimTTL ≤ publishTimeout) then
    pthrow (ErrText ("outbox publish timeout " +:+ Duration_String publishTimeout
                     +:+ " must be shorter than claim TTL " +:+ Duration_String claimTTL))
  else
    claimToken ← lift new_uuid;
    events ← lift (pool_stmt (claim_stmt batchSize claimToken claimTTL));
    publish_all s claimToken events ;;
    mret (length events).

(** [for { ... }]: batches until one is empty.  [None] when the fuel is used
    up. *)
Fixpoint publishBatch (fuel : nat) (s : Service) : P (option unit) :=
  match fuel with
  | O => mret None
  | S fuel =>
      published ← publishClaimedBatch s;
      if bool_decide (published = 0%nat) then mret (Some tt) else publishBatch fuel s
  end.

Definition PublishOnce (fuel : nat) (s : Service) : P (option unit) := publishBatch fuel s.
