(* ===== verification/Auth.v ===== *)
(** Authentication and API keys: [internal/auth/auth.go] and
    [internal/storage/api_keys.go].

    The hash function, the OIDC token verifier and the grammar of UUIDs
    ([github.com/google/uuid]) are parameters.  An identifier is compared as
    text, so the spelling variants PostgreSQL identifies are distinct here. *)
From S2P Require Import Prelude Go Json Schema Sql StoreWorker StoreWorkflow.

Record Principal := mkPrincipal {
  TenantID : string;
  UserID : string;
  Role : string;
  Kind : string;
  Scopes : list string
}.

Definition roleLevel (role : string) : Z :=
  if bool_decide (role = "viewer") then 1
  else if bool_decide (role = "operator") then 2
  else if bool_decide (role = "developer") then 3
  else if bool_decide (role = "admin") then 4
  else 0.

(** [Config]; the issuer, audience and key-set URL only configure the verifier. *)
Record AuthConfig := {
  Dev : bool;
  DevPrincipal : Principal;
  DevWorkerToken : string;
  TenantClaim : string;
  APIKeyPepper : string
}.

(** The default [New] fills in. *)
Definition tenant_claim (c : AuthConfig) : string :=
  if bool_decide (TenantClaim c = "") then "runmesh_tenant_id" else TenantClaim c.

Definition HasScope (p : Principal) (required : string) : bool :=
  existsb (λ scope, bool_decide (scope = required)) (Scopes p).

(** [Require] and [RequireHumanRole]: the error they answer with, or [None]
    when the request passes. *)
Definition Require (role scope : string) (p : Principal) : option (Z * string) :=
  if bool_decide (Kind p = "api_key") then
    if HasScope p scope then None else Some (403, "insufficient scope")
  else if bool_decide (roleLevel (Role p) < roleLevel role) then Some (403, "forbidden")
  else None.

Definition RequireHumanRole (role : string) (p : Principal) : option (Z * string) :=
  if bool_decide (Kind p = "api_key") || bool_decide (roleLevel (Role p) < roleLevel role)
  then Some (403, "interactive administrator required")
  else None.

(** * Credentials *)

Definition bearer (header : string) : string :=
  if has_prefix "Bearer " header then trim_space (trim_prefix "Bearer " header) else "".

Fixpoint first_bearer (protocols : list string) : string :=
  match protocols with
  | [] => ""
  | p :: rest =>
      let p := trim_space p in
      if has_prefix "bearer." p then trim_prefix "bearer." p else first_bearer rest
  end.

Definition webSocketBearer (protocols : string) : string := first_bearer (split "," protocols).

(** [base64.RawURLEncoding.EncodeToString]. *)
Definition base64_char (n : Z) : ascii :=
  ascii_of_N (Z.to_N (if n <? 26 then 65 + n else if n <? 52 then 71 + n
                      else if n <? 62 then n - 4 else if n =? 62 then 45 else 95)).

Fixpoint base64 (l : list Z) : string :=
  let c n := base64_char (Z.land n 63) in
  match l with
  | a :: b :: d :: l =>
      let v := Z.lor (Z.shiftl a 16) (Z.lor (Z.shiftl b 8) d) in
      String (c (Z.shiftr v 18)) (String (c (Z.shiftr v 12)) (String (c (Z.shiftr v 6))
        (String (c v) (base64 l))))
  | [a; b] =>
      let v := Z.lor (Z.shiftl a 16) (Z.shiftl b 8) in
      String (c (Z.shiftr v 18)) (String (c (Z.shiftr v 12)) (String (c (Z.shiftr v 6)) ""))
  | [a] =>
      let v := Z.shiftl a 16 in String (c (Z.shiftr v 18)) (String (c (Z.shiftr v 12)) "")
  | [] => ""
  end%string.

Section Keys.
Context (uuid_Parse : string → bool) (sha256 : string → string).

Definition HashAPIKey (token pepper : string) : string :=
  sha256 (pepper +:+ String "000" token).

Definition APIKeyID (token : string) : option string :=
  match splitN "_" 3 token with
  | [rm; id; secret] =>
      if bool_decide (rm ≠ "rm") then None
      else if negb (uuid_Parse id) || bool_decide (secret = "") then None
      else Some id
  | _ => None
  end.

(** [GenerateAPIKeyForID]; [secret] is what [rand.Read] delivers. *)
Definition GenerateAPIKeyForID (id pepper : string) (secret : result (list Z))
    : result (string * string) :=
  if negb (uuid_Parse id) then Err (ErrText "invalid UUID")
  else
    match secret with
    | Err e => Err e
    | Ok secret =>
        let token := "rm_" +:+ id +:+ "_" +:+ base64 secret in
        Ok (token, HashAPIKey token pepper)
    end.

Definition GenerateAPIKey (pepper : string) (secret : result (list Z)) : M (string * string * string) :=
  id ← new_uuid;
  match GenerateAPIKeyForID id pepper secret with
  | Ok (token, hash) => mret (id, token, hash)
  | Err e => throw e
  end.

(** * [internal/storage/api_keys.go] *)

Record APIKey := {
  key_ID : string;
  key_Name : string;
  key_Scopes : list string;
  key_ExpiresAt : option time;
  key_RevokedAt : option time;
  key_LastUsedAt : option time;
  key_CreatedAt : time
}.

Definition scan_api_key (kr : uuid * ApiKeyRow) : APIKey :=
  {| key_ID := kr.1; key_Name := k_name kr.2; key_Scopes := k_scopes kr.2;
     key_ExpiresAt := k_expires_at kr.2; key_RevokedAt := k_revoked_at kr.2;
     key_LastUsedAt := k_last_used_at kr.2; key_CreatedAt := k_created_at kr.2 |}.

Definition insert_api_key (id : uuid) (row : time → ApiKeyRow) : Stmt APIKey := λ env n db,
  let r := row (env_now env n) in
  if bool_decide (is_Some (api_keys db !! id)) then Err (ErrPg unique_violation "api_keys_pkey")
  else if negb (bool_decide (map_Forall (λ _ k, k_key_hash k ≠ k_key_hash r) (api_keys db))) then
    Err (ErrPg unique_violation "api_keys_key_hash_key")
  else if negb (bool_decide (k_tenant_id r ∈ tenants db)) then
    Err (ErrPg foreign_key_violation "api_keys_tenant_id_fkey")
  else if negb (user_ok db (k_created_by r)) then
    Err (ErrPg foreign_key_violation "api_keys_created_by_fkey")
  else Ok (scan_api_key (id, r), db<| api_keys ::= <[id := r]> |>).

Definition audit (tenant : uuid) (actor : string) (action : string) (id : uuid) (metadata : json)
    : M unit :=
  try (pool_stmt (λ env n, insert_audit (env_now env n) tenant (nullableUUID actor) action "api_key"
                             id metadata env n)) ;; mret tt.

Definition CreateAPIKey (id tenantID userID name : string) (scopes : list string)
    (expiresAt : option time) (hash : string) : M APIKey :=
  key ← pool_stmt (insert_api_key id (λ now,
    {| k_tenant_id := tenantID; k_name := name; k_key_hash := hash; k_scopes := scopes;
       k_expires_at := expiresAt; k_revoked_at := None; k_last_used_at := None;
       k_created_by := nullableUUID userID; k_created_at := now |}));
  try (pool_stmt (undetermined "$4" (λ env n,
    insert_audit (env_now env n) tenantID (nullableUUID userID) "api_key.create" "api_key" id
      (JObj [("name", JStr name); ("scopes", JArr (JStr <$> scopes))]) env n))) ;;
  mret key.

Definition ListAPIKeys (tenantID : string) : M (list APIKey) :=
  pool_stmt (sql_select (λ env n db,
    scan_api_key <$> order_by (λ kr, - k_created_at kr.2)
      (rows_where (env_rank env n) (λ _ k, bool_decide (k_tenant_id k = tenantID)) (api_keys db)))).

(** [UPDATE api_keys SET ... WHERE id=$1 AND guard RETURNING ...]. *)
Definition update_api_key (id : uuid) (guard : ApiKeyRow → bool) (f : time → ApiKeyRow → ApiKeyRow)
    : Stmt (option APIKey) := λ env n db,
  match api_keys db !! id with
  | Some k =>
      if guard k then
        let k' := f (env_now env n) k in
        if bool_decide (map_Forall (λ i r, i ≠ id → k_key_hash r ≠ k_key_hash k') (api_keys db)) then
          Ok (Some (scan_api_key (id, k')), db<| api_keys ::= <[id := k']> |>)
        else Err (ErrPg unique_violation "api_keys_key_hash_key")
      else Ok (None, db)
  | None => Ok (None, db)
  end.

Definition RotateAPIKey (id tenantID userID hash : string) : M APIKey :=
  row ← pool_stmt (update_api_key id (λ k, bool_decide (k_tenant_id k = tenantID))
    (λ _ k, k<| k_key_hash := hash |><| k_last_used_at := None |><| k_revoked_at := None |>));
  match row with
  | None => throw ErrNotFound
  | Some key => audit tenantID userID "api_key.rotate" id empty_object ;; mret key
  end.

Definition RevokeAPIKey (id tenantID userID : string) : M unit :=
  row ← pool_stmt (update_api_key id
    (λ k, bool_decide (k_tenant_id k = tenantID) && bool_decide (k_revoked_at k = None))
    (λ now k, k<| k_revoked_at := Some now |>));
  match row with
  | None => throw ErrNotFound
  | Some _ => audit tenantID userID "api_key.revoke" id empty_object
  end.

(** * Authentication *)

(** [verify]: [verifier.Verify] followed by [token.Claims]. *)
Context (config : AuthConfig) (verify : string → result (list (string * json))).

Definition claim_text (claims : list (string * json)) (key : string) : string :=
  match assoc key claims with Some (JStr s) => s | _ => "" end.

Definition select_user (tenant subject : string) : Stmt (option (uuid * UserRow)) :=
  sql_select (λ env n db, head (rows_where (env_rank env n)
    (λ _ u, bool_decide (u_tenant_id u = tenant) && bool_decide (u_oidc_subject u = subject))
    (users db))).

Definition authenticateOIDC (raw : string) : M Principal :=
  if Dev config then throw (ErrText "OIDC is not configured")
  else
    match verify raw with
    | Err e => throw e
    | Ok claims =>
        let subject := claim_text claims "sub" in
        let tenantID := claim_text claims (tenant_claim config) in
        if bool_decide (subject = "") || bool_decide (tenantID = "") then
          throw (ErrText "required identity claims are missing")
        else
          row ← pool_stmt (select_user tenantID subject);
          match row with
          | None => throw ErrNoRows
          | Some (id, u) => mret (mkPrincipal (u_tenant_id u) id (u_role u) "oidc" [])
          end
    end.

Definition select_api_key (id : uuid) : Stmt (option ApiKeyRow) :=
  sql_select (λ env n db,
    k ← api_keys db !! id; if bool_decide (k_revoked_at k = None) then Some k else None).

(** [expiresAt != nil && !expiresAt.After(time.Now())]. *)
Definition key_expired (expires : option time) : M bool :=
  match expires with
  | None => mret false
  | Some e => now ← time_now; mret (bool_decide (e ≤ now))
  end.

Definition touch_api_key (id : uuid) : Stmt unit := λ env n db,
  Ok (tt, db<| api_keys := alter (λ k, k<| k_last_used_at := Some (env_now env n) |>) id (api_keys db) |>).

Definition authenticateAPIKey (raw : string) : M Principal :=
  match APIKeyID raw with
  | None => throw (ErrText "malformed API key")
  | Some id =>
      row ← pool_stmt (select_api_key id);
      match row with
      | None => throw ErrNoRows
      | Some k =>
          if bool_decide (HashAPIKey raw (APIKeyPepper config) ≠ k_key_hash k) then
            throw (ErrText "invalid API key")
          else
            expired ← key_expired (k_expires_at k);
            if (expired : bool) then throw (ErrText "invalid API key")
            else
              try (pool_stmt (touch_api_key id)) ;;
              mret (mkPrincipal (k_tenant_id k) "" "viewer" "api_key" (k_scopes k))
      end
  end.

Definition Authenticate (raw : string) : M Principal :=
  if bool_decide (raw = "") then throw (ErrText "missing bearer token")
  else if has_prefix "rm_" raw then authenticateAPIKey raw
  else authenticateOIDC raw.

Definition development (p : Principal) (scopes : list string) : Principal :=
  mkPrincipal (TenantID p) (UserID p) (Role p) "development" scopes.

Definition AuthenticateWorker (raw : string) : M Principal :=
  if Dev config && bool_decide (raw ≠ "") && bool_decide (raw = DevWorkerToken config) then
    mret (development (DevPrincipal config) ["workers:execute"])
  else
    r ← try (Authenticate raw);
    match r with
    | Ok p =>
        if bool_decide (Kind p = "api_key") && HasScope p "workers:execute" then mret p
        else throw (ErrText "worker scope is required")
    | Err _ => throw (ErrText "worker scope is required")
    end.

(** [authenticateRequest]: the Authorization header, the WebSocket protocol
    header and the path of the request. *)
Definition request_token (authorization protocol path : string) : string :=
  let token := bearer authorization in
  if bool_decide (token = "") && bool_decide (path = "/v1/stream")
  then webSocketBearer protocol else token.

Definition authenticateRequest (authorization protocol path : string) : M Principal :=
  if Dev config then mret (development (DevPrincipal config) (Scopes (DevPrincipal config)))
  else Authenticate (request_token authorization protocol path).
End Keys.
