(* ===== verification/Stream.v ===== *)
(** The live stream: [internal/api/stream.go] and the subscribing side of
    [internal/live/broker.go].

    A subscription is a Redis channel; what arrives on the channel the handler
    subscribed to, when the peer closes, when a ping is due and whether a write
    succeeds is the list of signals the loop meets.  Deadlines of the connection show up as failed writes and closed
    peers. *)
From S2P Require Import Prelude Go Url State Json Schema Sql StoreWorker StoreWorkflow Scheduler Outbox Auth.

(** [streamUpgrader.CheckOrigin], on the Origin header and the request's host. *)
Definition CheckOrigin (origin host : string) : bool :=
  bool_decide (origin = "")
  || match Parse origin with
     | Some parsed => bool_decide (url_Host parsed = host)
                      || bool_decide (origin = "http://localhost:3000")
                      || bool_decide (origin = "http://localhost:5173")
     | None => false
     end.

(** [Broker.Subscribe]: the channel it listens on once Redis confirmed it. *)
Definition Subscribe (redis : string → result unit) (tenantID : string) : result string :=
  match redis (channel tenantID) with
  | Ok _ => Ok (channel tenantID)
  | Err e => Err e
  end.

(** What the loop's [select] wakes up for; a message channel that was closed
    yields no message. *)
Inductive signal : Type :=
  | ContextDone
  | PeerClosed
  | Incoming (message : option LiveEvent)
  | PingDue.

(** What is written to the connection. *)
Inductive frame : Type :=
  | Connected
  | Text (payload : LiveEvent)
  | Ping.

(** [for { select { ... } }]; every signal comes with the fate of the write it
    causes. *)
Fixpoint stream_loop (signals : list (signal * bool)) : list frame :=
  match signals with
  | (Incoming (Some m), true) :: signals => Text m :: stream_loop signals
  | (PingDue, true) :: signals => Ping :: stream_loop signals
  | _ => []
  end.

(** How a request for the stream ends: an ordinary answer, a handshake the
    upgrader refused with a status, or the frames that were written. *)
Inductive streamed : Type :=
  | Unavailable_ (message : string)
  | Refused (status : Z)
  | Frames (l : list frame).

(** What the handler reads from the request, and what happens on its connection:
    [hs_upgrade] is the WebSocket library's handshake, given what [CheckOrigin]
    says; [hs_first] is the fate of the first write; [hs_signals] are the signals
    of a handler that listens on the given channel. *)
Record Handshake := {
  hs_origin : string;
  hs_host : string;
  hs_upgrade : bool → option Z;
  hs_first : bool;
  hs_signals : string → list (signal * bool)
}.

(** [Server.stream]; [redis] is [None] when no broker is configured. *)
Definition stream (redis : option (string → result unit)) (h : Handshake) (p : Principal) : streamed :=
  match redis with
  | None => Unavailable_ "live stream unavailable"
  | Some redis =>
      match Subscribe redis (TenantID p) with
      | Err _ => Unavailable_ "live stream unavailable"
      | Ok messages =>
          match hs_upgrade h (CheckOrigin (hs_origin h) (hs_host h)) with
          | Some status => Refused status
          | None => Frames (if hs_first h then Connected :: stream_loop (hs_signals h messages) else [])
          end
      end
  end.

(** * What a stream shows *)

(** The messages that arrived, and those that were written. *)
Definition arrived (signals : list (signal * bool)) : list LiveEvent :=
  omap (λ s, match s.1 with Incoming m => m | _ => None end) signals.

Definition texts (l : list frame) : list LiveEvent :=
  omap (λ f, match f with Text m => Some m | _ => None end) l.

Definition shown (o : streamed) : list LiveEvent := match o with Frames l => texts l | _ => [] end.

(** The messages published on a channel. *)
Definition on_channel (c : string) (log : list (string * LiveEvent)) : list LiveEvent :=
  snd <$> filter (λ ce, ce.1 = c) log.

Lemma stream_loop_prefix signals : texts (stream_loop signals) `prefix_of` arrived signals.
Proof.
  induction signals as [|[[| |[m|]|] []] signals IH]; simpl; try apply prefix_nil;
    [by apply prefix_cons|done].
Qed.

(** The handler listens on the channel of its principal's tenant. *)
Lemma shown_prefix redis h p :
  shown (stream redis h p) `prefix_of` arrived (hs_signals h (channel (TenantID p))).
Proof.
  unfold stream, Subscribe. destruct redis as [redis|]; [|apply prefix_nil].
  destruct (redis _); [|apply prefix_nil]. destruct (hs_upgrade h _); [apply prefix_nil|].
  destruct (hs_first h); [apply stream_loop_prefix|apply prefix_nil].
Qed.

Lemma channel_inj t t' : channel t = channel t' → t = t'.
Proof. unfold channel, channelPrefix. by intros [= H]. Qed.

(** * What publishers put on the channels *)

Section Publishing.
Context (s : Service) (env : Env) (bus : Bus).

(** The entry an event leaves on its tenant's channel. *)
Definition entry (e : event) : string * LiveEvent := (channel (ev_tenantID e), live_event e).

Definition extends (events : list event) (w w' : World) : Prop :=
  ∃ sent, sent `sublist_of` events ∧ Forall (λ e, ev_tenantID e ≠ "") sent ∧
    w_live w' = w_live w ++ (entry <$> sent).

Lemma extends_refl l w w' : w_live w' = w_live w → extends l w w'.
Proof.
  intros H. exists []. split_and!; [apply sublist_nil_l|constructor|]. by rewrite H, app_nil_r.
Qed.

Lemma extends_app l1 l2 w1 w2 w3 : extends l1 w1 w2 → extends l2 w2 w3 → extends (l1 ++ l2) w1 w3.
Proof.
  intros (x1 & Hs1 & Hf1 & H1) (x2 & Hs2 & Hf2 & H2). exists (x1 ++ x2).
  split_and!; [by apply sublist_app|by apply Forall_app|]. by rewrite H2, H1, fmap_app, app_assoc.
Qed.

Lemma lift_live {A} (m : M A) w r w' : lift m env bus w = (r, w') → w_live w' = w_live w.
Proof. unfold lift. destruct (m env (w_sess w)). by intros [= _ <-]. Qed.

Lemma ptry_inv {A} (m : P A) w r w' :
  ptry m env bus w = (r, w') → ∃ x, m env bus w = (x, w') ∧ r = Ok x.
Proof. unfold ptry. destruct (m env bus w) as [x w1]. intros [= <- <-]. eauto. Qed.

Lemma release_live {A} token err w (r : result A) w' :
  (releaseClaims token ;; pthrow err) env bus w = (r, w') → w_live w' = w_live w.
Proof.
  unfold releaseClaims, mbind, P_bind. destruct (ptry _ env bus w) as [x w1] eqn:Hp.
  apply ptry_inv in Hp as (y & Hy%lift_live & ->). by intros [= _ <-].
Qed.

Lemma notify_extends e w r w' : notify s e env bus w = (r, w') → extends [e] w w'.
Proof.
  unfold notify. destruct (Live s); [|by intros [= _ <-]; apply extends_refl].
  unfold mbind, P_bind. destruct (ptry _ env bus w) as [x w1] eqn:Hp.
  apply ptry_inv in Hp as (y & Hy & ->). intros [= _ <-]. unfold Live_Publish in Hy.
  case_bool_decide as Ht; [injection Hy as _ <-; by apply extends_refl|].
  destruct (bus_live bus _); injection Hy as _ <-; [by apply extends_refl|].
  exists [e]. split_and!; [done|by repeat constructor|done].
Qed.

Lemma publish_one_extends token e w r w' : publish_one s token e env bus w = (r, w') → extends [e] w w'.
Proof.
  unfold publish_one, mbind at 1, P_bind at 1, ptry at 1.
  destruct (Publish e env bus w) as [x w1] eqn:Hpub.
  assert (w_live w1 = w_live w) as Hw1
    by (revert Hpub; unfold Publish; case_match; by intros [= _ <-]).
  destruct x as [u|err]; [|intros Hrel%release_live; apply extends_refl; congruence].
  unfold publish_acked, mbind at 1, P_bind at 1.
  destruct (ptry _ env bus w1) as [y w2] eqn:Hack. apply ptry_inv in Hack as (z & Hz%lift_live & ->).
  assert (w_live w2 = w_live w) as Hw2 by congruence.
  destruct z as [rows|err]; [|intros Hrel%release_live; apply extends_refl; congruence].
  case_bool_decide; [intros Hrel%release_live; apply extends_refl; congruence|].
  intros (sent & Hs & Hf & Hl)%notify_extends. exists sent. by rewrite Hl, Hw2.
Qed.

Lemma publish_all_extends token l w r w' : publish_all s token l env bus w = (r, w') → extends l w w'.
Proof.
  revert w r. induction l as [|e l IH]; intros w r; simpl; [by intros [= _ <-]; apply extends_refl|].
  unfold mbind, P_bind. destruct (publish_one s token e env bus w) as [[u|err] w1] eqn:H1;
    apply publish_one_extends in H1 as H2.
  - intros H3%IH. by apply (extends_app [e] l w w1 w').
  - intros [= _ <-]. apply (extends_app [e] l w w1 w1); [done|by apply extends_refl].
Qed.

(** Every entry a batch adds announces an event of the database the batch
    claimed from, on the channel of the tenant the event belongs to there. *)
Lemma batch_live w r w' :
  publishClaimedBatch s env bus w = (r, w') →
  ∃ new, w_live w' = w_live w ++ new ∧
    ∀ c e, (c, e) ∈ new → ∃ o, let db := s_db (w_sess w) in
      outbox_events db !! le_ID e = Some o ∧ event_tenant db o ≠ "" ∧
      c = channel (event_tenant db o) ∧ le_Type e = o_event_type o ∧ le_Payload e = o_payload o ∧
      le_AggregateID e = o_aggregate_id o.
Proof.
  unfold publishClaimedBatch. case_bool_decide.
  { intros [= _ <-]. exists []. split; [by rewrite app_nil_r|by intros ? ? ?%not_elem_of_nil]. }
  unfold mbind at 1, P_bind at 1, lift at 1, new_uuid.
  unfold mbind at 1, P_bind at 1, lift at 1. cbn [w_sess].
  destruct (pool_stmt _ _ _) as [[events|err] s1] eqn:Hp.
  2: { intros [= _ <-]. exists []. split; [by rewrite app_nil_r|by intros ? ? ?%not_elem_of_nil]. }
  unfold mbind, P_bind. destruct (publish_all _ _ _ _ _ _) as [r1 w1] eqn:Hall. intros Hr.
  assert (w1 = w') as -> by (destruct r1; by injection Hr). clear Hr.
  apply publish_all_extends in Hall as (sent & Hsub & Hne & Hl). exists (entry <$> sent).
  split; [exact Hl|]. intros c e (ev & [= -> ->] & Hev)%list_elem_of_fmap.
  rewrite Forall_forall in Hne. pose proof (Hne ev Hev) as Hten.
  assert (ev ∈ events) as Hin by (by eapply elem_of_sublist).
  apply pool_stmt_Ok in Hp as [Hc _]. injection Hc as <- _. simpl in Hin.
  apply list_elem_of_fmap in Hin as ([k o'] & -> & [Ho' _]%elem_of_rows_where). simpl in *.
  rewrite lookup_update_where in Ho'. apply fmap_Some in Ho' as (o & Ho & ->).
  exists o. by destruct (bool_decide _).
Qed.
End Publishing.

(** The channels after a sequence of batches by whatever publishers, with the
    databases the batches claimed from. *)
Inductive live_history : list Db → list (string * LiveEvent) → Prop :=
  | lh_start : live_history [] []
  | lh_batch s env bus w r w' dbs :
      live_history dbs (w_live w) → publishClaimedBatch s env bus w = (r, w') →
      live_history (s_db (w_sess w) :: dbs) (w_live w').

Lemma history_entries dbs log c e :
  live_history dbs log → (c, e) ∈ log →
  ∃ db o, db ∈ dbs ∧ outbox_events db !! le_ID e = Some o ∧ event_tenant db o ≠ "" ∧
    c = channel (event_tenant db o) ∧ le_Type e = o_event_type o ∧ le_Payload e = o_payload o.
Proof.
  induction 1 as [|s env bus w r w' dbs Hh IH Hb]; [by intros ?%not_elem_of_nil|].
  apply batch_live in Hb as (new & -> & Hnew). intros [Hin|Hin]%elem_of_app.
  - destruct (IH Hin) as (db & o & Hdb & Ho). exists db, o. split; [by right|done].
  - destruct (Hnew c e Hin) as (o & Ho & Ht & Hc & Hty & Hp & _). exists (s_db (w_sess w)), o.
    by split; [left|].
Qed.

(** C26: live notifications stay in their tenant.  Redis delivers to a
    subscription messages of its channel only, in their order, and may drop some.
    Then a stream shows, in order, some of the messages of its principal's tenant,
    and every notification it shows is the type and payload of an outbox event
    that belonged to that tenant in the database the publisher claimed it from. *)
Theorem live_stream_in_tenant dbs log redis h p :
  live_history dbs log → (∀ c, arrived (hs_signals h c) `sublist_of` on_channel c log) →
  let l := shown (stream redis h p) in
  l `sublist_of` on_channel (channel (TenantID p)) log ∧
  ∀ e, e ∈ l → ∃ db o, db ∈ dbs ∧ outbox_events db !! le_ID e = Some o ∧
    event_tenant db o = TenantID p ∧ le_Type e = o_event_type o ∧ le_Payload e = o_payload o.
Proof.
  intros Hh Hredis l. assert (l `sublist_of` on_channel (channel (TenantID p)) log) as Hsub.
  { etransitivity; [|apply Hredis]. destruct (shown_prefix redis h p) as [rest ->]. by apply sublist_inserts_r. }
  split; [exact Hsub|]. intros e He. pose proof (elem_of_sublist _ _ _ He Hsub) as Hin.
  apply list_elem_of_fmap in Hin as ([c e'] & -> & [Hc Hin]%list_elem_of_filter). simpl in *.
  destruct (history_entries dbs log c e' Hh Hin) as (db & o & Hdb & Ho & _ & Hch & Hty & Hp).
  exists db, o. split_and!; [done|done| |done..]. apply channel_inj. congruence.
Qed.
