(* ===== verification/Artifacts.v ===== *)
(** Artifacts: [internal/storage/artifacts.go] and
    [internal/artifact/manager.go].

    The object store is a parameter: what it signs, and the length and the
    content it reports for an object, by statement counter.  Tracing spans are
    left out. *)
From stdpp Require Import pretty.
From S2P Require Import Prelude Go Url State Json Schema Sql StoreWorker StoreWorkflow.

Record Artifact := {
  f_ID : string;
  f_Kind : string;
  f_Status : string;
  f_ObjectURI : string;
  f_ContentType : string;
  f_DeclaredSize : Z;
  f_SizeBytes : option Z;
  f_ChecksumSHA256 : string;
  f_WorkflowRunID : option string;
  f_TaskRunID : option string;
  f_ReadyAt : option time;
  f_CreatedAt : time;
  f_ObjectKey : string
}.

Definition scan_artifact (id : uuid) (f : ArtifactRow) : Artifact :=
  {| f_ID := id; f_Kind := f_kind f; f_Status := f_status f; f_ObjectURI := f_object_uri f;
     f_ContentType := f_content_type f; f_DeclaredSize := f_declared_size f;
     f_SizeBytes := f_size_bytes f; f_ChecksumSHA256 := coalesce (f_checksum_sha256 f);
     f_WorkflowRunID := f_workflow_run_id f; f_TaskRunID := f_task_run_id f;
     f_ReadyAt := f_ready_at f; f_CreatedAt := f_created_at f; f_ObjectKey := f_object_key f |}.

(** * [internal/storage/artifacts.go] *)

Definition artifact_kind (kind : string) : bool := bool_decide (kind ∈ ["input"; "output"; "log"]).

Definition insert_artifact (id : uuid) (row : time → ArtifactRow) : Stmt Artifact := λ env n db,
  let f := row (env_now env n) in
  let unique g := bool_decide (map_Forall (λ _ r, g r ≠ g f) (artifacts db)) in
  if negb (artifact_kind (f_kind f)) then
    Err (ErrPg "22P02" "invalid input value for enum artifact_kind")
  else if bool_decide (f_declared_size f < 0) then
    Err (ErrPg check_violation "artifacts_declared_size_check")
  else if bool_decide (is_Some (artifacts db !! id)) then Err (ErrPg unique_violation "artifacts_pkey")
  else if negb (unique f_object_key) then Err (ErrPg unique_violation "artifacts_object_key_key")
  else if negb (unique f_object_uri) then Err (ErrPg unique_violation "artifacts_object_uri_key")
  else if negb (bool_decide (f_tenant_id f ∈ tenants db)) then
    Err (ErrPg foreign_key_violation "artifacts_tenant_id_fkey")
  else if match f_task_run_id f with
          | Some t => bool_decide (task_runs db !! t = None) | None => false end then
    Err (ErrPg foreign_key_violation "artifacts_task_run_id_fkey")
  else if negb (user_ok db (f_created_by f)) then
    Err (ErrPg foreign_key_violation "artifacts_created_by_fkey")
  else Ok (scan_artifact id f, db<| artifacts ::= <[id := f]> |>).

Definition new_artifact (tenantID userID kind objectKey objectURI contentType : string) (size : Z)
    (checksum : string) (taskRunID : option string) (now : time) : ArtifactRow :=
  {| f_tenant_id := tenantID; f_kind := kind; f_status := "PENDING"; f_object_key := objectKey;
     f_object_uri := objectURI; f_content_type := contentType; f_declared_size := size;
     f_size_bytes := None; f_checksum_sha256 := nullif_empty checksum; f_workflow_run_id := None;
     f_task_run_id := taskRunID; f_created_by := nullableUUID userID; f_ready_at := None;
     f_created_at := now |}.

Definition CreateArtifact (id tenantID userID kind objectKey objectURI contentType : string) (size : Z)
    (checksum : string) (taskRunID : option string) : M Artifact :=
  pool_stmt (insert_artifact id
    (new_artifact tenantID userID kind objectKey objectURI contentType size checksum taskRunID)).

(** [getArtifact]: one row of the tenant that satisfies the predicate. *)
Definition getArtifact (predicate : uuid → ArtifactRow → bool) (tenantID : string) : M Artifact :=
  row ← pool_stmt (sql_select (λ env n db, head (rows_where (env_rank env n)
    (λ k f, bool_decide (f_tenant_id f = tenantID) && predicate k f) (artifacts db))));
  match row with
  | None => throw ErrNotFound
  | Some (id, f) => mret (scan_artifact id f)
  end.

Definition GetArtifact (tenantID id : string) : M Artifact :=
  getArtifact (λ k _, bool_decide (k = id)) tenantID.

Definition GetArtifactByURI (tenantID uri : string) : M Artifact :=
  getArtifact (λ _ f, bool_decide (f_object_uri f = uri)) tenantID.

Definition ready_artifact (size : Z) (now : time) (f : ArtifactRow) : ArtifactRow :=
  f<| f_status := "READY" |><| f_size_bytes := Some size |><| f_ready_at := Some now |>.

Definition CompleteArtifact (tenantID id : string) (size : Z) : M Artifact :=
  rows ← pool_stmt (λ env n, update_artifacts
    (λ k f, bool_decide (k = id) && bool_decide (f_tenant_id f = tenantID)
            && bool_decide (f_status f = "PENDING") && bool_decide (f_declared_size f = size))
    (ready_artifact size (env_now env n)) env n);
  match rows with
  | [] => throw ErrConflict
  | (k, f) :: _ => mret (scan_artifact k f)
  end.

Definition AttachArtifactToRun (tenantID artifactID runID : string) : M unit :=
  rows ← pool_stmt (λ env n db,
    match update_artifacts
      (λ k f, bool_decide (k = artifactID) && bool_decide (f_tenant_id f = tenantID)
              && bool_decide (f_status f = "READY") && bool_decide (f_workflow_run_id f = None))
      (λ f, f<| f_workflow_run_id := Some runID |>) env n db with
    | Ok ((_ :: _) as rows, db') =>
        if bool_decide (is_Some (workflow_runs db !! runID)) then Ok (rows, db')
        else Err (ErrPg foreign_key_violation "artifacts_workflow_run_id_fkey")
    | r => r
    end);
  if bool_decide (length rows ≠ 1%nat) then throw ErrConflict else mret tt.

(** * [internal/artifact/manager.go] *)

Definition MaxArtifactBytes : Z := Z.shiftl 100 20.
Definition MaxLogBytes : Z := Z.shiftl 10 20.

Definition hex_digit (c : ascii) : bool :=
  let n := N_of_ascii c in
  (((48 <=? n) && (n <=? 57)) || ((97 <=? n) && (n <=? 102)) || ((65 <=? n) && (n <=? 70)))%N.

(** [hex.DecodeString] succeeds with [sha256.Size] bytes. *)
Definition hex_sha256 (s : string) : bool :=
  all_chars hex_digit s && bool_decide (String.length s = 64%nat).

Record Upload := {
  u_Artifact : Artifact;
  u_URL : string;
  u_Headers : list (string * string);
  u_ExpiresAt : time
}.

Record Download := {
  w_Artifact : Artifact;
  w_URL : string;
  w_ExpiresAt : time
}.

(** A bucket of the object store as [Manager] uses it: signed URLs for a key,
    the size of an object and its content. *)
Record Objects := {
  presign_put : string → string → result (string * list (string * list string));
  presign_get : string → result string;
  head_object : nat → string → result (option Z);
  get_object : nat → string → result string
}.

(** [io.LimitReader]. *)
Definition limit_reader (n : Z) (s : string) : string := String.substring 0 (Z.to_nat n) s.

(** [hex.EncodeToString]. *)
Definition hex_char (n : N) : ascii := ascii_of_N (if (n <? 10)%N then 48 + n else 87 + n).

Fixpoint hex_encode (s : string) : string :=
  match s with
  | "" => ""
  | String c s =>
      let n := N_of_ascii c in String (hex_char (n / 16)) (String (hex_char (n mod 16)) (hex_encode s))
  end%string.

(** A call to the store takes a turn of the statement counter. *)
Definition ask {A} (f : nat → result A) : M A := λ env s,
  (f (s_tick s), mkSess (S (s_tick s)) (s_rows_open s) (s_db s)).

(** [fmt.Errorf("prefix: %w", err)]: the wrapped error still is what it was
    for [errors.Is]; the errors of the object store are never sentinels. *)
Definition wrap (prefix : string) {A} (r : result A) : result A :=
  match r with Ok a => Ok a | Err e => Err (ErrText (prefix +:+ ": " +:+ error_text e)) end.

Section Manager.
Context (sha256 : string → string) (bucket : string) (expiry : Z).

Definition Checksum (content : string) : string := hex_encode (sha256 content).

(** Which signer a call uses: browsers are given the public endpoint, workers
    the internal one. *)
Context (objects : Objects).

Definition signed_headers (h : list (string * list string)) : list (string * string) :=
  omap (λ kv, match kv.2 with v :: _ => Some (kv.1, v) | [] => None end) h.

Definition object_key (tenantID kind id : string) : string :=
  tenantID +:+ "/" +:+ kind +:+ "/" +:+ id.

Definition object_uri (key : string) : string := "s3://" +:+ bucket +:+ "/" +:+ key.

Definition size_limit (kind : string) : Z :=
  if bool_decide (kind = "log") then MaxLogBytes else MaxArtifactBytes.

Definition createUpload (tenantID userID kind contentType : string) (size : Z) (checksum : string)
    (taskRunID : option string) : M Upload :=
  if negb (artifact_kind kind) then throw (ErrText "invalid artifact kind")
  else if bool_decide (size < 0) || bool_decide (size_limit kind < size) then
    throw (ErrText ("artifact size exceeds " +:+ pretty (size_limit kind) +:+ " bytes"))
  else
    let checksum := to_lower (trim_space checksum) in
    if bool_decide (checksum ≠ "") && negb (hex_sha256 checksum) then
      throw (ErrText "checksum_sha256 must be 64 hexadecimal characters")
    else
      let contentType := if bool_decide (contentType = "") then "application/octet-stream"
                         else contentType in
      (match taskRunID with
       | Some t => TaskBelongsToTenant t tenantID
       | None => mret tt
       end) ;;
      id ← new_uuid;
      let key := object_key tenantID kind id in
      a ← CreateArtifact id tenantID userID kind key (object_uri key) contentType size checksum
            taskRunID;
      request ← ask (λ _, wrap "sign artifact upload" (presign_put objects key contentType));
      now ← time_now;
      mret {| u_Artifact := a; u_URL := fst request; u_Headers := signed_headers (snd request);
              u_ExpiresAt := now + expiry |}.

Definition Complete (tenantID id : string) : M Artifact :=
  a ← GetArtifact tenantID id;
  if bool_decide (f_Status a = "READY") then mret a
  else
    length ← ask (λ n, wrap "inspect uploaded artifact" (head_object objects n (f_ObjectKey a)));
    match length with
    | None => throw ErrConflict
    | Some length =>
        if bool_decide (length ≠ f_DeclaredSize a) then throw ErrConflict
        else if bool_decide (f_ChecksumSHA256 a = "") then CompleteArtifact tenantID id length
        else
          object ← ask (λ n, wrap "verify artifact checksum" (get_object objects n (f_ObjectKey a)));
          let actual := Checksum (limit_reader (f_DeclaredSize a + 1) object) in
          if bool_decide (actual ≠ f_ChecksumSHA256 a) then throw ErrConflict
          else CompleteArtifact tenantID id length
    end.

Definition download (tenantID idOrURI : string) : M Download :=
  a ← (if has_prefix "s3://" idOrURI then GetArtifactByURI tenantID idOrURI
       else GetArtifact tenantID idOrURI);
  if bool_decide (f_Status a ≠ "READY") then throw ErrConflict
  else
    url ← ask (λ _, wrap "sign artifact download" (presign_get objects (f_ObjectKey a)));
    now ← time_now;
    mret {| w_Artifact := a; w_URL := url; w_ExpiresAt := now + expiry |}.
End Manager.

(** [ParseURI]: the bucket and the key of an artifact's URI. *)
Definition ParseURI (raw : string) : result (string * string) :=
  match Parse raw with
  | Some u =>
      let key := trim_prefix "/" (url_Path u) in
      if bool_decide (url_Scheme u = "s3") && bool_decide (url_Host u ≠ "") && bool_decide (key ≠ "")
      then Ok (url_Host u, key)
      else Err (ErrText "invalid artifact URI")
  | None => Err (ErrText "invalid artifact URI")
  end.

(** * Construction *)

(** [artifact.Config]. *)
Record ArtifactConfig := {
  ac_Endpoint : string;
  ac_PublicEndpoint : string;
  ac_Region : string;
  ac_Bucket : string;
  ac_AccessKey : string;
  ac_SecretKey : string;
  ac_PathStyle : bool;
  ac_CreateBucket : bool;
  ac_PresignExpiry : Z
}.

(** A client of the object store: its buckets, and the calls on buckets. *)
Record S3Client := {
  s3_objects : string → Objects;
  s3_head_bucket : nat → string → result unit;
  s3_create_bucket : nat → string → result unit
}.

(** [Manager]: [internalPresign] signs with [client] itself. *)
Record Manager := {
  mg_bucket : string;
  mg_expiry : Z;
  mg_client : Objects;
  mg_presign : Objects
}.

Definition mg_internalPresign (m : Manager) : Objects := mg_client m.

(** Browsers and API clients are given URLs of the public endpoint, workers those
    of the endpoint the service itself uses. *)
Definition CreateUpload (m : Manager) := createUpload (mg_bucket m) (mg_expiry m) (mg_presign m).
Definition CreateInternalUpload (m : Manager) := createUpload (mg_bucket m) (mg_expiry m) (mg_internalPresign m).
Definition Manager_Download (m : Manager) := download (mg_expiry m) (mg_presign m).
Definition DownloadInternal (m : Manager) := download (mg_expiry m) (mg_internalPresign m).

Definition ensureBucket (client : S3Client) (bucket : string) : M unit :=
  head ← try (ask (λ n, s3_head_bucket client n bucket));
  match head with
  | Ok _ => mret tt
  | Err _ =>
      created ← try (ask (λ n, s3_create_bucket client n bucket));
      match created with
      | Ok _ => mret tt
      | Err err =>
          head ← try (ask (λ n, s3_head_bucket client n bucket));
          match head with
          | Ok _ => mret tt
          | Err _ => ask (λ _, wrap "create artifact bucket" (Err err))
          end
      end
  end.

Section New.
Context {aws : Type} (LoadDefaultConfig : string → option (string * string) → result aws).
Context (NewFromConfig : aws → bool → option string → S3Client).

Definition slash (c : ascii) : bool := Ascii.eqb c "/".

Definition New (cfg : ArtifactConfig) : M Manager :=
  let credentials := if bool_decide (ac_AccessKey cfg = "") then None
                     else Some (ac_AccessKey cfg, ac_SecretKey cfg) in
  awsCfg ← ask (λ _, wrap "load S3 configuration" (LoadDefaultConfig (ac_Region cfg) credentials));
  let endpoint := trim_right slash (ac_Endpoint cfg) in
  let public := trim_right slash (ac_PublicEndpoint cfg) in
  let client := NewFromConfig awsCfg (ac_PathStyle cfg)
                  (if bool_decide (ac_Endpoint cfg = "") then None else Some endpoint) in
  let presignClient := if bool_decide (ac_PublicEndpoint cfg ≠ "") && bool_decide (public ≠ endpoint)
                       then NewFromConfig awsCfg (ac_PathStyle cfg) (Some public)
                       else client in
  (if ac_CreateBucket cfg then ensureBucket client (ac_Bucket cfg) else mret tt) ;;
  mret {| mg_bucket := ac_Bucket cfg;
          mg_expiry := if bool_decide (ac_PresignExpiry cfg = 0) then 900 * Second
                       else ac_PresignExpiry cfg;
          mg_client := s3_objects client (ac_Bucket cfg);
          mg_presign := s3_objects presignClient (ac_Bucket cfg) |}.
End New.
