(* ===== verification/RateLimit.v ===== *)
(** The per-tenant rate limiter: [internal/ratelimit/limiter.go].

    The token bucket is a Lua script that Redis runs atomically on one key per
    tenant.  Lua's numbers are binary64: every operation of the script is the
    operation on rationals followed by the rounding [fl].  Times are microseconds
    of Redis's clock, as [TIME] gives them; keys expire after whole milliseconds.
    Redis stores a number with 17 digits, which read back as the same number. *)
From stdpp Require Import pretty.
From Stdlib Require Import QArith Qround Lqa.
From S2P Require Import Prelude Go State Json Schema Sql Auth.

(** The hash at the tenant's key, and the millisecond after which Redis drops
    it. *)
Record Bucket := mkBucket {
  b_tokens : Q;
  b_updated : Q;
  b_expires : Z
}.

Record Result_ := mkResult {
  Allowed : bool;
  Remaining : Z;
  RetryAfter : Z
}.

Section Script.
Context (fl : Q → Q) (rate burst : Z).

(** [math.min] and [math.max]. *)
Definition lua_min (a b : Q) : Q := if Qle_bool a b then a else b.
Definition lua_max (a b : Q) : Q := if Qle_bool a b then b else a.

(** Lines 17-18: seconds and microseconds of [TIME] as one number. *)
Definition clock (t : Z) : Q :=
  fl (inject_Z (t / 1000000) + fl (inject_Z (t mod 1000000) / inject_Z 1000000))%Q.

(** What the key holds: nothing once it has expired. *)
Definition stored (t : Z) (b : option Bucket) : option Bucket :=
  b ← b; if bool_decide (b_expires b < t / 1000) then None else Some b.

(** Lines 19-22: the stored tokens, topped up. *)
Definition refill (now : Q) (b : option Bucket) : Q :=
  let tokens := from_option b_tokens (inject_Z burst) b in
  let updated := from_option b_updated now b in
  lua_min (inject_Z burst) (fl (tokens + fl (lua_max 0 (fl (now - updated)) * inject_Z rate)))%Q.

(** Line 32: the milliseconds a bucket is kept. *)
Definition keep_ms : Z := Qceiling (fl (fl (inject_Z burst / inject_Z rate) * inject_Z 2000))%Q.

(** [tokenBucketScript]: allowed, whole tokens left, milliseconds to wait. *)
Definition tokenBucketScript (t : Z) (key : option Bucket) : (Z * Z * Z) * Bucket :=
  let now := clock t in
  let tokens := refill now (stored t key) in
  let allowed := Qle_bool 1 tokens in
  let retry_ms :=
    if allowed then 0 else Qceiling (fl (fl (fl (1 - tokens) / inject_Z rate) * inject_Z 1000))%Q in
  let tokens := if allowed then fl (tokens - 1)%Q else tokens in
  ((if allowed then 1 else 0, Qfloor tokens, retry_ms), mkBucket tokens now (t / 1000 + keep_ms)).

(** [Allow]: the reply as the Go code reads it. *)
Definition Allow (t : Z) (key : option Bucket) : Result_ * Bucket :=
  let '((allowed, remaining, retry), b) := tokenBucketScript t key in
  (mkResult (bool_decide (allowed = 1)) remaining (retry * 1000000), b).

(** Requests of one tenant at the given times; the result of each. *)
Fixpoint serve (key : option Bucket) (times : list Z) : list bool * option Bucket :=
  match times with
  | [] => ([], key)
  | t :: times =>
      let '(r, b) := Allow t key in
      let '(rs, key) := serve (Some b) times in (Allowed r :: rs, key)
  end.

Fixpoint granted (rs : list bool) : Z :=
  match rs with [] => 0 | r :: rs => (if r then 1 else 0) + granted rs end.

(** ** Rounding *)

(** What IEEE 754 promises of the rounding of results in the range that matters
    here: it is monotone, keeps whole numbers up to 2^53, and errs by at most
    half a unit in the last place. *)
(** 2^-53 and 2^-200. *)
Definition ulp : Q := 1 # 9007199254740992.
Definition tiny : Q := 1 # 1606938044258990275541962092341162602522202993782792835301376.

Record rounding : Prop := {
  rd_mono : ∀ x y, (x <= y)%Q → (fl x <= fl y)%Q;
  rd_int : ∀ z, 0 ≤ z ≤ 2 ^ 53 → (fl (inject_Z z) == inject_Z z)%Q;
  rd_error : ∀ x, (0 <= x <= inject_Z (2 ^ 200))%Q →
    (x - ulp * x - tiny <= fl x <= x + ulp * x + tiny)%Q
}.

Context (Hfl : rounding).
(** Redis reads the argument of [PEXPIRE] as a whole number. *)
Context (Hrate : 0 < rate ≤ 2 ^ 40) (Hburst : 0 < burst ≤ 2 ^ 40).

Lemma inject_le a b : a ≤ b → (inject_Z a <= inject_Z b)%Q.
Proof. by rewrite <-Zle_Qle. Qed.

Lemma rate_q : (1 <= inject_Z rate <= inject_Z (2 ^ 53))%Q.
Proof. split; [apply (inject_le 1)|apply inject_le]; lia. Qed.

Lemma burst_q : (1 <= inject_Z burst <= inject_Z (2 ^ 53))%Q.
Proof. split; [apply (inject_le 1)|apply inject_le]; lia. Qed.

Lemma fl_zero x : (x == 0)%Q → (fl x == 0)%Q.
Proof.
  intros Hx. pose proof (rd_int Hfl 0 ltac:(lia)) as H0. change (inject_Z 0) with 0%Q in H0.
  apply Qle_antisym; rewrite <-H0; apply (rd_mono Hfl); lra.
Qed.

Lemma fl_pos x : (0 <= x)%Q → (0 <= fl x)%Q.
Proof. intros Hx. rewrite <-(fl_zero 0) at 1 by lra. by apply (rd_mono Hfl). Qed.

Lemma fl_le_int x z : 0 ≤ z ≤ 2 ^ 53 → (x <= inject_Z z)%Q → (fl x <= inject_Z z)%Q.
Proof. intros Hz Hx. rewrite <-(rd_int Hfl z Hz). by apply (rd_mono Hfl). Qed.

(** ** The clock *)

(** Instants until 2106. *)
Definition instant (t : Z) : Prop := 0 ≤ t < 2 ^ 32 * 1000000.

Definition seconds (t : Z) : Q := (inject_Z t / inject_Z 1000000)%Q.

Lemma seconds_split t :
  (seconds t == inject_Z (t / 1000000) + inject_Z (t mod 1000000) / inject_Z 1000000)%Q.
Proof.
  unfold seconds. rewrite (Z.div_mod t 1000000) at 1 by lia. rewrite inject_Z_plus, inject_Z_mult. field.
Qed.

Lemma fraction_bounds t : (0 <= inject_Z (t mod 1000000) / inject_Z 1000000 <= 1)%Q.
Proof.
  pose proof (Z.mod_pos_bound t 1000000 ltac:(lia)) as [H1 H2].
  pose proof (inject_le _ _ H1) as H1'. pose proof (inject_le (t mod 1000000) 1000000 ltac:(lia)) as H2'.
  change (inject_Z 0) with 0%Q in H1'. change (inject_Z 1000000) with (1000000 # 1)%Q in *.
  split; [apply Qle_shift_div_l|apply Qle_shift_div_r]; lra.
Qed.

(** The clock errs by less than 2^-20 seconds. *)
Lemma clock_error t : instant t → (seconds t - (1 # 1048576) <= clock t <= seconds t + (1 # 1048576))%Q.
Proof.
  intros Ht. pose proof (seconds_split t) as Hs. pose proof (fraction_bounds t) as Hf. unfold clock.
  set (f := (inject_Z (t mod 1000000) / inject_Z 1000000)%Q) in *.
  assert (0 <= inject_Z (t / 1000000) <= inject_Z (2 ^ 32))%Q as Hw.
  { unfold instant in Ht. split; [apply (inject_le 0)|apply inject_le].
    - apply Z.div_pos; lia.
    - apply Z.lt_le_incl, Z.div_lt_upper_bound; lia. }
  set (w := inject_Z (t / 1000000)) in *. change (inject_Z (2 ^ 32)) with (4294967296 # 1)%Q in Hw.
  assert (0 <= f <= inject_Z (2 ^ 200))%Q as Hf' by (split; [lra|]; apply (Qle_trans _ 1); [lra|by apply (inject_le 1)]).
  pose proof (rd_error Hfl f Hf') as Hg. pose proof (fl_pos f ltac:(lra)). set (g := fl f) in *.
  assert (0 <= w + g <= inject_Z (2 ^ 200))%Q as Hwg.
  { split; [lra|]. apply (Qle_trans _ (4294967300 # 1)); [unfold ulp, tiny in *; lra|].
    by apply (inject_le 4294967300). }
  pose proof (rd_error Hfl _ Hwg) as Hn. unfold ulp, tiny in *. lra.
Qed.

Lemma clock_mono t t' : 0 ≤ t ≤ t' → t' < 2 ^ 53 → (clock t <= clock t')%Q.
Proof.
  intros Ht Hmax. unfold clock. apply (rd_mono Hfl).
  pose proof (Z.div_le_mono t t' 1000000 ltac:(lia) ltac:(lia)) as Hdiv.
  destruct (decide (t / 1000000 = t' / 1000000)) as [He|Hne].
  - rewrite He. apply Qplus_le_r, (rd_mono Hfl).
    assert (t mod 1000000 ≤ t' mod 1000000) as Hm%inject_le.
    { pose proof (Z.div_mod t 1000000 ltac:(lia)). pose proof (Z.div_mod t' 1000000 ltac:(lia)). lia. }
    apply Qmult_le_compat_r; [done|]. by apply Qinv_le_0_compat.
  - pose proof (fraction_bounds t) as Hf. pose proof (fraction_bounds t') as Hf'.
    pose proof (fl_le_int _ 1 ltac:(lia) (proj2 Hf)) as H1. pose proof (fl_pos _ (proj1 Hf')) as H0.
    assert (t / 1000000 + 1 ≤ t' / 1000000) as Hd%inject_le by lia. rewrite inject_Z_plus in Hd.
    change (inject_Z 1) with 1%Q in *. lra.
Qed.

(** ** The bucket *)

(** What the script wrote at [t]. *)
Definition written (t : Z) (b : Bucket) : Prop :=
  instant t ∧ (0 <= b_tokens b <= inject_Z burst)%Q ∧ b_updated b = clock t ∧ b_expires b = t / 1000 + keep_ms.

(** The error of one request: 2^-49 of the burst. *)
Definition slack : Q := (inject_Z burst * (1 # 562949953421312))%Q.

Lemma lua_min_le a b : (lua_min a b <= a)%Q ∧ (lua_min a b <= b)%Q ∧ (lua_min a b = a ∨ lua_min a b = b).
Proof.
  unfold lua_min. destruct (Qle_bool a b) eqn:H; [apply Qle_bool_iff in H; repeat split; [lra|lra|by left]|].
  assert (¬ (a <= b)%Q) as Hn by (rewrite <-Qle_bool_iff; congruence). apply Qnot_le_lt in Hn.
  repeat split; [lra|lra|by right].
Qed.

Lemma lua_max_pos x : (0 <= x)%Q → (lua_max 0 x = x).
Proof. intros Hx. unfold lua_max. apply Qle_bool_iff in Hx. by rewrite Hx. Qed.

Lemma lua_max_le x : (x <= 0)%Q → (lua_max 0 x == 0)%Q.
Proof. intros Hx. unfold lua_max. destruct (Qle_bool 0 x) eqn:H; [apply Qle_bool_iff in H; lra|lra]. Qed.

(** Topping up adds at most what the elapsed time pays for. *)
Lemma top_up T D :
  (0 <= T <= inject_Z burst)%Q → (0 <= D <= inject_Z (2 ^ 33))%Q →
  let R := lua_min (inject_Z burst) (fl (T + fl (lua_max 0 (fl D) * inject_Z rate)))%Q in
  (0 <= R <= inject_Z burst)%Q ∧ (R <= T + D * inject_Z rate + inject_Z burst * (1 # 1125899906842624))%Q.
Proof.
  intros HT HD R. pose proof rate_q as Hr. pose proof burst_q as Hb.
  set (r := inject_Z rate) in *. set (B := inject_Z burst) in *.
  change (inject_Z (2 ^ 53)) with (9007199254740992 # 1)%Q in *.
  change (inject_Z (2 ^ 33)) with (8589934592 # 1)%Q in *.
  assert (∀ x, (x <= 1606938044258990275541962092341162602522202993782792835301376 # 1)%Q →
    (x <= inject_Z (2 ^ 200))%Q) as Hbig by done.
  pose proof (fl_pos D ltac:(lra)) as HE0. pose proof (rd_error Hfl D ltac:(split; [lra|apply Hbig; lra])) as HE.
  unfold R. rewrite (lua_max_pos _ HE0). set (E := fl D) in *. unfold ulp, tiny in *.
  assert (0 <= D * r <= D * (9007199254740992 # 1))%Q as HX by nra.
  assert (0 <= E * r)%Q as HY0 by nra.
  assert (D * r - (1 # 9007199254740992) * (D * r) - (1 # 1393796574908163946345982392040522594123776) <= E * r)%Q as HY1 by nra.
  assert (E * r <= D * r + (1 # 9007199254740992) * (D * r) + (1 # 1393796574908163946345982392040522594123776))%Q as HY2 by nra.
  set (X := (D * r)%Q) in *. set (Y := (E * r)%Q) in *. clearbody X Y E.
  pose proof (fl_pos Y HY0) as HP0. pose proof (rd_error Hfl Y ltac:(split; [lra|apply Hbig; lra])) as HP.
  set (P := fl Y) in *. clearbody P. unfold ulp, tiny in *.
  pose proof (fl_pos (T + P) ltac:(lra)) as HS0.
  pose proof (rd_error Hfl (T + P) ltac:(split; [lra|apply Hbig; lra])) as HS. unfold ulp, tiny in *.
  set (S := fl (T + P)) in *. clearbody S. destruct (lua_min_le B S) as (H1 & H2 & H3).
  assert (0 <= lua_min B S)%Q by (destruct H3 as [-> | ->]; lra). split; [lra|].
  destruct (Qlt_le_dec X B); [|lra]. destruct (Qlt_le_dec (T + P) B); lra.
Qed.

(** A bucket is kept for almost twice the time it takes to fill it. *)
Lemma keep_enough : (1 <= inject_Z keep_ms)%Q ∧ (inject_Z burst * (1999 # 1) <= inject_Z keep_ms * inject_Z rate)%Q.
Proof.
  pose proof rate_q as Hr. pose proof burst_q as Hb. unfold keep_ms.
  set (r := inject_Z rate) in *. set (B := inject_Z burst) in *.
  assert (B / r * r == B)%Q as Hq by (field; lra).
  assert (0 <= B / r)%Q as Hq0 by (apply Qle_shift_div_l; lra).
  assert (B / r <= inject_Z (2 ^ 53))%Q as Hq1 by (apply Qle_shift_div_r; nra).
  set (q := (B / r)%Q) in *. clearbody q. change (inject_Z (2 ^ 53)) with (9007199254740992 # 1)%Q in *.
  change (inject_Z 2000) with (2000 # 1)%Q.
  assert (∀ x, (x <= 1606938044258990275541962092341162602522202993782792835301376 # 1)%Q →
    (x <= inject_Z (2 ^ 200))%Q) as Hbig by done.
  pose proof (fl_pos q Hq0) as Hp0. pose proof (rd_error Hfl q ltac:(split; [lra|apply Hbig; lra])) as Hp.
  set (p := fl q) in *. clearbody p. unfold ulp, tiny in *.
  pose proof (rd_error Hfl (p * (2000 # 1)) ltac:(split; [lra|apply Hbig; lra])) as Hv.
  set (v := fl (p * (2000 # 1))) in *. clearbody v. unfold ulp, tiny in *.
  pose proof (Qle_ceiling v) as Hk. set (k := Qceiling v) in *. clearbody k.
  assert (B * (1999 # 1) <= v * r)%Q as Hvr by nra.
  assert (0 < v)%Q as Hv0 by nra. assert (1 ≤ k) as Hk1%inject_le.
  { assert (inject_Z 0 < inject_Z k)%Q as H by (change (inject_Z 0) with 0%Q; lra). rewrite <-Zlt_Qlt in H. lia. }
  change (inject_Z 1) with 1%Q in Hk1. split; [lra|nra].
Qed.

(** So one that expires is full. *)
Lemma expired_full t t' b :
  written t b → t ≤ t' → instant t' → b_expires b < t' / 1000 →
  (inject_Z burst <= b_tokens b + (clock t' - b_updated b) * inject_Z rate)%Q.
Proof.
  intros (Ht & HT & -> & ->) Hle Ht' Hexp. destruct keep_enough as [Hk1 Hk].
  pose proof (clock_error t Ht) as C. pose proof (clock_error t' Ht') as C'. pose proof rate_q as Hr.
  assert (t + keep_ms * 1000 ≤ t') as Hms%inject_le.
  { pose proof (Z.div_mod t 1000 ltac:(lia)). pose proof (Z.div_mod t' 1000 ltac:(lia)).
    pose proof (Z.mod_pos_bound t 1000 ltac:(lia)). pose proof (Z.mod_pos_bound t' 1000 ltac:(lia)). lia. }
  rewrite inject_Z_plus, inject_Z_mult in Hms.
  assert (seconds t' - seconds t == (inject_Z t' - inject_Z t) * (1 # 1000000))%Q as Hs by (unfold seconds; field).
  change (inject_Z 1000) with (1000 # 1)%Q in *.
  set (k := inject_Z keep_ms) in *. set (d := (clock t' - clock t)%Q).
  assert (k * (9 # 10000) <= d)%Q as Hd by (unfold d; lra). clearbody d. nra.
Qed.

Lemma refill_full t : (0 <= refill (clock t) None <= inject_Z burst)%Q.
Proof.
  pose proof burst_q as Hb. unfold refill. cbn [from_option].
  refine (proj1 (top_up (inject_Z burst) (clock t - clock t) _ _)); [lra|].
  split; [lra|]. apply (Qle_trans _ 0); [lra|by apply (inject_le 0)].
Qed.

Lemma refill_stored t t' b :
  written t b → t ≤ t' → instant t' → let R := refill (clock t') (stored t' (Some b)) in
  (0 <= R <= inject_Z burst)%Q ∧
  (R <= b_tokens b + (clock t' - b_updated b) * inject_Z rate + inject_Z burst * (1 # 1125899906842624))%Q.
Proof.
  intros Hw Hle Ht' R. subst R. unfold stored. simpl. case_bool_decide as He.
  - pose proof (refill_full t') as HR. pose proof (expired_full t t' b Hw Hle Ht' He).
    pose proof burst_q as Hb. split; [exact HR|lra].
  - destruct Hw as (Ht & HT & Hu & _). unfold refill. cbn [from_option]. apply (top_up _ _ HT). rewrite Hu.
    pose proof (clock_error t Ht) as C. pose proof (clock_error t' Ht') as C'. unfold instant in *.
    pose proof (clock_mono t t' ltac:(lia) ltac:(lia)) as Hm. split; [lra|].
    assert (0 <= seconds t)%Q as H0 by (unfold seconds; apply Qle_shift_div_l; [done|apply (inject_le 0); lia]).
    assert (seconds t' <= 4294967296 # 1)%Q as H1.
    { unfold seconds. apply Qle_shift_div_r; [done|].
      apply (inject_le t' (4294967296 * 1000000)). lia. }
    apply (Qle_trans _ (4294967300 # 1)); [lra|by apply (inject_le 4294967300)].
Qed.

(** A request pays for its grant. *)
Lemma script_written t key R :
  instant t → R = refill (clock t) (stored t key) → (0 <= R <= inject_Z burst)%Q →
  let '((allowed, _, _), b) := tokenBucketScript t key in
  written t b ∧ (allowed = 0 ∨ allowed = 1) ∧
  (b_tokens b + inject_Z allowed <= R + inject_Z burst * (1 # 1125899906842624))%Q.
Proof.
  intros Ht -> HR. unfold tokenBucketScript. set (R := refill (clock t) (stored t key)) in *. clearbody R.
  pose proof burst_q as Hb. destruct (Qle_bool 1 R) eqn:Ha.
  - apply Qle_bool_iff in Ha. change (inject_Z (2 ^ 53)) with (9007199254740992 # 1)%Q in *.
    pose proof (fl_pos (R - 1) ltac:(lra)) as H0. pose proof (rd_mono Hfl (R - 1) (inject_Z burst) ltac:(lra)) as H1.
    rewrite (rd_int Hfl burst) in H1 by lia.
    assert (0 <= R - 1 <= inject_Z (2 ^ 200))%Q as Hrange.
    { split; [lra|]. apply (Qle_trans _ (9007199254740992 # 1)); [lra|by apply (inject_le 9007199254740992)]. }
    pose proof (rd_error Hfl _ Hrange) as HE. unfold ulp, tiny in HE. change (inject_Z 1) with 1%Q.
    split; [|split; [by right|simpl; lra]].
    split; [done|]. split; [simpl; lra|done].
  - change (inject_Z 0) with 0%Q. split; [|split; [by left|simpl; lra]].
    split; [done|]. split; [simpl; lra|done].
Qed.

(** From a bucket, the grants are paid by its tokens and the elapsed time. *)
Lemma serve_bound t b times last :
  written t b → Sorted Z.le (t :: times) → Forall instant times → Forall (λ x, x ≤ last) (t :: times) → instant last →
  (inject_Z (granted (serve (Some b) times).1) <=
   b_tokens b + (clock last - b_updated b) * inject_Z rate + inject_Z (Z.of_nat (length times)) * slack)%Q.
Proof.
  revert t b. induction times as [|t' times IH]; intros t b Hw Hs Hi Hl Hlast.
  { pose proof rate_q as Hr. apply Forall_cons in Hl as [Hl _]. destruct Hw as (Ht & HT & -> & _).
    unfold instant in *. pose proof (clock_mono t last ltac:(lia) ltac:(lia)).
    assert (0 <= (clock last - clock t) * inject_Z rate)%Q by (apply Qmult_le_0_compat; lra).
    cbn [serve granted fst length]. change (inject_Z (Z.of_nat 0)) with 0%Q. change (inject_Z 0) with 0%Q. lra. }
  apply Sorted_inv in Hs as [Hs Hle]. apply HdRel_inv in Hle. apply Forall_cons in Hi as [Ht' Hi].
  apply Forall_cons in Hl as [_ Hl]. destruct (refill_stored t t' b Hw Hle Ht') as [HR Hpaid].
  pose proof (script_written t' (Some b) _ Ht' eq_refl HR) as Hsc. cbn [serve]. unfold Allow.
  destruct (tokenBucketScript t' (Some b)) as [[[allowed rem] ms] b'] eqn:Hb'. destruct Hsc as (Hw' & Ha & Hpay).
  specialize (IH t' b' Hw' Hs Hi Hl Hlast). destruct (serve (Some b') times) as [rs key']. cbn [fst granted Allowed] in *.
  assert (b_updated b' = clock t') as Hu by apply Hw'. rewrite Hu in IH.
  cbn [length]. rewrite Nat2Z.inj_succ, <-Z.add_1_l, !inject_Z_plus. unfold slack in *.
  assert (inject_Z (if bool_decide (allowed = 1) then 1 else 0) = inject_Z allowed) as -> by (by destruct Ha as [-> | ->]).
  set (n := inject_Z (Z.of_nat (length times))) in *. set (g := inject_Z (granted rs)) in *.
  change (inject_Z 1) with 1%Q. pose proof burst_q. lra.
Qed.

(** C32: the limit.  Rate and burst are positive and at most 2^40, Redis's clock
    does not go back and stays before the year 2106, and the bucket holds what the
    script wrote, if anything.  Then of the requests of a tenant within any
    stretch of time at most [burst] plus [rate] per second are granted, up to the
    rounding of Lua's numbers: two microseconds of the rate, and a 2^-49th part of
    the burst for each request.  The expiry of the key in between makes no
    difference. *)
Theorem rate_limit_bound key first times last :
  (∀ b, key = Some b → ∃ t, written t b ∧ t ≤ first) →
  Sorted Z.le (first :: times) → Forall (λ t, 0 ≤ t ≤ last) (first :: times) → last < 2 ^ 32 * 1000000 →
  (inject_Z (granted (serve key (first :: times)).1) <=
   inject_Z burst + ((inject_Z last - inject_Z first) / inject_Z 1000000 + (2 # 1000000)) * inject_Z rate
   + inject_Z (Z.of_nat (S (length times))) * slack)%Q.
Proof.
  intros Hkey Hs Hl Hmax. pose proof Hl as [Hf _]%Forall_cons. pose proof Hl as Hi.
  assert (instant last) as Hlast by (unfold instant; lia). assert (instant first) as Hfirst by (unfold instant; lia).
  assert (Forall instant times) as Hin.
  { apply Forall_cons in Hi as [_ Hi]. eapply Forall_impl; [exact Hi|]. unfold instant. simpl. lia. }
  assert (0 <= refill (clock first) (stored first key) <= inject_Z burst)%Q as HR.
  { destruct key as [b|]; [|apply refill_full]. destruct (Hkey b eq_refl) as (t & Hw & Ht).
    by apply (refill_stored t first b). }
  pose proof (script_written first key _ Hfirst eq_refl HR) as Hsc. cbn [serve]. unfold Allow.
  destruct (tokenBucketScript first key) as [[[allowed rem] ms] b] eqn:Hb. destruct Hsc as (Hw & Ha & Hpay).
  pose proof (serve_bound first b times last Hw Hs Hin) as Hbound.
  destruct (serve (Some b) times) as [rs key']. cbn [fst granted Allowed] in *.
  assert (b_updated b = clock first) as Hu by apply Hw. rewrite Hu in Hbound.
  specialize (Hbound ltac:(eapply Forall_impl; [exact Hl|simpl; lia]) Hlast).
  pose proof (clock_error first Hfirst) as C. pose proof (clock_error last Hlast) as C'. pose proof rate_q as Hr.
  assert (seconds last - seconds first == (inject_Z last - inject_Z first) / inject_Z 1000000)%Q as He
    by (unfold seconds; field).
  rewrite <-He. rewrite Nat2Z.inj_succ, <-Z.add_1_l, !inject_Z_plus. unfold slack in *.
  assert (inject_Z (if bool_decide (allowed = 1) then 1 else 0) = inject_Z allowed) as -> by (by destruct Ha as [-> | ->]).
  set (n := inject_Z (Z.of_nat (length times))) in *. set (g := inject_Z (granted rs)) in *.
  change (inject_Z 1) with 1%Q. pose proof burst_q.
  assert ((clock last - clock first) * inject_Z rate
    <= (seconds last - seconds first + (2 # 1000000)) * inject_Z rate)%Q by (apply Qmult_le_compat_r; lra).
  lra.
Qed.
End Script.

(** * [Middleware] *)

(** The request goes on, with these response headers, or is answered. *)
Inductive gate : Type :=
  | Pass (headers : list (string * string))
  | Reject (status : Z) (headers : list (string * string)) (message : string).

(** [d.Round(m)]: to the nearest multiple, halves away from zero, for [0 <= d]. *)
Definition duration_round (d m : Z) : Z :=
  let r := d mod m in if bool_decide (r + r < m) then d - r else d + (m - r).

Definition retry_seconds (retry : Z) : Z :=
  let s := duration_round retry Second / Second in if bool_decide (s < 1) then 1 else s.

Definition Middleware (burst : Z) (failOpen : bool) (result : result Result_) : gate :=
  match result with
  | Err _ => if failOpen then Pass [] else Reject 503 [] "rate limiter unavailable"
  | Ok r =>
      let headers := [("RateLimit-Limit", pretty burst); ("RateLimit-Remaining", pretty (Remaining r))] in
      if Allowed r then Pass headers
      else Reject 429 (headers ++ [("Retry-After", pretty (retry_seconds (RetryAfter r)))])
             "tenant rate limit exceeded"
  end.

(** Outside development an unreachable limiter refuses requests, and a
    request passes exactly when the bucket grants it. *)
Theorem Middleware_decision burst failOpen (res : result Result_) :
  (∃ hs, Middleware burst failOpen res = Pass hs) ↔
  match res with Ok r => Allowed r = true | Err _ => failOpen = true end.
Proof.
  destruct res as [r|e]; simpl; [destruct (Allowed r)|destruct failOpen]; naive_solver.
Qed.
