(* ===== verification/Metrics.v ===== *)
(** [internal/telemetry/dbmetrics.go]: the collector that turns the database
    into Prometheus metrics.

    Values are [float64], with the arithmetic of [SpecFloat].  A query fails, or
    delivers its rows until the connection breaks: the loops over [rows.Next] end
    as they do after the last row, because [rows.Err] is never asked.
    [histograms] keeps its two maps and is shown to compute, for every
    combination of labels, the cumulative histogram of that group's values. *)
From Stdlib Require Import SpecFloat.
From S2P Require Import Prelude Go State Json Schema Sql.

(** * Descriptors *)

Record Desc := mkDesc { fqName : string; variableLabels : list string }.

Definition queue : Desc := mkDesc "task_queue_depth" ["status"].
Definition tenantQueue : Desc := mkDesc "tenant_task_queue_depth" ["tenant_id"; "status"].
Definition outbox : Desc := mkDesc "outbox_unpublished_events" [].
Definition runs : Desc := mkDesc "workflow_runs_total" ["status"].
Definition retries : Desc := mkDesc "task_retries_total" [].
Definition dead : Desc := mkDesc "task_dead_letter_total" [].
Definition workers : Desc := mkDesc "worker_active_tasks" ["tenant_id"; "worker_id"].
Definition heartbeatAge : Desc := mkDesc "worker_heartbeat_age_seconds" ["tenant_id"; "worker_id"].
Definition workflowDuration : Desc := mkDesc "workflow_duration_seconds" ["tenant_id"].
Definition schedulingDelay : Desc := mkDesc "task_scheduling_delay_seconds" ["tenant_id"].
Definition executionDuration : Desc := mkDesc "task_execution_duration_seconds" ["tenant_id"].
Definition artifactLatency : Desc := mkDesc "artifact_latency_seconds" ["tenant_id"; "kind"].
Definition tenantRuns : Desc := mkDesc "tenant_workflow_runs_total" ["tenant_id"; "status"].
Definition tenantAttempts : Desc := mkDesc "tenant_task_attempts_total" ["tenant_id"].
Definition tenantArtifactBytes : Desc := mkDesc "tenant_artifact_bytes_total" ["tenant_id"; "kind"].

Definition Describe : list Desc :=
  [queue; tenantQueue; outbox; runs; retries; dead; workers; heartbeatAge; workflowDuration;
   schedulingDelay; executionDuration; artifactLatency; tenantRuns; tenantAttempts;
   tenantArtifactBytes].

(** * Metrics *)

Inductive ValueType : Type := GaugeValue | CounterValue.

(** [float64]. *)
Local Notation float := spec_float.

Definition float_add : float → float → float := SFadd 53 1024.
Definition float_leb : float → float → bool := SFleb.
Definition float_ltb : float → float → bool := SFltb.
Definition IsNaN (x : float) : bool := match x with S754_nan => true | _ => false end.

(** The float nearest to [n / d]: how a decimal number is read. *)
Definition float_ratio (n : Z) (d : positive) : float :=
  let nearest (negative : bool) (p : positive) :=
    let '(m, e, l) := SFdiv_core_binary 53 1024 (Z.pos p) 0 (Z.pos d) 0 in
    binary_round_aux 53 1024 negative m e l in
  match n with
  | Z0 => S754_zero false
  | Zpos p => nearest false p
  | Zneg p => nearest true p
  end.

Definition number (n : Z) : float := float_ratio n 1.
Definition seconds (ns : Z) : float := float_ratio ns 1000000000.

Inductive Metric : Type :=
  | ConstMetric (d : Desc) (ty : ValueType) (value : float) (labels : list string)
  | ConstHistogram (d : Desc) (count : Z) (sum : float) (buckets : gmap Z Z) (labels : list string).

Definition metric_desc (m : Metric) : Desc :=
  match m with ConstMetric d _ _ _ | ConstHistogram d _ _ _ _ => d end.

Definition metric_labels (m : Metric) : list string :=
  match m with ConstMetric _ _ _ l | ConstHistogram _ _ _ _ l => l end.

(** [0.01, 0.05, 0.1, 0.25, 0.5, 1, 2.5, 5, 10, 30, 60, 300, 900, 3600] seconds;
    a boundary is named by its nanoseconds and is the number [seconds boundary]. *)
Definition durationBuckets : list Z :=
  (λ ms, ms * 1000000) <$>
    [10; 50; 100; 250; 500; 1000; 2500; 5000; 10000; 30000; 60000; 300000; 900000; 3600000].

(** * Queries *)

(** [SELECT key, agg FROM rows GROUP BY key]. *)
Definition group_by {A} (key : A → list string) (agg : list A → Z) (rows : list A)
    : list (list string * Z) :=
  (λ k, (k, agg (filter (λ a, key a = k) rows))) <$> remove_dups (key <$> rows).

Definition count {A} (rows : list A) : Z := Z.of_nat (length rows).

Definition table {V} (rank : uuid → Z) (m : gmap uuid V) : list (uuid * V) :=
  rows_where rank (λ _ _, true) m.

(** [task_runs t JOIN workflow_runs r ON r.id=t.workflow_run_id]. *)
Definition task_join (rank : uuid → Z) (db : Db) : list (TaskRow * RunRow) :=
  omap (λ kt, r ← workflow_runs db !! t_workflow_run_id kt.2; Some (kt.2, r))
    (table rank (task_runs db)).

(** [task_attempts a JOIN task_runs t ON t.id=a.task_run_id JOIN workflow_runs r
    ON r.id=t.workflow_run_id]. *)
Definition attempt_join (rank : uuid → Z) (db : Db) : list (AttemptRow * RunRow) :=
  omap (λ ka, t ← task_runs db !! ka.1.1; r ← workflow_runs db !! t_workflow_run_id t;
              Some (ka.2, r))
    (rows_where (rank ∘ fst) (λ _ _, true) (task_attempts db)).

Definition queue_depth (rank : uuid → Z) (db : Db) : list (list string * Z) :=
  group_by (λ kt, [task_status_text (t_status kt.2)]) count (table rank (task_runs db)).

Definition tenant_queue_depth (rank : uuid → Z) (db : Db) : list (list string * Z) :=
  group_by (λ tr, [r_tenant_id tr.2; task_status_text (t_status tr.1)]) count (task_join rank db).

Definition run_counts (rank : uuid → Z) (db : Db) : list (list string * Z) :=
  group_by (λ kr, [run_status_text (r_status kr.2)]) count (table rank (workflow_runs db)).

Definition tenant_run_counts (rank : uuid → Z) (db : Db) : list (list string * Z) :=
  group_by (λ kr, [r_tenant_id kr.2; run_status_text (r_status kr.2)]) count
    (table rank (workflow_runs db)).

Definition tenant_attempts (rank : uuid → Z) (db : Db) : list (list string * Z) :=
  group_by (λ ar, [r_tenant_id ar.2]) count (attempt_join rank db).

(** [COALESCE(sum(size_bytes),0)]: NULL sizes do not count. *)
Definition sum_bytes (rows : list (uuid * ArtifactRow)) : Z :=
  foldr Z.add 0 (omap (λ kf, f_size_bytes kf.2) rows).

Definition artifact_bytes (rank : uuid → Z) (db : Db) : list (list string * Z) :=
  group_by (λ kf, [f_tenant_id kf.2; f_kind kf.2]) sum_bytes
    (rows_where rank (λ _ f, bool_decide (f_status f = "READY")) (artifacts db)).

Definition unpublished_events (db : Db) : Z :=
  Z.of_nat (size (filter (λ ko, o_published_at ko.2 = None) (outbox_events db))).

Definition retry_count (db : Db) : Z := Z.of_nat (size (filter (λ ka, 1 < ka.1.2) (task_attempts db))).

Definition dead_events (db : Db) : Z :=
  Z.of_nat (size (filter (λ ko, o_event_type ko.2 = "task.dead") (outbox_events db))).

(** The rows of the four histogram queries; [extract(epoch FROM b-a)]. *)
Definition elapsed (labels : list string) (a b : option time) : option (list string * float) :=
  a ← a; b ← b; Some (labels, seconds (b - a)).

Definition workflow_durations (rank : uuid → Z) (db : Db) : list (list string * float) :=
  omap (λ kr, elapsed [r_tenant_id kr.2] (r_started_at kr.2) (r_completed_at kr.2))
    (table rank (workflow_runs db)).

Definition scheduling_delays (rank : uuid → Z) (db : Db) : list (list string * float) :=
  omap (λ ar, elapsed [r_tenant_id ar.2] (Some (a_scheduled_at ar.1)) (Some (a_started_at ar.1)))
    (attempt_join rank db).

Definition execution_durations (rank : uuid → Z) (db : Db) : list (list string * float) :=
  omap (λ ar, elapsed [r_tenant_id ar.2] (a_executing_at ar.1) (a_ended_at ar.1))
    (attempt_join rank db).

Definition artifact_latencies (rank : uuid → Z) (db : Db) : list (list string * float) :=
  omap (λ kf, elapsed [f_tenant_id kf.2; f_kind kf.2] (Some (f_created_at kf.2)) (f_ready_at kf.2))
    (table rank (artifacts db)).

(** * The collector *)

Section Collector.
(** The rows the statement of a tick delivers before its connection breaks. *)
Context (lost : nat → option nat).

Definition delivered {A} (n : nat) (rows : list A) : list A :=
  match lost n with None => rows | Some k => take k rows end.

(** [rows.Scan(pointers...)] fails when the row has another number of columns
    than [labelCount+1]; pgx then closes the rows. *)
Definition scans {V} (labelCount : nat) (row : list string * V) : bool :=
  bool_decide (length row.1 = labelCount).

Fixpoint scanned {V} (labelCount : nat) (rows : list (list string * V)) : list (list string * V) :=
  match rows with
  | [] => []
  | row :: rows => if scans labelCount row then row :: scanned labelCount rows else []
  end.

Definition grouped (d : Desc) (ty : ValueType)
    (query : (uuid → Z) → Db → list (list string * Z)) (labelCount : nat) : M (list Metric) :=
  rows ← try (pool_stmt (sql_select (λ env n db, delivered n (query (env_rank env n) db))));
  match rows with
  | Err _ => mret []
  | Ok rows => mret ((λ row, ConstMetric d ty (number row.2) row.1) <$> scanned labelCount rows)
  end.

Definition single (d : Desc) (ty : ValueType) (query : Db → Z) : M (list Metric) :=
  row ← try (pool_stmt (sql_select (λ _ _, query)));
  match row with
  | Err _ => mret []
  | Ok value => mret [ConstMetric d ty (number value) []]
  end.

Record histogramAggregate := mkAggregate {
  ag_count : Z;
  ag_sum : float;
  ag_buckets : gmap Z Z
}.

(** [m[boundary]++]: the zero value of a missing key is 0. *)
Definition increment (m : gmap Z Z) (boundary : Z) : gmap Z Z :=
  <[boundary := default 0 (m !! boundary) + 1]> m.

Fixpoint fill_buckets (value : float) (boundaries : list Z) (m : gmap Z Z) : gmap Z Z :=
  match boundaries with
  | [] => m
  | boundary :: boundaries =>
      fill_buckets value boundaries (if float_leb value (seconds boundary) then increment m boundary else m)
  end.

Definition observe (value : float) (a : histogramAggregate) : histogramAggregate :=
  {| ag_count := ag_count a + 1; ag_sum := float_add (ag_sum a) value;
     ag_buckets := fill_buckets value durationBuckets (ag_buckets a) |}.

Definition label_key (labels : list string) : string :=
  foldl (λ key label, key +:+ String "000" label) "" labels.

(** [aggregates] and [labelsByKey]. *)
Definition Aggregates : Type := gmap string histogramAggregate * gmap string (list string).

Definition aggregate_row (st : Aggregates) (row : list string * float) : Aggregates :=
  let '(aggregates, labelsByKey) := st in
  let '(labels, value) := row in
  if IsNaN value || float_ltb value (number 0) then st
  else
    let key := label_key labels in
    match aggregates !! key with
    | Some a => (<[key := observe value a]> aggregates, labelsByKey)
    | None =>
        (<[key := observe value (mkAggregate 0 (number 0) ∅)]> aggregates, <[key := labels]> labelsByKey)
    end.

Definition emit (d : Desc) (rank : string → Z) (st : Aggregates) : list Metric :=
  (λ ka, ConstHistogram d (ag_count ka.2) (ag_sum ka.2) (ag_buckets ka.2)
           (default [] (st.2 !! ka.1))) <$> range_map rank st.1.

Definition histograms (d : Desc) (query : (uuid → Z) → Db → list (list string * float))
    (labelCount : nat) : M (list Metric) :=
  rows ← try (pool_stmt (sql_select (λ env n db, delivered n (query (env_rank env n) db))));
  match rows with
  | Err _ => mret []
  | Ok rows =>
      rank ← range_rank;
      mret (emit d rank (foldl aggregate_row (∅, ∅) (scanned labelCount rows)))
  end.

(** The gauges of one worker: [GREATEST(0,extract(epoch FROM
    now()-last_seen_at))]. *)
Definition worker_metrics (now : time) (row : (uuid * string) * HeartbeatRow) : list Metric :=
  let labels := [row.1.1; row.1.2] in
  [ConstMetric workers GaugeValue (number (h_active_tasks row.2)) labels;
   ConstMetric heartbeatAge GaugeValue (seconds (Z.max 0 (now - h_last_seen_at row.2))) labels].

Definition worker_gauges : M (list Metric) :=
  rows ← try (pool_stmt (sql_select (λ env n db,
    (env_now env n,
     delivered n (rows_where (env_rank env n ∘ snd) (λ _ _, true) (worker_heartbeats db))))));
  match rows with
  | Err _ => mret []
  | Ok (now, rows) => mret (rows ≫= worker_metrics now)
  end.

Definition Collect : M (list Metric) :=
  m1 ← grouped queue GaugeValue queue_depth 1;
  m2 ← grouped tenantQueue GaugeValue tenant_queue_depth 2;
  m3 ← single outbox GaugeValue unpublished_events;
  m4 ← single retries CounterValue retry_count;
  m5 ← single dead CounterValue dead_events;
  m6 ← grouped runs CounterValue run_counts 1;
  m7 ← grouped tenantRuns CounterValue tenant_run_counts 2;
  m8 ← grouped tenantAttempts CounterValue tenant_attempts 1;
  m9 ← grouped tenantArtifactBytes CounterValue artifact_bytes 2;
  m10 ← worker_gauges;
  m11 ← histograms workflowDuration workflow_durations 1;
  m12 ← histograms schedulingDelay scheduling_delays 1;
  m13 ← histograms executionDuration execution_durations 1;
  m14 ← histograms artifactLatency artifact_latencies 2;
  mret (m1 ++ m2 ++ m3 ++ m4 ++ m5 ++ m6 ++ m7 ++ m8 ++ m9 ++ m10 ++ m11 ++ m12 ++ m13 ++ m14).
End Collector.

(** * What a histogram should be *)

(** The rows that count. *)
Definition counts (row : list string * float) : bool :=
  negb (IsNaN row.2 || float_ltb row.2 (number 0)).

(** The values of one combination of labels. *)
Definition group_values (labels : list string) (rows : list (list string * float)) : list float :=
  snd <$> filter (λ row, row.1 = labels) (filter (λ row, counts row) rows).

(** How many values are at most [boundary]. *)
Definition cumulative (vs : list float) (boundary : Z) : Z :=
  Z.of_nat (length (filter (λ v, float_leb v (seconds boundary)) vs)).

(** The boundaries that some value is below, with their cumulative counts. *)
Definition cumulative_buckets (vs : list float) : gmap Z Z :=
  list_to_map ((λ b, (b, cumulative vs b)) <$> filter (λ b, cumulative vs b ≠ 0) durationBuckets).

Definition float_sum (vs : list float) : float := foldl float_add (number 0) vs.

Definition reference_histogram (d : Desc) (labels : list string) (vs : list float) : Metric :=
  ConstHistogram d (Z.of_nat (length vs)) (float_sum vs) (cumulative_buckets vs) labels.

(** One histogram for every combination of labels that occurs. *)
Definition reference_histograms (d : Desc) (rows : list (list string * float)) : list Metric :=
  (λ labels, reference_histogram d labels (group_values labels rows)) <$>
    remove_dups (filter (λ row, counts row) rows).*1.

(** * The loop computes it *)

Definition summary (vs : list float) : histogramAggregate :=
  mkAggregate (Z.of_nat (length vs)) (float_sum vs) (cumulative_buckets vs).

Lemma durationBuckets_NoDup : NoDup durationBuckets.
Proof. apply (bool_decide_unpack _). by vm_compute. Qed.

Lemma lookup_cumulative_buckets vs b :
  cumulative_buckets vs !! b =
  if decide (b ∈ durationBuckets ∧ cumulative vs b ≠ 0) then Some (cumulative vs b) else None.
Proof.
  unfold cumulative_buckets. case_decide as Hb.
  - apply elem_of_list_to_map_1.
    + rewrite <-list_fmap_compose. simpl. rewrite list_fmap_id.
      apply NoDup_filter, durationBuckets_NoDup.
    + apply (list_elem_of_fmap_2 (λ b, (b, cumulative vs b))), list_elem_of_filter. naive_solver.
  - apply not_elem_of_list_to_map_1. rewrite <-list_fmap_compose. simpl. rewrite list_fmap_id.
    rewrite list_elem_of_filter. naive_solver.
Qed.

Lemma lookup_fill_buckets v bs m b :
  NoDup bs →
  fill_buckets v bs m !! b =
  if decide (b ∈ bs ∧ float_leb v (seconds b)) then Some (default 0 (m !! b) + 1) else m !! b.
Proof.
  revert m. induction bs as [|b0 bs IH]; intros m Hnd; cbn [fill_buckets].
  { rewrite decide_False; [done|]. by intros [?%not_elem_of_nil _]. }
  apply NoDup_cons in Hnd as [Hb0 Hnd]. rewrite IH by done.
  destruct (decide (b = b0)) as [->|Hne].
  - rewrite decide_False by naive_solver. destruct (float_leb v (seconds b0)).
    + unfold increment. by rewrite lookup_insert_eq, decide_True by (split; [by left|done]).
    + rewrite decide_False; [done|]. by intros [_ ?].
  - assert ((if float_leb v (seconds b0) then increment m b0 else m) !! b = m !! b) as ->.
    { destruct (float_leb v (seconds b0)); [|done]. unfold increment. by rewrite lookup_insert_ne. }
    apply decide_ext. rewrite elem_of_cons. naive_solver.
Qed.

Lemma cumulative_snoc vs v b :
  cumulative (vs ++ [v]) b = cumulative vs b + (if decide (float_leb v (seconds b)) then 1 else 0).
Proof.
  unfold cumulative. rewrite filter_app, length_app, filter_cons, filter_nil.
  case_decide; simpl; lia.
Qed.

Lemma observe_summary v vs : observe v (summary vs) = summary (vs ++ [v]).
Proof.
  unfold observe, summary. cbn [ag_count ag_sum ag_buckets]. f_equal.
  - rewrite length_app. cbn [length]. lia.
  - unfold float_sum. by rewrite foldl_app.
  - apply map_eq; intros b. rewrite lookup_fill_buckets, !lookup_cumulative_buckets, cumulative_snoc
      by apply durationBuckets_NoDup.
    assert (0 ≤ cumulative vs b) by (unfold cumulative; lia).
    destruct (decide (cumulative vs b = 0)); repeat case_decide; destruct_and?; cbn [default from_option id]; first
      [ done | f_equal; lia
      | exfalso; match goal with H : ¬ (_ ∧ _) |- _ => apply H; split; [done|done || lia] end ].
Qed.

(** The rows of one key of the two maps. *)
Definition keyed (key : string) (rows : list (list string * float)) : list (list string * float) :=
  filter (λ row, label_key row.1 = key) (filter (λ row, counts row) rows).

Lemma keyed_snoc key rows labels v :
  keyed key (rows ++ [(labels, v)]) =
  keyed key rows ++ if counts (labels, v) && bool_decide (label_key labels = key) then [(labels, v)] else [].
Proof.
  unfold keyed. rewrite !filter_app. f_equal. rewrite filter_cons, filter_nil.
  destruct (counts (labels, v)); cbn [andb]; [|done].
  rewrite decide_True, filter_cons, filter_nil by done. cbn [fst]. by do 2 case_decide || case_bool_decide.
Qed.

Definition loop (rows : list (list string * float)) : Aggregates := foldl aggregate_row (∅, ∅) rows.

(** The maps after any number of rows. *)
Lemma loop_spec rows key :
  (loop rows).1 !! key = match keyed key rows with [] => None | l => Some (summary l.*2) end ∧
  (loop rows).2 !! key = fst <$> head (keyed key rows).
Proof.
  unfold loop. revert key. induction rows as [|[labels v] rows IH] using rev_ind; [done|]. intros key.
  rewrite foldl_app, keyed_snoc. unfold counts. cbn [foldl fst snd].
  destruct (foldl _ _ rows) as [aggs byKey]. cbn [fst snd] in IH. unfold aggregate_row.
  destruct (IsNaN v || _); [by rewrite app_nil_r|].
  destruct (IH (label_key labels)) as [Ha Hb]. rewrite Ha. cbn [negb andb].
  case_bool_decide as Hk; [subst key|].
  - destruct (keyed (label_key labels) rows) as [|row l]; cbn [fst snd].
    + rewrite !lookup_insert_eq. change (mkAggregate 0 (number 0) ∅) with (summary []).
      by rewrite observe_summary.
    + rewrite lookup_insert_eq, Hb, observe_summary. split; [|done].
      change (Some (summary ((row :: l).*2 ++ [v])) = Some (summary ((row :: l) ++ [(labels, v)]).*2)).
      by rewrite fmap_app.
  - rewrite app_nil_r. destruct (keyed (label_key labels) rows); cbn [fst snd];
      rewrite !lookup_insert_ne by done; apply IH.
Qed.

(** ** One key per combination of labels *)

(** PostgreSQL's text never contains the separator. *)
Definition lacks_nul (label : string) : bool := all_chars (λ c, negb (Ascii.eqb c "000")) label.

Lemma label_key_snoc labels label :
  label_key (labels ++ [label]) = label_key labels +:+ String "000" label.
Proof. unfold label_key. by rewrite foldl_app. Qed.

Lemma label_key_inj l1 l2 :
  Forall lacks_nul l1 → Forall lacks_nul l2 → label_key l1 = label_key l2 → l1 = l2.
Proof.
  revert l2. induction l1 as [|s1 l1 IH] using rev_ind; intros l2 H1 H2;
    destruct l2 as [|s2 l2 _] using rev_ind; rewrite ?label_key_snoc; [done|..].
  - intros H. by destruct (label_key l2).
  - intros H. by destruct (label_key l1).
  - apply Forall_app in H1 as [H1 Hs1%Forall_inv], H2 as [H2 Hs2%Forall_inv].
    apply Is_true_true in Hs1, Hs2. intros H%(f_equal (cut_last "000")).
    rewrite !cut_last_app in H by done. injection H as H ->. by rewrite (IH l2).
Qed.

Section Equivalence.
Context (rows : list (list string * float)).
Context (Hrows : Forall (λ row, Forall lacks_nul row.1) rows).

Lemma counted_lacks_nul row :
  row ∈ filter (λ row, counts row) rows → Forall lacks_nul row.1.
Proof. intros [_ Hin]%list_elem_of_filter. by eapply Forall_forall in Hrows. Qed.

(** A key of the maps stands for one combination of labels. *)
Lemma keyed_labels row :
  row ∈ filter (λ row, counts row) rows →
  keyed (label_key row.1) rows =
  filter (λ row', row'.1 = row.1) (filter (λ row, counts row) rows).
Proof.
  intros Hrow. apply list_filter_ext_in. intros row' Hrow'. split; [|congruence].
  apply label_key_inj; by apply counted_lacks_nul.
Qed.

Lemma keyed_cons key row l :
  keyed key rows = row :: l →
  row ∈ filter (λ row, counts row) rows ∧ key = label_key row.1 ∧
  (row :: l).*2 = group_values row.1 rows.
Proof.
  intros Hk. assert (row ∈ keyed key rows) as Hin by (rewrite Hk; by left).
  apply list_elem_of_filter in Hin as [<- Hin]. split_and!; [done..|].
  rewrite <-Hk. unfold group_values. by rewrite keyed_labels.
Qed.

Lemma loop_elem d key a :
  (loop rows).1 !! key = Some a →
  ∃ labels, labels ∈ (filter (λ row, counts row) rows).*1 ∧ key = label_key labels ∧
    Forall lacks_nul labels ∧
    ConstHistogram d (ag_count a) (ag_sum a) (ag_buckets a) (default [] ((loop rows).2 !! key))
    = reference_histogram d labels (group_values labels rows).
Proof.
  destruct (loop_spec rows key) as [-> ->].
  destruct (keyed key rows) as [|row l] eqn:Hk; [done|]. intros [= <-].
  destruct (keyed_cons _ _ _ Hk) as (Hin & -> & Hvs). exists row.1.
  split_and!; [by apply list_elem_of_fmap_2|done|by apply counted_lacks_nul|].
  simpl. by rewrite <-Hvs.
Qed.

Lemma elem_loop labels :
  labels ∈ (filter (λ row, counts row) rows).*1 →
  is_Some ((loop rows).1 !! label_key labels).
Proof.
  intros (row & -> & Hin)%list_elem_of_fmap. destruct (loop_spec rows (label_key row.1)) as [-> _].
  rewrite keyed_labels by done. destruct (filter _ (filter _ rows)) eqn:Hf; [|done].
  exfalso. eapply (not_elem_of_nil row). rewrite <-Hf. by apply list_elem_of_filter.
Qed.
End Equivalence.

Lemma loop_equivalent d rank rows :
  Forall (λ row, Forall lacks_nul row.1) rows →
  emit d rank (loop rows) ≡ₚ reference_histograms d rows.
Proof.
  intros Hrows.
  unfold emit, reference_histograms. rewrite range_map_perm.
  apply NoDup_Permutation.
  - apply NoDup_fmap_2_strong; [|apply NoDup_map_to_list].
    intros [k1 a1] [k2 a2] H1%elem_of_map_to_list H2%elem_of_map_to_list He. simpl in He.
    destruct (loop_elem _ Hrows d _ _ H1) as (l1 & _ & -> & _ & E1).
    destruct (loop_elem _ Hrows d _ _ H2) as (l2 & _ & -> & _ & E2).
    rewrite E1, E2 in He. injection He as _ _ _ ->. by simplify_eq.
  - apply NoDup_fmap_2; [|apply NoDup_remove_dups]. by intros l1 l2 [= ].
  - intros m. rewrite !list_elem_of_fmap. split.
    + intros ([k a] & -> & H%elem_of_map_to_list).
      destruct (loop_elem _ Hrows d _ _ H) as (labels & Hin & _ & _ & E).
      exists labels. by rewrite elem_of_remove_dups.
    + intros (labels & -> & Hin). rewrite elem_of_remove_dups in Hin.
      destruct (elem_loop _ Hrows _ Hin) as [a Ha].
      exists (label_key labels, a). split; [|by apply elem_of_map_to_list].
      destruct (loop_elem _ Hrows d _ _ Ha) as (labels' & Hin' & Hk & Hn & E). simpl. rewrite E.
      apply list_elem_of_fmap in Hin as (row & -> & Hin).
      by rewrite (label_key_inj _ _ (counted_lacks_nul _ Hrows _ Hin) Hn Hk).
Qed.

(** * The operations *)

(** A query delivers its rows or fails; either way the database is as it was. *)
Lemma query_run {A} (q : Env → nat → Db → A) env s :
  ∃ r s', try (pool_stmt (sql_select q)) env s = (Ok r, s') ∧ s_db s' = s_db s ∧
    (r = Ok (q env (s_tick s) (s_db s)) ∨ ∃ e, r = Err e) ∧
    (calm env → r = Ok (q env (s_tick s) (s_db s))).
Proof.
  unfold try, pool_stmt, sql_select, commit.
  destruct (env_fault env (s_tick s)) eqn:Hf; [|destruct (env_commit env _) eqn:Hc];
    do 2 eexists; (split_and!; [done|done|by eauto|]); intros [Hc1 Hc2]; congruence.
Qed.

Lemma delivered_prefix {A} lost n (rows : list A) : delivered lost n rows `prefix_of` rows.
Proof. unfold delivered. destruct (lost n) as [k|]; [|done]. exists (drop k rows). by rewrite take_drop. Qed.

Lemma scanned_prefix {V} labelCount (rows : list (list string * V)) : scanned labelCount rows `prefix_of` rows.
Proof.
  induction rows as [|row rows IH]; [done|]. simpl. destruct (scans _ _); [by apply prefix_cons|apply prefix_nil].
Qed.

Lemma scanned_all {V} labelCount (rows : list (list string * V)) :
  Forall (λ row, length row.1 = labelCount) rows → scanned labelCount rows = rows.
Proof.
  induction 1 as [|row rows Hrow _ IH]; [done|]. simpl. unfold scans. by rewrite bool_decide_true, IH.
Qed.

(** C33: the collector's histograms are those of the rows it saw.  When the labels
    of the query's rows contain no NUL byte (PostgreSQL stores none), [histograms]
    never fails, leaves the database alone, and emits, up to order, exactly one
    histogram for each combination of labels that occurs with a non-negative
    value among the first rows of the query: its count is that of the group's
    values, its sum adds them as floats in the order of the rows, and the bucket of
    every boundary counts the values at most as large.  These are all the rows
    when neither the query nor the connection fails and the rows have
    [labelCount] labels; otherwise they can be fewer, down to none. *)
Theorem histograms_equivalent lost d query labelCount env s :
  let rows := query (env_rank env (s_tick s)) (s_db s) in
  Forall (λ row, Forall lacks_nul row.1) rows →
  ∃ ms s' seen, histograms lost d query labelCount env s = (Ok ms, s') ∧ s_db s' = s_db s ∧
    seen `prefix_of` rows ∧ ms ≡ₚ reference_histograms d seen ∧
    (calm env → lost (s_tick s) = None → Forall (λ row, length row.1 = labelCount) rows → seen = rows).
Proof.
  intros rows Hrows. destruct (query_run (λ env n db, delivered lost n (query (env_rank env n) db)) env s)
    as (r & s1 & Hq & Hdb & Hr & Hc). fold rows in Hr, Hc. unfold histograms.
  rewrite (bind_run _ _ _ _ _ _ Hq). destruct Hr as [->|[e ->]].
  - erewrite bind_run by done. set (seen := scanned labelCount (delivered lost (s_tick s) rows)).
    assert (seen `prefix_of` rows) as Hseen by (etrans; [apply scanned_prefix|apply delivered_prefix]).
    assert (Forall (λ row, Forall lacks_nul row.1) seen) as Hnul.
    { destruct Hseen as [rest E]. rewrite E in Hrows. by apply Forall_app in Hrows as [? _]. }
    pose proof (loop_equivalent d (env_rank env (s_tick s1)) seen Hnul).
    do 2 eexists. exists seen. split_and!; [done..|]. intros _ Hlost Hlen. unfold seen, delivered.
    rewrite Hlost. by apply scanned_all.
  - exists [], s1, []. split_and!; [done|done|apply prefix_nil|done|]. intros ?%Hc. done.
Qed.

(** ** Every metric is described *)

(** [MustNewConstMetric] panics unless there is a value for every label of the
    descriptor, and a registry rejects metrics that were not described. *)
Definition described (m : Metric) : Prop :=
  metric_desc m ∈ Describe ∧ length (metric_labels m) = length (variableLabels (metric_desc m)).

(** The operation returns a value that satisfies [P], whatever the database
    answers, and changes nothing. *)
Definition reads {A} (m : M A) (P : A → Prop) : Prop :=
  ∀ env s, ∃ a s', m env s = (Ok a, s') ∧ s_db s' = s_db s ∧ P a.

Lemma reads_bind {A B} (m : M A) (k : A → M B) P Q :
  reads m P → (∀ a, P a → reads (k a) Q) → reads (m ≫= k) Q.
Proof.
  intros Hm Hk env s. destruct (Hm env s) as (a & s1 & Hs1 & Hdb1 & HP).
  destruct (Hk a HP env s1) as (b & s2 & Hs2 & Hdb2 & HQ).
  exists b, s2. erewrite bind_run by done. split_and!; [done|congruence|done].
Qed.

Lemma reads_ret {A} (a : A) (P : A → Prop) : P a → reads (mret a) P.
Proof. intros HP env s. by exists a, s. Qed.

Lemma reads_query {A} (q : Env → nat → Db → A) : reads (try (pool_stmt (sql_select q))) (λ _, True).
Proof. intros env s. destruct (query_run q env s) as (r & s' & ? & ? & _). eauto. Qed.

Lemma scanned_labels {V} labelCount (rows : list (list string * V)) :
  Forall (λ row, length row.1 = labelCount) (scanned labelCount rows).
Proof.
  induction rows as [|row rows IH]; [done|]. simpl. destruct (scans _ _) eqn:Hs; [|done].
  constructor; [|done]. unfold scans in Hs. by bool_split.
Qed.

Lemma reads_grouped lost d ty query labelCount :
  d ∈ Describe → length (variableLabels d) = labelCount →
  reads (grouped lost d ty query labelCount) (Forall described).
Proof.
  intros Hd Hl. eapply reads_bind; [apply reads_query|]. intros [rows|e] _; apply reads_ret; [|done].
  apply Forall_fmap. eapply Forall_impl; [apply scanned_labels|]. intros row Hrow. by split; [|simpl; congruence].
Qed.

Lemma reads_single d ty query :
  d ∈ Describe → variableLabels d = [] → reads (single d ty query) (Forall described).
Proof.
  intros Hd Hl. eapply reads_bind; [apply reads_query|]. intros [v|e] _; apply reads_ret; [|done].
  apply Forall_singleton. by split; [|simpl; rewrite Hl].
Qed.

Lemma loop_labels labelCount rows key a :
  Forall (λ row, length row.1 = labelCount) rows → (loop rows).1 !! key = Some a →
  length (default [] ((loop rows).2 !! key)) = labelCount.
Proof.
  intros Hrows. destruct (loop_spec rows key) as [-> ->].
  destruct (keyed key rows) as [|row l] eqn:Hk; [done|]. intros _.
  assert (row ∈ keyed key rows) as Hin by (rewrite Hk; by left).
  apply list_elem_of_filter in Hin as [_ [_ Hin]%list_elem_of_filter]. exact (proj1 (Forall_forall _ _) Hrows row Hin).
Qed.

Lemma reads_histograms lost d query labelCount :
  d ∈ Describe → length (variableLabels d) = labelCount →
  reads (histograms lost d query labelCount) (Forall described).
Proof.
  intros Hd Hl. eapply reads_bind; [apply reads_query|]. intros [rows|e] _; [|by apply reads_ret].
  intros env s. do 2 eexists. split_and!; [done|done|]. apply Forall_fmap, Forall_forall.
  intros [key a] Hka%elem_of_range_map. split; [done|]. cbn [compose metric_labels metric_desc fst snd]. rewrite Hl.
  by eapply loop_labels; [apply scanned_labels|].
Qed.

Lemma reads_workers lost : reads (worker_gauges lost) (Forall described).
Proof.
  eapply reads_bind; [apply reads_query|]. intros [[now rows]|e] _; apply reads_ret; [|done].
  apply Forall_bind, Forall_forall. intros row _.
  repeat constructor; cbn [metric_desc metric_labels]; unfold Describe; set_solver.
Qed.

(** A scrape never fails or panics and changes nothing: whatever the database
    answers, [Collect] returns, the database is as it was, and every metric it
    sends is described and has one value per label of its descriptor. *)
Lemma Collect_described lost : reads (Collect lost) (Forall described).
Proof.
  unfold Collect.
  repeat (eapply reads_bind; [first
    [ apply reads_grouped; [unfold Describe; set_solver|done]
    | apply reads_single; [unfold Describe; set_solver|done]
    | apply reads_histograms; [unfold Describe; set_solver|done]
    | apply reads_workers ]|intros ? ?]).
  apply reads_ret. by rewrite !Forall_app.
Qed.
