(* ===== verification/Api.v ===== *)
(** The HTTP interface: [internal/api/server.go].

    A handler is a computation that ends in a response; the value handed to
    the JSON encoder is the [body].  What the standard library does to a
    request before a handler looks at it (routing, reading and decoding the
    body) is part of the request: [Body] is the outcome of decoding; [Http]
    adds the routing.  Metrics and logging are left out. *)
From stdpp Require Import pretty.
From S2P Require Import Prelude Go Model State Json Schema Sql StoreWorker StoreWorkflow Scheduler Outbox Auth Stream Artifacts RateLimit.

(** * Responses *)

Inductive body : Type :=
  | NoBody
  | BError (message : string)
  | BStatus (status : string)
  | BDefinition (d : Definition_)
  | BDefinitions (items : list Definition_)
  | BRun (r : uuid * RunRow)
  | BRunView (r : RunView)
  | BRuns (items : list (uuid * RunRow))
  | BEvents (items : list Event)
  | BWorkers (items : list (string * HeartbeatRow))
  | BDead (items : list (uuid * TaskRow))
  | BKeys (items : list APIKey)
  | BKey (key : APIKey) (token : string)
  | BTask (t : TaskRun)
  | BLease (expires : time) (cancelled : bool)
  | BUpload (u : Upload)
  | BArtifact (a : Artifact)
  | BDownload (d : Download)
  | BSchedule (id : string)
  | BFrames (l : list frame)
  | BText (text : string).

Record Response := mkResponse {
  resp_status : Z;
  resp_headers : list (string * string);
  resp_body : body
}.

Definition writeJSON (status : Z) (b : body) : M Response := mret (mkResponse status [] b).
Definition writeError (status : Z) (message : string) : M Response := writeJSON status (BError message).
Definition writeHeader (status : Z) : M Response := writeJSON status NoBody.

(** [handleErr].  A stored definition is well-formed JSON, so the case of a
    [json.SyntaxError] does not arise. *)
Definition handleErr (e : error) : M Response :=
  match e with
  | ErrNotFound => writeError 404 "resource not found"
  | ErrConflict => writeError 409 "operation conflicts with current state"
  | ErrLeaseLost => writeError 409 "worker no longer owns this task"
  | e =>
      let text := error_text e in
      if string_contains text "workflow " || string_contains text "task "
         || string_contains text "required"
      then writeError 422 text
      else writeError 500 "internal server error"
  end.

(** [v, err := m; if handleErr(w, err) { return }; ...]. *)
Definition checked {A} (m : M A) (k : A → M Response) : M Response :=
  r ← try m;
  match r with Ok a => k a | Err e => handleErr e end.

(** * Requests *)

(** What [decode] makes of the request body: a decoding error, more than one
    value, or a value. *)
Inductive Body (A : Type) : Type :=
  | Malformed (message : string)
  | Trailing
  | One (a : A).
Arguments Malformed {A} message.
Arguments Trailing {A}.
Arguments One {A} a.

Definition decode {A} (b : Body A) (k : A → M Response) : M Response :=
  match b with
  | Malformed m => writeError 400 ("invalid JSON: " +:+ m)
  | Trailing => writeError 400 "request body must contain one JSON value"
  | One a => k a
  end.

Record workflowRequest := { wr_Name : string; wr_Tasks : gmap string TaskSpec }.
Record runRequest := { rr_Input : option json; rr_InputArtifactID : string }.
Record uploadRequest := {
  ur_Kind : string; ur_ContentType : string; ur_SizeBytes : Z; ur_ChecksumSHA256 : string;
  ur_TaskRunID : option string; ur_WorkerID : string }.
Record keyRequest := { kr_Name : string; kr_Scopes : list string; kr_ExpiresAt : option time }.
Record workerRequest := { wk_WorkerID : string; wk_TaskRunID : string }.
Record completeRequest := {
  cr_WorkerID : string; cr_Output : option json; cr_OutputArtifactURI : string }.
Record failRequest := { fr_WorkerID : string; fr_Failure : Failure }.
Record heartbeatRequest := { hr_Handlers : list string; hr_ActiveTasks : Z; hr_Metadata : option json }.
Record scheduleRequest := {
  sr_WorkflowDefinitionID : string; sr_CronExpression : string; sr_Timezone : string;
  sr_MisfirePolicy : string; sr_NextExecutionAt : option time }.
Record schedulePatch := { sp_Enabled : option bool; sp_NextExecutionAt : option time }.

Record Server := {
  srv_LeaseDuration : Z;
  srv_APIKeyPepper : string;
  srv_Artifacts : option Manager;
  srv_CORSAllowlist : list string;
  srv_Live : option (string → result unit)
}.

(** * Schedules *)

Definition insert_schedule (row : time → ScheduleRow) : Stmt (option string) := λ env n db,
  let s := row (env_now env n) in
  let id := env_uuid env n in
  match workflow_definitions db !! s_workflow_definition_id s with
  | Some d =>
      if bool_decide (d_tenant_id d = s_tenant_id s) then
        if bool_decide (is_Some (schedules db !! id)) then Err (ErrPg unique_violation "schedules_pkey")
        else if negb (bool_decide (s_misfire_policy s ∈ ["skip"; "catch_up_once"])) then
          Err (ErrPg check_violation "schedules_misfire_policy_check")
        else Ok (Some id, db<| schedules ::= <[id := s]> |>)
      else Ok (None, db)
  | None => Ok (None, db)
  end.

(** [UPDATE schedules SET ... WHERE id=$1 AND tenant_id=$2]: rows affected. *)
Definition update_schedule_row (id tenant : string) (f : ScheduleRow → option ScheduleRow) : Stmt nat :=
  λ env n db,
  match schedules db !! id with
  | Some s => if bool_decide (s_tenant_id s = tenant)
              then Ok (1%nat, db<| schedules ::= partial_alter (λ _, f s) id |>) else Ok (0%nat, db)
  | None => Ok (0%nat, db)
  end.

(** [if err == nil && ct.RowsAffected() == 0 { err = storage.ErrNotFound }]. *)
Definition affected (f : Stmt nat) : M unit :=
  n ← pool_stmt f; if bool_decide (n = 0%nat) then throw ErrNotFound else mret tt.

Section Handlers.
Context {location cron : Type}.
Context (LoadLocation : string → result location) (cron_parse : string → result cron).
Context (cron_next : cron → location → time → time).
Context (uuid_Parse : string → bool) (sha256 : string → string) (rand : nat → result (list Z)).
Context (srv : Server).

(** * Workflows and runs *)

Definition createWorkflow (p : Principal) (b : Body workflowRequest) : M Response :=
  decode b (λ req,
    checked (CreateWorkflow (TenantID p) (UserID p) (wr_Name req)
               {| dag_Name := wr_Name req; Tasks := wr_Tasks req |})
      (λ d, writeJSON 201 (BDefinition d))).

Definition createVersion (p : Principal) (id : string) (b : Body workflowRequest) : M Response :=
  decode b (λ req,
    checked (CreateVersion (TenantID p) (UserID p) id {| dag_Name := ""; Tasks := wr_Tasks req |})
      (λ d, writeJSON 201 (BDefinition d))).

Definition listWorkflows (p : Principal) : M Response :=
  checked (ListWorkflows (TenantID p)) (λ d, writeJSON 200 (BDefinitions d)).

Definition getWorkflow (p : Principal) (id : string) : M Response :=
  checked (GetWorkflow (TenantID p) id) (λ d, writeJSON 200 (BDefinition d)).

Definition json_object (v : json) : bool := match v with JObj _ => true | _ => false end.

Definition createRun (p : Principal) (id idempotencyKey : string) (b : Body runRequest) : M Response :=
  let key := trim_space idempotencyKey in
  if bool_decide (key = "") || bool_decide (200 < String.length key)%nat then
    writeError 400 "a valid Idempotency-Key header is required"
  else
    decode b (λ req,
      let input := default empty_object (rr_Input req) in
      if negb (json_object input) then writeError 422 "input must be a JSON object"
      else
        checked (CreateRun (TenantID p) (UserID p) id key (Some input) [rr_InputArtifactID req])
          (λ rc, mret (mkResponse (if snd rc then 201 else 200)
                         [("Location", "/v1/runs/" +:+ fst (fst rc))] (BRun (fst rc))))).

(** [if signed, err := s.Artifacts.Download(...); err == nil { ... }]. *)
Definition sign (m : Manager) (tenant uri : string) : M string :=
  if bool_decide (uri = "") then mret ""
  else
    r ← try (Manager_Download m tenant uri);
    mret (match r with Ok d => w_URL d | Err _ => "" end).

Fixpoint mmap {A B} (f : A → M B) (l : list A) : M (list B) :=
  match l with
  | [] => mret []
  | x :: l => y ← f x; ys ← mmap f l; mret (y :: ys)
  end.

Definition sign_attempt (m : Manager) (tenant : string) (a : TaskAttempt) : M TaskAttempt :=
  artifact ← sign m tenant (ta_ArtifactURI a);
  log ← sign m tenant (ta_LogArtifactURI a);
  mret (a<| ta_ArtifactDownloadURL := artifact |><| ta_LogArtifactDownloadURL := log |>).

Definition sign_task (m : Manager) (tenant : string) (v : TaskView) : M TaskView :=
  output ← sign m tenant (coalesce (t_output_artifact_uri (tv_row v)));
  log ← sign m tenant (coalesce (tv_LogArtifactURI v));
  attempts ← mmap (sign_attempt m tenant) (tv_Attempts v);
  mret (v<| tv_OutputArtifactDownloadURL := output |><| tv_LogArtifactDownloadURL := log |>
         <| tv_Attempts := attempts |>).

Definition getRun (p : Principal) (id : string) : M Response :=
  checked (GetRun (TenantID p) id) (λ run,
    match srv_Artifacts srv with
    | None => writeJSON 200 (BRunView run)
    | Some m =>
        input ← sign m (TenantID p) (coalesce (r_input_artifact_uri (rv_row run)));
        tasks ← mmap (sign_task m (TenantID p)) (rv_Tasks run);
        writeJSON 200 (BRunView (run<| rv_InputArtifactDownloadURL := input |><| rv_Tasks := tasks |>))
    end).

Definition listRuns (p : Principal) : M Response :=
  checked (ListRuns (TenantID p) 50) (λ items, writeJSON 200 (BRuns items)).

Definition cancelRun (p : Principal) (id : string) : M Response :=
  checked (CancelRun (TenantID p) (UserID p) id) (λ _, writeHeader 204).

Definition retryRun (p : Principal) (id : string) : M Response :=
  checked (RetryRun (TenantID p) (UserID p) id) (λ _, writeJSON 202 (BStatus "RUNNING")).

Definition events (p : Principal) (id : string) : M Response :=
  checked (Events (TenantID p) id) (λ items, writeJSON 200 (BEvents items)).

Definition workers (p : Principal) : M Response :=
  checked (ListWorkers (TenantID p)) (λ items, writeJSON 200 (BWorkers items)).

Definition deadLetter (p : Principal) : M Response :=
  checked (DeadLetter (TenantID p)) (λ items, writeJSON 200 (BDead items)).

Definition replay (p : Principal) (id : string) : M Response :=
  checked (ReplayDead (TenantID p) (UserID p) id) (λ _, writeJSON 202 (BStatus "READY")).

(** * API keys *)

Definition allowedAPIKeyScopes : list string :=
  ["workflows:read"; "workflows:write"; "runs:read"; "runs:execute"; "schedules:write";
   "workers:read"; "workers:execute"; "dead-letter:read"; "dead-letter:replay";
   "artifacts:read"; "artifacts:write"].

Definition listAPIKeys (p : Principal) : M Response :=
  checked (ListAPIKeys (TenantID p)) (λ keys, writeJSON 200 (BKeys keys)).

(** The loop over the requested scopes: each is known and not seen before. *)
Fixpoint scopes_ok (scopes seen : list string) : bool :=
  match scopes with
  | [] => true
  | scope :: scopes =>
      if negb (bool_decide (scope ∈ allowedAPIKeyScopes)) || bool_decide (scope ∈ seen) then false
      else scopes_ok scopes (scope :: seen)
  end.

Definition createAPIKey (p : Principal) (b : Body keyRequest) : M Response :=
  decode b (λ req,
    let name := trim_space (kr_Name req) in
    if bool_decide (name = "") || bool_decide (100 < String.length name)%nat
       || bool_decide (kr_Scopes req = []) then
      writeError 422 "name and at least one scope are required"
    else if negb (scopes_ok (kr_Scopes req) []) then
      writeError 422 "invalid or duplicate API key scope"
    else
      expired ← key_expired (kr_ExpiresAt req);
      if (expired : bool) then writeError 422 "expires_at must be in the future"
      else
        secret ← ask (λ n, Ok (rand n));
        checked (GenerateAPIKey uuid_Parse sha256 (srv_APIKeyPepper srv) secret) (λ ith,
          let '(id, token, hash) := ith in
          checked (CreateAPIKey id (TenantID p) (UserID p) name (kr_Scopes req) (kr_ExpiresAt req) hash)
            (λ key, writeJSON 201 (BKey key token)))).

Definition rotateAPIKey (p : Principal) (id : string) : M Response :=
  if negb (uuid_Parse id) then writeError 400 "invalid API key id"
  else
    secret ← ask (λ n, Ok (rand n));
    match GenerateAPIKeyForID uuid_Parse sha256 id (srv_APIKeyPepper srv) secret with
    | Err e => handleErr e
    | Ok (token, hash) =>
        checked (RotateAPIKey id (TenantID p) (UserID p) hash) (λ key, writeJSON 200 (BKey key token))
    end.

Definition revokeAPIKey (p : Principal) (id : string) : M Response :=
  checked (RevokeAPIKey id (TenantID p) (UserID p)) (λ _, writeHeader 204).

(** * The worker protocol *)

Definition authorizeTask (p : Principal) (id : string) (k : M Response) : M Response :=
  checked (TaskBelongsToTenant id (TenantID p)) (λ _, k).

Definition authorizeActiveTask (p : Principal) (taskID workerID : string) (k : M Response) : M Response :=
  checked (ActiveTaskLeaseBelongsToWorker taskID (TenantID p) workerID) (λ _, k).

Definition require_worker (workerID : string) (k : M Response) : M Response :=
  if bool_decide (workerID = "") then writeError 400 "worker_id is required" else k.

Definition lease (p : Principal) (id : string) (b : Body workerRequest) : M Response :=
  decode b (λ req, require_worker (wk_WorkerID req) (authorizeTask p id (
    checked (LeaseTask id (wk_WorkerID req) (srv_LeaseDuration srv)) (λ t, writeJSON 200 (BTask t))))).

Definition start (p : Principal) (id : string) (b : Body workerRequest) : M Response :=
  decode b (λ req, require_worker (wk_WorkerID req) (authorizeTask p id (
    checked (StartTask id (wk_WorkerID req)) (λ t, writeJSON 200 (BTask t))))).

Definition heartbeat (p : Principal) (id : string) (b : Body workerRequest) : M Response :=
  decode b (λ req, require_worker (wk_WorkerID req) (authorizeTask p id (
    checked (HeartbeatTask id (wk_WorkerID req) (srv_LeaseDuration srv))
      (λ ec, writeJSON 200 (BLease (fst ec) (snd ec)))))).

(** [artifactErr != nil || a.Status != "READY" || a.Kind != kind ||
    a.TaskRunID == nil || *a.TaskRunID != id], negated. *)
Definition task_artifact (kind id : string) (r : result Artifact) : bool :=
  match r with
  | Ok a => bool_decide (f_Status a = "READY") && bool_decide (f_Kind a = kind)
            && bool_decide (f_TaskRunID a = Some id)
  | Err _ => false
  end.

Definition complete (p : Principal) (id : string) (b : Body completeRequest) : M Response :=
  decode b (λ req, require_worker (cr_WorkerID req) (authorizeTask p id (
    let uri := cr_OutputArtifactURI req in
    let finish := checked (CompleteTask id (cr_WorkerID req) (cr_Output req) uri [])
                    (λ t, writeJSON 200 (BTask t)) in
    if bool_decide (uri = "") then finish
    else
      match srv_Artifacts srv with
      | None => writeError 503 "artifact storage is not configured"
      | Some _ =>
          a ← try (GetArtifactByURI (TenantID p) uri);
          if task_artifact "output" id a then finish
          else writeError 403 "invalid output artifact"
      end))).

Definition fail (p : Principal) (id : string) (b : Body failRequest) : M Response :=
  decode b (λ req, require_worker (fr_WorkerID req) (authorizeTask p id (
    checked (FailTask id (fr_WorkerID req) (fr_Failure req)) (λ t, writeJSON 200 (BTask t))))).

Definition workerHeartbeat (p : Principal) (id : string) (b : Body heartbeatRequest) : M Response :=
  decode b (λ req,
    checked (WorkerHeartbeat (TenantID p) id (hr_Handlers req) (hr_ActiveTasks req) (hr_Metadata req))
      (λ _, writeHeader 204)).

(** * Artifacts *)

(** [internal] tells whether the path starts with [/internal/]. *)
Definition with_artifacts (k : Manager → M Response) : M Response :=
  match srv_Artifacts srv with
  | None => writeError 503 "artifact storage is not configured"
  | Some m => k m
  end.

Definition upload_answer (r : result Upload) : M Response :=
  match r with
  | Ok u => writeJSON 201 (BUpload u)
  | Err ErrNotFound => writeError 404 "task not found"
  | Err e => writeError 422 (error_text e)
  end.

Definition createArtifactUpload (p : Principal) (internal : bool) (b : Body uploadRequest) : M Response :=
  with_artifacts (λ m, decode b (λ req,
    let upload create := r ← try (create (TenantID p) (UserID p) (ur_Kind req)
      (ur_ContentType req) (ur_SizeBytes req) (ur_ChecksumSHA256 req) (ur_TaskRunID req)); upload_answer r in
    if internal then
      match ur_TaskRunID req with
      | Some task =>
          if bool_decide (ur_WorkerID req = "") then
            writeError 400 "task_run_id and worker_id are required"
          else authorizeActiveTask p task (ur_WorkerID req) (upload (CreateInternalUpload m))
      | None => writeError 400 "task_run_id and worker_id are required"
      end
    else upload (CreateUpload m))).

Definition completeArtifactUpload (p : Principal) (internal : bool) (id : string) (b : Body workerRequest)
    : M Response :=
  with_artifacts (λ m,
    let finish := checked (Complete sha256 (mg_client m) (TenantID p) id) (λ a, writeJSON 200 (BArtifact a)) in
    if internal then
      decode b (λ req,
        if bool_decide (wk_WorkerID req = "") || bool_decide (wk_TaskRunID req = "") then
          writeError 400 "task_run_id and worker_id are required"
        else
          authorizeActiveTask p (wk_TaskRunID req) (wk_WorkerID req) (
            pending ← try (GetArtifact (TenantID p) id);
            match pending with
            | Ok a => if bool_decide (f_TaskRunID a = Some (wk_TaskRunID req)) then finish
                      else writeError 404 "artifact not found for active task"
            | Err _ => writeError 404 "artifact not found for active task"
            end))
    else finish).

Definition downloadArtifact (p : Principal) (internal : bool) (id taskRunID workerID : string)
    : M Response :=
  with_artifacts (λ m,
    let answer download :=
      checked (download (TenantID p) id) (λ d, writeJSON 200 (BDownload d)) in
    if internal then
      if bool_decide (taskRunID = "") || bool_decide (workerID = "") then
        writeError 400 "task_run_id and worker_id are required"
      else authorizeActiveTask p taskRunID workerID (answer (DownloadInternal m))
    else answer (Manager_Download m)).

(** * Schedules *)

Definition or_default (v fallback : string) : string := if bool_decide (v = "") then fallback else v.

Definition createSchedule (p : Principal) (b : Body scheduleRequest) : M Response :=
  decode b (λ req,
    let timezone := or_default (sr_Timezone req) "UTC" in
    let policy := or_default (sr_MisfirePolicy req) "skip" in
    if bool_decide (policy ∉ ["skip"; "catch_up_once"]) then
      writeError 422 "misfire_policy must be skip or catch_up_once"
    else
      match LoadLocation timezone with
      | Err _ => writeError 422 "invalid timezone"
      | Ok loc =>
          match cron_parse (sr_CronExpression req) with
          | Err e => writeError 422 ("invalid cron expression: " +:+ error_text e)
          | Ok parsed =>
              next ← match sr_NextExecutionAt req with
                     | Some t => mret t
                     | None => now ← time_now; mret (cron_next parsed loc now)
                     end;
              checked (row ← pool_stmt (insert_schedule (λ now,
                         {| s_tenant_id := TenantID p;
                            s_workflow_definition_id := sr_WorkflowDefinitionID req;
                            s_cron_expression := sr_CronExpression req; s_timezone := timezone;
                            s_next_execution_at := next; s_misfire_policy := policy;
                            s_enabled := true; s_created_at := now |}));
                       match row with Some id => mret id | None => throw ErrNotFound end)
                (λ id, writeJSON 201 (BSchedule id))
          end
      end).

Definition patched (req : schedulePatch) (s : ScheduleRow) : ScheduleRow :=
  s<| s_enabled := default (s_enabled s) (sp_Enabled req) |>
   <| s_next_execution_at := default (s_next_execution_at s) (sp_NextExecutionAt req) |>.

Definition patchSchedule (p : Principal) (id : string) (b : Body schedulePatch) : M Response :=
  decode b (λ req,
    checked (affected (update_schedule_row id (TenantID p) (Some ∘ patched req))) (λ _, writeHeader 204)).

Definition deleteSchedule (p : Principal) (id : string) : M Response :=
  checked (affected (update_schedule_row id (TenantID p) (λ _, None))) (λ _, writeHeader 204).

(** * Readiness *)

(** [ready]: the database answers a ping, and so does Redis when the limiter
    may not fail open. *)
Definition ready (ping : nat → result unit) (dependencyReady : option (nat → result unit)) : M Response :=
  database ← try (ask ping);
  match database, dependencyReady with
  | Err _, _ => writeError 503 "database unavailable"
  | Ok _, None => writeJSON 200 (BStatus "ready")
  | Ok _, Some redis =>
      r ← try (ask redis);
      match r with
      | Err _ => writeError 503 "rate limiter unavailable"
      | Ok _ => writeJSON 200 (BStatus "ready")
      end
  end.

(** * Routes *)

(** The public routes with what their handlers read from the request. *)
Inductive route : Type :=
  | PostWorkflows (b : Body workflowRequest)
  | GetWorkflows
  | GetWorkflow_ (id : string)
  | PostVersions (id : string) (b : Body workflowRequest)
  | PostRuns (id idempotencyKey : string) (b : Body runRequest)
  | GetRuns
  | GetRun_ (id : string)
  | PostCancel (id : string)
  | PostRetry (id : string)
  | GetEvents (id : string)
  | GetWorkers
  | GetDeadLetter
  | PostReplay (id : string)
  | PostSchedules (b : Body scheduleRequest)
  | PatchSchedule (id : string) (b : Body schedulePatch)
  | DeleteSchedule (id : string)
  | GetKeys
  | PostKeys (b : Body keyRequest)
  | PostRotate (id : string)
  | DeleteKey (id : string)
  | PostUploads (b : Body uploadRequest)
  | PostUploadComplete (id : string) (b : Body workerRequest)
  | GetDownload (id : string)
  | GetStream (h : Handshake).

(** The guard each route is registered with in [Handler]. *)
Definition route_guard (r : route) : Principal → option (Z * string) :=
  match r with
  | PostWorkflows _ | PostVersions _ _ => Require "developer" "workflows:write"
  | GetWorkflows | GetWorkflow_ _ => Require "viewer" "workflows:read"
  | PostRuns _ _ _ | PostCancel _ | PostRetry _ => Require "operator" "runs:execute"
  | GetRuns | GetRun_ _ | GetEvents _ | GetStream _ => Require "viewer" "runs:read"
  | GetWorkers => Require "viewer" "workers:read"
  | GetDeadLetter => Require "operator" "dead-letter:read"
  | PostReplay _ => Require "operator" "dead-letter:replay"
  | PostSchedules _ | PatchSchedule _ _ | DeleteSchedule _ => Require "developer" "schedules:write"
  | GetKeys | PostKeys _ | PostRotate _ | DeleteKey _ => RequireHumanRole "admin"
  | PostUploads _ | PostUploadComplete _ _ => Require "developer" "artifacts:write"
  | GetDownload _ => Require "viewer" "artifacts:read"
  end.

(** The answer of [stream]; the connection is hijacked when frames are sent. *)
Definition stream_response (o : streamed) : M Response :=
  match o with
  | Unavailable_ message => writeError 503 message
  | Refused status => mret (mkResponse status [] NoBody)
  | Frames l => mret (mkResponse 101 [] (BFrames l))
  end.

Definition handle (r : route) (p : Principal) : M Response :=
  match r with
  | PostWorkflows b => createWorkflow p b
  | GetWorkflows => listWorkflows p
  | GetWorkflow_ id => getWorkflow p id
  | PostVersions id b => createVersion p id b
  | PostRuns id key b => createRun p id key b
  | GetRuns => listRuns p
  | GetRun_ id => getRun p id
  | PostCancel id => cancelRun p id
  | PostRetry id => retryRun p id
  | GetEvents id => events p id
  | GetWorkers => workers p
  | GetDeadLetter => deadLetter p
  | PostReplay id => replay p id
  | PostSchedules b => createSchedule p b
  | PatchSchedule id b => patchSchedule p id b
  | DeleteSchedule id => deleteSchedule p id
  | GetKeys => listAPIKeys p
  | PostKeys b => createAPIKey p b
  | PostRotate id => rotateAPIKey p id
  | DeleteKey id => revokeAPIKey p id
  | PostUploads b => createArtifactUpload p false b
  | PostUploadComplete id b => completeArtifactUpload p false id b
  | GetDownload id => downloadArtifact p false id "" ""
  | GetStream h => stream_response (stream (srv_Live srv) h p)
  end.

Definition guarded (r : route) (p : Principal) : M Response :=
  match route_guard r p with
  | Some (status, message) => writeError status message
  | None => handle r p
  end.

(** The internal routes, behind [WorkerAuth] only. *)
Inductive worker_route : Type :=
  | PostLease (id : string) (b : Body workerRequest)
  | PostStart (id : string) (b : Body workerRequest)
  | PostHeartbeat (id : string) (b : Body workerRequest)
  | PostComplete (id : string) (b : Body completeRequest)
  | PostFail (id : string) (b : Body failRequest)
  | PostWorkerHeartbeat (id : string) (b : Body heartbeatRequest)
  | PostWorkerUploads (b : Body uploadRequest)
  | PostWorkerUploadComplete (id : string) (b : Body workerRequest)
  | GetWorkerDownload (id taskRunID workerID : string).

Definition handle_worker (r : worker_route) (p : Principal) : M Response :=
  match r with
  | PostLease id b => lease p id b
  | PostStart id b => start p id b
  | PostHeartbeat id b => heartbeat p id b
  | PostComplete id b => complete p id b
  | PostFail id b => fail p id b
  | PostWorkerHeartbeat id b => workerHeartbeat p id b
  | PostWorkerUploads b => createArtifactUpload p true b
  | PostWorkerUploadComplete id b => completeArtifactUpload p true id b
  | GetWorkerDownload id t w => downloadArtifact p true id t w
  end.

(** * The whole request *)

Context (config : AuthConfig) (verify : string → result (list (string * json))).

(** [auth.Middleware] and the rate limiter around a handler; [limit] is the
    limiter's decision for the tenant. *)
Definition limited (g : gate) (inner : M Response) : M Response :=
  match g with
  | Reject status headers message => mret (mkResponse status headers (BError message))
  | Pass headers =>
      resp ← inner;
      mret (resp<| resp_headers := headers ++ resp_headers resp |>)
  end.

Definition serve_public (authorization protocol path : string) (limit : Principal → gate)
    (inner : Principal → M Response) : M Response :=
  principal ← try (authenticateRequest uuid_Parse sha256 config verify authorization protocol path);
  match principal with
  | Err _ => writeError 401 "unauthenticated"
  | Ok p => limited (limit p) (inner p)
  end.

Definition serve_worker (authorization : string) (inner : Principal → M Response) : M Response :=
  principal ← try (AuthenticateWorker uuid_Parse sha256 config verify (bearer authorization));
  match principal with
  | Err _ => writeError 401 "invalid worker credential"
  | Ok p => inner p
  end.

(** [cors]: the headers added for the origin; a preflight request ends there. *)
Definition cors_headers (origin : string) : list (string * string) :=
  if bool_decide (origin ∈ srv_CORSAllowlist srv) then
    [("Access-Control-Allow-Origin", origin); ("Vary", "Origin");
     ("Access-Control-Allow-Headers", "Content-Type, Idempotency-Key, Authorization");
     ("Access-Control-Allow-Methods", "GET, POST, PATCH, DELETE, OPTIONS")]
  else [].

Definition cors (method origin : string) (next : M Response) : M Response :=
  if bool_decide (method = "OPTIONS") then mret (mkResponse 204 (cors_headers origin) NoBody)
  else resp ← next; mret (resp<| resp_headers := cors_headers origin ++ resp_headers resp |>).
End Handlers.

(** [routeLabel]: the label of a path in the request metrics. *)
Definition routeLabel (path : string) : string :=
  let slash c := Ascii.eqb c "/" in
  "/" +:+ join "/" ((λ part, if bool_decide (String.length part = 36%nat) then "{id}" else part)
                      <$> split "/" (trim slash path)).
