(* ===== verification/Service.v ===== *)
(** The processes: [Service.Run] of [internal/scheduler/scheduler.go] with its
    two loops, and what [cmd/scheduler/main.go] and [cmd/control-plane/main.go]
    build from the configuration.

    The two goroutines of [Run] take turns in any order; a turn is one round of
    a loop, up to and including its [select].  The context's state is read from
    [ctx_Done] at the session's counter; [fuel] bounds the batches of one call of
    [publishBatch]. *)
From S2P Require Import Prelude Go Model State Json Schema Sql StoreWorker StoreWorkflow Scheduler Outbox Auth Stream Artifacts RateLimit Config Api.

(** How a goroutine, and with it the process, ends. *)
Inductive ending : Type :=
  | Panic (text : string)
  | Return (e : error).

Inductive goroutine : Type := SchedulerLoop | OutboxLoop.

(** [time.NewTicker]. *)
Definition NewTicker (d : Z) : option ending :=
  if bool_decide (d ≤ 0) then Some (Panic "non-positive interval for NewTicker") else None.

Section Run.
Context {location cron : Type}.
Context (LoadLocation : string → result location) (cron_parse : string → result cron).
Context (cron_next : cron → location → time → time) (format_rfc3339 : time → string).
Context (s : Service) (ScheduleInterval OutboxInterval_ : Z) (fuel : nat).
Context (ctx_Done : nat → option error).

Definition interval (g : goroutine) : Z :=
  match g with SchedulerLoop => ScheduleInterval | OutboxLoop => OutboxInterval_ end.

(** The errors of a cycle are only logged. *)
Definition cycle (g : goroutine) : P unit :=
  match g with
  | SchedulerLoop => ptry (lift (tick LoadLocation cron_parse cron_next format_rfc3339)) ;; mret tt
  | OutboxLoop => ptry (publishBatch fuel s) ;; mret tt
  end.

(** [select { case <-ctx.Done(): return ctx.Err(); case <-ticker.C: }]. *)
Definition select_done : P (option ending) := λ env bus w,
  (Ok (Return <$> ctx_Done (s_tick (w_sess w))), w<| w_sess ::= tick_once |>).

Definition loop_round (g : goroutine) : P (option ending) :=
  match NewTicker (interval g) with
  | Some e => mret (Some e)
  | None => cycle g ;; select_done
  end.

(** [Run]: until one of the loops ends; [None] while both go on. *)
Fixpoint Run (turns : list goroutine) : P (option ending) :=
  match turns with
  | [] => mret None
  | g :: turns =>
      r ← loop_round g;
      match r with Some e => mret (Some e) | None => Run turns end
  end.

Lemma ptry_run {A} (m : P A) env bus w : ∃ w', (ptry m ;; mret tt) env bus w = (Ok tt, w').
Proof. unfold ptry, mbind, P_bind. destruct (m env bus w). by eexists. Qed.

Lemma cycle_run g env bus w : ∃ w', cycle g env bus w = (Ok tt, w').
Proof. destruct g; apply ptry_run. Qed.

Lemma loop_round_run g env bus w :
  0 < interval g →
  ∃ n w', loop_round g env bus w = (Ok (Return <$> ctx_Done n), w').
Proof.
  intros Hi. unfold loop_round, NewTicker. rewrite bool_decide_false by lia.
  destruct (cycle_run g env bus w) as [w1 H1]. unfold mbind, P_bind. rewrite H1.
  unfold select_done. eauto.
Qed.

Lemma Run_run turns env bus w :
  0 < ScheduleInterval → 0 < OutboxInterval_ →
  ∃ r w', Run turns env bus w = (Ok r, w') ∧
    (r = None ∨ ∃ n e, ctx_Done n = Some e ∧ r = Some (Return e)) ∧
    ((∀ n, ctx_Done n = None) → r = None).
Proof.
  intros Hs Ho. revert w. induction turns as [|g turns IH]; intros w; simpl.
  { exists None, w. auto. }
  destruct (loop_round_run g env bus w) as (n & w1 & H1); [by destruct g|].
  unfold mbind, P_bind. rewrite H1. destruct (ctx_Done n) as [e|] eqn:He; simpl; [|apply IH].
  exists (Some (Return e)), w1. split_and!; [done|eauto|]. intros Hall. by rewrite Hall in He.
Qed.

(** The service survives every error.  With positive intervals, whatever
    the database, Kafka and Redis answer and however the two loops take turns,
    [Run] neither panics nor ends with an error of its own: it goes on until its
    context ends, and then returns the context's error.  A panic inside a cycle,
    or one that never returns, has no place in the model. *)
Theorem Run_resilient turns env bus w :
  0 < ScheduleInterval → 0 < OutboxInterval_ →
  ∃ r w', Run turns env bus w = (Ok r, w') ∧
    (r = None ∨ ∃ n e, ctx_Done n = Some e ∧ r = Some (Return e)) ∧
    ((∀ n, ctx_Done n = None) → r = None).
Proof. apply Run_run. Qed.

(** An interval that is not positive ends the process at the first turn of its
    loop. *)
Lemma Run_panics g turns env bus w :
  interval g ≤ 0 →
  Run (g :: turns) env bus w = (Ok (Some (Panic "non-positive interval for NewTicker")), w).
Proof.
  intros Hi. simpl. unfold mbind, P_bind, loop_round, NewTicker. by rewrite bool_decide_true.
Qed.
End Run.

(** * Wiring *)

Section Scheduler.
Context {location cron : Type}.
Context (LoadLocation : string → result location) (cron_parse : string → result cron).
Context (cron_next : cron → location → time → time) (format_rfc3339 : time → string).

(** [main] of the scheduler: the service of an accepted configuration. *)
Definition scheduler_main (getenv : string → string) (fuel : nat) (ctx_Done : nat → option error)
    (turns : list goroutine) : config_error + P (option ending) :=
  match Load getenv with
  | inl e => inl e
  | inr cfg =>
      inr (Run LoadLocation cron_parse cron_next format_rfc3339 (scheduler_service cfg)
             (SchedulerInterval cfg) (OutboxInterval cfg) fuel ctx_Done turns)
  end.
End Scheduler.

Definition artifact_config (cfg : Config) : ArtifactConfig :=
  {| ac_Endpoint := ArtifactEndpoint cfg; ac_PublicEndpoint := ArtifactPublicEndpoint cfg;
     ac_Region := ArtifactRegion cfg; ac_Bucket := ArtifactBucket cfg;
     ac_AccessKey := ArtifactAccessKey cfg; ac_SecretKey := ArtifactSecretKey cfg;
     ac_PathStyle := ArtifactPathStyle cfg; ac_CreateBucket := ArtifactCreateBucket cfg;
     ac_PresignExpiry := ArtifactPresignExpiry cfg |}.

(** The limiter's decision for a tenant, given what Redis answered. *)
Definition limiter (cfg : Config) (answer : Principal → result Result_) (p : Principal) : gate :=
  Middleware (RateLimitBurst cfg) (RateLimitFailOpen cfg) (answer p).

(** [redisReady]: a readiness probe asks Redis unless the limiter may fail open. *)
Definition redisReady (cfg : Config) (ping : nat → result unit) : option (nat → result unit) :=
  if RateLimitFailOpen cfg then None else Some ping.

Definition api_server (cfg : Config) (manager : Manager) (subscribe : string → result unit) : Server :=
  {| srv_LeaseDuration := LeaseDuration cfg; srv_APIKeyPepper := cfg_APIKeyPepper cfg;
     srv_Artifacts := Some manager; srv_CORSAllowlist := Config.CORSAllowlist cfg;
     srv_Live := Some subscribe |}.
