(* ===== verification/Http.v ===== *)
(** The HTTP server: [Server.Handler] of [internal/api/server.go], from the
    request line to the answer.

    Three multiplexers are nested: the root sends [/v1/] to the public one,
    behind authentication and the rate limiter, and [/internal/v1/] to the one
    for workers, behind the authentication of workers. *)
From stdpp Require Import pretty.
From S2P Require Import Prelude Go Url Mux Model State Json Schema Sql StoreWorker StoreWorkflow Scheduler Outbox Auth Stream Artifacts RateLimit Api.

(** A request: its line, the headers and query parameters the server reads, its
    body, and what happens on its connection once it is a WebSocket. *)
Record Request := {
  rq_Method : string;
  rq_EscapedPath : string;
  rq_Host : string;
  rq_Origin : string;
  rq_Authorization : string;
  rq_Protocol : string;
  rq_IdempotencyKey : string;
  rq_task_run_id : string;
  rq_worker_id : string;
  rq_Body : string;
  rq_upgrade : bool → option Z;
  rq_first : bool;
  rq_signals : string → list (signal * bool)
}.

(** [r.URL.Path]. *)
Definition rq_Path (rq : Request) : string := path_unescape (rq_EscapedPath rq).

(** What [encoding/json] makes of a body for each request structure, unknown
    fields and bodies over [maxBodyBytes] being errors. *)
Record Decoders := {
  dec_workflow : string → Body workflowRequest;
  dec_run : string → Body runRequest;
  dec_upload : string → Body uploadRequest;
  dec_key : string → Body keyRequest;
  dec_worker : string → Body workerRequest;
  dec_complete : string → Body completeRequest;
  dec_fail : string → Body failRequest;
  dec_heartbeat : string → Body heartbeatRequest;
  dec_schedule : string → Body scheduleRequest;
  dec_patch : string → Body schedulePatch
}.

(** The value of the wildcard [{id}]. *)
Definition path_id (values : list string) : string := default "" (head values).

Section Tables.
Context (dec : Decoders).

Definition public_table (rq : Request) : table route :=
  let body {B} (d : string → Body B) : Body B := d (rq_Body rq) in
  prod_map parse_pattern id <$>
  [("POST /v1/workflows", λ _, PostWorkflows (body (dec_workflow dec)));
   ("GET /v1/workflows", λ _, GetWorkflows);
   ("GET /v1/workflows/{id}", λ v, GetWorkflow_ (path_id v));
   ("POST /v1/workflows/{id}/versions", λ v, PostVersions (path_id v) (body (dec_workflow dec)));
   ("POST /v1/workflows/{id}/runs", λ v, PostRuns (path_id v) (rq_IdempotencyKey rq) (body (dec_run dec)));
   ("GET /v1/runs", λ _, GetRuns);
   ("GET /v1/runs/{id}", λ v, GetRun_ (path_id v));
   ("POST /v1/runs/{id}/cancel", λ v, PostCancel (path_id v));
   ("POST /v1/runs/{id}/retry", λ v, PostRetry (path_id v));
   ("GET /v1/runs/{id}/events", λ v, GetEvents (path_id v));
   ("GET /v1/workers", λ _, GetWorkers);
   ("GET /v1/dead-letter", λ _, GetDeadLetter);
   ("POST /v1/dead-letter/{id}/replay", λ v, PostReplay (path_id v));
   ("POST /v1/schedules", λ _, PostSchedules (body (dec_schedule dec)));
   ("PATCH /v1/schedules/{id}", λ v, PatchSchedule (path_id v) (body (dec_patch dec)));
   ("DELETE /v1/schedules/{id}", λ v, DeleteSchedule (path_id v));
   ("GET /v1/api-keys", λ _, GetKeys);
   ("POST /v1/api-keys", λ _, PostKeys (body (dec_key dec)));
   ("POST /v1/api-keys/{id}/rotate", λ v, PostRotate (path_id v));
   ("DELETE /v1/api-keys/{id}", λ v, DeleteKey (path_id v));
   ("POST /v1/artifacts/uploads", λ _, PostUploads (body (dec_upload dec)));
   ("POST /v1/artifacts/{id}/complete", λ v, PostUploadComplete (path_id v) (body (dec_worker dec)));
   ("GET /v1/artifacts/{id}/download", λ v, GetDownload (path_id v));
   ("GET /v1/stream", λ _, GetStream
      {| hs_origin := rq_Origin rq; hs_host := rq_Host rq; hs_upgrade := rq_upgrade rq;
         hs_first := rq_first rq; hs_signals := rq_signals rq |})].

Definition internal_table (rq : Request) : table worker_route :=
  let body {B} (d : string → Body B) : Body B := d (rq_Body rq) in
  prod_map parse_pattern id <$>
  [("POST /internal/v1/tasks/{id}/lease", λ v, PostLease (path_id v) (body (dec_worker dec)));
   ("POST /internal/v1/tasks/{id}/start", λ v, PostStart (path_id v) (body (dec_worker dec)));
   ("POST /internal/v1/tasks/{id}/heartbeat", λ v, PostHeartbeat (path_id v) (body (dec_worker dec)));
   ("POST /internal/v1/tasks/{id}/complete", λ v, PostComplete (path_id v) (body (dec_complete dec)));
   ("POST /internal/v1/tasks/{id}/fail", λ v, PostFail (path_id v) (body (dec_fail dec)));
   ("POST /internal/v1/workers/{id}/heartbeat", λ v, PostWorkerHeartbeat (path_id v) (body (dec_heartbeat dec)));
   ("POST /internal/v1/artifacts/uploads", λ _, PostWorkerUploads (body (dec_upload dec)));
   ("POST /internal/v1/artifacts/{id}/complete",
      λ v, PostWorkerUploadComplete (path_id v) (body (dec_worker dec)));
   ("GET /internal/v1/artifacts/{id}/download",
      λ v, GetWorkerDownload (path_id v) (rq_task_run_id rq) (rq_worker_id rq))].

(** The entries of the root. *)
Inductive root_route : Type :=
  | Public
  | Internal_
  | HealthLive
  | HealthReady
  | MetricsPage
  | OpenAPI
  | Docs.

Definition root_table : table root_route :=
  prod_map parse_pattern (λ r _, r) <$>
  [("/v1/", Public); ("/internal/v1/", Internal_); ("GET /health/live", HealthLive);
   ("GET /health/ready", HealthReady); ("GET /metrics", MetricsPage); ("GET /openapi.yaml", OpenAPI);
   ("GET /docs", Docs)].
End Tables.

(** What the mux itself answers: [http.Redirect], [http.Error] and
    [http.NotFound]. *)
Definition mux_answer {A} (serve : A → M Response) (r : routed A) : M Response :=
  match r with
  | Handled a => serve a
  | MovedPermanently location => mret (mkResponse 301 [("Location", location)] NoBody)
  | MethodNotAllowed allow =>
      mret (mkResponse 405 [("Allow", join ", " allow)] (BText "Method Not Allowed"))
  | PageNotFound => mret (mkResponse 404 [] (BText "404 page not found"))
  end.

Section Handler.
Context {location cron : Type}.
Context (LoadLocation : string → result location) (cron_parse : string → result cron).
Context (cron_next : cron → location → time → time).
Context (uuid_Parse : string → bool) (sha256 : string → string) (rand : nat → result (list Z)).
Context (srv : Server) (config : AuthConfig) (verify : string → result (list (string * json))).
Context (dec : Decoders).

(** The limiter's decision for a principal, the answers of the database and of
    Redis to a readiness probe, and the texts of the pages that are served as
    they are. *)
Context (limit : Principal → gate).
Context (ping : nat → result unit) (dependency : option (nat → result unit)).
Context (metrics openapi docs : string).

Definition serve_root (rq : Request) (r : root_route) : M Response :=
  match r with
  | Public =>
      serve_public uuid_Parse sha256 config verify (rq_Authorization rq) (rq_Protocol rq) (rq_Path rq) limit
        (λ p, mux_answer
                (λ r, guarded LoadLocation cron_parse cron_next uuid_Parse sha256 rand srv r p)
                (mux (public_table dec rq) (rq_Method rq) (rq_EscapedPath rq)))
  | Internal_ =>
      serve_worker uuid_Parse sha256 config verify (rq_Authorization rq)
        (λ p, mux_answer (λ r, handle_worker sha256 srv r p)
                (mux (internal_table dec rq) (rq_Method rq) (rq_EscapedPath rq)))
  | HealthLive => writeJSON 200 (BStatus "ok")
  | HealthReady => ready ping dependency
  | MetricsPage => writeJSON 200 (BText metrics)
  | OpenAPI => writeJSON 200 (BText openapi)
  | Docs => writeJSON 200 (BText docs)
  end.

Definition Handler (rq : Request) : M Response :=
  cors srv (rq_Method rq) (rq_Origin rq)
    (mux_answer (serve_root rq) (mux root_table (rq_Method rq) (rq_EscapedPath rq))).

(** [instrument]: the labels under which a request to the public interface is
    counted. *)
Definition instrument (rq : Request) (resp : Response) : string * string * string :=
  (rq_Method rq, routeLabel (rq_Path rq), pretty (resp_status resp)).
End Handler.

(** * Routing *)

(** The tables a request is looked up in: no two patterns of one can match the
    same request, as the registration of [ServeMux] requires. *)
Lemma tables_unambiguous dec rq :
  unambiguous (public_table dec rq).*1 = true ∧ unambiguous (internal_table dec rq).*1 = true ∧
  unambiguous root_table.*1 = true.
Proof. by vm_compute. Qed.

Lemma tables_simple dec rq :
  forallb simple_pattern (public_table dec rq).*1 = true ∧
  forallb simple_pattern (internal_table dec rq).*1 = true.
Proof. by vm_compute. Qed.

(** The path of a pattern with [id] for its wildcard. *)
Definition pattern_path (id : string) (p : pattern) : string := "/" +:+ join "/" (fill id (pat_segments p)).

Lemma entry_unique {A} (t : table A) p h q g method path :
  unambiguous t.*1 = true → (p, h) ∈ t → (q, g) ∈ t → is_Some (matches p method path) →
  is_Some (matches q method path) → p = q.
Proof.
  intros Hu Hp Hq [v Hv] [v' Hv']. eapply lookup_table_entry in Hv, Hv'; [|done..]. congruence.
Qed.

(** A longer path below a prefix of the root goes to the prefix's handler. *)
Lemma mux_prefix {A} (t : table A) p a method l :
  (∀ slash, lookup_table t method (mkPath l slash) = Some (p, a)) →
  pat_rest p = true → length (pat_segments p) ≠ length l → l ≠ [] →
  Forall (λ s, plain_segment s = true) l →
  mux t method ("/" +:+ join "/" l) = Handled a.
Proof.
  intros Hl Hr Hlen Hne Hf. destruct (cleanPath_text l Hne Hf) as [Hclean Htext].
  rewrite Htext in Hclean. unfold mux, redirect_slash, exact. rewrite Hclean. simpl.
  rewrite !Hl, Hr, (bool_decide_false (length (pat_segments p) = length l)) by done. simpl.
  rewrite Htext, bool_decide_false by naive_solver. done.
Qed.

(** What the patterns of a table start with, and that something follows. *)
Definition below (prefix : list segment) (p : pattern) : bool :=
  bool_decide (take (length prefix) (pat_segments p) = prefix)
  && (length prefix <? length (pat_segments p))%nat.

Lemma tables_below dec rq :
  forallb (below [Lit "v1"]) (public_table dec rq).*1 = true ∧
  forallb (below [Lit "internal"; Lit "v1"]) (internal_table dec rq).*1 = true.
Proof. by vm_compute. Qed.

Lemma below_segments prefix p :
  below prefix p = true → ∃ s l, pat_segments p = prefix ++ s :: l.
Proof.
  intros [Ht Hl]%andb_true_iff. bool_split. apply Nat.ltb_lt in Hl.
  rewrite <-(take_drop (length prefix) (pat_segments p)), Ht.
  destruct (drop (length prefix) (pat_segments p)) as [|s l] eqn:Hd; [|eauto].
  apply (f_equal length) in Hd. rewrite length_drop in Hd. simpl in Hd. lia.
Qed.

Lemma root_public id p method :
  below [Lit "v1"] p = true → simple_pattern p = true → plain_segment id = true →
  mux root_table method (pattern_path id p) = Handled Public.
Proof.
  intros (s & l & Hs)%below_segments Hp Hid. unfold simple_pattern in Hp. bool_split.
  apply (mux_prefix _ (parse_pattern "/v1/")).
  - intros slash. by rewrite Hs.
  - done.
  - rewrite Hs. simpl. lia.
  - by rewrite Hs.
  - by apply fill_plain.
Qed.

Lemma root_internal id p method :
  below [Lit "internal"; Lit "v1"] p = true → simple_pattern p = true → plain_segment id = true →
  mux root_table method (pattern_path id p) = Handled Internal_.
Proof.
  intros (s & l & Hs)%below_segments Hp Hid. unfold simple_pattern in Hp. bool_split.
  apply (mux_prefix _ (parse_pattern "/internal/v1/")).
  - intros slash. by rewrite Hs.
  - done.
  - rewrite Hs. simpl. lia.
  - by rewrite Hs.
  - by apply fill_plain.
Qed.

Lemma forallb_entry {A} (f : pattern → bool) (t : table A) p h :
  forallb f t.*1 = true → (p, h) ∈ t → f p = true.
Proof.
  rewrite forallb_forall. intros H Hin. apply H, list_elem_of_In.
  by apply (list_elem_of_fmap_2 fst t (p, h)).
Qed.

(** Every route is reached and no request has two.  At most one registered
    pattern of each interface matches a request, so that the order of
    registration does not matter and registration does not panic; and a request
    for the path of a pattern, with any identifier that is one plain segment in
    place of the wildcard, passes the root to the interface and is handled by
    the pattern's handler with that identifier. *)
Theorem routes_dispatched dec rq id :
  plain_segment id = true →
  (∀ p h, (p, h) ∈ public_table dec rq → let path := pattern_path id p in
     let method := default "" (pat_method p) in
     mux root_table method path = Handled Public ∧
     mux (public_table dec rq) method path = Handled (h (wildcards id (pat_segments p))) ∧
     ∀ q g m x, (q, g) ∈ public_table dec rq → is_Some (matches p m x) → is_Some (matches q m x) → p = q) ∧
  (∀ p h, (p, h) ∈ internal_table dec rq → let path := pattern_path id p in
     let method := default "" (pat_method p) in
     mux root_table method path = Handled Internal_ ∧
     mux (internal_table dec rq) method path = Handled (h (wildcards id (pat_segments p))) ∧
     ∀ q g m x, (q, g) ∈ internal_table dec rq → is_Some (matches p m x) → is_Some (matches q m x) → p = q).
Proof.
  intros Hid. destruct (tables_unambiguous dec rq) as (Hu1 & Hu2 & _).
  destruct (tables_simple dec rq) as [Hs1 Hs2]. destruct (tables_below dec rq) as [Hb1 Hb2].
  split; intros p h Hp; cbv zeta.
  - pose proof (forallb_entry _ _ _ _ Hs1 Hp) as Hs. pose proof (forallb_entry _ _ _ _ Hb1 Hp) as Hb.
    split_and!; [by apply root_public|by apply mux_entry|].
    intros q g m x Hq. exact (entry_unique _ _ _ _ _ _ _ Hu1 Hp Hq).
  - pose proof (forallb_entry _ _ _ _ Hs2 Hp) as Hs. pose proof (forallb_entry _ _ _ _ Hb2 Hp) as Hb.
    split_and!; [by apply root_internal|by apply mux_entry|].
    intros q g m x Hq. exact (entry_unique _ _ _ _ _ _ _ Hu2 Hp Hq).
Qed.
