(* ===== verification/Rpc.v ===== *)
(** The gRPC interface of workers: [internal/rpc/worker.go].

    A method ends in a message or a status; the errors of the store are
    translated by [rpcError]. *)
From S2P Require Import Prelude Go Model State Json Schema Sql StoreWorker StoreWorkflow Scheduler Auth Artifacts RateLimit Api.

Inductive code : Type :=
  | Unauthenticated
  | PermissionDenied
  | NotFound
  | FailedPrecondition
  | Unavailable
  | Internal.

#[export] Instance code_eq_dec : EqDecision code.
Proof. solve_decision. Defined.

(** A reply: the message, or [status.Error(code, text)]. *)
Inductive reply (A : Type) : Type :=
  | Reply (a : A)
  | Status (c : code) (text : string).
Arguments Reply {A} a.
Arguments Status {A} c text.

Definition rpcError {A} (e : error) : reply A :=
  if bool_decide (e ∈ [ErrLeaseLost; ErrConflict]) then Status FailedPrecondition (error_text e)
  else if bool_decide (e = ErrNotFound) then Status NotFound (error_text e)
  else Status Internal "internal worker protocol error".

(** Go's conversion to [int32]. *)
Definition int32 (z : Z) : Z := (z + 2 ^ 31) mod 2 ^ 32 - 2 ^ 31.

Record TaskSnapshot := {
  sn_Id : string;
  sn_WorkflowRunId : string;
  sn_TaskKey : string;
  sn_Handler : string;
  sn_Input : option json;
  sn_Attempt : Z;
  sn_TimeoutSeconds : Z;
  sn_Status : task_status;
  sn_InputArtifactUri : string
}.

(** [snapshot]: an input that is not an object becomes an empty structure. *)
Definition snapshot (t : TaskRun) : TaskSnapshot :=
  {| sn_Id := tr_id t; sn_WorkflowRunId := t_workflow_run_id (tr_row t);
     sn_TaskKey := t_task_key (tr_row t); sn_Handler := t_handler (tr_row t);
     sn_Input := if json_object (t_input (tr_row t)) then Some (t_input (tr_row t)) else None;
     sn_Attempt := int32 (t_attempt_count (tr_row t));
     sn_TimeoutSeconds := int32 (t_timeout_seconds (tr_row t)); sn_Status := t_status (tr_row t);
     sn_InputArtifactUri := coalesce (tr_input_artifact_uri t) |}.

Abbreviation RM A := (M (reply A)).

(** [if err != nil { return nil, err }] for a call that already returns a
    status, and for a call of the store. *)
Definition after {A B} (m : RM A) (k : A → RM B) : RM B :=
  r ← m; match r with Reply a => k a | Status c t => mret (Status c t) end.

Definition stored_call {A B} (m : M A) (k : A → RM B) : RM B :=
  r ← try m; match r with Ok a => k a | Err e => mret (rpcError e) end.

Section Worker.
Context (uuid_Parse : string → bool) (sha256 : string → string).
Context (config : AuthConfig) (verify : string → result (list (string * json))).
Context (leaseDuration : Z) (artifacts_ : option Manager).

Definition invalid_credential {A} : reply A := Status Unauthenticated "invalid worker credential".

(** [metadata]: the values of the authorization header. *)
Definition authorize (values : list string) : RM Principal :=
  match values with
  | [value] =>
      if negb (has_prefix "Bearer " value) then mret invalid_credential
      else
        let token := trim_space (trim_prefix "Bearer " value) in
        if bool_decide (token = "") then mret invalid_credential
        else
          r ← try (AuthenticateWorker uuid_Parse sha256 config verify token);
          mret (match r with Ok p => Reply p | Err _ => invalid_credential end)
  | _ => mret invalid_credential
  end.

Definition rpc_authorizeTask (md : list string) (taskID : string) : RM unit :=
  after (authorize md) (λ p,
    stored_call (TaskBelongsToTenant taskID (TenantID p)) (λ _, mret (Reply tt))).

Definition principalForActiveTask (md : list string) (taskID workerID : string) : RM Principal :=
  after (authorize md) (λ p,
    stored_call (ActiveTaskLeaseBelongsToWorker taskID (TenantID p) workerID) (λ _, mret (Reply p))).

Definition Lease (md : list string) (taskID workerID : string) : RM TaskSnapshot :=
  after (rpc_authorizeTask md taskID) (λ _,
    stored_call (LeaseTask taskID workerID leaseDuration) (λ t, mret (Reply (snapshot t)))).

Definition Start (md : list string) (taskID workerID : string) : RM TaskSnapshot :=
  after (rpc_authorizeTask md taskID) (λ _,
    stored_call (StartTask taskID workerID) (λ t, mret (Reply (snapshot t)))).

Definition Heartbeat (md : list string) (taskID workerID : string) : RM (time * bool) :=
  after (rpc_authorizeTask md taskID) (λ _,
    stored_call (HeartbeatTask taskID workerID leaseDuration) (λ ec, mret (Reply ec))).

Definition Fail (md : list string) (taskID workerID : string) (f : Failure) : RM TaskSnapshot :=
  after (rpc_authorizeTask md taskID) (λ _,
    stored_call (FailTask taskID workerID f) (λ t, mret (Reply (snapshot t)))).

Definition not_configured {A} : reply A := Status Unavailable "artifact storage is not configured".

Definition configured (m : option Manager) : bool := match m with Some _ => true | None => false end.

(** The check of an artifact a completion refers to. *)
Definition check_artifact (tenant uri kind taskID message : string) : RM unit :=
  if bool_decide (uri = "") then mret (Reply tt)
  else
    a ← try (GetArtifactByURI tenant uri);
    mret (if task_artifact kind taskID a then Reply tt else Status PermissionDenied message).

Definition rpc_Complete (md : list string) (taskID workerID : string) (output : option json)
    (outputURI logURI : string) : RM TaskSnapshot :=
  after (principalForActiveTask md taskID workerID) (λ p,
    if bool_decide (outputURI ≠ "") && negb (configured artifacts_) then mret not_configured
    else
      after (check_artifact (TenantID p) outputURI "output" taskID "invalid output artifact") (λ _,
      after (check_artifact (TenantID p) logURI "log" taskID "invalid log artifact") (λ _,
        stored_call (CompleteTask taskID workerID (Some (default empty_object output)) outputURI [logURI])
          (λ t, mret (Reply (snapshot t)))))).

Definition CreateArtifactUpload (md : list string) (taskID workerID kind contentType : string) (size : Z)
    (checksum : string) : RM Upload :=
  match artifacts_ with
  | None => mret not_configured
  | Some m =>
      after (principalForActiveTask md taskID workerID) (λ p,
        stored_call (CreateInternalUpload m (TenantID p) (UserID p)
                       kind contentType size checksum (Some taskID)) (λ u, mret (Reply u)))
  end.

Definition CompleteArtifactUpload (md : list string) (taskID workerID artifactID : string) : RM string :=
  match artifacts_ with
  | None => mret not_configured
  | Some m =>
      after (principalForActiveTask md taskID workerID) (λ p,
        pending ← try (GetArtifact (TenantID p) artifactID);
        match pending with
        | Ok a =>
            if bool_decide (f_TaskRunID a = Some taskID) then
              stored_call (Complete sha256 (mg_client m) (TenantID p) artifactID)
                (λ a, mret (Reply (f_ObjectURI a)))
            else mret (Status PermissionDenied "invalid task artifact")
        | Err _ => mret (Status PermissionDenied "invalid task artifact")
        end)
  end.

Definition GetArtifactDownload (md : list string) (taskID workerID uri : string) : RM Download :=
  match artifacts_ with
  | None => mret not_configured
  | Some m =>
      after (principalForActiveTask md taskID workerID) (λ p,
        stored_call (DownloadInternal m (TenantID p) uri)
          (λ d, mret (Reply d)))
  end.
End Worker.
