(* ===== verification/Client.v ===== *)
(** The Go SDK: [sdk/go/client.go].

    [WorkerService] is the interface of the generated stub: one operation per
    method of the gRPC service.  A client runs as a process ([Proc]) beside the
    database: at each of its events other parties may change the database, the
    heartbeats of the task it executes may be sent, and a call may be answered,
    may not arrive, or may take effect with its reply lost ([Net]).  Contexts
    end at instants [Net] chooses and stay ended. *)
From stdpp Require Import pretty.
From S2P Require Import Prelude Go Url Mux Model State Json Schema Sql StoreWorker StoreWorkflow Outbox Auth Stream Artifacts RateLimit Api Http Rpc.

(** * [json.Marshal] *)

Definition hex4 (n : N) : string :=
  "\u00" +:+ String (hex_char (n / 16)) (String (hex_char (n mod 16)) "").

(** Strings are escaped for HTML too; U+2028 and U+2029 are written as escapes. *)
Fixpoint escape (s : string) : string :=
  match s with
  | "" => ""
  | String "226" (String "128" (String "168" s)) => "\u2028" +:+ escape s
  | String "226" (String "128" (String "169" s)) => "\u2029" +:+ escape s
  | String c s =>
      match N_of_ascii c with
      | 34 | 92 => String "\" (String c (escape s))
      | 8 => "\b" +:+ escape s
      | 9 => "\t" +:+ escape s
      | 10 => "\n" +:+ escape s
      | 12 => "\f" +:+ escape s
      | 13 => "\r" +:+ escape s
      | 38 | 60 | 62 => hex4 (N_of_ascii c) +:+ escape s
      | n => if (n <? 32)%N then hex4 n +:+ escape s else String c (escape s)
      end%N
  end%string.

Definition quote : string := String "034" "".
Definition quoted (s : string) : string := quote +:+ escape s +:+ quote.

Section Marshal.
Context (format_rfc3339 : time → string).

Fixpoint Marshal (v : json) : string :=
  match v with
  | JNull => "null"
  | JBool b => if b then "true" else "false"
  | JNum n => pretty n
  | JStr s => quoted s
  | JTime t => quoted (format_rfc3339 t)
  | JArr l => "[" +:+ join "," (Marshal <$> l) +:+ "]"
  | JObj fields => "{" +:+ join "," ((λ kv, quoted kv.1 +:+ ":" +:+ Marshal kv.2) <$> fields) +:+ "}"
  end.
End Marshal.

(** * The service and the network *)

Class WorkerService := {
  ws_Lease (md : list string) (taskID workerID : string) : RM TaskSnapshot;
  ws_Start (md : list string) (taskID workerID : string) : RM TaskSnapshot;
  ws_Heartbeat (md : list string) (taskID workerID : string) : RM (time * bool);
  ws_Complete (md : list string) (taskID workerID : string) (output : option json)
    (outputURI logURI : string) : RM TaskSnapshot;
  ws_Fail (md : list string) (taskID workerID : string) (f : Failure) : RM TaskSnapshot;
  ws_CreateArtifactUpload (md : list string) (taskID workerID kind contentType : string) (size : Z)
    (checksum : string) : RM Upload;
  ws_CompleteArtifactUpload (md : list string) (taskID workerID artifactID : string) : RM string;
  ws_GetArtifactDownload (md : list string) (taskID workerID uri : string) : RM Download
}.

Inductive transit : Type :=
  | Answered
  | RequestLost (e : error)
  | ReplyLost (e : error).

Record HttpReply := mkHttpReply {
  hr_StatusCode : Z;
  hr_Status : string;
  hr_Body : result string
}.

(** What the client does not choose, by its event counter: the changes other
    parties made since the last event, the fate of a call, the number of ticks
    of the heartbeat timer, the end of the process's context ([SIGTERM]) and of
    the task's (its deadline), whether a timer fires before an ended context is
    seen, the answers of the object store, and the errors of Kafka. *)
Record Net := {
  net_others : nat → Db → Db;
  net_rpc : nat → transit;
  net_beats : nat → nat;
  net_stop : nat → option error;
  net_deadline : nat → option error;
  net_timer : nat → bool;
  net_put : nat → string → list (string * string) → string → result HttpReply;
  net_get : nat → string → result HttpReply;
  net_fetch : nat → option error;
  net_commit : nat → option error
}.

(** The process: its session with the database behind the service, its event
    counter, the task whose heartbeats are sent, [ctx.Err()] of the process's
    and of the task's context, and the messages whose offset it committed. *)
Record Proc := mkProc {
  pr_sess : Sess;
  pr_tick : nat;
  pr_beating : option string;
  pr_parent : option error;
  pr_ctx : option error;
  pr_committed : list Message
}.

Definition W (A : Type) : Type := Env → Net → Proc → result A * Proc.

#[export] Instance W_ret : MRet W := λ A a env net p, (Ok a, p).
#[export] Instance W_bind : MBind W := λ A B k m env net p,
  match m env net p with
  | (Ok a, p') => k a env net p'
  | (Err e, p') => (Err e, p')
  end.

Definition wthrow {A} (e : error) : W A := λ env net p, (Err e, p).

(** The call's error as a value. *)
Definition wtry {A} (m : W A) : W (result A) := λ env net p,
  let '(r, p') := m env net p in (Ok r, p').

(** What the process can see. *)
Definition look {A} (f : Net → Proc → A) : W A := λ env net p, (Ok (f net p), p).

(** [fmt.Errorf("prefix: %w", err)] around the error of a call. *)
Definition wrapped {A} (prefix : string) (m : W A) : W A := λ env net p,
  let '(r, p') := m env net p in (wrap prefix r, p').

Definition with_db (f : Db → Db) (s : Sess) : Sess := mkSess (s_tick s) (s_rows_open s) (f (s_db s)).

Definition or_else (a b : option error) : option error :=
  match a with Some e => Some e | None => b end.

(** The next event: the others' changes become visible, and contexts that ended
    stay ended; the task's context ends with the process's. *)
Definition occur (net : Net) (p : Proc) : Proc :=
  let n := pr_tick p in
  let parent := or_else (pr_parent p) (net_stop net n) in
  {| pr_sess := with_db (net_others net n) (pr_sess p); pr_tick := S n; pr_beating := pr_beating p;
     pr_parent := parent; pr_ctx := or_else (pr_ctx p) (or_else parent (net_deadline net n));
     pr_committed := pr_committed p |}.

(** The error of a gRPC call: [status.Error] is rendered with its code. *)
Definition code_text (c : code) : string :=
  match c with
  | Unauthenticated => "Unauthenticated"
  | PermissionDenied => "PermissionDenied"
  | NotFound => "NotFound"
  | FailedPrecondition => "FailedPrecondition"
  | Unavailable => "Unavailable"
  | Internal => "Internal"
  end.

Definition received {A} (r : result (reply A)) : result A :=
  match r with
  | Ok (Reply a) => Ok a
  | Ok (Status c t) => Err (ErrText ("rpc error: code = " +:+ code_text c +:+ " desc = " +:+ t))
  | Err e => Err e
  end.

(** One exchange with the service. *)
Definition transmit {A} (m : RM A) : W A := λ env net p,
  match net_rpc net (pr_tick p) with
  | RequestLost e => (Err e, p)
  | Answered => let '(r, s') := m env (pr_sess p) in (received r, p<| pr_sess := s' |>)
  | ReplyLost e => (Err e, p<| pr_sess := (m env (pr_sess p)).2 |>)
  end.

(** * The client *)

Record Client := mkClient {
  cl_token : string;
  cl_workerID : string;
  cl_target : string;
  cl_httpBaseURL : string;
  cl_initErr : option error
}.

Definition target_of (endpoint : string) : string :=
  trim_prefix "grpc://" (trim_prefix "http://" (trim_right (λ c, Ascii.eqb c "/") endpoint)).

(** The HTTP port belongs to the default gRPC port. *)
Definition http_target (target : string) : string :=
  if has_suffix "7001" target then trim_suffix "7001" target +:+ "8080" else target.

Definition NewClient (grpc_NewClient : string → option error) (endpoint token workerID : string)
    : Client :=
  let target := target_of endpoint in
  {| cl_token := token; cl_workerID := workerID; cl_target := target;
     cl_httpBaseURL := "http://" +:+ http_target target; cl_initErr := grpc_NewClient target |}.

(** [rpcContext]: the authorization values of a call. *)
Definition rpcContext (c : Client) : list string := ["Bearer " +:+ cl_token c].

(** The context a call is made with: the process's or the task's. *)
Inductive scope : Type := Parent | TaskScope.

Definition ctx_err (sc : scope) (p : Proc) : option error :=
  match sc with Parent => pr_parent p | TaskScope => pr_ctx p end.

(** [Input] is [json.Marshal] of a value, or downloaded bytes. *)
Inductive RawMessage : Type :=
  | Encoded (v : json)
  | Bytes (s : string).

Record Task := mkTask {
  tk_ID : string;
  tk_WorkflowRunID : string;
  tk_TaskKey : string;
  tk_Handler : string;
  tk_Status : task_status;
  tk_AttemptCount : Z;
  tk_TimeoutSeconds : Z;
  tk_Input : RawMessage;
  tk_InputArtifactURI : string
}.

(** [task]: the map of a missing structure is empty. *)
Definition task (v : TaskSnapshot) : Task :=
  {| tk_ID := sn_Id v; tk_WorkflowRunID := sn_WorkflowRunId v; tk_TaskKey := sn_TaskKey v;
     tk_Handler := sn_Handler v; tk_Status := sn_Status v; tk_AttemptCount := sn_Attempt v;
     tk_TimeoutSeconds := sn_TimeoutSeconds v;
     tk_Input := Encoded (default empty_object (sn_Input v));
     tk_InputArtifactURI := sn_InputArtifactUri v |}.

Section Calls.
Context `{WorkerService} (sha256 : string → string) (format_rfc3339 : time → string).
Context (c : Client).

Definition Canceled : error := ErrText "context canceled".

(** The goroutine of [execute]: at each tick of the timer a heartbeat, until the
    context ends; a cancellation ends it. *)
Fixpoint heartbeats (ticks : nat) : Env → Net → Proc → Proc := λ env net p,
  match ticks, pr_beating p, pr_ctx p with
  | S ticks, Some id, None =>
      let p := occur net p in
      match pr_ctx p with
      | Some _ => p
      | None =>
          match transmit (ws_Heartbeat (rpcContext c) id (cl_workerID c)) env net p with
          | (Ok (_, true), p') => p'<| pr_ctx := Some Canceled |><| pr_beating := None |>
          | (_, p') => heartbeats ticks env net p'
          end
      end
  | _, _, _ => p
  end.

(** What happens before the process does something itself. *)
Definition wait : W unit := λ env net p,
  (Ok tt, heartbeats (net_beats net (pr_tick p)) env net (occur net p)).

Definition checked {A} (sc : scope) (m : W A) : W A := λ env net p,
  match ctx_err sc p with Some e => (Err e, p) | None => m env net p end.

Definition invoke {A} (sc : scope) (m : RM A) : W A := wait ;; checked sc (transmit m).

Definition ready {A} (m : W A) : W A :=
  match cl_initErr c with Some e => wthrow e | None => m end.

Definition success (r : HttpReply) : bool := (200 <=? hr_StatusCode r) && (hr_StatusCode r <? 300).

Definition body_text (r : HttpReply) : string :=
  match hr_Body r with Ok s => limit_reader 4096 s | Err _ => "" end.

(** [http.NewRequestWithContext] and [c.http.Do]. *)
Definition http_do (sc : scope) (f : Net → nat → result HttpReply) : W HttpReply :=
  wait ;; checked sc (λ env net p, (f net (pr_tick p), p)).

Definition UploadArtifact (sc : scope) (taskID kind contentType data : string) : W string :=
  response ← invoke sc (ws_CreateArtifactUpload (rpcContext c) taskID (cl_workerID c) kind contentType
    (Z.of_nat (String.length data)) (hex_encode (sha256 data)));
  let headers := filter (λ kv, equal_fold kv.1 "host" = false) (u_Headers response) in
  put ← http_do sc (λ net n, net_put net n (u_URL response) headers data);
  if negb (success put) then
    wthrow (ErrText ("artifact upload returned " +:+ hr_Status put +:+ ": " +:+ body_text put))
  else
    invoke sc (ws_CompleteArtifactUpload (rpcContext c) taskID (cl_workerID c) (f_ID (u_Artifact response))).

Definition DownloadArtifact (sc : scope) (taskID artifactURI : string) : W string :=
  response ← invoke sc (ws_GetArtifactDownload (rpcContext c) taskID (cl_workerID c) artifactURI);
  download ← http_do sc (λ net n, net_get net n (w_URL response));
  if negb (success download) then wthrow (ErrText ("artifact download returned " +:+ hr_Status download))
  else
    match hr_Body download with
    | Ok data => mret (limit_reader (MaxArtifactBytes + 1) data)
    | Err e => wthrow e
    end.

Definition client_Lease (id : string) : W Task :=
  ready (response ← invoke Parent (ws_Lease (rpcContext c) id (cl_workerID c));
    let result := task response in
    if bool_decide (tk_InputArtifactURI result = "") then mret result
    else
      input ← wrapped "download input artifact" (DownloadArtifact Parent id (tk_InputArtifactURI result));
      mret (result<| tk_Input := Bytes input |>)).

Definition client_Start (id : string) : W Task :=
  ready (response ← invoke Parent (ws_Start (rpcContext c) id (cl_workerID c)); mret (task response)).

(** [256<<10]. *)
Definition inlineLimit : Z := Z.shiftl 256 10.

Definition log_data (id : string) : string :=
  Marshal format_rfc3339 (JObj [("status", JStr "SUCCEEDED"); ("task_run_id", JStr id)]).

(** [output] is a map, as every handler's is; [json.Unmarshal] of its text gives
    it back. *)
Definition client_Complete (id : string) (output : json) : W Task :=
  ready (
    let raw := Marshal format_rfc3339 output in
    let large := bool_decide (inlineLimit < Z.of_nat (String.length raw)) in
    artifactURI ← (if large then wrapped "upload output artifact"
                     (UploadArtifact TaskScope id "output" "application/json" raw)
                   else mret "");
    let object := if large then empty_object else output in
    logArtifactURI ← wrapped "upload task log"
      (UploadArtifact TaskScope id "log" "application/json" (log_data id));
    response ← invoke TaskScope (ws_Complete (rpcContext c) id (cl_workerID c) (Some object)
      artifactURI logArtifactURI);
    mret (task response)).

(** A Go error as [Fail] reports it: [fmt.Sprintf("%T", err)] and
    [err.Error()]. *)
Record GoError := mkGoError { ge_Type : string; ge_Text : string }.

Definition client_Fail (id : string) (retryable : bool) (err : GoError) : W Task :=
  ready (response ← invoke Parent (ws_Fail (rpcContext c) id (cl_workerID c)
      (mkFailure retryable (ge_Type err) (ge_Text err) ""));
    mret (task response)).

(** The HTTP interface of the control plane. *)
Context (serve : Request → M Response).

Definition http_request (u : URL) (body : string) : Request :=
  {| rq_Method := "POST"; rq_EscapedPath := escape_path (url_Path u); rq_Host := url_Host u;
     rq_Origin := ""; rq_Authorization := "Bearer " +:+ cl_token c; rq_Protocol := "";
     rq_IdempotencyKey := ""; rq_task_run_id := ""; rq_worker_id := ""; rq_Body := body;
     rq_upgrade := λ _, None; rq_first := false; rq_signals := λ _, [] |}.

(** The text of the error keeps the status only. *)
Definition postHTTP (path : string) (payload : json) : W unit :=
  match Parse (cl_httpBaseURL c +:+ path) with
  | None => wthrow (ErrText "parse URL")
  | Some u =>
      let request := http_request u (Marshal format_rfc3339 payload) in
      response ← invoke Parent (r ← serve request; mret (Reply r));
      if (200 <=? resp_status response) && (resp_status response <? 300) then mret tt
      else wthrow (ErrText ("runmesh returned " +:+ pretty (resp_status response)))
  end.

Definition report_path : string := "/internal/v1/workers/" +:+ cl_workerID c +:+ "/heartbeat".

Definition report_payload (handlers : list string) (active : Z) : json :=
  JObj [("active_tasks", JNum active); ("handlers", JArr (JStr <$> handlers));
        ("metadata", JObj [("sdk", JStr "go")])].

Definition Report (handlers : list string) (active : Z) : W unit :=
  postHTTP report_path (report_payload handlers active).
End Calls.
