(* ===== verification/WorkerGo.v ===== *)
(** The example worker: [cmd/worker-go/main.go].

    The main goroutine consumes the messages of the topic one by one; the one
    that sends heartbeats while a task executes is part of [Client.wait].  A
    JSON number is an integer of the size a [float64] holds exactly. *)
From stdpp Require Import pretty.
From S2P Require Import Prelude Go Url Mux Model State Json Schema Sql StoreWorker StoreWorkflow Outbox Auth Stream Artifacts RateLimit Api Http Rpc Client.

(** * [fmt] *)

Definition two_digits (n : nat) : string :=
  (if (n <? 10)%nat then "0" else "") +:+ pretty n.

(** [strconv.FormatFloat(x, 'g', -1, 64)] of an integer: its digits below a
    million, else the shortest digits and an exponent. *)
Definition fmt_float (z : Z) : string :=
  let digits := pretty (Z.abs z) in
  let sign := if z <? 0 then "-" else "" in
  let exp := (String.length digits - 1)%nat in
  if (exp <? 6)%nat then sign +:+ digits
  else
    match trim_right (λ c, Ascii.eqb c "0") digits with
    | "" => sign +:+ digits
    | String d "" => sign +:+ String d ("e+" +:+ two_digits exp)
    | String d rest => sign +:+ String d ("." +:+ rest +:+ "e+" +:+ two_digits exp)
    end%string.

(** [fmt.Sprint(v)] of a decoded JSON value; maps are printed by key. *)
Fixpoint Sprint (format_rfc3339 : time → string) (v : json) : string :=
  match v with
  | JNull => "<nil>"
  | JBool b => if b then "true" else "false"
  | JNum n => fmt_float n
  | JStr s => s
  | JTime t => format_rfc3339 t
  | JArr l => "[" +:+ join " " (Sprint format_rfc3339 <$> l) +:+ "]"
  | JObj fields =>
      "map[" +:+ join " "
        ((λ kv, kv.1 +:+ ":" +:+ kv.2) <$>
           merge_sort (λ a b, Is_true (String.leb a.1 b.1))
             ((λ kv, (kv.1, Sprint format_rfc3339 kv.2)) <$> fields)) +:+ "]"
  end.

(** [%q]; characters outside ASCII are taken as printable. *)
Fixpoint go_escape (s : string) : string :=
  match s with
  | "" => ""
  | String c s =>
      match N_of_ascii c with
      | 34 | 92 => String "\" (String c (go_escape s))
      | 7 => "\a" +:+ go_escape s
      | 8 => "\b" +:+ go_escape s
      | 9 => "\t" +:+ go_escape s
      | 10 => "\n" +:+ go_escape s
      | 11 => "\v" +:+ go_escape s
      | 12 => "\f" +:+ go_escape s
      | 13 => "\r" +:+ go_escape s
      | n =>
          if (n <? 32)%N || (n =? 127)%N
          then "\x" +:+ String (hex_char (n / 16)) (String (hex_char (n mod 16)) (go_escape s))
          else String c (go_escape s)
      end%N
  end%string.

Definition Quote (s : string) : string := quote +:+ go_escape s +:+ quote.

Definition upper (c : ascii) : ascii :=
  let n := N_of_ascii c in
  if (97 <=? n)%N && (n <=? 122)%N then ascii_of_N (n - 32) else c.

Fixpoint map_chars (f : ascii → ascii) (s : string) : string :=
  match s with "" => "" | String c s => String (f c) (map_chars f s) end%string.

Definition ascii_only (s : string) : bool := all_chars (λ c, (N_of_ascii c <? 128)%N) s.

(** * Messages *)

Record dispatch := mkDispatch { d_TaskRunID : string; d_Handler : string }.

(** [header]: the first header of that name. *)
Definition header (headers : list (string * string)) (key : string) : string :=
  default "" (assoc key headers).

Definition headers_of (m : Message) : list (string * string) :=
  [("event_type", m_event_type m); ("event_id", m_event_id m)].

(** [json.Unmarshal(message.Value, &d)]. *)
Definition unmarshal_dispatch (v : json) : option dispatch :=
  match v with
  | JObj fields =>
      id ← field_string fields "task_run_id"; h ← field_string fields "handler";
      Some (mkDispatch id h)
  | JNull => Some (mkDispatch "" "")
  | _ => None
  end.

Definition supported (handler : string) : bool :=
  bool_decide (handler ∈ ["examples.greet"; "examples.upper"; "examples.notify"; "examples.slow";
                          "validation.dead"]).

Definition handlers : list string :=
  ["examples.greet"; "examples.upper"; "examples.notify"; "examples.slow"; "validation.dead"].

Definition Millisecond : Z := 1000000.

(** * Configuration *)

Definition env (getenv : string → string) (key fallback : string) : string :=
  if bool_decide (getenv key = "") then fallback else getenv key.

Definition defaultWorkerID (hostname : result string) : string :=
  match hostname with
  | Ok h => if bool_decide (h = "") then "go-worker" else "go-worker-" +:+ h
  | Err _ => "go-worker"
  end.

Record Settings := mkSettings {
  st_brokers : list string;
  st_client : Client;
  st_topic : string;
  st_group : string
}.

Definition settings (getenv : string → string) (hostname : result string)
    (grpc_NewClient : string → option error) : Settings :=
  let workerID := env getenv "RUNMESH_WORKER_ID" (defaultWorkerID hostname) in
  {| st_brokers := split "," (env getenv "RUNMESH_KAFKA_BROKERS" "localhost:19092");
     st_client := NewClient grpc_NewClient (env getenv "RUNMESH_ENDPOINT" "localhost:7001")
       (env getenv "RUNMESH_INTERNAL_TOKEN" "local-development-token") workerID;
     st_topic := env getenv "RUNMESH_KAFKA_TOPIC" "runmesh.tasks";
     st_group := env getenv "RUNMESH_KAFKA_GROUP_ID" "runmesh-workers" |}.

(** * Execution *)

Section Worker.
Context `{WorkerService} (sha256 : string → string) (format_rfc3339 : time → string).

(** [strings.ToUpper] outside ASCII, and [json.Unmarshal] of bytes into a map. *)
Context (unicode_ToUpper : string → string).
Context (json_Unmarshal : string → GoError + list (string * json)).
Context (c : Client).

Definition ToUpper (s : string) : string :=
  if ascii_only s then map_chars upper s else unicode_ToUpper s.

Definition unmarshal_input (raw : RawMessage) : GoError + list (string * json) :=
  match raw with
  | Encoded (JObj fields) => inr fields
  | Encoded JNull => inr []
  | Encoded _ => inl (mkGoError "*json.UnmarshalTypeError" "json: cannot unmarshal into Go value")
  | Bytes s => json_Unmarshal s
  end.

(** [input[key]]: nil when absent. *)
Definition at_key (input : list (string * json)) (key : string) : json := default JNull (assoc key input).

Definition greet (input : list (string * json)) : json :=
  JObj [("message", JStr ("Hello, " +:+ Sprint format_rfc3339 (at_key input "name") +:+ "!"));
        ("worker", JStr "go")].

Definition upper_text (input : list (string * json)) : json :=
  JObj [("text", JStr (ToUpper (Sprint format_rfc3339 (at_key input "text")))); ("worker", JStr "go")].

Definition notify_output (id : string) : json :=
  JObj [("delivered", JBool true); ("idempotency_key", JStr id); ("worker", JStr "go")].

Definition slow_delay (input : list (string * json)) : Z :=
  match at_key input "delay_ms" with
  | JNum value => if (0 <=? value) && (value <=? 30000) then value * Millisecond else 200 * Millisecond
  | _ => 200 * Millisecond
  end.

Definition slept (delay : Z) : json :=
  JObj [("slept_ms", JNum (delay / Millisecond)); ("worker", JStr "go")].

(** [select { case <-time.After(delay): ... case <-ctx.Done(): ... }]. *)
Definition sleep (delay : Z) : W unit :=
  wait c ;;
  seen ← look (λ net p, (pr_ctx p, net_timer net (pr_tick p)));
  match seen with
  | (Some e, false) => wthrow e
  | _ => mret tt
  end.

(** [context.WithTimeout] and the goroutine of the heartbeats; both end when
    [execute] returns. *)
Definition with_task {A} (id : string) (timeout : Z) (body : W A) : W A := λ env net p,
  let deadline := if timeout <=? 0 then Some (ErrText "context deadline exceeded") else None in
  let '(r, p') := body env net
    (p<| pr_beating := Some id |><| pr_ctx := or_else (pr_parent p) deadline |>) in
  (r, p'<| pr_beating := None |><| pr_ctx := None |>).

Definition fail_with {A} (id : string) (retryable : bool) (err : GoError) : W A :=
  wtry (client_Fail c id retryable err) ;; wthrow (ErrText (ge_Text err)).

Definition error_string (text : string) : GoError := mkGoError "*errors.errorString" text.

(** The [switch] over the handlers; its result is the output to report. *)
Definition handle (id handler : string) (input : list (string * json)) : W json :=
  if bool_decide (handler = "examples.greet") then mret (greet input)
  else if bool_decide (handler = "examples.upper") then mret (upper_text input)
  else if bool_decide (handler = "examples.notify") then mret (notify_output id)
  else if bool_decide (handler = "examples.slow") then
    let delay := slow_delay input in
    sleep delay ;; mret (slept delay)
  else if bool_decide (handler = "validation.dead") then
    fail_with id false (error_string "intentional permanent failure for validation")
  else fail_with id true (error_string ("unsupported handler " +:+ Quote handler)).

Definition execute (id : string) : W unit :=
  task ← client_Lease c id;
  client_Start c id ;;
  with_task id (tk_TimeoutSeconds task * Second)
    (match unmarshal_input (tk_Input task) with
     | inl err => fail_with id false err
     | inr input =>
         output ← handle id (tk_Handler task) input;
         client_Complete sha256 format_rfc3339 c id output ;; mret tt
     end).

(** [reader.CommitMessages(ctx, message)]. *)
Definition CommitMessages (m : Message) : W unit :=
  wait c ;; checked Parent (λ env net p,
    match net_commit net (pr_tick p) with
    | Some e => (Err e, p)
    | None => (Ok tt, p<| pr_committed := pr_committed p ++ [m] |>)
    end).

(** The body of the loop: every error is logged only, and the offset is
    committed whatever became of the task. *)
Definition handle_message (m : Message) : W unit :=
  if bool_decide (header (headers_of m) "event_type" ≠ "task.dispatch") then
    wtry (CommitMessages m) ;; mret tt
  else
    match unmarshal_dispatch (m_value m) with
    | None => wtry (CommitMessages m) ;; mret tt
    | Some d =>
        if negb (supported (d_Handler d)) then wtry (CommitMessages m) ;; mret tt
        else
          wtry (execute (d_TaskRunID d)) ;;
          wtry (CommitMessages m) ;; mret tt
    end.

(** [for { message, err := reader.FetchMessage(ctx); ... }] on the messages that
    are still to come; the loop ends with the context.  [fuel] bounds the number
    of fetches. *)
Fixpoint consume (fuel : nat) (messages : list Message) : W unit :=
  match fuel with
  | O => mret tt
  | S fuel =>
      wait c ;;
      fetched ← look (λ net p, net_fetch net (pr_tick p));
      match fetched, messages with
      | Some e, _ => if bool_decide (e = Canceled) then mret tt else consume fuel messages
      | None, [] => mret tt
      | None, m :: messages => handle_message m ;; consume fuel messages
      end
  end.

(** [report]: a report, then a tick of the timer or the end of the context. *)
Fixpoint report (serve : Request → M Response) (rounds : nat) : W unit :=
  match rounds with
  | O => mret tt
  | S rounds =>
      wtry (Report format_rfc3339 c serve handlers 0) ;;
      wait c ;;
      stopped ← look (λ _ p, pr_parent p);
      match stopped with Some _ => mret tt | None => report serve rounds end
  end.
End Worker.
