(* ===== verification/Python.v ===== *)
(** The Python SDK: [sdk/python/runmesh/worker.py].

    A consumer slot ([_consume_loop]) is a coroutine: exceptions are values of
    [exc], and control leaves it only where it awaits.  There the other parties
    may change the database, the heartbeat task of the task it executes may run,
    and the cancellation that follows [SIGTERM] may be delivered; [Client.Net]
    chooses.  A handler is any program over the operations [TaskContext] offers.
    Trace headers, and joining and leaving the consumer group, are left out. *)
From stdpp Require Import pretty.
From S2P Require Import Prelude Go Url Mux Model State Json Schema Sql StoreWorker StoreWorkflow Outbox Auth Stream Artifacts RateLimit Api Http Rpc Client WorkerGo.

(** * Exceptions *)

(** [AioRpcError] keeps its status code, absent when the call got no answer;
    [Raised] is any other exception: the name of its class and its text. *)
Inductive exc : Type :=
  | Conflict (text : string)
  | AioRpcError (c : option code) (text : string)
  | RetryableError (text : string)
  | PermanentError (text : string)
  | TimeoutError
  | CancelledError (text : string)
  | Raised (type text : string).

(** [type(exc).__name__]. *)
Definition exc_name (e : exc) : string :=
  match e with
  | Conflict _ => "Conflict"
  | AioRpcError _ _ => "AioRpcError"
  | RetryableError _ => "RetryableError"
  | PermanentError _ => "PermanentError"
  | TimeoutError => "TimeoutError"
  | CancelledError _ => "CancelledError"
  | Raised type _ => type
  end.

(** * [json.dumps] *)

Definition hex_digits4 (n : N) : string :=
  "\u" +:+ String (hex_char (n / 4096)) (String (hex_char (n / 256 mod 16))
    (String (hex_char (n / 16 mod 16)) (String (hex_char (n mod 16)) ""))).

(** A character outside the basic plane is a pair of surrogates. *)
Definition escaped (n : N) : string :=
  if (n <? 65536)%N then hex_digits4 n
  else hex_digits4 (55296 + (n - 65536) / 1024) +:+ hex_digits4 (56320 + (n - 65536) mod 1024).

Definition ascii_escape (c : ascii) : string :=
  match N_of_ascii c with
  | 34 | 92 => String "\" (String c "")
  | 8 => "\b"
  | 9 => "\t"
  | 10 => "\n"
  | 12 => "\f"
  | 13 => "\r"
  | n => if (n <? 32)%N then hex_digits4 n else String c ""
  end%N.

Definition low_bits (k : N) (c : ascii) : N := (N_of_ascii c mod k)%N.

(** [ensure_ascii]: the characters of the UTF-8 text [s], escaped. *)
Fixpoint ensure_ascii (s : string) : string :=
  match s with
  | "" => ""
  | String a s =>
      if (N_of_ascii a <? 128)%N then ascii_escape a +:+ ensure_ascii s
      else match s with
      | "" => ""
      | String b s =>
          if (N_of_ascii a <? 224)%N
          then escaped (low_bits 32 a * 64 + low_bits 64 b) +:+ ensure_ascii s
          else match s with
          | "" => ""
          | String c s =>
              if (N_of_ascii a <? 240)%N
              then escaped ((low_bits 16 a * 64 + low_bits 64 b) * 64 + low_bits 64 c) +:+ ensure_ascii s
              else match s with
              | "" => ""
              | String d s =>
                  escaped (((low_bits 8 a * 64 + low_bits 64 b) * 64 + low_bits 64 c) * 64 + low_bits 64 d)
                    +:+ ensure_ascii s
              end
          end
      end
  end%string%N.

Definition py_quoted (s : string) : string := quote +:+ ensure_ascii s +:+ quote.

Section Dumps.
Context (isoformat : time → string).

(** [json.dumps(v, separators=(item, key))]. *)
Fixpoint dumps (item key : string) (v : json) : string :=
  match v with
  | JNull => "null"
  | JBool b => if b then "true" else "false"
  | JNum n => pretty n
  | JStr s => py_quoted s
  | JTime t => py_quoted (isoformat t)
  | JArr l => "[" +:+ join item (dumps item key <$> l) +:+ "]"
  | JObj fields =>
      "{" +:+ join item ((λ kv, py_quoted kv.1 +:+ key +:+ dumps item key kv.2) <$> fields) +:+ "}"
  end.
End Dumps.

(** The first [n] characters of a text in UTF-8: [text[:n]]. *)
Fixpoint first_chars (n : nat) (s : string) : string :=
  match s with
  | "" => ""
  | String c s =>
      if (128 <=? N_of_ascii c)%N && (N_of_ascii c <? 192)%N then String c (first_chars n s)
      else match n with O => "" | S n => String c (first_chars n s) end
  end%string.

(** [bool(v)]. *)
Definition truthy (v : json) : bool :=
  match v with
  | JNull => false
  | JBool b => b
  | JNum n => bool_decide (n ≠ 0)
  | JStr s => bool_decide (s ≠ "")
  | JTime _ => true
  | JArr l => bool_decide (l ≠ [])
  | JObj fields => bool_decide (fields ≠ [])
  end.

(** * Slots *)

(** The state of a consumer slot: the session with the database behind the
    service, the event counter, the task whose heartbeat task runs and the
    exception that ended it, [_heartbeat_requested] and [_cancelled] of the
    task's context, [_stopping] and whether the slot's cancellation was
    delivered, and the messages whose offset it committed. *)
Record Slot := mkSlot {
  sl_sess : Sess;
  sl_tick : nat;
  sl_beating : option string;
  sl_beat_exc : option exc;
  sl_requested : bool;
  sl_cancelled : bool;
  sl_stopping : bool;
  sl_interrupted : bool;
  sl_committed : list Message
}.

Definition Y (A : Type) : Type := Env → Net → Slot → (exc + A) * Slot.

#[export] Instance Y_ret : MRet Y := λ A a env net s, (inr a, s).
#[export] Instance Y_bind : MBind Y := λ A B k m env net s,
  match m env net s with
  | (inr a, s') => k a env net s'
  | (inl e, s') => (inl e, s')
  end.

Definition raise {A} (e : exc) : Y A := λ env net s, (inl e, s).

(** [try: m except e: handler(e)]. *)
Definition except {A} (m : Y A) (handler : exc → Y A) : Y A := λ env net s,
  match m env net s with
  | (inr a, s') => (inr a, s')
  | (inl e, s') => handler e env net s'
  end.

(** [try: m finally: last]: an exception of [last] replaces that of [m]. *)
Definition finally {A} (m : Y A) (last : Y unit) : Y A := λ env net s,
  let '(r, s1) := m env net s in
  match last env net s1 with
  | (inr _, s2) => (r, s2)
  | (inl e, s2) => (inl e, s2)
  end.

(** [with suppress(...)] around a call whose value is dropped. *)
Definition suppress {A} (p : exc → bool) (m : Y A) : Y unit :=
  except (m ;; mret tt) (λ e, if p e then mret tt else raise e).

Definition is_Conflict (e : exc) : bool := match e with Conflict _ => true | _ => false end.
Definition is_Cancelled (e : exc) : bool := match e with CancelledError _ => true | _ => false end.

Definition peek {A} (f : Net → Slot → A) : Y A := λ env net s, (inr (f net s), s).
Definition update (f : Slot → Slot) : Y unit := λ env net s, (inr tt, f s).

(** The next event: what others did becomes visible, [_stopping] stays set. *)
Definition turn (net : Net) (s : Slot) : Slot :=
  let n := sl_tick s in
  s<| sl_sess := with_db (net_others net n) (sl_sess s) |><| sl_tick := S n |>
   <| sl_stopping := sl_stopping s || bool_decide (is_Some (net_stop net n)) |>.

(** [await stub.Method(...)], once the loop runs it. *)
Definition rpc {A} (m : RM A) : Y A := λ env net s,
  match net_rpc net (sl_tick s) with
  | RequestLost e => (inl (AioRpcError None (error_text e)), s)
  | ReplyLost e => (inl (AioRpcError None (error_text e)), s<| sl_sess := (m env (sl_sess s)).2 |>)
  | Answered =>
      let '(r, sess) := m env (sl_sess s) in
      (match r with
       | Ok (Reply a) => inr a
       | Ok (Status c t) => inl (AioRpcError (Some c) t)
       | Err e => inl (AioRpcError None (error_text e))
       end, s<| sl_sess := sess |>)
  end.

(** * The worker *)

Inductive data : Type :=
  | DStr (s : string)
  | DBytes (s : string)
  | DMapping (fields : list (string * json)).

(** What a handler does: it returns or raises; it awaits (or blocks its
    thread); it reads [context.cancelled], calls [context.heartbeat()] or
    [context.upload_artifact(...)], whose exception it may handle. *)
Inductive program : Type :=
  | Return_ (result : json)
  | Raise_ (e : exc)
  | Await_ (next : program)
  | Cancelled_ (next : bool → program)
  | Heartbeat_ (next : program)
  | Upload_ (d : data) (kind content_type : string) (next : exc + string → program).

Record TaskContext := mkTaskContext {
  tc_task_run_id : string;
  tc_workflow_run_id : json;
  tc_attempt : json;
  tc_timeout_seconds : json
}.

Definition idempotency_key (context : TaskContext) : string := tc_task_run_id context.

(** [trace_id], from the [traceparent] of the message. *)
Definition trace_id (trace_parent : option string) : option string :=
  match trace_parent with
  | None | Some "" => None
  | Some t => match split "-" t with [_; id; _; _] => Some id | _ => None end
  end%string.

Definition Handler_ : Type := json → TaskContext → program.

Record Worker := mkWorker {
  wk_endpoint : string;
  wk_base_url : string;
  wk_api_key : string;
  wk_brokers : string;
  wk_topic : string;
  wk_group_id : string;
  wk_worker_id : string;
  wk_concurrency : nat;
  wk_handlers : gmap string Handler_
}.

Definition rstrip_slash (s : string) : string := trim_right (λ c, Ascii.eqb c "/") s.

(** [a or b] of an optional text. *)
Definition text_or (a : option string) (b : string) : string :=
  match a with None | Some "" => b | Some s => s end%string.

(** [Worker(...)]; [generated] is the host's name with eight random digits. *)
Definition Worker_init (endpoint api_key : string) (http_endpoint brokers : option string)
    (topic group_id : string) (worker_id : option string) (concurrency : nat)
    (environ_brokers : option string) (generated : string) : Worker :=
  let endpoint := rstrip_slash (trim_prefix "http://" (trim_prefix "grpc://" endpoint)) in
  let default_http :=
    if has_suffix "7001" endpoint then trim_suffix "7001" endpoint +:+ "8080" else endpoint in
  {| wk_endpoint := endpoint;
     wk_base_url :=
       "http://" +:+ rstrip_slash (trim_prefix "http://" (text_or http_endpoint default_http));
     wk_api_key := api_key;
     wk_brokers := text_or brokers (text_or environ_brokers "localhost:19092");
     wk_topic := topic; wk_group_id := group_id; wk_worker_id := text_or worker_id generated;
     wk_concurrency := concurrency; wk_handlers := ∅ |}.

(** [@worker.task(name)]. *)
Definition task_register (name : string) (handler : Handler_) (w : Worker) : exc + Worker :=
  match wk_handlers w !! name with
  | Some _ => inl (Raised "ValueError" ("handler '" +:+ name +:+ "' is already registered"))
  | None => inr (w<| wk_handlers := <[name := handler]> (wk_handlers w) |>)
  end.

(** The slots [serve] starts. *)
Definition serve_slots (w : Worker) : exc + list nat :=
  if bool_decide (wk_handlers w = ∅)
  then inl (Raised "RuntimeError" "register at least one task before starting a worker")
  else inr (seq 0 (wk_concurrency w)).

(** [_header]: the first of that name. *)
Definition header_of (m : Message) (key : string) : option string := assoc key (headers_of m).

(** [_task_message]. *)
Definition task_message (v : TaskSnapshot) : json :=
  JObj [("id", JStr (sn_Id v)); ("workflow_run_id", JStr (sn_WorkflowRunId v));
        ("task_key", JStr (sn_TaskKey v)); ("handler", JStr (sn_Handler v));
        ("status", JStr (task_status_text (sn_Status v))); ("attempt_count", JNum (sn_Attempt v));
        ("timeout_seconds", JNum (sn_TimeoutSeconds v));
        ("input", default empty_object (sn_Input v));
        ("input_artifact_uri", JStr (sn_InputArtifactUri v))].

(** [path.split("/tasks/", 1)]: what follows the first occurrence. *)
Fixpoint after_tasks (path : string) : option string :=
  if has_prefix "/tasks/" path then Some (drop_string 7 path)
  else match path with "" => None | String _ path => after_tasks path end%string.

Definition key_get (payload : list (string * json)) (key : string) : json :=
  default JNull (assoc key payload).

(** [d[key]]. *)
Definition subscript {A} (v : json) (key : string) (k : json → Y A) : Y A :=
  match v with
  | JObj fields =>
      match assoc key fields with
      | Some x => k x
      | None => raise (Raised "KeyError" ("'" +:+ key +:+ "'"))
      end
  | _ => raise (Raised "TypeError" "indices must be integers")
  end.

Section Worker.
Context `{WorkerService} (sha256 : string → string) (isoformat : time → string).

(** [json.loads], [str(v)] of a value that is no string, and [str] of an
    [AioRpcError]. *)
Context (json_loads : string → exc + json).
Context (py_str : json → string).
Context (rpc_str : option code → string → string).
Context (w : Worker).

Definition exc_str (e : exc) : string :=
  match e with
  | Conflict t | RetryableError t | PermanentError t | CancelledError t | Raised _ t => t
  | AioRpcError c t => rpc_str c t
  | TimeoutError => ""
  end.

Definition metadata_ : list string := ["Bearer " +:+ wk_api_key w].

Definition str (v : json) : string := match v with JStr s => s | _ => py_str v end.

(** [str(payload.get(key) or "")]. *)
Definition text_at (payload : list (string * json)) (key : string) : string :=
  let v := key_get payload key in if truthy v then str v else "".

(** [output.update(...)] of a protobuf structure takes a mapping. *)
Definition struct_update {A} (v : json) (k : json → Y A) : Y A :=
  match (if truthy v then v else empty_object) with
  | JObj fields => k (JObj fields)
  | _ => raise (Raised "AttributeError" "object has no attribute 'items'")
  end.

Definition task_action (task_id action : string) (payload : list (string * json)) : Y json :=
  if bool_decide (action = "lease") then
    response ← rpc (ws_Lease metadata_ task_id (wk_worker_id w)); mret (task_message response)
  else if bool_decide (action = "start") then
    response ← rpc (ws_Start metadata_ task_id (wk_worker_id w)); mret (task_message response)
  else if bool_decide (action = "heartbeat") then
    response ← rpc (ws_Heartbeat metadata_ task_id (wk_worker_id w));
    mret (JObj [("cancelled", JBool response.2)])
  else if bool_decide (action = "complete") then
    struct_update (key_get payload "output") (λ output,
      response ← rpc (ws_Complete metadata_ task_id (wk_worker_id w) (Some output)
        (text_at payload "output_artifact_uri") (text_at payload "log_artifact_uri"));
      mret (task_message response))
  else if bool_decide (action = "fail") then
    response ← rpc (ws_Fail metadata_ task_id (wk_worker_id w)
      (mkFailure (truthy (key_get payload "retryable")) (text_at payload "error_type")
         (text_at payload "error_message") (text_at payload "trace_id")));
    mret (task_message response)
  else raise (Raised "ValueError" ("unknown worker action '" +:+ action +:+ "'")).

(** [_task_rpc]; the service answers no call with [ALREADY_EXISTS]. *)
Definition task_rpc (path : string) (payload : list (string * json)) : Y json :=
  match after_tasks path with
  | None => raise (Raised "IndexError" "list index out of range")
  | Some rest =>
      match cut "/" rest with
      | (_, None) => raise (Raised "ValueError" "not enough values to unpack (expected 2, got 1)")
      | (task_id, Some action) =>
          except (task_action task_id action payload) (λ e,
            match e with
            | AioRpcError (Some FailedPrecondition) t => raise (Conflict t)
            | _ => raise e
            end)
      end
  end.

Definition task_path (task_id action : string) : string :=
  "/internal/v1/tasks/" +:+ task_id +:+ "/" +:+ action.

Definition in_tasks (payload : list (string * json)) : list (string * json) :=
  ("worker_id", JStr (wk_worker_id w)) :: payload.

(** One round of [_heartbeat], after its timer or a request: an exception ends
    the task it runs in. *)
Definition beat (task_id : string) : Env → Net → Slot → Slot := λ env net s,
  let s := (turn net s)<| sl_requested := false |> in
  match task_rpc (task_path task_id "heartbeat") (in_tasks []) env net s with
  | (inr (JObj fields), s') =>
      if truthy (key_get fields "cancelled") then s'<| sl_cancelled := true |> else s'
  | (inr _, s') => s'
  | (inl e, s') => s'<| sl_beating := None |><| sl_beat_exc := Some e |>
  end.

Fixpoint heartbeat_rounds (rounds : nat) : Env → Net → Slot → Slot := λ env net s,
  match rounds, sl_beating s with
  | S rounds, Some id => heartbeat_rounds rounds env net (beat id env net s)
  | _, _ => s
  end.

(** What happens while the slot awaits: the rounds of the heartbeat task, and
    the one cancellation that [serve] delivers after [_stopping] is set. *)
Definition await : Y unit := λ env net s,
  let n := sl_tick s in
  let rounds := (net_beats net n + if sl_requested s then 1 else 0)%nat in
  let s := heartbeat_rounds rounds env net (turn net s) in
  if sl_stopping s && negb (sl_interrupted s) && net_timer net n
  then (inl (CancelledError ""), s<| sl_interrupted := true |>)
  else (inr tt, s).

Definition client_of : Client :=
  mkClient (wk_api_key w) (wk_worker_id w) (wk_endpoint w) (wk_base_url w) None.

(** [session.post] and what [_post] makes of the response; of the body only the
    status is kept. *)
Definition post_http (serve : Request → M Response) (path : string) (payload : list (string * json))
    : Y json :=
  match Parse (wk_base_url w +:+ path) with
  | None => raise (Raised "InvalidURL" path)
  | Some u =>
      let request := http_request client_of u (dumps isoformat ", " ": " (JObj payload)) in
      response ← except (rpc (r ← serve request; mret (Reply r)))
        (λ e, raise (Raised "ClientError" (exc_str e)));
      if bool_decide (resp_status response = 409) then raise (Conflict "")
      else if 400 <=? resp_status response
      then raise (Raised "ClientResponseError" (pretty (resp_status response)))
      else mret empty_object
  end.

Definition post (serve : Request → M Response) (path : string) (payload : list (string * json)) : Y json :=
  await ;;
  if string_contains path "/tasks/" then task_rpc path (in_tasks payload)
  else post_http serve path payload.

Context (serve : Request → M Response).

Definition lower_host (key : string) : bool := String.eqb (to_lower key) "host".

(** [upload_headers.setdefault("Content-Type", ...)]. *)
Definition upload_headers (headers : list (string * string)) (content_type : string)
    : list (string * string) :=
  let kept := filter (λ kv, lower_host kv.1 = false) headers in
  match assoc "Content-Type" kept with
  | Some _ => kept
  | None => kept ++ [("Content-Type", content_type)]
  end.

(** [session.put] and [session.get]: the answer of the object store. *)
Definition fetch (f : Net → nat → result HttpReply) : Y HttpReply :=
  await ;;
  reply ← peek (λ net s, f net (sl_tick s));
  match reply with
  | Ok r => mret r
  | Err e => raise (Raised "ClientError" (error_text e))
  end.

(** [response.text()], [response.read()]. *)
Definition read_body (r : HttpReply) : Y string :=
  await ;;
  match hr_Body r with Ok s => mret s | Err e => raise (Raised "ClientPayloadError" (error_text e)) end.

Definition upload_artifact (task_id kind content_type data : string) : Y string :=
  await ;;
  created ← rpc (ws_CreateArtifactUpload metadata_ task_id (wk_worker_id w) kind content_type
    (Z.of_nat (String.length data)) (hex_encode (sha256 data)));
  response ← fetch (λ net n,
    net_put net n (u_URL created) (upload_headers (u_Headers created) content_type) data);
  if success response then
    await ;;
    rpc (ws_CompleteArtifactUpload metadata_ task_id (wk_worker_id w) (f_ID (u_Artifact created)))
  else
    detail ← read_body response;
    raise (RetryableError ("artifact upload returned " +:+ pretty (hr_StatusCode response) +:+ ": "
                           +:+ first_chars 1000 detail)).

Definition download_artifact (task_id artifact_uri : string) : Y string :=
  await ;;
  signed ← rpc (ws_GetArtifactDownload metadata_ task_id (wk_worker_id w) artifact_uri);
  response ← fetch (λ net n, net_get net n (w_URL signed));
  if 400 <=? hr_StatusCode response
  then raise (Raised "ClientResponseError" (pretty (hr_StatusCode response)))
  else read_body response.

(** [TaskContext.upload_artifact]: what is uploaded, and as what. *)
Definition artifact_data (d : data) (content_type : string) : string * string :=
  match d with
  | DStr s | DBytes s => (s, content_type)
  | DMapping fields => (dumps isoformat "," ":" (JObj fields), "application/json")
  end.

Definition caught {A} (m : Y A) : Y (exc + A) := λ env net s,
  let '(r, s') := m env net s in (inr r, s').

(** [asyncio.wait_for]: its timeout may have passed at any point where the
    handler awaited. *)
Definition in_time : Y unit :=
  passed ← peek (λ net s, bool_decide (is_Some (net_deadline net (sl_tick s))));
  if passed : bool then raise TimeoutError else mret tt.

(** [await asyncio.wait_for(handler(task_input, context), timeout)]. *)
Fixpoint run_program (task_id : string) (p : program) : Y json :=
  match p with
  | Return_ result => mret result
  | Raise_ e => raise e
  | Await_ next => await ;; in_time ;; run_program task_id next
  | Cancelled_ next => b ← peek (λ _ s, sl_cancelled s); run_program task_id (next b)
  | Heartbeat_ next => update (λ s, s<| sl_requested := true |>) ;; run_program task_id next
  | Upload_ d kind content_type next =>
      let '(encoded, content_type) := artifact_data d content_type in
      r ← caught (upload_artifact task_id kind content_type encoded);
      in_time ;; run_program task_id (next r)
  end.

Definition raise_if_cancelled : Y unit :=
  cancelled ← peek (λ _ s, sl_cancelled s);
  if cancelled : bool then raise (CancelledError "workflow run was cancelled") else mret tt.

Definition loads (s : string) : Y json :=
  match json_loads s with inl e => raise e | inr v => mret v end.

(** [consumer.commit()]. *)
Definition commit (m : Message) : Y unit :=
  await ;;
  failed ← peek (λ net s, net_commit net (sl_tick s));
  match failed with
  | Some e => raise (Raised "KafkaError" (error_text e))
  | None => update (λ s, s<| sl_committed := sl_committed s ++ [m] |>)
  end.

Definition report_failure (task_id : string) (e : exc) (retryable : bool) : Y unit :=
  suppress is_Conflict (post serve (task_path task_id "fail")
    [("retryable", JBool retryable); ("error_type", JStr (exc_name e));
     ("error_message", JStr (first_chars 4000 (exc_str e)))]).

(** The input of the task, and the handler on it. *)
Definition run_handler (handler : Handler_) (task : json) (context : TaskContext) : Y json :=
  let task_id := tc_task_run_id context in
  subscript task "input" (λ inline,
  let uri := match task with JObj fields => key_get fields "input_artifact_uri" | _ => JNull end in
  stored ← (if truthy uri then downloaded ← download_artifact task_id (str uri); loads downloaded
            else mret inline);
  task_input ← match stored with JStr text => loads text | v => mret v end;
  await ;; in_time ;; run_program task_id (handler task_input context)).

(** [256 * 1024]. *)
Definition inline_bytes : Z := 256 * 1024.

Definition log_text (task_id : string) : string :=
  dumps isoformat ", " ": " (JObj [("task_run_id", JStr task_id); ("status", JStr "SUCCEEDED")]).

(** From the handler's result to the completion. *)
Definition deliver (task_id : string) (result : json) : Y unit :=
  raise_if_cancelled ;;
  let value := match result with JNull => empty_object | v => v end in
  let encoded_result := dumps isoformat "," ":" value in
  let large := bool_decide (inline_bytes < Z.of_nat (String.length encoded_result)) in
  output_artifact_uri ← (if large then upload_artifact task_id "output" "application/json" encoded_result
                         else mret "");
  let output_value := if large then empty_object else value in
  log_artifact_uri ← upload_artifact task_id "log" "application/json" (log_text task_id);
  post serve (task_path task_id "complete")
    [("output", output_value); ("output_artifact_uri", JStr output_artifact_uri);
     ("log_artifact_uri", JStr log_artifact_uri)] ;;
  mret tt.

(** The [except] clauses of [_process]. *)
Definition on_failure (task_id : string) (e : exc) : Y unit :=
  match e with
  | PermanentError _ => report_failure task_id e false
  | RetryableError _ | TimeoutError => report_failure task_id e true
  | CancelledError _ =>
      report_failure task_id (RetryableError "execution cancelled") true ;; raise e
  | _ => report_failure task_id e true
  end.

Definition start_heartbeat (task_id : string) : Y unit :=
  update (λ s, s<| sl_beating := Some task_id |><| sl_beat_exc := None |>
                <| sl_requested := false |><| sl_cancelled := false |>).

(** [heartbeat.cancel()], and [await heartbeat] with its cancellation
    suppressed: a task that had ended with an exception raises it here. *)
Definition stop_heartbeat : Y unit :=
  update (λ s, s<| sl_beating := None |>) ;;
  ended ← peek (λ _ s, sl_beat_exc s);
  match ended with
  | Some e => raise e
  | None => suppress is_Cancelled await
  end.

(** The part of [_process] that executes a leased task. *)
Definition execute_task (task_id : string) (handler : Handler_) (task : json) : Y unit :=
  post serve (task_path task_id "start") [] ;;
  subscript task "workflow_run_id" (λ run,
  subscript task "attempt_count" (λ attempt,
  subscript task "timeout_seconds" (λ timeout,
  let context := mkTaskContext task_id run attempt timeout in
  start_heartbeat task_id ;;
  finally
    (except (result ← run_handler handler task context; deliver task_id result) (on_failure task_id))
    stop_heartbeat))).

(** [self._handlers.get(name)]: a list or a dict cannot be a key. *)
Definition find_handler (name : json) : Y (option Handler_) :=
  match name with
  | JStr name => mret (wk_handlers w !! name)
  | JArr _ => raise (Raised "TypeError" "unhashable type: 'list'")
  | JObj _ => raise (Raised "TypeError" "unhashable type: 'dict'")
  | _ => mret None
  end.

(** [_process]; the value of a message is the text of [m_value]. *)
Definition process (m : Message) : Y unit :=
  let dispatch := m_value m in
  subscript dispatch "task_run_id" (λ id,
  subscript dispatch "handler" (λ name,
  found ← find_handler name;
  match found with
  | None => commit m
  | Some handler =>
      let task_id := str id in
      leased ← caught (post serve (task_path task_id "lease") []);
      match leased with
      | inl (Conflict _) => commit m
      | inl e => raise e
      | inr task => execute_task task_id handler task ;; commit m
      end
  end)).

(** [_consume_loop] on the messages still to come; [fuel] bounds the number of
    fetches.  No exception of [_process] is caught. *)
Fixpoint consume_loop (fuel : nat) (messages : list Message) : Y unit :=
  match fuel with
  | O => mret tt
  | S fuel =>
      await ;;
      failed ← peek (λ net s, net_fetch net (sl_tick s));
      match failed, messages with
      | Some e, _ => raise (Raised "KafkaError" (error_text e))
      | None, [] => mret tt
      | None, m :: messages =>
          stopping ← peek (λ _ s, sl_stopping s);
          if stopping : bool then mret tt
          else
            (if bool_decide (header_of m "event_type" = Some "task.dispatch") then process m
             else commit m) ;;
            consume_loop fuel messages
      end
  end.

Definition report_path_ : string := "/internal/v1/workers/" +:+ wk_worker_id w +:+ "/heartbeat".

Definition report_fields (python_version : string) (active : Z) : list (string * json) :=
  [("handlers", JArr (JStr <$> merge_sort String.le (map_to_list (wk_handlers w)).*1));
   ("active_tasks", JNum active);
   ("metadata", JObj [("runtime", JStr python_version); ("sdk", JStr "python")])].

(** [_report_worker]: [except Exception] lets a cancellation through; [active]
    is the size of [_active] at each report, [rounds] bounds their number. *)
Fixpoint report_worker (python_version : string) (active : nat → Z) (rounds : nat) : Y unit :=
  match rounds with
  | O => mret tt
  | S rounds =>
      n ← peek (λ _ s, sl_tick s);
      except (post serve report_path_ (report_fields python_version (active n)) ;; mret tt)
        (λ e, if is_Cancelled e then raise e else mret tt) ;;
      await ;;
      report_worker python_version active rounds
  end.
End Worker.
