(* ===== verification/PythonExample.v ===== *)
(** The example worker: [examples/python_worker.py].

    Its handlers are programs of [Python.program]; [payload.get] fails on what is
    not a dict.  Numbers of a payload are whole; the delay of [slow] is a binary
    floating-point number, computed with the rounding of [SpecFloat].  The text
    of values other than strings, the integer of a text and upper case outside
    ASCII are parameters.  The theorem relates the handlers to those of
    [cmd/worker-go], with which the worker shares a consumer group. *)
From Stdlib Require Import SpecFloat.
From S2P Require Import Prelude Go Url Mux Model State Json Schema Sql StoreWorker StoreWorkflow Outbox Auth Stream Artifacts RateLimit Api Http Rpc Client WorkerGo Python.

(** * Floating point *)

(** [float(n)], [a / b], [a * b] and [int(a)] of binary64. *)
Definition py_float (n : Z) : spec_float := binary_normalize 53 1024 n 0 false.
Definition truediv (a b : Z) : spec_float := SFdiv 53 1024 (py_float a) (py_float b).
Definition float_times (a : spec_float) (b : Z) : spec_float := SFmul 53 1024 a (py_float b).

Definition truncated (a : spec_float) : Z :=
  match a with
  | S754_finite negative m e => let n := Z.shiftl (Z.pos m) e in if negative then - n else n
  | _ => 0
  end.

Section Example.
Context (str : json → string) (int_of_str : string → exc + Z) (unicode_upper : string → string).

(** [type(v).__name__]. *)
Definition type_name (v : json) : string :=
  match v with
  | JNull => "NoneType" | JBool _ => "bool" | JNum _ => "int" | JStr _ | JTime _ => "str"
  | JArr _ => "list" | JObj _ => "dict"
  end.

(** [payload.get(key, fallback)]. *)
Definition payload_get (payload : json) (key : string) (fallback : json) (k : json → program) : program :=
  match payload with
  | JObj fields => k (default fallback (assoc key fields))
  | v => Raise_ (Raised "AttributeError" ("'" +:+ type_name v +:+ "' object has no attribute 'get'"))
  end.

Definition py_text (v : json) : string := match v with JStr s => s | v => str v end.
Definition py_upper (s : string) : string := if ascii_only s then map_chars upper s else unicode_upper s.

(** [int(v)]. *)
Definition py_int (v : json) (k : Z → program) : program :=
  match v with
  | JNum n => k n
  | JBool b => k (if b then 1 else 0)
  | JStr s => match int_of_str s with inr n => k n | inl e => Raise_ e end
  | v => Raise_ (Raised "TypeError"
      ("int() argument must be a string, a bytes-like object or a real number, not '" +:+ type_name v +:+ "'"))
  end.

(** * The handlers *)

Definition greet_ (payload : json) (context : TaskContext) : program :=
  Await_ (payload_get payload "name" (JStr "world") (λ name,
    Return_ (JObj [("message", JStr ("Hello, " +:+ py_text name +:+ "!"))]))).

Definition upper_ (payload : json) (context : TaskContext) : program :=
  payload_get payload "text" (JStr "") (λ text, Return_ (JObj [("text", JStr (py_upper (py_text text)))])).

Definition notify_ (payload : json) (context : TaskContext) : program :=
  Return_ (JObj [("delivered", JBool true); ("idempotency_key", JStr (idempotency_key context))]).

(** The milliseconds [slow] reports for a delay of [ms]. *)
Definition slept_ms (ms : Z) : Z := truncated (float_times (truediv ms 1000) 1000).

Definition slow_ (payload : json) (context : TaskContext) : program :=
  payload_get payload "delay_ms" (JNum 200) (λ delay_ms, py_int delay_ms (λ delay_ms,
    let ms := Z.max 0 (Z.min delay_ms 30000) in
    Await_ (Cancelled_ (λ cancelled : bool,
      if cancelled then Raise_ (CancelledError "workflow run was cancelled")
      else Return_ (JObj [("slept_ms", JNum (slept_ms ms)); ("worker", JStr "python")]))))).

Definition validation_dead (payload : json) (context : TaskContext) : program :=
  Raise_ (Raised "RuntimeError" "intentional permanent failure for validation").

(** * The worker *)

Definition register_all : list (string * Handler_) :=
  [("examples.greet", greet_); ("examples.upper", upper_); ("examples.notify", notify_);
   ("examples.slow", slow_); ("validation.dead", validation_dead)].

Fixpoint registered (w : Worker) (l : list (string * Handler_)) : exc + Worker :=
  match l with
  | [] => inr w
  | (name, handler) :: l => match task_register name handler w with inl e => inl e | inr w => registered w l end
  end.

Definition example_worker (getenv : string → option string) (generated : string) : exc + Worker :=
  registered
    (Worker_init (default "control-plane:7001" (getenv "RUNMESH_ENDPOINT"))
      (default "local-development-token" (getenv "RUNMESH_INTERNAL_TOKEN"))
      (Some (default "control-plane:8080" (getenv "RUNMESH_HTTP_ENDPOINT")))
      (Some (default "redpanda:9092" (getenv "RUNMESH_KAFKA_BROKERS")))
      "runmesh.tasks" (default "runmesh-workers" (getenv "RUNMESH_KAFKA_GROUP_ID")) None 8
      (getenv "RUNMESH_KAFKA_BROKERS") generated)
    register_all.

Lemma registered_all w l :
  NoDup l.*1 → (∀ name, name ∈ l.*1 → wk_handlers w !! name = None) →
  registered w l = inr (w<| wk_handlers := wk_handlers w ∪ list_to_map l |>).
Proof.
  revert w. induction l as [|[name h] l IH]; intros w Hl Hw.
  - simpl. rewrite map_union_empty. by destruct w.
  - apply NoDup_cons in Hl as [Hn Hl]. simpl. unfold task_register. rewrite Hw by set_solver.
    rewrite IH; [|done|].
    + cbn [list_to_map foldr wk_handlers]. rewrite <-insert_union_r by (apply Hw; set_solver).
      by rewrite insert_union_l.
    + intros n Hin. simpl. rewrite lookup_insert_ne by (intros ->; done). apply Hw. set_solver.
Qed.

(** It registers the handlers the Go worker supports. *)
Lemma example_worker_handlers getenv generated :
  ∃ w, example_worker getenv generated = inr w ∧ wk_handlers w = list_to_map register_all ∧
    ∀ name, is_Some (wk_handlers w !! name) ↔ supported name = true.
Proof.
  unfold example_worker. rewrite registered_all; [|apply (bool_decide_unpack _); reflexivity|done].
  match goal with |- ∃ w, inr ?w0 = _ ∧ _ =>
    assert (wk_handlers w0 = list_to_map register_all) as E by apply (left_id_L ∅ (∪)) end.
  eexists. split_and!; [reflexivity|exact E|]. intros name.
  rewrite E, <-elem_of_dom, dom_list_to_map_L. unfold supported. rewrite bool_decide_eq_true. simpl. set_solver.
Qed.

(** * Agreement with the Go worker *)

(** The output of a handler when nothing interrupts it. *)
Fixpoint output_of (p : program) : option json :=
  match p with
  | Return_ v => Some v
  | Raise_ _ => None
  | Await_ p | Heartbeat_ p => output_of p
  | Cancelled_ next => output_of (next false)
  | Upload_ _ _ _ _ => None
  end.

(** The fields of an output that do not name the worker. *)
Definition without_worker (v : json) : json :=
  match v with JObj fields => JObj (filter (λ kv, kv.1 ≠ "worker") fields) | v => v end.

Context (format_rfc3339 : time → string).

Lemma slept_ms_exact n : 0 ≤ n ≤ 1000 → slept_ms n = n.
Proof.
  intros Hn. assert (Forall (λ k, slept_ms (Z.of_nat k) = Z.of_nat k) (seq 0 1001)) as H.
  { apply (bool_decide_unpack _). vm_compute. exact I. }
  rewrite <-(Z2Nat.id n) by lia. apply (proj1 (Forall_forall _ _) H). apply elem_of_seq. lia.
Qed.

(** C34: where the example workers agree.  The Python worker registers exactly the
    handlers the Go worker supports.  On payloads whose [name] is a text, whose
    [text] is an ASCII text and whose delay is a whole number of at most a second,
    its handlers give the outputs of the Go worker, the name of the worker apart.
    Elsewhere the two differ: on a missing [name] or [text], on a delay out of
    range, which one worker clips and the other replaces, and on a delay of 1001 ms,
    of which [slow] reports a millisecond less. *)
Theorem example_workers_agree fields context getenv generated :
  let slow_py := without_worker <$> output_of (slow_ (JObj fields) context) in
  let slow_go := without_worker (slept (slow_delay fields)) in
  (∃ w, example_worker getenv generated = inr w ∧
    ∀ name, is_Some (wk_handlers w !! name) ↔ supported name = true) ∧
  (∀ n, at_key fields "name" = JStr n →
    output_of (greet_ (JObj fields) context) = Some (without_worker (greet format_rfc3339 fields))) ∧
  (∀ t, at_key fields "text" = JStr t → ascii_only t = true →
    output_of (upper_ (JObj fields) context)
      = Some (without_worker (upper_text format_rfc3339 unicode_upper fields))) ∧
  output_of (notify_ (JObj fields) context)
    = Some (without_worker (notify_output (idempotency_key context))) ∧
  (∀ n, at_key fields "delay_ms" = JNum n → 0 ≤ n ≤ 1000 → slow_py = Some slow_go) ∧
  (assoc "name" fields = None →
    output_of (greet_ (JObj fields) context) = Some (JObj [("message", JStr "Hello, world!")]) ∧
    without_worker (greet format_rfc3339 fields) = JObj [("message", JStr "Hello, <nil>!")]) ∧
  (assoc "text" fields = None →
    output_of (upper_ (JObj fields) context) = Some (JObj [("text", JStr "")]) ∧
    without_worker (upper_text format_rfc3339 unicode_upper fields) = JObj [("text", JStr "<NIL>")]) ∧
  (at_key fields "delay_ms" = JNum (-1) →
    slow_py = Some (JObj [("slept_ms", JNum 0)]) ∧ slow_go = JObj [("slept_ms", JNum 200)]) ∧
  (at_key fields "delay_ms" = JNum 40000 →
    slow_py = Some (JObj [("slept_ms", JNum 30000)]) ∧ slow_go = JObj [("slept_ms", JNum 200)]) ∧
  (at_key fields "delay_ms" = JNum 1001 →
    slow_py = Some (JObj [("slept_ms", JNum 1000)]) ∧ slow_go = JObj [("slept_ms", JNum 1001)]).
Proof.
  intros slow_py slow_go. unfold slow_py, slow_go.
  assert (∀ key v fb, at_key fields key = v → v ≠ JNull → default fb (assoc key fields) = v) as Hget.
  { intros key v fb Hv Hn. unfold at_key in Hv. destruct (assoc key fields); simpl in *; congruence. }
  split_and!.
  - destruct (example_worker_handlers getenv generated) as (w & Hw & _ & Hs). eauto.
  - intros n Hn. unfold greet_, payload_get, greet. simpl output_of. by rewrite (Hget _ _ _ Hn), Hn.
  - intros t Ht Ha. unfold upper_, payload_get, upper_text. simpl output_of. rewrite (Hget _ _ _ Ht), Ht by done.
    simpl. unfold py_upper, ToUpper. by rewrite Ha.
  - done.
  - intros n Hn Hb. unfold slow_, payload_get, slow_delay. rewrite (Hget _ _ _ Hn), Hn by done. cbn -[slept_ms].
    rewrite Z.min_l, Z.max_r, slept_ms_exact by lia.
    rewrite (proj2 (Z.leb_le _ _)), (proj2 (Z.leb_le _ _)) by lia. simpl.
    unfold slept, Millisecond. rewrite Z.div_mul by lia. done.
  - intros Hn. unfold greet_, payload_get, greet, at_key. simpl output_of. by rewrite Hn.
  - intros Hn. unfold upper_, payload_get, upper_text, at_key. simpl output_of. by rewrite Hn.
  - intros Hn. unfold slow_, payload_get, slow_delay. rewrite (Hget _ _ _ Hn), Hn by done. by vm_compute.
  - intros Hn. unfold slow_, payload_get, slow_delay. rewrite (Hget _ _ _ Hn), Hn by done. by vm_compute.
  - intros Hn. unfold slow_, payload_get, slow_delay. rewrite (Hget _ _ _ Hn), Hn by done. by vm_compute.
Qed.
End Example.
