(* ===== verification/Console.v ===== *)
(** The web console's client of the API: [web/src/api.ts] and
    [web/src/auth.ts].

    A call is the request the browser sends; the theorems relate it to the
    server's routing, authentication and cross-origin policy.  The subscription
    to the live stream is a machine whose steps are the events of the browser:
    the arrival of a token, the events of a WebSocket, a timer, and the caller's
    unsubscription.  The pages built on it are not modelled. *)
From stdpp Require Import pretty.
From S2P Require Import Prelude Go Url Mux Model Dag State Json Schema Sql StoreWorker StoreWorkflow Scheduler Outbox Auth Stream Artifacts RateLimit Api Http Rpc Client WorkerGo Python.

(** * Calls *)

(** [JSON.stringify] of a value without dates. *)
Fixpoint js_escape (s : string) : string :=
  match s with "" => "" | String c s => ascii_escape c +:+ js_escape s end%string.

Definition js_quoted (s : string) : string := quote +:+ js_escape s +:+ quote.

Fixpoint stringify (v : json) : string :=
  match v with
  | JNull => "null"
  | JBool b => if b then "true" else "false"
  | JNum n | JTime n => pretty n
  | JStr s => js_quoted s
  | JArr l => "[" +:+ join "," (stringify <$> l) +:+ "]"
  | JObj fields => "{" +:+ join "," ((λ kv, js_quoted kv.1 +:+ ":" +:+ stringify kv.2) <$> fields) +:+ "}"
  end.

Record RequestInit := mkInit {
  ri_method : option string;
  ri_headers : list (string * string);
  ri_body : option string
}.

Definition no_init : RequestInit := mkInit None [] None.
Definition post_init (headers : list (string * string)) (body : string) : RequestInit :=
  mkInit (Some "POST") headers (Some body).

(** The methods of [api]; [stamp] is [Date.now().toString(36)], [key] a random
    UUID. *)
Inductive console_call : Type :=
  | Workflows
  | Runs
  | Run_ (id : string)
  | Workers
  | Dead
  | CreateSample (stamp : string)
  | Launch (workflowId key : string)
  | Cancel (runId : string)
  | Replay (taskId : string).

Definition sample_body (stamp : string) : json :=
  JObj [("name", JStr ("document-processing-" +:+ stamp));
        ("tasks", JObj
          [("download", JObj [("handler", JStr "examples.greet")]);
           ("extract", JObj [("handler", JStr "examples.upper"); ("depends_on", JArr [JStr "download"])]);
           ("notify", JObj [("handler", JStr "examples.notify"); ("depends_on", JArr [JStr "extract"])])])].

Definition launch_body : json :=
  JObj [("input", JObj [("name", JStr "Ada"); ("text", JStr "reliable systems")])].

Definition call_path (c : console_call) : string :=
  match c with
  | Workflows | CreateSample _ => "/v1/workflows"
  | Runs => "/v1/runs"
  | Run_ id => "/v1/runs/" +:+ id
  | Workers => "/v1/workers"
  | Dead => "/v1/dead-letter"
  | Launch workflowId _ => "/v1/workflows/" +:+ workflowId +:+ "/runs"
  | Cancel runId => "/v1/runs/" +:+ runId +:+ "/cancel"
  | Replay taskId => "/v1/dead-letter/" +:+ taskId +:+ "/replay"
  end.

Definition call_init (c : console_call) : RequestInit :=
  match c with
  | Workflows | Runs | Run_ _ | Workers | Dead => no_init
  | CreateSample stamp => post_init [] (stringify (sample_body stamp))
  | Launch _ key => post_init [("Idempotency-Key", key)] (stringify launch_body)
  | Cancel _ | Replay _ => post_init [] "{}"
  end.

(** [{ ...a, ...b }]: a key of both has the value of [b]. *)
Definition spread (a b : list (string * string)) : list (string * string) :=
  filter (λ kv, assoc kv.1 b = None) a ++ b.

(** The token is absent in development, where nobody signs in. *)
Definition request_headers (token : option string) (init : RequestInit) : list (string * string) :=
  spread
    ([("Content-Type", "application/json")]
     ++ match token with None | Some "" => [] | Some t => [("Authorization", "Bearer " +:+ t)] end)
    (ri_headers init).

(** The request as the server sees it; the browser adds host and origin. *)
Definition console_request (host origin : string) (token : option string) (c : console_call) : Request :=
  let headers := request_headers token (call_init c) in
  {| rq_Method := default "GET" (ri_method (call_init c)); rq_EscapedPath := call_path c; rq_Host := host;
     rq_Origin := origin; rq_Authorization := default "" (assoc "Authorization" headers); rq_Protocol := "";
     rq_IdempotencyKey := default "" (assoc "Idempotency-Key" headers); rq_task_run_id := "";
     rq_worker_id := ""; rq_Body := default "" (ri_body (call_init c)); rq_upgrade := λ _, None;
     rq_first := false; rq_signals := λ _, [] |}.

(** What [request] makes of a response: the error of the body, if it has one, or
    the status line. *)
Inductive outcome_ : Type :=
  | Undefined
  | Json (body : string)
  | APIError (status : Z) (message : string).

Definition request_outcome (status : Z) (statusText : string) (error_field : option string) (body : string)
    : outcome_ :=
  if negb ((200 <=? status) && (status <? 300)) then
    APIError status (default (pretty status +:+ " " +:+ statusText) error_field)
  else if bool_decide (status = 204) then Undefined
  else Json body.

(** * The subscription *)

Inductive socket_state : Type := Connecting | Opened | Closing.

#[export] Instance socket_state_eq_dec : EqDecision socket_state.
Proof. solve_decision. Defined.

(** [cancelled], [socket], [retry] and [attempts] of [subscribeToEvents]; the
    calls of [connect] that wait for a token, the WebSockets that are not closed
    yet and the timers that are running, by number; the delays and the
    callbacks so far. *)
Record Subscription := mkSub {
  su_cancelled : bool;
  su_socket : option nat;
  su_retry : option nat;
  su_attempts : Z;
  su_awaiting : nat;
  su_sockets : list (nat * socket_state);
  su_timers : list nat;
  su_made : nat;
  su_delays : list Z;
  su_connection : list bool;
  su_events : nat
}.

Definition subscribed_ : Subscription := mkSub false None None 0 1 [] [] 0 [] [] 0.

Inductive browser_event : Type :=
  | TokenArrives
  | TokenRejected
  | SocketOpens (n : nat)
  | SocketMessage (n : nat)
  | SocketFails (n : nat)
  | SocketCloses (n : nat)
  | TimerFires (n : nat)
  | Unsubscribe.

(** [socket?.close()]. *)
Definition close_socket (s : Subscription) : Subscription :=
  s<| su_sockets := (λ ns, if bool_decide (Some ns.1 = su_socket s) then (ns.1, Closing) else ns)
                      <$> su_sockets s |>.

Definition retry_delay (attempts : Z) : Z := Z.min 30000 (1000 * 2 ^ attempts).

(** The [onclose] callback. *)
Definition on_close (s : Subscription) : Subscription :=
  let s := s<| su_connection := su_connection s ++ [false] |> in
  if su_cancelled s then s
  else
    let timer := length (su_delays s) in
    s<| su_delays := su_delays s ++ [retry_delay (su_attempts s)] |>
     <| su_attempts := su_attempts s + 1 |><| su_timers := timer :: su_timers s |>
     <| su_retry := Some timer |>.

(** A step, if the browser can make it: a socket opens when it is connecting,
    delivers messages while it is open, and closes once. *)
Definition browser_step (e : browser_event) (s : Subscription) : option Subscription :=
  match e with
  | TokenArrives =>
      match su_awaiting s with
      | O => None
      | S k =>
          let s := s<| su_awaiting := k |> in
          Some (if su_cancelled s then s
                else s<| su_sockets := (su_made s, Connecting) :: su_sockets s |>
                      <| su_socket := Some (su_made s) |><| su_made := S (su_made s) |>)
      end
  | TokenRejected =>
      match su_awaiting s with O => None | S k => Some (s<| su_awaiting := k |>) end
  | SocketOpens n =>
      if bool_decide ((n, Connecting) ∈ su_sockets s) then
        Some (s<| su_sockets := (λ ns, if bool_decide (ns.1 = n) then (n, Opened) else ns) <$> su_sockets s |>
               <| su_attempts := 0 |><| su_connection := su_connection s ++ [true] |>)
      else None
  | SocketMessage n =>
      if bool_decide ((n, Opened) ∈ su_sockets s) then Some (s<| su_events := S (su_events s) |>) else None
  | SocketFails n =>
      if bool_decide ((n, Connecting) ∈ su_sockets s ∨ (n, Opened) ∈ su_sockets s)
      then Some (close_socket s) else None
  | SocketCloses n =>
      if bool_decide (n ∈ (su_sockets s).*1) then
        Some (on_close (s<| su_sockets := filter (λ ns, ns.1 ≠ n) (su_sockets s) |>))
      else None
  | TimerFires n =>
      if bool_decide (n ∈ su_timers s) then
        Some (s<| su_timers := filter (λ m, m ≠ n) (su_timers s) |><| su_awaiting := S (su_awaiting s) |>)
      else None
  | Unsubscribe =>
      Some (close_socket (s<| su_cancelled := true |>
        <| su_timers := filter (λ m, Some m ≠ su_retry s) (su_timers s) |>))
  end.

Fixpoint browse (es : list browser_event) (s : Subscription) : option Subscription :=
  match es with
  | [] => Some s
  | e :: es => s' ← browser_step e s; browse es s'
  end.

(** [new WebSocket(endpoint, protocols)]: the header the browser sends. *)
Definition stream_protocols (token : option string) : string :=
  join ", " (match token with None | Some "" => ["runmesh"] | Some t => ["runmesh"; "bearer." +:+ t] end).

(** [bearerToken], of the user the OIDC client holds. *)
Definition bearerToken (development : bool) (access_token : option string) : option string :=
  if development then None else access_token.

(** * Calls and the server *)

(** The route of a call, with the identifier and the body it carries. *)
Definition call_route (dec : Decoders) (c : console_call) : route :=
  let body {B} (d : string → Body B) : Body B := d (default "" (ri_body (call_init c))) in
  match c with
  | Workflows => GetWorkflows
  | Runs => GetRuns
  | Run_ id => GetRun_ id
  | Workers => GetWorkers
  | Dead => GetDeadLetter
  | CreateSample _ => PostWorkflows (body (dec_workflow dec))
  | Launch workflowId key => PostRuns workflowId key (body (dec_run dec))
  | Cancel runId => PostCancel runId
  | Replay taskId => PostReplay taskId
  end.

(** The identifier in the path of a call. *)
Definition call_id (c : console_call) : string :=
  match c with Run_ id | Launch id _ | Cancel id | Replay id => id | _ => "x" end.

(** The pattern a call is meant for. *)
Definition call_pattern (c : console_call) : string :=
  match c with
  | Workflows => "GET /v1/workflows"
  | Runs => "GET /v1/runs"
  | Run_ _ => "GET /v1/runs/{id}"
  | Workers => "GET /v1/workers"
  | Dead => "GET /v1/dead-letter"
  | CreateSample _ => "POST /v1/workflows"
  | Launch _ _ => "POST /v1/workflows/{id}/runs"
  | Cancel _ => "POST /v1/runs/{id}/cancel"
  | Replay _ => "POST /v1/dead-letter/{id}/replay"
  end.

Lemma call_pattern_path c :
  default "" (pat_method (parse_pattern (call_pattern c))) = default "GET" (ri_method (call_init c)) ∧
  pattern_path (call_id c) (parse_pattern (call_pattern c)) = call_path c.
Proof. by destruct c. Qed.

(** Its position in the table. *)
Definition call_index (c : console_call) : nat :=
  match c with
  | CreateSample _ => 0 | Workflows => 1 | Launch _ _ => 4 | Runs => 5 | Run_ _ => 6 | Cancel _ => 7
  | Workers => 10 | Dead => 11 | Replay _ => 12
  end%nat.

Lemma call_pattern_listed dec host origin token c :
  ∃ h, (parse_pattern (call_pattern c), h) ∈ public_table dec (console_request host origin token c) ∧
    h (wildcards (call_id c) (pat_segments (parse_pattern (call_pattern c)))) = call_route dec c.
Proof.
  assert (∃ h, public_table dec (console_request host origin token c) !! call_index c
      = Some (parse_pattern (call_pattern c), h) ∧
    h (wildcards (call_id c) (pat_segments (parse_pattern (call_pattern c)))) = call_route dec c) as (h & Hh & E).
  { destruct c; (eexists; split; [reflexivity|]); try reflexivity. by destruct token as [[|a t]|]. }
  exists h. split; [by eapply list_elem_of_lookup_2|done].
Qed.

(** Every call of the console is served by the handler it is meant for.
    For identifiers that are one plain segment, the request passes the root to
    the public interface, and there the route is the one of the method and path
    of the call, with its identifier, idempotency key and body. *)
Theorem console_calls_routed dec host origin token c :
  plain_segment (call_id c) = true →
  let rq := console_request host origin token c in
  mux root_table (rq_Method rq) (rq_EscapedPath rq) = Handled Public ∧
  mux (public_table dec rq) (rq_Method rq) (rq_EscapedPath rq) = Handled (call_route dec c).
Proof.
  intros Hid rq. destruct (call_pattern_listed dec host origin token c) as (h & Hin & <-).
  destruct (tables_unambiguous dec rq) as (Hu & _ & _). destruct (tables_simple dec rq) as [Hs _].
  destruct (tables_below dec rq) as [Hb _]. destruct (call_pattern_path c) as [Em Ep].
  pose proof (forallb_entry _ _ _ _ Hs Hin) as Hs1. pose proof (forallb_entry _ _ _ _ Hb Hin) as Hb1.
  change (rq_Method rq) with (default "GET" (ri_method (call_init c))).
  change (rq_EscapedPath rq) with (call_path c). rewrite <-Em, <-Ep.
  split; [by apply root_public|by apply mux_entry].
Qed.

(** The answer to a preflight allows what the console sends. *)
Lemma console_preflight srv origin token c :
  origin ∈ srv_CORSAllowlist srv →
  ∃ hs ms, assoc "Access-Control-Allow-Headers" (cors_headers srv origin) = Some (join ", " hs) ∧
    assoc "Access-Control-Allow-Methods" (cors_headers srv origin) = Some (join ", " ms) ∧
    Forall (λ kv, kv.1 ∈ hs) (request_headers token (call_init c)) ∧
    default "GET" (ri_method (call_init c)) ∈ ms.
Proof.
  intros Ho. unfold cors_headers. rewrite bool_decide_true by done.
  exists ["Content-Type"; "Idempotency-Key"; "Authorization"], ["GET"; "POST"; "PATCH"; "DELETE"; "OPTIONS"].
  split_and!; [done|done| |by destruct c; set_solver].
  unfold request_headers, spread. apply Forall_app. split.
  - apply Forall_forall. intros kv [_ Hk]%list_elem_of_filter. destruct token as [[|a t]|]; set_solver.
  - destruct c; simpl; repeat constructor; set_solver.
Qed.

(** The workflow [createSample] sends is valid, and the example workers execute
    its tasks. *)
Lemma sample_valid stamp rank1 rank2 :
  ∃ dag, unmarshal_dag (sample_body stamp) = Some dag ∧ ValidateDAG rank1 rank2 dag = None ∧
    map_Forall (λ _ t, supported (Model.Handler t) = true) (Tasks dag).
Proof.
  eexists. split; [reflexivity|]. split.
  - apply ValidateDAG_valid. apply (ValidateDAG_valid (λ _, 0) (λ _, 0)). vm_compute. reflexivity.
  - apply (bool_decide_unpack _). vm_compute. exact I.
Qed.

(** ** The token of the stream *)

(** Bytes a bearer token is made of. *)
Definition token_char (c : ascii) : bool := negb (is_space c) && negb (Ascii.eqb c ",").

(** The server finds the token of the stream.  The console cannot set the
    Authorization header of a WebSocket and sends its token as a subprotocol;
    for a token without white space and commas, the server authenticates the
    request for the stream with exactly that token. *)
Theorem stream_token_received t :
  all_chars token_char t = true → t ≠ "" → request_token "" (stream_protocols (Some t)) "/v1/stream" = t.
Proof.
  intros Ht Hne. unfold request_token. rewrite !bool_decide_true by done. simpl andb. cbv iota.
  assert (stream_protocols (Some t) = "runmesh, bearer." +:+ t) as -> by (by destruct t).
  unfold webSocketBearer.
  assert (split "," ("runmesh, bearer." +:+ t) = ["runmesh"; " bearer." +:+ t]) as ->.
  { assert (split "," (" bearer." +:+ t) = [" bearer." +:+ t]) as Hs.
    { apply split_lacks. rewrite all_chars_app. cbn [all_chars]. simpl andb. revert Ht. apply all_chars_impl.
      by intros c [_ ?]%andb_true_iff. }
    simpl in Hs |- *. by rewrite Hs. }
  assert (trim_space (" bearer." +:+ t) = "bearer." +:+ t) as Htrim.
  { unfold trim_space, trim. change (trim_left is_space (" bearer." +:+ t)) with ("bearer." +:+ t).
    apply trim_right_lacks. rewrite all_chars_app. simpl andb. revert Ht. apply all_chars_impl.
    by intros c [? _]%andb_true_iff. }
  cbn [first_bearer]. rewrite Htrim. done.
Qed.

(** ** The subscription *)

(** What is under way: a token, a socket or a timer. *)
Definition under_way (s : Subscription) : nat :=
  (su_awaiting s + length (su_sockets s) + length (su_timers s))%nat.

Record sub_inv (s : Subscription) : Prop := {
  si_one : (under_way s ≤ 1)%nat;
  si_socket : Forall (λ ns, su_socket s = Some ns.1) (su_sockets s);
  si_timer : Forall (λ n, su_retry s = Some n) (su_timers s);
  si_cancelled : su_cancelled s = true → su_timers s = [] ∧ Forall (λ ns, ns.2 = Closing) (su_sockets s);
  si_attempts : 0 ≤ su_attempts s;
  si_delays : Forall (λ d, 1000 ≤ d ≤ 30000) (su_delays s)
}.

Lemma retry_delay_bounds attempts : 0 ≤ attempts → 1000 ≤ retry_delay attempts ≤ 30000.
Proof. intros Ha. unfold retry_delay. pose proof (Z.pow_pos_nonneg 2 attempts). lia. Qed.

(** With one thing under way, the lists are short. *)
Ltac short_lists s :=
  let ss := fresh "sockets" in let ts := fresh "timers" in let k := fresh "k" in
  destruct s as [c so re a k ss ts md ds co ev]; unfold under_way in *; simpl in *;
  destruct ss as [|[? ?] [|? ?]], ts as [|? [|? ?]], k as [|[|k]]; simpl in *; try lia.

(** Decide the tests on lists of at most one element. *)
Ltac short_tests :=
  repeat match goal with
  | H : context [bool_decide (_ ∈ [])] |- _ =>
      rewrite bool_decide_false in H by apply not_elem_of_nil
  | H : context [if bool_decide ?P then _ else _] |- _ => destruct (bool_decide_reflect P)
  | H : context [if decide ?P then _ else _] |- _ => destruct (decide P)
  | H : _ ∈ [] |- _ => by apply not_elem_of_nil in H
  | H : _ ∈ [_] |- _ => apply list_elem_of_singleton in H
  | H : _ ∨ _ |- _ => destruct H
  | H : Forall _ [_] |- _ => rewrite Forall_singleton in H
  | _ => progress simplify_eq/=
  end.

Ltac short_step s :=
  unfold browser_step, on_close, close_socket, under_way in *;
  short_lists s; short_tests;
  match goal with c : bool |- _ => destruct c | _ => idtac end; simplify_eq/=.

Lemma sub_inv_step e s s' : sub_inv s → browser_step e s = Some s' → sub_inv s'.
Proof.
  intros [H1 Hso Hti Hca Hat Hde] H.
  assert (∀ x, 0 ≤ x → Forall (λ d, 1000 ≤ d ≤ 30000) (su_delays s ++ [retry_delay x])) as Hd.
  { intros x Hx. apply Forall_app. split; [done|]. constructor; [by apply retry_delay_bounds|done]. }
  destruct e; short_step s.
  all: try (specialize (Hca eq_refl) as [? ?]; short_tests).
  all: split; cbn -[retry_delay]; repeat case_bool_decide; repeat case_decide; rewrite ?Forall_singleton.
  all: try done; try (simpl; lia); try (apply Hd; lia).
Qed.

Lemma under_way_step e s s' :
  sub_inv s → browser_step e s = Some s' → e ≠ TokenRejected → su_cancelled s' = false →
  su_cancelled s = false ∧ (under_way s = 1 → under_way s' = 1)%nat.
Proof.
  intros [H1 _ _ _ _ _] H He Hc. destruct e; try done; short_step s; try done; split; try done; simpl; try lia.
  all: by rewrite filter_cons_False by auto.
Qed.

(** After the unsubscription nothing starts, no event is reported, and the end of
    the connection is, at most once per socket. *)
Record wound_down (s s' : Subscription) : Prop := {
  wd_cancelled : su_cancelled s' = true;
  wd_made : su_made s' = su_made s;
  wd_delays : su_delays s' = su_delays s;
  wd_events : su_events s' = su_events s;
  wd_connection : ∃ k, su_connection s' = su_connection s ++ repeat false k ∧
    (k + length (su_sockets s') ≤ length (su_sockets s))%nat
}.

Lemma wound_down_refl s : su_cancelled s = true → wound_down s s.
Proof. intros Hc. split; try done. exists 0%nat. by rewrite app_nil_r. Qed.

Lemma wound_down_trans s1 s2 s3 : wound_down s1 s2 → wound_down s2 s3 → wound_down s1 s3.
Proof.
  intros [_ M1 D1 E1 (k1 & C1 & L1)] [C M2 D2 E2 (k2 & C2 & L2)]. split; [done|congruence..|].
  exists (k1 + k2)%nat. rewrite C2, C1, repeat_app, app_assoc. split; [done|lia].
Qed.

Lemma cancelled_step e s s' :
  sub_inv s → su_cancelled s = true → browser_step e s = Some s' → wound_down s s'.
Proof.
  intros [H1 _ _ Hca _ _] Hc H. specialize (Hca Hc) as [Ht Hs].
  destruct e; short_step s; try done; split; try done; cbn [su_connection su_sockets].
  all: try (exists 0%nat; rewrite app_nil_r; split; [done|simpl; lia]).
  exists 1%nat. split; [done|]. simpl. rewrite filter_cons_False by auto. simpl. lia.
Qed.

Lemma browse_inv es s s' : sub_inv s → browse es s = Some s' → sub_inv s'.
Proof.
  revert s. induction es as [|e es IH]; simpl; intros s Hs H; [by simplify_eq|].
  apply bind_Some in H as (s1 & H1 & H). eauto using sub_inv_step.
Qed.

Lemma subscribed_inv : sub_inv subscribed_.
Proof. by split. Qed.

Lemma cancelled_browse es s s' :
  sub_inv s → su_cancelled s = true → browse es s = Some s' → wound_down s s'.
Proof.
  revert s. induction es as [|e es IH]; simpl; intros s Hs Hc H; [simplify_eq; by apply wound_down_refl|].
  apply bind_Some in H as (s1 & H1 & H). pose proof (cancelled_step _ _ _ Hs Hc H1) as Hw.
  eapply wound_down_trans; [exact Hw|]. eapply IH; [by eapply sub_inv_step|apply Hw|done].
Qed.

Lemma under_way_browse es s s' :
  sub_inv s → browse es s = Some s' → TokenRejected ∉ es → su_cancelled s' = false →
  under_way s = 1%nat → under_way s' = 1%nat.
Proof.
  revert s. induction es as [|e es IH]; simpl; intros s Hs H He Hc Hu; [by simplify_eq|].
  apply not_elem_of_cons in He as [He Hes]. apply bind_Some in H as (s1 & H1 & H).
  pose proof (sub_inv_step _ _ _ Hs H1) as Hs1.
  destruct (su_cancelled s1) eqn:Hc1; [pose proof (wd_cancelled _ _ (cancelled_browse _ _ _ Hs1 Hc1 H)); congruence|].
  destruct (under_way_step _ _ _ Hs H1 (not_eq_sym He) Hc1) as [_ Hu1]. eauto.
Qed.

(** C27: the console keeps one live connection.  Whatever the order of tokens,
    socket events, timers and the unsubscription, at most one token, socket or
    timer is under way; exactly one until the subscription ends, provided that
    the identity client has delivered every token it was asked for, so a lost
    connection is always tried again; and every delay is between one and thirty
    seconds.  After the unsubscription no timer is left, the socket is closing,
    and whatever the browser still delivers, no socket is opened, no attempt
    scheduled and no event reported; the end of the connection is reported at
    most once more, and never its start. *)
Theorem subscription_single es s :
  browse es subscribed_ = Some s →
  (under_way s ≤ 1)%nat ∧
  (su_cancelled s = false → TokenRejected ∉ es → under_way s = 1%nat) ∧
  Forall (λ d, 1000 ≤ d ≤ 30000) (su_delays s) ∧
  (su_cancelled s = true →
    su_timers s = [] ∧ Forall (λ ns, ns.2 = Closing) (su_sockets s) ∧
    ∀ es' s', browse es' s = Some s' →
      su_cancelled s' = true ∧ su_made s' = su_made s ∧ su_delays s' = su_delays s ∧ su_events s' = su_events s ∧
      (su_connection s' = su_connection s ∨ su_connection s' = su_connection s ++ [false])).
Proof.
  intros H. pose proof (browse_inv _ _ _ subscribed_inv H) as Hs.
  split_and!; [apply Hs| |apply Hs|].
  - intros Hc He. by eapply under_way_browse; [apply subscribed_inv|..].
  - intros Hc. destruct (si_cancelled s Hs Hc). split_and!; [done..|]. intros es' s' H'.
    destruct (cancelled_browse _ _ _ Hs Hc H') as [? ? ? ? (k & Hk & Hle)]. split_and!; try done.
    pose proof (si_one _ Hs) as Hone. unfold under_way in Hone. rewrite Hk.
    destruct k as [|[|k]]; [left; apply app_nil_r|by right|lia].
Qed.
