(* ===== verification/Process.v ===== *)
(** The processes themselves: [main] of [cmd/control-plane] and [cmd/scheduler],
    the constructors they call, and how the control plane stops.

    A [main] is a computation that returns, calls [os.Exit] or panics; deferred
    calls are made, last first, when it returns and not when it exits.  What the
    libraries answer (Postgres, Redis, the object store, the OTLP exporter, the
    metrics registry, the listeners) are fields of [Host].  The goroutines that
    serve and stop the control plane are a step relation. *)
From S2P Require Import Prelude Go Model State Json Schema Sql StoreWorker StoreWorkflow Scheduler Outbox Auth Stream Artifacts RateLimit Config Metrics Api Mux Service Http Rpc Client.

(** * Processes *)

(** What a [defer] of a main closes. *)
Inductive resource : Type := Signals | Tracing | DatabasePool | KafkaWriter | RedisLimiter | RedisBroker.

#[export] Instance resource_eq_dec : EqDecision resource.
Proof. solve_decision. Defined.

Record Process := mkProcess {
  pr_attributes : list (string * string);
  pr_errors : list string;
  pr_tracing : bool;
  pr_registry : list Desc;
  pr_open : list resource;
  pr_deferred : list resource;
  pr_sess : Sess
}.

(** How a step of [main] ends. *)
Inductive step_end (A : Type) : Type :=
  | Next (a : A)
  | Exit (code : Z)
  | Crash (text : string).
Arguments Next {A} a.
Arguments Exit {A} code.
Arguments Crash {A} text.

Definition X (A : Type) : Type := Env → Process → step_end A * Process.

#[export] Instance X_ret : MRet X := λ A a env p, (Next a, p).
#[export] Instance X_bind : MBind X := λ A B k m env p,
  match m env p with
  | (Next a, p') => k a env p'
  | (Exit c, p') => (Exit c, p')
  | (Crash t, p') => (Crash t, p')
  end.

Definition os_Exit {A} (code : Z) : X A := λ env p, (Exit code, p).
Definition panic {A} (text : string) : X A := λ env p, (Crash text, p).
Definition modify (f : Process → Process) : X unit := λ env p, (Next tt, f p).

(** [if err != nil { slog.Error(what, ...); os.Exit(1) }]. *)
Definition or_exit {A} (what : string) (m : X (result A)) : X A :=
  r ← m;
  match r with
  | Ok a => mret a
  | Err _ => modify (λ p, p<| pr_errors ::= λ l, l ++ [what] |>) ;; os_Exit 1
  end.

Definition defer (r : resource) : X unit := modify (λ p, p<| pr_deferred ::= cons r |>).
Definition opened (r : resource) : X unit := modify (λ p, p<| pr_open ::= λ l, l ++ [r] |>).
Definition closed_ (r : resource) : X unit := modify (λ p, p<| pr_open ::= filter (.≠ r) |>).

(** A computation on the database made by [main]. *)
Definition run_sess {A} (m : M A) : X (result A) := λ env p,
  let '(r, s') := m env (pr_sess p) in (Next r, p<| pr_sess := s' |>).

(** What the libraries a process is built on answer. *)
Record Host := {
  os_Args : list string;
  os_Getenv : string → string;
  otlptracegrpc_New : string → result unit;
  resource_Merge : string → result unit;
  pgxpool_New : string → result unit;
  pgxpool_Ping : result unit;
  redis_ParseURL : string → result unit;
  registerer_Register : list Desc → list Desc → result unit;
  net_Listen : string → result unit;
  client_Get : string → result Z
}.

(** * Constructors *)

Section Constructors.
Context (h : Host).

(** [prometheus.DefaultRegisterer.Register] and [MustRegister]. *)
Definition Register (ds : list Desc) : X (result unit) := λ env p,
  match registerer_Register h (pr_registry p) ds with
  | Ok _ => (Next (Ok tt), p<| pr_registry ::= λ l, l ++ ds |>)
  | Err e => (Next (Err e), p)
  end.

Definition MustRegister (ds : list Desc) : X unit :=
  r ← Register ds;
  match r with
  | Ok _ => mret tt
  | Err e => panic (error_text e)
  end.

(** [telemetry.ConfigureLogging]: the attributes of the default logger. *)
Definition ConfigureLogging (serviceName : string) : X unit :=
  modify (λ p, p<| pr_attributes := [("service", serviceName)] |>).

(** [telemetry.Logger]: the attributes of a line, with the identifiers of the
    active span when it is valid. *)
Definition Logger (logger attributes : list (string * string)) (span : option (string * string))
    : list (string * string) :=
  logger ++ attributes ++
  match span with Some (trace, id) => [("trace_id", trace); ("span_id", id)] | None => [] end.

(** [telemetry.Setup]; the value is whether the returned function stops a
    provider or does nothing. *)
Definition Setup (serviceName : string) : X (result bool) :=
  ConfigureLogging serviceName ;;
  let endpoint := os_Getenv h "OTEL_EXPORTER_OTLP_ENDPOINT" in
  if bool_decide (endpoint = "") then mret (Ok false)
  else
    match otlptracegrpc_New h endpoint with
    | Err e => mret (Err e)
    | Ok _ =>
        match resource_Merge h serviceName with
        | Err e => mret (Err e)
        | Ok _ =>
            modify (λ p, p<| pr_tracing := true |>) ;; opened Tracing ;; mret (Ok true)
        end
    end.

(** [storage.New]: a pool that does not answer is closed again. *)
Definition Store_New (databaseURL : string) : X (result unit) :=
  match pgxpool_New h databaseURL with
  | Err e => mret (Err e)
  | Ok _ =>
      opened DatabasePool ;;
      match pgxpool_Ping h with
      | Err e => closed_ DatabasePool ;; mret (Err e)
      | Ok _ => mret (Ok tt)
      end
  end.

Record Limiter := { l_rate : Z; l_burst : Z; l_failOpen : bool }.

Definition rejections : Desc := mkDesc "tenant_rate_limit_rejections_total" ["tenant_id"; "reason"].

(** [ratelimit.New]: [registerer] is whether one is given. *)
Definition Limiter_New (rawURL : string) (rate burst : Z) (failOpen registerer : bool) : X (result Limiter) :=
  match redis_ParseURL h rawURL with
  | Err e => mret (Err e)
  | Ok _ =>
      r ← (if registerer then Register [rejections] else mret (Ok tt));
      match r with
      | Err e => mret (Err e)
      | Ok _ =>
          opened RedisLimiter ;;
          mret (Ok {| l_rate := rate; l_burst := burst; l_failOpen := failOpen |})
      end
  end.

Definition failures : Desc := mkDesc "redis_operation_failures_total" ["operation"].

(** [live.New]. *)
Definition Broker_New (rawURL : string) (registerer : bool) : X (result unit) :=
  match redis_ParseURL h rawURL with
  | Err e => mret (wrap "parse Redis URL" (Err e))
  | Ok _ =>
      r ← (if registerer then Register [failures] else mret (Ok tt));
      match r with
      | Err e => mret (Err e)
      | Ok _ => opened RedisBroker ;; mret (Ok tt)
      end
  end.

Definition requests : Desc := mkDesc "api_request_duration_seconds" ["method"; "route"; "status"].
Definition published_total : Desc := mkDesc "scheduler_outbox_published_total" ["tenant_id"; "event_type"].

(** [auth.New]: outside development tokens are checked by a verifier of the
    issuer, for the audience. *)
Record Authenticator := {
  a_config : AuthConfig;
  a_verifier : option (string → result (list (string * json)))
}.

Context (NewVerifier : string → string → string → string → result (list (string * json))).

Definition Auth_New (config : AuthConfig) (issuer audience jwksURL : string) : Authenticator :=
  {| a_config := config<| TenantClaim := tenant_claim config |>;
     a_verifier := if Dev config then None else Some (NewVerifier issuer jwksURL audience) |}.
End Constructors.

(** * [cmd/control-plane/main.go] *)

(** What the servers of the control plane are built with. *)
Record ControlPlane := {
  cp_config : Config;
  cp_auth : Authenticator;
  cp_limiter : Limiter;
  cp_manager : Manager;
  cp_server : Server;
  cp_probes_redis : bool
}.

(** [api.New]: the server of the arguments, with two origins until [main] sets
    the allowlist. *)
Definition Server_New (h : Host) (lease : Z) (apiKeyPepper : string) (artifacts : list Manager) : X Server :=
  MustRegister h [requests] ;;
  mret {| srv_LeaseDuration := lease; srv_APIKeyPepper := apiKeyPepper; srv_Artifacts := head artifacts;
          srv_CORSAllowlist := ["http://localhost:3000"; "http://localhost:5173"]; srv_Live := None |}.

Section ControlPlane.
Context (h : Host) {aws : Type} (LoadDefaultConfig : string → option (string * string) → result aws).
Context (NewFromConfig : aws → bool → option string → S3Client).
Context (NewVerifier : string → string → string → string → result (list (string * json))).
Context (subscribe : string → result unit).

(** [if len(os.Args) > 1 && os.Args[1] == "--healthcheck"]. *)
Definition healthcheck_requested : bool := bool_decide (os_Args h !! 1%nat = Some "--healthcheck").

(** The probe: [os.Exit(1)] unless the server answers 200. *)
Definition healthcheck : Z :=
  match client_Get h "http://127.0.0.1:8080/health/ready" with
  | Ok status => if bool_decide (status = 200) then 0 else 1
  | Err _ => 1
  end.

(** From the metrics of the database to the gRPC listener. *)
Definition control_plane_servers (cfg : Config) (manager : Manager) : X ControlPlane :=
  MustRegister h Describe ;;
  let authenticator := Auth_New NewVerifier (authenticator_config cfg) (OIDCIssuer cfg) (OIDCAudience cfg)
                         (OIDCJWKSURL cfg) in
  limiter ← or_exit "rate limiter" (Limiter_New h (RedisURL cfg) (RateLimitRate cfg) (RateLimitBurst cfg)
                                      (RateLimitFailOpen cfg) true);
  defer RedisLimiter ;;
  or_exit "live notification broker" (Broker_New h (RedisURL cfg) true) ;;
  defer RedisBroker ;;
  let redisReady := negb (RateLimitFailOpen cfg) in
  server ← Server_New h (Config.LeaseDuration cfg) (cfg_APIKeyPepper cfg) [manager];
  or_exit "gRPC listener" (mret (net_Listen h (GRPCAddr cfg))) ;;
  mret {| cp_config := cfg; cp_auth := authenticator; cp_limiter := limiter; cp_manager := manager;
          cp_server := server<| srv_CORSAllowlist := Config.CORSAllowlist cfg |><| srv_Live := Some subscribe |>;
          cp_probes_redis := redisReady |}.

(** From [config.Load]. *)
Definition control_plane_start : X ControlPlane :=
  cfg ← or_exit "configuration" (mret (match Load (os_Getenv h) with inr c => Ok c | inl _ => Err (ErrText "configuration") end));
  opened Signals ;; defer Signals ;;
  or_exit "telemetry" (Setup h "runmesh-control-plane") ;;
  defer Tracing ;;
  or_exit "database" (Store_New h (DatabaseURL cfg)) ;;
  defer DatabasePool ;;
  manager ← or_exit "artifact storage" (run_sess (New LoadDefaultConfig NewFromConfig (artifact_config cfg)));
  control_plane_servers cfg manager.

(** [main] up to the servers; a probe answers with its status only. *)
Definition control_plane_main : X (option ControlPlane) :=
  ConfigureLogging "runmesh-control-plane" ;;
  if healthcheck_requested then
    if bool_decide (healthcheck = 0) then mret None else os_Exit healthcheck
  else cp ← control_plane_start; mret (Some cp).

(** * [cmd/scheduler/main.go] *)

(** From [config.Load] to [service.Run]. *)
Definition scheduler_start : X Config :=
  ConfigureLogging "runmesh-scheduler" ;;
  cfg ← or_exit "configuration" (mret (match Load (os_Getenv h) with inr c => Ok c | inl _ => Err (ErrText "configuration") end));
  opened Signals ;; defer Signals ;;
  or_exit "telemetry" (Setup h "runmesh-scheduler") ;;
  defer Tracing ;;
  or_exit "database" (Store_New h (DatabaseURL cfg)) ;;
  defer DatabasePool ;;
  opened KafkaWriter ;; defer KafkaWriter ;;
  or_exit "live notification broker" (Broker_New h (RedisURL cfg) true) ;;
  defer RedisBroker ;;
  MustRegister h [published_total] ;;
  mret cfg.
End ControlPlane.

(** The end of [main]: the deferred calls, last first. *)
Definition returned (p : Process) : Process :=
  p<| pr_open := filter (λ r, r ∉ pr_deferred p) (pr_open p) |><| pr_deferred := [] |>.

(** [if err = service.Run(ctx); err != nil && !errors.Is(err, context.Canceled)];
    a panic ends a process with status 2. *)
Definition scheduler_end (e : ending) (p : Process) : Z * Process :=
  match e with
  | Panic _ => (2, p)
  | Return e =>
      if bool_decide (e = Canceled) then (0, returned p)
      else (1, p<| pr_errors ::= λ l, l ++ ["scheduler stopped"] |>)
  end.

(** * Start *)

(** The collectors' names: no two are equal, and none is one of the runtime
    collectors of the default registry. *)
Definition runtime_name (name : string) : bool :=
  String.prefix "go_" name || String.prefix "process_" name.

Definition registry_ok (reg : list Desc) : Prop :=
  NoDup (fqName <$> reg) ∧
  ∀ d, d ∈ reg → runtime_name (fqName d) = true.

Lemma register_names reg own :
  registry_ok reg → NoDup (fqName <$> own) → Forall (λ d, runtime_name (fqName d) = false) own →
  NoDup (fqName <$> (reg ++ own)).
Proof.
  intros [Hnd Hrt] Hown Hout. rewrite fmap_app. apply NoDup_app. split_and!; [done| |done].
  intros x (d & -> & Hd)%list_elem_of_fmap (d' & Heq & Hd')%list_elem_of_fmap.
  rewrite Forall_forall in Hout. pose proof (Hout d' Hd') as Hf. rewrite <-Heq, (Hrt d Hd) in Hf. done.
Qed.

(** The metrics of the two processes. *)
Definition control_plane_metrics : list Desc := Describe ++ [rejections] ++ [failures] ++ [requests].
Definition scheduler_metrics : list Desc := [failures] ++ [published_total].

(** What the processes register at once. *)
Definition registrations : list (list Desc) := [[rejections]; [failures]; [requests]; Describe; [published_total]].

Lemma metrics_distinct reg l own :
  registry_ok reg → l ∈ [control_plane_metrics; scheduler_metrics] → prefix own l →
  NoDup (fqName <$> (reg ++ own)).
Proof.
  intros Hreg Hl [rest Hrest]. 
  assert (NoDup (fqName <$> l) ∧ Forall (λ d, runtime_name (fqName d) = false) l) as [Hnd Hf].
  { rewrite !elem_of_cons, elem_of_nil in Hl. destruct Hl as [->|[->|[]]];
      split; apply (bool_decide_unpack _); by vm_compute. }
  subst l. rewrite fmap_app in Hnd. apply NoDup_app in Hnd as [Hnd _]. apply Forall_app in Hf as [Hf _].
  by apply register_names.
Qed.

(** The steps that can fail, in order. *)
Fixpoint first_failure (checks : list (string * bool)) : option string :=
  match checks with
  | [] => None
  | (what, ok) :: checks => if ok then first_failure checks else Some what
  end.

Definition is_Ok {A} (r : result A) : bool := match r with Ok _ => true | Err _ => false end.

Section Start.
Context (h : Host) {aws : Type} (LoadDefaultConfig : string → option (string * string) → result aws).
Context (NewFromConfig : aws → bool → option string → S3Client).
Context (NewVerifier : string → string → string → string → result (list (string * json))).
Context (subscribe : string → result unit).

(** The collectors of the program, whose descriptors are valid, are accepted when
    their names are not in use. *)
Context (Hregister : ∀ reg ds, ds ∈ registrations → NoDup (fqName <$> (reg ++ ds)) →
  registerer_Register h reg ds = Ok tt).

Local Abbreviation starts := (control_plane_start h LoadDefaultConfig NewFromConfig NewVerifier subscribe).

Definition tracing_ok (service : string) : bool :=
  let endpoint := os_Getenv h "OTEL_EXPORTER_OTLP_ENDPOINT" in
  bool_decide (endpoint = "") || (is_Ok (otlptracegrpc_New h endpoint) && is_Ok (resource_Merge h service)).

Definition database_ok (cfg : Config) : bool := is_Ok (pgxpool_New h (DatabaseURL cfg)) && is_Ok (pgxpool_Ping h).

Definition control_plane_checks (env : Env) (s : Sess) : list (string * bool) :=
  match Load (os_Getenv h) with
  | inl _ => [("configuration", false)]
  | inr cfg =>
      [("telemetry", tracing_ok "runmesh-control-plane"); ("database", database_ok cfg);
       ("artifact storage", is_Ok (New LoadDefaultConfig NewFromConfig (artifact_config cfg) env s).1);
       ("rate limiter", is_Ok (redis_ParseURL h (RedisURL cfg)));
       ("gRPC listener", is_Ok (net_Listen h (GRPCAddr cfg)))]
  end.

Ltac registered := unfold registrations; by repeat first [left | right].

Lemma Register_run ds env p :
  ds ∈ registrations → NoDup (fqName <$> (pr_registry p ++ ds)) →
  Register h ds env p = (Next (Ok tt), p<| pr_registry ::= λ l, l ++ ds |>).
Proof. intros Hin H. unfold Register. by rewrite Hregister. Qed.

Lemma MustRegister_run ds env p :
  ds ∈ registrations → NoDup (fqName <$> (pr_registry p ++ ds)) →
  MustRegister h ds env p = (Next tt, p<| pr_registry ::= λ l, l ++ ds |>).
Proof. intros Hin H. unfold MustRegister, mbind, X_bind. by rewrite Register_run. Qed.

Lemma x_bind_run {A B} (m : X A) (k : A → X B) env p a p1 :
  m env p = (Next a, p1) → (m ≫= k) env p = k a env p1.
Proof. intros H. unfold mbind, X_bind. by rewrite H. Qed.

Lemma or_exit_ok {A B} what (m : X (result A)) (k : A → X B) env p a p1 :
  m env p = (Next (Ok a), p1) → (or_exit what m ≫= k) env p = k a env p1.
Proof. intros H. unfold or_exit, mbind, X_bind. by rewrite H. Qed.

Lemma or_exit_err {A B} what (m : X (result A)) (k : A → X B) env p r p1 :
  m env p = (Next r, p1) → is_Ok r = false →
  (or_exit what m ≫= k) env p = (Exit 1, p1<| pr_errors ::= λ l, l ++ [what] |>).
Proof. intros H Hr. unfold or_exit, mbind, X_bind. rewrite H. by destruct r. Qed.

Lemma Setup_run service env p :
  ∃ r p', Setup h service env p = (Next r, p') ∧ is_Ok r = tracing_ok service ∧
    pr_errors p' = pr_errors p ∧ pr_registry p' = pr_registry p ∧ pr_deferred p' = pr_deferred p ∧
    pr_sess p' = pr_sess p ∧ (pr_open p' = pr_open p ∨ pr_open p' = pr_open p ++ [Tracing]).
Proof.
  unfold Setup, tracing_ok. cbn [mbind X_bind ConfigureLogging modify]. unfold mbind, X_bind, ConfigureLogging, modify.
  case_bool_decide; [by do 2 eexists; split_and!; auto|]. simpl.
  destruct (otlptracegrpc_New _ _); [|by do 2 eexists; split_and!; auto].
  destruct (resource_Merge _ _); simpl; by do 2 eexists; split_and!; auto.
Qed.

Lemma close_opened r (l : list resource) : r ∉ l → filter (.≠ r) (l ++ [r]) = l.
Proof.
  intros Hr. rewrite filter_app, filter_cons_False by naive_solver. rewrite filter_nil, app_nil_r.
  induction l as [|x l IH]; [done|]. rewrite filter_cons_True by set_solver. rewrite IH by set_solver. done.
Qed.

Lemma open_twice p f g l :
  g (f (pr_open p)) = l → p<| pr_open ::= f |><| pr_open ::= g |> = p<| pr_open := l |>.
Proof. by intros <-. Qed.

Lemma Store_New_run cfg env p :
  DatabasePool ∉ pr_open p →
  ∃ r p', Store_New h (DatabaseURL cfg) env p = (Next r, p') ∧ is_Ok r = database_ok cfg ∧
    p' = p<| pr_open := if database_ok cfg then pr_open p ++ [DatabasePool] else pr_open p |>.
Proof.
  intros Hno. unfold Store_New, database_ok. destruct (pgxpool_New _ _); simpl.
  2: { do 2 eexists. split_and!; [done..|]. by destruct p. }
  unfold mbind, X_bind, opened, closed_, modify. destruct (pgxpool_Ping h); simpl.
  - do 2 eexists. by split_and!.
  - do 2 eexists. split_and!; [done..|]. by apply open_twice, close_opened.
Qed.

Lemma Limiter_New_run cfg env p :
  NoDup (fqName <$> (pr_registry p ++ [rejections])) →
  ∃ r p', Limiter_New h (RedisURL cfg) (RateLimitRate cfg) (RateLimitBurst cfg) (RateLimitFailOpen cfg) true env p
      = (Next r, p') ∧
    match redis_ParseURL h (RedisURL cfg) with
    | Err _ => is_Ok r = false ∧ p' = p
    | Ok _ => r = Ok {| l_rate := RateLimitRate cfg; l_burst := RateLimitBurst cfg; l_failOpen := RateLimitFailOpen cfg |} ∧
              p' = p<| pr_registry ::= λ l, l ++ [rejections] |><| pr_open ::= λ l, l ++ [RedisLimiter] |>
    end.
Proof.
  intros Hn. unfold Limiter_New. destruct (redis_ParseURL _ _); [|by do 2 eexists].
  unfold mbind, X_bind. rewrite Register_run by (done || registered). do 2 eexists. by split.
Qed.

Lemma Broker_New_run url env p :
  NoDup (fqName <$> (pr_registry p ++ [failures])) →
  ∃ r p', Broker_New h url true env p = (Next r, p') ∧
    match redis_ParseURL h url with
    | Err _ => is_Ok r = false ∧ p' = p
    | Ok _ => r = Ok tt ∧ p' = p<| pr_registry ::= λ l, l ++ [failures] |><| pr_open ::= λ l, l ++ [RedisBroker] |>
    end.
Proof.
  intros Hn. unfold Broker_New. destruct (redis_ParseURL _ _); [|by do 2 eexists].
  unfold mbind, X_bind. rewrite Register_run by (done || registered). do 2 eexists. by split.
Qed.

Lemma Server_New_run lease pepper managers env p :
  NoDup (fqName <$> (pr_registry p ++ [requests])) →
  Server_New h lease pepper managers env p =
    (Next {| srv_LeaseDuration := lease; srv_APIKeyPepper := pepper; srv_Artifacts := head managers;
             srv_CORSAllowlist := ["http://localhost:3000"; "http://localhost:5173"]; srv_Live := None |},
     p<| pr_registry ::= λ l, l ++ [requests] |>).
Proof. intros H. unfold Server_New. by erewrite x_bind_run; [|apply MustRegister_run; [registered|]]. Qed.

Lemma run_sess_run {A} (m : M A) env p :
  ∃ s', run_sess m env p = (Next (m env (pr_sess p)).1, p<| pr_sess := s' |>).
Proof. unfold run_sess. destruct (m env (pr_sess p)) as [r s']. by exists s'. Qed.

(** The process a step of [main] starts in. *)
Ltac at_process q :=
  match goal with |- _ ?p = _ → _ => set (q := p) end.

(** The servers of an accepted configuration. *)
Definition wired (cfg : Config) (manager : Manager) (cp : ControlPlane) : Prop :=
  cp_config cp = cfg ∧ cp_manager cp = manager ∧ cp_server cp = api_server cfg manager subscribe ∧
  (a_verifier (cp_auth cp) = None ↔ DevAuth cfg = true) ∧
  cp_limiter cp = {| l_rate := RateLimitRate cfg; l_burst := RateLimitBurst cfg; l_failOpen := RateLimitFailOpen cfg |} ∧
  cp_probes_redis cp = negb (RateLimitFailOpen cfg).

Lemma control_plane_servers_run cfg manager env p r p' :
  registry_ok (pr_registry p) →
  control_plane_servers h NewVerifier subscribe cfg manager env p = (r, p') →
  if is_Ok (redis_ParseURL h (RedisURL cfg)) then
    if is_Ok (net_Listen h (GRPCAddr cfg)) then
      (∃ cp, r = Next cp ∧ wired cfg manager cp) ∧ pr_errors p' = pr_errors p ∧
      pr_registry p' = pr_registry p ++ control_plane_metrics ∧
      pr_deferred p' = RedisBroker :: RedisLimiter :: pr_deferred p ∧
      pr_open p' = pr_open p ++ [RedisLimiter; RedisBroker]
    else r = Exit 1 ∧ pr_errors p' = pr_errors p ++ ["gRPC listener"]
  else r = Exit 1 ∧ pr_errors p' = pr_errors p ++ ["rate limiter"].
Proof.
  intros Hreg. unfold control_plane_servers.
  assert (∀ own, own `prefix_of` control_plane_metrics → NoDup (fqName <$> (pr_registry p ++ own))) as Hnd
    by (intros own; by apply metrics_distinct; [|left]).
  erewrite x_bind_run; [|apply MustRegister_run; [registered|]; apply Hnd; by exists [rejections; failures; requests]].
  at_process q1. destruct (Limiter_New_run cfg env q1) as (r1 & p1 & H1 & Hcase1).
  { cbn. rewrite <-app_assoc. apply Hnd. by exists [failures; requests]. }
  destruct (redis_ParseURL h (RedisURL cfg)) as [[]|] eqn:Hurl; destruct Hcase1 as [Hok1 ->]; simpl is_Ok; cycle 1.
  { rewrite (or_exit_err _ _ _ _ _ _ _ H1 Hok1). by intros [= <- <-]. }
  subst r1. rewrite (or_exit_ok _ _ _ _ _ _ _ H1), (x_bind_run (defer _) _ _ _ tt _ eq_refl).
  at_process q2. destruct (Broker_New_run (RedisURL cfg) env q2) as (r2 & p2 & H2 & Hcase2).
  { cbn. rewrite <-!app_assoc. apply Hnd. by exists [requests]. }
  rewrite Hurl in Hcase2. destruct Hcase2 as [-> ->].
  rewrite (or_exit_ok _ _ _ _ _ _ _ H2), (x_bind_run (defer _) _ _ _ tt _ eq_refl).
  erewrite x_bind_run; [|apply Server_New_run; cbn; rewrite <-!app_assoc; apply Hnd; by exists []].
  destruct (net_Listen h (GRPCAddr cfg)) as [[]|e]; cbn [is_Ok].
  2: { erewrite or_exit_err; [|done|done]. by intros [= <- <-]. }
  erewrite or_exit_ok by done. intros [= <- <-]. cbn. rewrite <-!app_assoc. split_and!; [|done..].
  eexists. split; [done|]. split_and!; cbn; try done. by destruct (DevAuth cfg).
Qed.

Definition scheduler_checks : list (string * bool) :=
  match Load (os_Getenv h) with
  | inl _ => [("configuration", false)]
  | inr cfg =>
      [("telemetry", tracing_ok "runmesh-scheduler"); ("database", database_ok cfg);
       ("live notification broker", is_Ok (redis_ParseURL h (RedisURL cfg)))]
  end.

(** How the scheduler starts. *)
Lemma scheduler_start_outcome env p r p' :
  registry_ok (pr_registry p) → pr_open p = [] → pr_deferred p = [] → scheduler_start h env p = (r, p') →
  match first_failure scheduler_checks with
  | Some what => r = Exit 1 ∧ pr_errors p' = pr_errors p ++ [what]
  | None => ∃ cfg, Load (os_Getenv h) = inr cfg ∧ r = Next cfg ∧ pr_errors p' = pr_errors p ∧
      pr_registry p' = pr_registry p ++ scheduler_metrics ∧
      pr_deferred p' = [RedisBroker; KafkaWriter; DatabasePool; Tracing; Signals] ∧ pr_open (returned p') = []
  end.
Proof.
  intros Hreg Hopen Hdef. unfold scheduler_checks, scheduler_start.
  rewrite (x_bind_run (ConfigureLogging _) _ _ _ tt _ eq_refl).
  destruct (Load (os_Getenv h)) as [e|cfg].
  { erewrite or_exit_err; [|done|done]. by intros [= <- <-]. }
  erewrite or_exit_ok by done. rewrite (x_bind_run (opened _) _ _ _ tt _ eq_refl),
    (x_bind_run (defer _) _ _ _ tt _ eq_refl).
  at_process q1. destruct (Setup_run "runmesh-scheduler" env q1) as (r1 & p1 & H1 & Hok1 & He1 & Hg1 & Hd1 & Hs1 & Ho1).
  cbn in He1, Hg1, Hd1, Hs1, Ho1. rewrite Hdef in Hd1. rewrite Hopen in Ho1. cbn [first_failure]. destruct (tracing_ok _).
  2: { rewrite (or_exit_err _ _ _ _ _ _ _ H1 Hok1). intros [= <- <-]. simpl. by rewrite He1. }
  destruct r1 as [b|]; [|done]. rewrite (or_exit_ok _ _ _ _ _ _ _ H1), (x_bind_run (defer _) _ _ _ tt _ eq_refl).
  at_process q2. destruct (Store_New_run cfg env q2) as (r2 & p2 & H2 & Hok2 & ->).
  { simpl. destruct Ho1 as [-> | ->]; set_solver. }
  destruct (database_ok cfg).
  2: { rewrite (or_exit_err _ _ _ _ _ _ _ H2 Hok2). intros [= <- <-]. simpl. by rewrite He1. }
  destruct r2 as [[]|]; [|done]. rewrite (or_exit_ok _ _ _ _ _ _ _ H2), (x_bind_run (defer _) _ _ _ tt _ eq_refl),
    (x_bind_run (opened _) _ _ _ tt _ eq_refl), (x_bind_run (defer _) _ _ _ tt _ eq_refl).
  assert (∀ own, own `prefix_of` scheduler_metrics → NoDup (fqName <$> (pr_registry p1 ++ own))) as Hnd
    by (intros own; rewrite Hg1; by apply metrics_distinct; [|right; left]).
  at_process q3. destruct (Broker_New_run (RedisURL cfg) env q3) as (r3 & p3 & H3 & Hcase).
  { apply Hnd. by exists [published_total]. }
  destruct (redis_ParseURL h (RedisURL cfg)) as [[]|]; destruct Hcase as [Hok3 ->]; cbn [is_Ok].
  2: { rewrite (or_exit_err _ _ _ _ _ _ _ H3 Hok3). intros [= <- <-]. simpl. by rewrite He1. }
  subst r3. rewrite (or_exit_ok _ _ _ _ _ _ _ H3), (x_bind_run (defer _) _ _ _ tt _ eq_refl).
  erewrite x_bind_run; [|apply MustRegister_run; [registered|]; cbn; rewrite <-app_assoc; by apply Hnd].
  intros [= <- <-]. exists cfg. cbn. rewrite He1, Hg1, Hd1, <-app_assoc. split_and!; [done..|].
  by destruct Ho1 as [-> | ->].
Qed.

(** C24: how the control plane starts.  Registration never fails, so [main] does
    not panic.  If a step fails, [main] logs the first one that does and exits
    with 1.  Otherwise the servers are built from the loaded configuration: the
    API with its allowlist, lease and artifact manager, a verifier exactly
    outside development, the limiter with the configured rate, burst and mode,
    and a readiness probe that asks Redis exactly when the limiter may not fail
    open; and the deferred calls close everything that was opened. *)
Theorem control_plane_start_outcome env p r p' :
  registry_ok (pr_registry p) → pr_open p = [] → pr_deferred p = [] → starts env p = (r, p') →
  match first_failure (control_plane_checks env (pr_sess p)) with
  | Some what => r = Exit 1 ∧ pr_errors p' = pr_errors p ++ [what]
  | None => ∃ cfg manager cp, Load (os_Getenv h) = inr cfg ∧
      (New LoadDefaultConfig NewFromConfig (artifact_config cfg) env (pr_sess p)).1 = Ok manager ∧
      r = Next cp ∧ wired cfg manager cp ∧ pr_errors p' = pr_errors p ∧
      pr_registry p' = pr_registry p ++ control_plane_metrics ∧
      pr_deferred p' = [RedisBroker; RedisLimiter; DatabasePool; Tracing; Signals] ∧ pr_open (returned p') = []
  end.
Proof.
  intros Hreg Hopen Hdef. unfold control_plane_checks, control_plane_start.
  destruct (Load (os_Getenv h)) as [e|cfg].
  { erewrite or_exit_err; [|done|done]. by intros [= <- <-]. }
  erewrite or_exit_ok by done. rewrite (x_bind_run (opened _) _ _ _ tt _ eq_refl),
    (x_bind_run (defer _) _ _ _ tt _ eq_refl).
  at_process q1. destruct (Setup_run "runmesh-control-plane" env q1) as (r1 & p1 & H1 & Hok1 & He1 & Hg1 & Hd1 & Hs1 & Ho1).
  cbn in He1, Hg1, Hd1, Hs1, Ho1. rewrite Hdef in Hd1. rewrite Hopen in Ho1. cbn [first_failure]. destruct (tracing_ok _).
  2: { rewrite (or_exit_err _ _ _ _ _ _ _ H1 Hok1). intros [= <- <-]. simpl. by rewrite He1. }
  destruct r1 as [b|]; [|done]. rewrite (or_exit_ok _ _ _ _ _ _ _ H1), (x_bind_run (defer _) _ _ _ tt _ eq_refl).
  at_process q2. destruct (Store_New_run cfg env q2) as (r2 & p2 & H2 & Hok2 & ->).
  { simpl. destruct Ho1 as [-> | ->]; set_solver. }
  destruct (database_ok cfg).
  2: { rewrite (or_exit_err _ _ _ _ _ _ _ H2 Hok2). intros [= <- <-]. simpl. by rewrite He1. }
  destruct r2 as [[]|]; [|done]. rewrite (or_exit_ok _ _ _ _ _ _ _ H2), (x_bind_run (defer _) _ _ _ tt _ eq_refl).
  at_process q3. destruct (run_sess_run (New LoadDefaultConfig NewFromConfig (artifact_config cfg)) env q3) as [s3 H3].
  replace (pr_sess q3) with (pr_sess p) in H3 by (by symmetry). destruct (New _ _ _ env (pr_sess p)).1 as [manager|e3] eqn:Enew.
  2: { erewrite or_exit_err; [|exact H3|done]. intros [= <- <-]. simpl. by rewrite He1. }
  rewrite (or_exit_ok _ _ _ _ _ _ _ H3). intros Hrun%control_plane_servers_run; [|by cbn; rewrite Hg1].
  cbn in Hrun |- *. rewrite He1, Hg1, Hd1 in Hrun. destruct (redis_ParseURL _ _), (net_Listen _ _); cbn in Hrun |- *; try done.
  destruct Hrun as ((cp & -> & Hw) & -> & -> & Hdefs & Hopens). exists cfg, manager, cp. split_and!; try done.
  rewrite Hdefs, Hopens. by destruct Ho1 as [-> | ->].
Qed.
End Start.

(** * The control plane while it serves *)

(** Where the goroutine that waits for [ctx.Done()] is: in [GracefulStop] of the
    gRPC server, then in [Shutdown] of the HTTP server. *)
Inductive stage : Type := Waiting | StoppingRPC | StoppingHTTP | Stopped.

#[export] Instance stage_eq_dec : EqDecision stage.
Proof. solve_decision. Defined.

Record Serving := mkServing {
  sv_done : bool;
  sv_rpc_open : bool;
  sv_http_open : bool;
  sv_rpcs : nat;
  sv_requests : nat;
  sv_stage : stage;
  sv_exit : option Z;
  sv_process : Process
}.

(** What can happen next: a signal, a failure of the gRPC server, which calls
    [stop], calls and requests that come and end, the steps of the stopping
    goroutine, and the return of [ListenAndServe]. *)
Inductive serving_event : Type :=
  | Signalled
  | RPCFails
  | CallArrives
  | CallEnds
  | RequestArrives
  | RequestEnds
  | GracefulStop
  | Shutdown
  | ShutdownReturns (deadline : bool)
  | ListenReturns
  | ListenFails.

(** [Serve] and [ListenAndServe] accept while their listener is open;
    [GracefulStop] closes the listener and waits for the calls; [Shutdown] closes
    the listener, upon which [ListenAndServe] returns [ErrServerClosed] and [main]
    goes on, and waits for the requests or for its deadline. *)
Definition serving_step (e : serving_event) (s : Serving) : option Serving :=
  if bool_decide (is_Some (sv_exit s)) then None
  else
    match e with
    | Signalled => Some (s<| sv_done := true |>)
    | RPCFails => if sv_rpc_open s then Some (s<| sv_rpc_open := false |><| sv_done := true |>) else None
    | CallArrives => if sv_rpc_open s then Some (s<| sv_rpcs ::= S |>) else None
    | CallEnds => match sv_rpcs s with O => None | S n => Some (s<| sv_rpcs := n |>) end
    | RequestArrives => if sv_http_open s then Some (s<| sv_requests ::= S |>) else None
    | RequestEnds => match sv_requests s with O => None | S n => Some (s<| sv_requests := n |>) end
    | GracefulStop =>
        if sv_done s && bool_decide (sv_stage s = Waiting)
        then Some (s<| sv_stage := StoppingRPC |><| sv_rpc_open := false |>) else None
    | Shutdown =>
        if bool_decide (sv_stage s = StoppingRPC) && bool_decide (sv_rpcs s = 0%nat)
        then Some (s<| sv_stage := StoppingHTTP |><| sv_http_open := false |>) else None
    | ShutdownReturns deadline =>
        if bool_decide (sv_stage s = StoppingHTTP) && (deadline || bool_decide (sv_requests s = 0%nat))
        then Some (s<| sv_stage := Stopped |>) else None
    | ListenReturns =>
        if sv_http_open s then None else Some (s<| sv_exit := Some 0 |><| sv_process ::= returned |>)
    | ListenFails =>
        if sv_http_open s then Some (s<| sv_exit := Some 1 |>) else None
    end.

Definition serving_start (p : Process) : Serving := mkServing false true true 0 0 Waiting None p.

Definition serving_next (s s' : Serving) : Prop := ∃ e, serving_step e s = Some s'.

Definition serving_reachable (p : Process) (s : Serving) : Prop := rtc serving_next (serving_start p) s.

Record serving_inv (p : Process) (s : Serving) : Prop := {
  si_stopping : sv_stage s ≠ Waiting → sv_done s = true ∧ sv_rpc_open s = false;
  si_drained : sv_stage s = StoppingHTTP ∨ sv_stage s = Stopped → sv_rpcs s = 0%nat;
  si_http : sv_http_open s = false ↔ sv_stage s = StoppingHTTP ∨ sv_stage s = Stopped;
  si_exit : sv_exit s = Some 0 → sv_http_open s = false;
  si_codes : sv_exit s = None ∨ sv_exit s = Some 0 ∨ sv_exit s = Some 1;
  si_process : sv_process s = if bool_decide (sv_exit s = Some 0) then returned p else p
}.

Lemma serving_inv_step p s s' : serving_inv p s → serving_next s s' → serving_inv p s'.
Proof.
  intros [A B C D E F] [e He]. unfold serving_step in He.
  case_bool_decide as Hx; [done|]. apply eq_None_not_Some in Hx.
  destruct s as [d ro ho rp rq st ex pr]; simpl in *. subst ex pr. clear E D.
  destruct e; repeat case_match; simplify_eq; bool_split; split; cbn in *; subst; auto.
  all: try discriminate; try (destruct st; intuition congruence).
  all: destruct ho; intuition congruence.
Qed.

Lemma reachable_serving_inv p s : serving_reachable p s → serving_inv p s.
Proof.
  intros Hs. refine (rtc_ind_r (serving_inv p) (serving_start p) _ _ s Hs).
  - split; cbn; [done|by intros [|]|split; [done|by intros [|]]|done|by left|done].
  - intros y z _ Hyz Hy. by eapply serving_inv_step.
Qed.

(** The control plane stops its gRPC server gracefully.  However signals,
    failures, calls and requests interleave, a process that has returned from
    [main] was asked to stop, had no gRPC call in flight and had made its deferred
    calls; one that has exited with 1 made none; and after the request to stop no
    call is accepted once [GracefulStop] has begun. *)
Theorem graceful_stop p s :
  serving_reachable p s →
  (sv_exit s = Some 0 → sv_done s = true ∧ sv_rpcs s = 0%nat ∧ sv_process s = returned p) ∧
  (sv_exit s = Some 1 → sv_process s = p) ∧
  (sv_stage s ≠ Waiting → serving_step CallArrives s = None).
Proof.
  intros [A B C D E F]%reachable_serving_inv. split_and!.
  - intros Hx. assert (sv_stage s = StoppingHTTP ∨ sv_stage s = Stopped) as Hst by (apply C, D, Hx).
    rewrite bool_decide_true in F by done. split_and!; [|by apply B|done]. apply A. destruct Hst; congruence.
  - intros Hx. rewrite bool_decide_false in F by congruence. done.
  - intros Hst. destruct (A Hst) as [_ Hclosed]. unfold serving_step. rewrite Hclosed. by destruct (bool_decide (is_Some _)).
Qed.

(** C37: requests are cut off.  [ListenAndServe] returns as soon as [Shutdown]
    has closed the listener, not when the requests have ended, and nothing makes
    [main] wait: the process can end, with the database pool and the other
    resources closed, while any number of requests are still being served. *)
Theorem shutdown_cuts_requests p n :
  ∃ s, serving_reachable p s ∧ sv_exit s = Some 0 ∧ sv_process s = returned p ∧
    sv_requests s = n ∧ sv_stage s = StoppingHTTP.
Proof.
  exists (mkServing true false false 0 n StoppingHTTP (Some 0) (returned p)). split_and!; try done.
  assert (rtc serving_next (serving_start p) (mkServing false true true 0 n Waiting None p)) as Hn.
  { induction n as [|n IH]; [done|]. etransitivity; [exact IH|]. apply rtc_once. by exists RequestArrives. }
  unfold serving_reachable. etransitivity; [exact Hn|]. eapply rtc_l; [by exists Signalled|]. eapply rtc_l; [by exists GracefulStop|].
  eapply rtc_l; [by exists Shutdown|]. apply rtc_once. by exists ListenReturns.
Qed.

(** A failure of the gRPC server ends the process with status 0 as well. *)
Lemma rpc_failure_exits_zero p : ∃ s1 s2,
  serving_step RPCFails (serving_start p) = Some s1 ∧ rtc serving_next s1 s2 ∧ sv_exit s2 = Some 0.
Proof.
  eexists. eexists (mkServing true false false 0 0 StoppingHTTP (Some 0) (returned p)). split_and!; [done| |done].
  eapply rtc_l; [by exists GracefulStop|]. eapply rtc_l; [by exists Shutdown|]. apply rtc_once. by exists ListenReturns.
Qed.

(** A scheduler that has started ends only when it is asked to, with status 0 and
    everything closed: whatever the database, Kafka and Redis answer. *)
Lemma scheduler_ends {location cron} (LoadLocation : string → result location) (cron_parse : string → result cron)
    cron_next format_rfc3339 cfg fuel ctx_Done turns env bus w r w' p :
  0 < SchedulerInterval cfg → 0 < OutboxInterval cfg → (∀ n e, ctx_Done n = Some e → e = Canceled) →
  Service.Run LoadLocation cron_parse cron_next format_rfc3339 (scheduler_service cfg) (SchedulerInterval cfg)
    (OutboxInterval cfg) fuel ctx_Done turns env bus w = (r, w') →
  r = Ok None ∨ ∃ e, r = Ok (Some e) ∧ scheduler_end e p = (0, returned p).
Proof.
  intros Hs Ho Hctx Hrun.
  destruct (Run_run LoadLocation cron_parse cron_next format_rfc3339 (scheduler_service cfg) _ _ fuel ctx_Done
    turns env bus w Hs Ho) as (r1 & w1 & H1 & [->|(n & e & He & ->)] & _); rewrite H1 in Hrun; simplify_eq; [by left|].
  right. eexists. split; [done|]. simpl. by rewrite (Hctx _ _ He), bool_decide_true.
Qed.

(** ** The metrics listener of the scheduler *)

(** [main] of the scheduler while [service.Run] is under way: its context, the
    listener of [metricsServer] and the exit status. *)
Record Watching := mkWatching {
  wt_done : bool;
  wt_listening : bool;
  wt_exit : option Z;
  wt_process : Process
}.

Inductive watching_event : Type :=
  | WatchSignalled
  | MetricsFail
  | MetricsShutdown
  | RunReturns (e : ending).

(** A failure of [ListenAndServe] is logged and calls [stop]; the second
    goroutine shuts the listener down when the context is done; [service.Run]
    returns when the context is done, or panics. *)
Definition watching_step (e : watching_event) (s : Watching) : option Watching :=
  if bool_decide (is_Some (wt_exit s)) then None
  else
    match e with
    | WatchSignalled => Some (s<| wt_done := true |>)
    | MetricsFail =>
        if wt_listening s then
          Some (s<| wt_listening := false |><| wt_done := true |>
                 <| wt_process ::= λ p, p<| pr_errors ::= λ l, l ++ ["scheduler metrics server"] |> |>)
        else None
    | MetricsShutdown => if wt_done s && wt_listening s then Some (s<| wt_listening := false |>) else None
    | RunReturns e =>
        if match e with Panic _ => true | Return _ => wt_done s end then
          let '(status, p) := scheduler_end e (wt_process s) in
          Some (s<| wt_exit := Some status |><| wt_process := p |>)
        else None
    end.

Definition watching_start (p : Process) : Watching := mkWatching false true None p.

Fixpoint watch (es : list watching_event) (s : Watching) : option Watching :=
  match es with
  | [] => Some s
  | e :: es => s' ← watching_step e s; watch es s'
  end.

Lemma watching_done e s s' : watching_step e s = Some s' →
  (wt_listening s = false → wt_done s = true) → (wt_exit s = Some 0 → wt_done s = true) →
  (wt_listening s' = false → wt_done s' = true) ∧ (wt_exit s' = Some 0 → wt_done s' = true).
Proof.
  unfold watching_step. case_bool_decide as Hx; [done|]. apply eq_None_not_Some in Hx.
  destruct s as [d l ex p]; simpl in *. subst ex. intros H Hl _.
  destruct e as [| | |[]]; simpl in *; repeat case_match; simplify_eq/=; bool_split; simplify_eq/=;
    split; intros; simplify_eq/=; auto.
Qed.

(** The listener is up until the context is done, and the process ends with
    status 0 only after that. *)
Lemma watch_done es p s : watch es (watching_start p) = Some s →
  (wt_listening s = false → wt_done s = true) ∧ (wt_exit s = Some 0 → wt_done s = true).
Proof.
  assert (∀ s0, (wt_listening s0 = false → wt_done s0 = true) → (wt_exit s0 = Some 0 → wt_done s0 = true) →
    watch es s0 = Some s →
    (wt_listening s = false → wt_done s = true) ∧ (wt_exit s = Some 0 → wt_done s = true)) as H; [|by apply H].
  induction es as [|e es IH]; simpl; intros s0 Hl He H; [by simplify_eq|].
  apply bind_Some in H as (s1 & H1 & H). destruct (watching_done _ _ _ H1 Hl He). by eapply IH.
Qed.

(** A failure of the metrics listener stops the scheduler: its error is logged,
    everything is closed, and the status is 0. *)
Lemma metrics_failure_exits_zero p : ∃ s,
  watch [MetricsFail; RunReturns (Return Canceled)] (watching_start p) = Some s ∧ wt_exit s = Some 0 ∧
  wt_process s = returned (p<| pr_errors ::= λ l, l ++ ["scheduler metrics server"] |>).
Proof. eexists. by split_and!. Qed.

(** * The handler of the process *)

Section Serve.
Context {location cron : Type}.
Context (LoadLocation : string → result location) (cron_parse : string → result cron).
Context (cron_next : cron → location → time → time).
Context (uuid_Parse : string → bool) (sha256 : string → string) (rand : nat → result (list Z)).
Context (dec : Decoders) (answer : Principal → result Result_).
Context (store_Ping limiter_Ping : nat → result unit) (metrics openapi docs : string).

(** The verifier of an authenticator; [authenticateOIDC] asks for none when it is
    nil. *)
Definition verifier_Verify (a : Authenticator) (raw : string) : result (list (string * json)) :=
  match a_verifier a with
  | Some verify => verify raw
  | None => Err (ErrText "OIDC is not configured")
  end.

Definition control_plane_handler (cp : ControlPlane) (rq : Request) : M Response :=
  Handler LoadLocation cron_parse cron_next uuid_Parse sha256 rand (cp_server cp) (a_config (cp_auth cp))
    (verifier_Verify (cp_auth cp)) dec
    (λ p, Middleware (l_burst (cp_limiter cp)) (l_failOpen (cp_limiter cp)) (answer p))
    store_Ping (if cp_probes_redis cp then Some limiter_Ping else None) metrics openapi docs rq.

(** In development no token is verified, so that the missing verifier is never
    called. *)
Lemma development_verifier config verify verify' raw :
  Dev config = true → Authenticate uuid_Parse sha256 config verify raw = Authenticate uuid_Parse sha256 config verify' raw ∧
  AuthenticateWorker uuid_Parse sha256 config verify raw = AuthenticateWorker uuid_Parse sha256 config verify' raw.
Proof. intros Hdev. unfold AuthenticateWorker, Authenticate, authenticateOIDC. by rewrite Hdev. Qed.

(** [--healthcheck] answered by the process itself: status 0 exactly when the
    database answers and, unless the limiter may fail open, Redis does. *)
Lemma healthcheck_ready h subscribe cfg manager cp rq env s resp s' :
  wired subscribe cfg manager cp → rq_Method rq = "GET" → rq_EscapedPath rq = "/health/ready" →
  control_plane_handler cp rq env s = (Ok resp, s') →
  client_Get h "http://127.0.0.1:8080/health/ready" = Ok (resp_status resp) →
  healthcheck h = 0 ↔
    store_Ping (s_tick s) = Ok tt ∧ (RateLimitFailOpen cfg = true ∨ limiter_Ping (S (s_tick s)) = Ok tt).
Proof.
  intros (_ & _ & _ & _ & _ & Hprobe) Hm Hp Hrun Hget. unfold healthcheck. rewrite Hget. clear Hget.
  unfold control_plane_handler, Handler, cors in Hrun. rewrite Hm, Hp in Hrun.
  change (mux root_table "GET" "/health/ready") with (Handled HealthReady) in Hrun.
  cbn [mux_answer serve_root] in Hrun. rewrite bool_decide_false, Hprobe in Hrun by done.
  cbv [Api.ready mbind M_bind try ask mret M_ret writeError writeJSON] in Hrun. cbn in Hrun.
  destruct (store_Ping (s_tick s)) as [[]|e]; [|injection Hrun as <- _; naive_solver].
  destruct (RateLimitFailOpen cfg); cbn in Hrun; [injection Hrun as <- _; naive_solver|].
  destruct (limiter_Ping (S (s_tick s))) as [[]|e]; injection Hrun as <- _; naive_solver.
Qed.
End Serve.
