(* ===== verification/Preserve.v ===== *)
(** Relations between the database before and after an operation.

    [preserves R m] says that [R] relates the databases before and after every
    run of [m], successful or not.  For a preorder the rules below reduce it to
    the statements of [m]; the tactic [preserve] applies them. *)
From S2P Require Import Prelude Json Schema Sql StoreWorker.

Definition preserves {A} (R : Db → Db → Prop) (m : M A) : Prop :=
  ∀ env s r s', m env s = (r, s') → R (s_db s) (s_db s').

Definition stmt_preserves {A} (R : Db → Db → Prop) (f : Stmt A) : Prop :=
  ∀ env n db a db', f env n db = Ok (a, db') → R db db'.

Create HintDb preserve.

Section Rules.
Context (R : Db → Db → Prop) `{!PreOrder R}.

Lemma preserves_ret {A} (a : A) : preserves R (mret a).
Proof. intros env s r s' [= <- <-]. reflexivity. Qed.

Lemma preserves_throw {A} e : preserves R (throw (A := A) e).
Proof. intros env s r s' [= <- <-]. reflexivity. Qed.

Lemma preserves_time_now : preserves R time_now.
Proof. intros env s r s' [= <- <-]. reflexivity. Qed.

Lemma preserves_new_uuid : preserves R new_uuid.
Proof. intros env s r s' [= <- <-]. reflexivity. Qed.

Lemma preserves_range_rank : preserves R range_rank.
Proof. intros env s r s' [= <- <-]. reflexivity. Qed.

Lemma preserves_trace_parent : preserves R trace_parent.
Proof. intros env s r s' [= <- <-]. reflexivity. Qed.

Lemma preserves_rows_close : preserves R rows_close.
Proof. intros env s r s' [= <- <-]. reflexivity. Qed.

Lemma preserves_bind {A B} (m : M A) (k : A → M B) :
  preserves R m → (∀ a, preserves R (k a)) → preserves R (m ≫= k).
Proof.
  intros Hm Hk env s r s'. unfold mbind, M_bind.
  destruct (m env s) as [[a|e] s1] eqn:Hms; intros Hr.
  - transitivity (s_db s1); [by eapply Hm|by eapply Hk].
  - injection Hr as <- <-. by eapply Hm.
Qed.

Lemma preserves_try {A} (m : M A) : preserves R m → preserves R (try m).
Proof.
  intros Hm env s r s'. unfold try. destruct (m env s) eqn:Hms. intros [= <- <-].
  by eapply Hm.
Qed.

Lemma preserves_mfor {A} (l : list A) (f : A → M unit) :
  (∀ x, preserves R (f x)) → preserves R (mfor l f).
Proof.
  intros Hf. induction l as [|x l IH]; simpl; [apply preserves_ret|].
  apply preserves_bind; auto.
Qed.

Lemma preserves_tx_stmt {A} (f : Stmt A) : stmt_preserves R f → preserves R (tx_stmt f).
Proof.
  intros Hf env s r s'. unfold tx_stmt.
  destruct (s_rows_open s); [intros [= <- <-]; reflexivity|].
  destruct (env_fault env (s_tick s)); [intros [= <- <-]; reflexivity|].
  destruct (f env (s_tick s) (s_db s)) as [[a db]|e] eqn:Hfe; intros [= <- <-]; [|reflexivity].
  by eapply Hf.
Qed.

Lemma preserves_tx_query_open {A} (f : Stmt A) :
  stmt_preserves R f → preserves R (tx_query_open f).
Proof.
  intros Hf env s r s'. unfold tx_query_open.
  destruct (tx_stmt f env s) as [[a|e] s1] eqn:Hs; intros [= <- <-];
    by apply (preserves_tx_stmt f Hf) in Hs.
Qed.

Lemma preserves_pool_stmt {A} (f : Stmt A) : stmt_preserves R f → preserves R (pool_stmt f).
Proof.
  intros Hf env s r s' Hr. apply pool_stmt_db in Hr as [->|(a & db & Hfe & -> & _)];
    [reflexivity|by eapply Hf].
Qed.

Lemma preserves_in_tx {A} (body : time → M (outcome A)) :
  (∀ now, preserves R (body now)) → preserves R (in_tx body).
Proof.
  intros Hb env s r s' Hr. apply in_tx_db in Hr as [->|(a & s1 & Hs1 & -> & _)];
    [reflexivity|]. by eapply (Hb _ _ _ _ _ Hs1).
Qed.

Lemma stmt_preserves_select {A} (q : Env → nat → Db → A) : stmt_preserves R (sql_select q).
Proof. intros env n db a db' [= <- <-]. reflexivity. Qed.

Lemma stmt_preserves_check {A} ok c msg (f : Stmt A) :
  stmt_preserves R f → stmt_preserves R (sql_check ok c msg f).
Proof. intros Hf env n db a db'. unfold sql_check. destruct (ok db); [apply Hf|done]. Qed.

Lemma stmt_preserves_undetermined {A} parameter (f : Stmt A) : stmt_preserves R (undetermined parameter f).
Proof. by intros env n db a db'. Qed.
End Rules.

(** Reduce [preserves R m] to the statements of [m] that write. *)
Ltac preserve_step :=
  lazymatch goal with
  | |- preserves _ (mbind _ _) => apply preserves_bind; [try apply _|..|intros ?]
  | |- preserves _ (mfor _ _) => apply preserves_mfor; [try apply _|intros ?]
  | |- preserves _ (in_tx _) => apply preserves_in_tx; [try apply _|intros ?]
  | |- preserves _ (tx_stmt _) => apply preserves_tx_stmt; [try apply _|]
  | |- preserves _ (tx_query_open _) => apply preserves_tx_query_open; [try apply _|]
  | |- preserves _ (pool_stmt _) => apply preserves_pool_stmt; [try apply _|]
  | |- preserves _ (try _) => apply preserves_try
  | |- preserves _ (mret _) => apply preserves_ret; apply _
  | |- preserves _ (throw _) => apply preserves_throw; apply _
  | |- preserves _ (match ?x with _ => _ end) => destruct x
  | |- stmt_preserves _ (undetermined _ _) => apply stmt_preserves_undetermined
  | |- stmt_preserves _ (sql_check _ _ _ _) => apply stmt_preserves_check
  | |- stmt_preserves _ (sql_select _) => apply stmt_preserves_select; apply _
  end.
Ltac preserve_leaf :=
  first [ apply stmt_preserves_select; apply _
        | apply preserves_time_now; apply _
        | apply preserves_new_uuid; apply _
        | apply preserves_range_rank; apply _
        | apply preserves_trace_parent; apply _
        | apply preserves_rows_close; apply _
        | solve [eauto with preserve] ].

Ltac preserve := repeat (preserve_step || preserve_leaf).
