(* ===== verification/Frame.v ===== *)
(** What the operations on existing runs leave alone.

    Once a run has been created its definition, its tasks, their keys, handlers
    and limits and its dependency edges never change, and neither do workflow
    definitions: [frame] relates two databases that agree on all of that.  Every
    operation of the worker protocol, of cancellation and retry and of the
    scheduler's maintenance steps preserves it. *)
From S2P Require Import Prelude State Json Schema Sql StoreWorker StoreWorkflow Scheduler Preserve.

Definition task_static (t : TaskRow) :=
  (t_workflow_run_id t, t_task_key t, t_handler t, t_priority t, t_timeout_seconds t,
   t_input t, t_created_at t).

Definition run_static (r : RunRow) :=
  (r_tenant_id r, r_workflow_definition_id r, r_workflow_version r, r_input r,
   r_input_artifact_uri r, r_idempotency_key r, r_trace_parent r, r_started_at r, r_created_at r).

Record frame (db db' : Db) : Prop := {
  fr_tenants : tenants db' = tenants db;
  fr_definitions : workflow_definitions db' = workflow_definitions db;
  fr_runs : run_static <$> workflow_runs db' = run_static <$> workflow_runs db;
  fr_tasks : task_static <$> task_runs db' = task_static <$> task_runs db;
  fr_deps : task_dependencies db' = task_dependencies db
}.

#[export] Instance frame_preorder : PreOrder frame.
Proof.
  split; [by split|]. intros db1 db2 db3 [] []. split; congruence.
Qed.

Lemma frame_task db db' k t' :
  frame db db' → task_runs db' !! k = Some t' →
  ∃ t, task_runs db !! k = Some t ∧ task_static t' = task_static t.
Proof.
  intros Hf Hk. pose proof (f_equal (lookup k) (fr_tasks _ _ Hf)) as He.
  rewrite !lookup_fmap, Hk in He. destruct (task_runs db !! k) as [t|]; [|done].
  exists t. by apply (inj Some) in He.
Qed.

Lemma frame_run db db' k r' :
  frame db db' → workflow_runs db' !! k = Some r' →
  ∃ r, workflow_runs db !! k = Some r ∧ run_static r' = run_static r.
Proof.
  intros Hf Hk. pose proof (f_equal (lookup k) (fr_runs _ _ Hf)) as He.
  rewrite !lookup_fmap, Hk in He. destruct (workflow_runs db !! k) as [r|]; [|done].
  exists r. by apply (inj Some) in He.
Qed.

(** Tables outside the frame. *)
Lemma frame_other db db' :
  tenants db' = tenants db → workflow_definitions db' = workflow_definitions db →
  workflow_runs db' = workflow_runs db → task_runs db' = task_runs db →
  task_dependencies db' = task_dependencies db → frame db db'.
Proof. intros. split; congruence. Qed.

(** * Statements *)

Section Statements.
Lemma frame_update_tasks P f :
  (∀ db k t, task_static (f db k t) = task_static t) → stmt_preserves frame (update_tasks P f).
Proof.
  intros Hf env n db rows db' [= <- <-]. split; try done; simpl.
  apply map_eq; intros k. rewrite !lookup_fmap, map_lookup_imap.
  destruct (task_runs db !! k) as [t|]; simpl; [|done]. destruct (P db k t); by rewrite ?Hf.
Qed.

Lemma frame_update_runs P f :
  (∀ r, run_static (f r) = run_static r) → stmt_preserves frame (update_runs P f).
Proof.
  intros Hf env n db rows db' [= <- <-]. split; try done; simpl.
  apply map_eq; intros k. rewrite !lookup_fmap, lookup_update_where.
  destruct (workflow_runs db !! k) as [r|]; simpl; [|done]. destruct (P k r); by rewrite ?Hf.
Qed.

Lemma frame_update_attempts P f : stmt_preserves frame (update_attempts P f).
Proof. intros env n db a db' [= <- <-]. by apply frame_other. Qed.

Lemma frame_update_artifacts P f : stmt_preserves frame (update_artifacts P f).
Proof. intros env n db a db' [= <- <-]. by apply frame_other. Qed.

Lemma frame_update_outbox P f : stmt_preserves frame (update_outbox P f).
Proof. intros env n db a db' [= <- <-]. by apply frame_other. Qed.

Lemma frame_insert_outbox now ty id ev p tr : stmt_preserves frame (insert_outbox now ty id ev p tr).
Proof.
  intros env n db a db'. unfold insert_outbox. case_bool_decide; [done|].
  intros [= <- <-]. by apply frame_other.
Qed.

Lemma frame_insert_audit now t ac a ty id md : stmt_preserves frame (insert_audit now t ac a ty id md).
Proof.
  intros env n db x db'. unfold insert_audit. case_bool_decide; [|done].
  intros [= <- <-]. by apply frame_other.
Qed.

Lemma frame_insert_attempt now id k w sch : stmt_preserves frame (insert_attempt now id k w sch).
Proof.
  intros env n db x db'. unfold insert_attempt. case_bool_decide; [done|].
  intros [= <- <-]. by apply frame_other.
Qed.

Lemma frame_update_schedule id next : stmt_preserves frame (update_schedule id next).
Proof. intros env n db a db' [= <- <-]. by apply frame_other. Qed.

Lemma frame_insert_outbox_from_run now id ev p rid :
  stmt_preserves frame (insert_outbox_from_run now id ev p rid).
Proof.
  intros env n db a db'. unfold insert_outbox_from_run. case_match.
  - apply frame_insert_outbox.
  - intros [= <- <-]. reflexivity.
Qed.

Lemma frame_heartbeat id w e : stmt_preserves frame (heartbeat_stmt id w e).
Proof.
  intros env n db a db'. unfold heartbeat_stmt.
  destruct (update_task _ _ _ _ _ _) as [[rows db1]|] eqn:Hu; [|done].
  intros [= <- <-]. by apply frame_update_tasks in Hu.
Qed.
End Statements.

#[export] Hint Resolve frame_update_attempts frame_update_artifacts frame_update_outbox
  frame_insert_outbox frame_insert_audit frame_insert_attempt frame_update_schedule
  frame_insert_outbox_from_run frame_heartbeat : preserve.
#[export] Hint Extern 5 (stmt_preserves frame (update_tasks _ _)) =>
  apply frame_update_tasks; done : preserve.
#[export] Hint Extern 5 (stmt_preserves frame (update_runs _ _)) =>
  apply frame_update_runs; done : preserve.
#[export] Hint Extern 5 (stmt_preserves frame (update_task _ _ _)) =>
  apply frame_update_tasks; done : preserve.
#[export] Hint Extern 5 (stmt_preserves frame (cancel_not_started _ _)) =>
  apply frame_update_tasks; done : preserve.
#[export] Hint Extern 5 (stmt_preserves frame (update_run _ _ _)) =>
  apply frame_update_runs; done : preserve.
#[export] Hint Extern 5 (stmt_preserves frame (update_attempt _ _ _ _)) =>
  apply frame_update_attempts : preserve.

(** * Operations *)

Lemma frame_nowPlus d : preserves frame (nowPlus d).
Proof. unfold nowPlus. preserve. Qed.
#[export] Hint Resolve frame_nowPlus : preserve.

Lemma frame_available_at st attempt : preserves frame (available_at st attempt).
Proof. unfold available_at. preserve. Qed.
#[export] Hint Resolve frame_available_at : preserve.

Lemma frame_LeaseTask id w lease : preserves frame (LeaseTask id w lease).
Proof. unfold LeaseTask. preserve. Qed.

Lemma frame_StartTask id w : preserves frame (StartTask id w).
Proof. unfold StartTask. preserve. Qed.

Lemma frame_HeartbeatTask id w lease : preserves frame (HeartbeatTask id w lease).
Proof. unfold HeartbeatTask. preserve. Qed.

Lemma frame_CompleteTask id w out uri logs : preserves frame (CompleteTask id w out uri logs).
Proof. unfold CompleteTask, complete_tx. preserve. Qed.

Lemma frame_FailTask id w f : preserves frame (FailTask id w f).
Proof. unfold FailTask. preserve. Qed.

Lemma frame_ReplayDead tenant user id : preserves frame (ReplayDead tenant user id).
Proof. unfold ReplayDead. preserve. Qed.

Lemma frame_CancelRun tenant user id : preserves frame (CancelRun tenant user id).
Proof. unfold CancelRun. preserve. Qed.

Lemma frame_RetryRun tenant user id : preserves frame (RetryRun tenant user id).
Proof. unfold RetryRun. preserve. Qed.

Lemma frame_promote_retries : preserves frame promote_retries.
Proof. unfold promote_retries. preserve. intros env n db. by apply frame_update_tasks. Qed.

Lemma frame_recover_one now e : preserves frame (recover_one now e).
Proof. destruct e as [[id t] r]. unfold recover_one. preserve. Qed.

Lemma frame_dispatch_one now e : preserves frame (dispatch_one now e).
Proof. destruct e as [[id t] r]. unfold dispatch_one. preserve. Qed.

#[export] Hint Resolve frame_recover_one frame_dispatch_one : preserve.

Lemma frame_recoverExpired : preserves frame recoverExpired.
Proof. unfold recoverExpired. preserve. Qed.

Lemma frame_dispatch_ready : preserves frame dispatch_ready.
Proof. unfold dispatch_ready. preserve. Qed.
