(* ===== verification/Lifecycle.v ===== *)
(** Abstract specification of the durable execution engine.

    The state keeps, of the database, what the life cycle of runs and tasks is
    about: the status, lease and attempt counters of every task, the status of
    every run, the dependency edges and the recorded attempts.  A step is
    described row by row: [row_step] lists every change one task may undergo,
    with the guard that allows it, and [run_step] every change of a run.
    [lstep] is a whole transaction: each task and each run makes one such
    change, or a new run is created.

    The storage and scheduler operations are shown to refine this relation in
    [Refinement]; here the invariants of the engine are proved for it. *)
From S2P Require Import Prelude State Schema.

Record atask := mkAtask {
  at_run : uuid;
  at_status : task_status;
  at_owner : option string;
  at_expires : option time;
  at_attempt : Z;
  at_max : Z
}.

Record arun := mkArun {
  ar_tenant : uuid;
  ar_status : run_status;
  ar_completed : option time
}.

Record astate := mkAstate {
  a_runs : gmap uuid arun;
  a_tasks : gmap uuid atask;
  a_deps : gset (uuid * uuid);
  a_attempts : gset (uuid * Z)
}.

(** A worker holds the task. *)
Definition active (t : atask) : Prop := at_status t = LEASED ∨ at_status t = RUNNING.

(** The task has been released for execution, now or in the past: such a task
    must have all its dependencies satisfied. *)
Definition released (t : atask) : Prop := at_status t ≠ BLOCKED ∧ at_status t ≠ CANCELLED.

(** Work no worker holds, which cancellation sweeps. *)
Definition waiting (t : atask) : Prop :=
  at_status t = BLOCKED ∨ at_status t = READY ∨ at_status t = DISPATCHING ∨
  at_status t = RETRY_WAIT.

Definition upstream_done (s : astate) (c : uuid) : Prop :=
  ∀ u tu, (c, u) ∈ a_deps s → a_tasks s !! u = Some tu → at_status tu = SUCCEEDED.

Definition upstream_pending (s : astate) (c : uuid) : Prop :=
  ∃ u tu, (c, u) ∈ a_deps s ∧ a_tasks s !! u = Some tu ∧ at_status tu ≠ SUCCEEDED.

Definition all_succeeded (s : astate) (rid : uuid) : Prop :=
  ∀ k t, a_tasks s !! k = Some t → at_run t = rid → at_status t = SUCCEEDED.

Definition run_is (s : astate) (rid : uuid) (st : run_status) : Prop :=
  ar_status <$> a_runs s !! rid = Some st.

Definition some_dead (s : astate) (rid : uuid) : Prop :=
  ∃ k t, a_tasks s !! k = Some t ∧ at_run t = rid ∧ at_status t = DEAD.

Lemma not_pending_done s c : ¬ upstream_pending s c → upstream_done s c.
Proof.
  intros Hn u tu He Hu. destruct (decide (at_status tu = SUCCEEDED)); [done|].
  destruct Hn. by exists u, tu.
Qed.

(** * Changes of one task *)

Inductive row_step (s s' : astate) (k : uuid) (t : atask) : atask → Prop :=
  | rs_same :
      row_step s s' k t t
  | rs_promote :
      at_status t = RETRY_WAIT →
      row_step s s' k t (t<| at_status := READY |>)
  | rs_dispatch :
      at_status t = READY →
      row_step s s' k t (t<| at_status := DISPATCHING |>)
  | rs_lease w e :
      at_status t = DISPATCHING →
      row_step s s' k t
        (t<| at_status := LEASED |><| at_owner := Some w |><| at_expires := Some e |>
          <| at_attempt ::= Z.succ |>)
  | rs_start :
      at_status t = LEASED → run_is s (at_run t) RUN_RUNNING →
      row_step s s' k t (t<| at_status := RUNNING |>)
  | rs_renew e :
      active t →
      row_step s s' k t (t<| at_expires := Some e |>)
  | rs_succeed :
      at_status t = RUNNING → run_is s (at_run t) RUN_RUNNING →
      (all_succeeded s' (at_run t) → run_is s' (at_run t) RUN_SUCCEEDED) →
      row_step s s' k t (t<| at_status := SUCCEEDED |><| at_expires := None |>)
  | rs_unblock :
      at_status t = BLOCKED → upstream_done s' k →
      row_step s s' k t (t<| at_status := READY |>)
  | rs_retry :
      active t → ¬ run_is s (at_run t) RUN_CANCELLED → at_attempt t < at_max t →
      row_step s s' k t (t<| at_status := RETRY_WAIT |><| at_owner := None |><| at_expires := None |>)
  | rs_dead :
      active t → ¬ run_is s (at_run t) RUN_CANCELLED → ¬ run_is s' (at_run t) RUN_RUNNING →
      row_step s s' k t (t<| at_status := DEAD |><| at_owner := None |><| at_expires := None |>)
  | rs_stop :
      active t → run_is s (at_run t) RUN_CANCELLED →
      row_step s s' k t (t<| at_status := CANCELLED |><| at_owner := None |><| at_expires := None |>)
  | rs_cancel :
      waiting t → ¬ run_is s' (at_run t) RUN_RUNNING →
      row_step s s' k t (t<| at_status := CANCELLED |>)
  | rs_revive m o :
      at_status t = DEAD → m = Z.max (at_max t) (at_attempt t + 1) →
      o = at_owner t ∨ o = None → ¬ run_is s' (at_run t) RUN_FAILED →
      row_step s s' k t (t<| at_status := READY |><| at_owner := o |><| at_max := m |>)
  | rs_rebuild_blocked :
      at_status t = CANCELLED → upstream_pending s' k →
      row_step s s' k t (t<| at_status := BLOCKED |>)
  | rs_rebuild_ready st :
      at_status t = CANCELLED → upstream_done s' k → st = READY ∨ st = RETRY_WAIT →
      row_step s s' k t (t<| at_status := st |>).

(** * Changes of one run *)

Inductive run_step (s s' : astate) (rid : uuid) (r : arun) : arun → Prop :=
  | rn_same :
      run_step s s' rid r r
  | rn_succeed c :
      ar_status r = RUN_RUNNING → all_succeeded s' rid →
      run_step s s' rid r (r<| ar_status := RUN_SUCCEEDED |><| ar_completed := Some c |>)
  | rn_fail c :
      ar_status r = RUN_RUNNING → some_dead s' rid →
      run_step s s' rid r (r<| ar_status := RUN_FAILED |><| ar_completed := Some c |>)
  | rn_cancel c :
      ar_status r = RUN_RUNNING ∨ ar_status r = RUN_PENDING →
      run_step s s' rid r (r<| ar_status := RUN_CANCELLED |><| ar_completed := Some c |>)
  | rn_reopen :
      some_dead s rid →
      run_step s s' rid r (r<| ar_status := RUN_RUNNING |><| ar_completed := None |>).

(** * Transactions *)

Record updates (s s' : astate) : Prop := {
  up_deps : a_deps s' = a_deps s;
  up_tasks : ∀ k, option_Forall2 (row_step s s' k) (a_tasks s !! k) (a_tasks s' !! k);
  up_runs : ∀ rid, option_Forall2 (run_step s s' rid) (a_runs s !! rid) (a_runs s' !! rid);
  (** no lost wake-up: a task that stays blocked still waits for something *)
  up_wake : ∀ k t', a_tasks s' !! k = Some t' → at_status t' = BLOCKED →
    upstream_pending s k → upstream_pending s' k;
  (** attempts are recorded with the lease, and only then *)
  up_attempts : ∀ k n, (k, n) ∈ a_attempts s' ↔
    (k, n) ∈ a_attempts s ∨
    ∃ t t', a_tasks s !! k = Some t ∧ a_tasks s' !! k = Some t' ∧
            at_attempt t < n ≤ at_attempt t'
}.

(** A new run: its tasks are fresh, its dependency edges join only its own
    tasks and have no cycle, and exactly the tasks without dependencies start
    ready. *)
Record creates (s s' : astate) (rid : uuid) (r : arun) (new : gmap uuid atask)
    (edges : gset (uuid * uuid)) : Prop := {
  cr_run_fresh : a_runs s !! rid = None;
  cr_runs : a_runs s' = <[rid := r]> (a_runs s);
  cr_tasks_fresh : new ##ₘ a_tasks s;
  cr_tasks : a_tasks s' = new ∪ a_tasks s;
  cr_deps : a_deps s' = edges ∪ a_deps s;
  cr_attempts : a_attempts s' = a_attempts s;
  cr_status : ar_status r = RUN_RUNNING;
  cr_completed : ar_completed r = None;
  cr_nonempty : new ≠ ∅;
  cr_new : ∀ k t, new !! k = Some t →
    at_run t = rid ∧ at_owner t = None ∧ at_expires t = None ∧ at_attempt t = 0 ∧ 1 ≤ at_max t ∧
    ((at_status t = READY ∧ ∀ u, (k, u) ∉ edges) ∨
     (at_status t = BLOCKED ∧ ∃ u, (k, u) ∈ edges));
  cr_edges : ∀ c u, (c, u) ∈ edges → is_Some (new !! c) ∧ is_Some (new !! u);
  cr_acyclic : ∀ c, Acc (λ u c, (c, u) ∈ edges) c
}.

Inductive lstep (s s' : astate) : Prop :=
  | lstep_update : updates s s' → lstep s s'
  | lstep_create rid r new edges : creates s s' rid r new edges → lstep s s'.

Definition empty_state : astate := mkAstate ∅ ∅ ∅ ∅.

Definition reachable (s : astate) : Prop := rtc lstep empty_state s.

(** * Invariants *)

Record Inv (s : astate) : Prop := {
  (** tasks belong to runs; edges join tasks of one run and have no cycle *)
  inv_run : ∀ k t, a_tasks s !! k = Some t → is_Some (a_runs s !! at_run t);
  inv_edges : ∀ c u, (c, u) ∈ a_deps s → ∃ tc tu,
    a_tasks s !! c = Some tc ∧ a_tasks s !! u = Some tu ∧ at_run tc = at_run tu;
  inv_acyclic : ∀ c, Acc (λ u c, (c, u) ∈ a_deps s) c;
  (** a released task, or one that was ever attempted, has its dependencies met *)
  inv_released : ∀ k t, a_tasks s !! k = Some t → released t ∨ 0 < at_attempt t →
    upstream_done s k;
  (** a blocked task waits for something *)
  inv_blocked : ∀ k t, a_tasks s !! k = Some t → at_status t = BLOCKED → upstream_pending s k;
  (** the lease columns are set exactly while a worker holds the task *)
  inv_lease : ∀ k t, a_tasks s !! k = Some t →
    (is_Some (at_expires t) ↔ active t) ∧ (active t → is_Some (at_owner t));
  (** the attempt history is complete *)
  inv_count : ∀ k t, a_tasks s !! k = Some t → 0 ≤ at_attempt t ∧ 1 ≤ at_max t ∧
    (active t ∨ at_status t = SUCCEEDED ∨ at_status t = DEAD → 1 ≤ at_attempt t);
  inv_attempts : ∀ k n, (k, n) ∈ a_attempts s ↔
    ∃ t, a_tasks s !! k = Some t ∧ 1 ≤ n ≤ at_attempt t;
  (** the status of a run agrees with its tasks *)
  inv_nonempty : ∀ rid, is_Some (a_runs s !! rid) → ∃ k t,
    a_tasks s !! k = Some t ∧ at_run t = rid;
  inv_succeeded : ∀ rid, is_Some (a_runs s !! rid) →
    run_is s rid RUN_SUCCEEDED ↔ all_succeeded s rid;
  inv_failed : ∀ rid, run_is s rid RUN_FAILED → some_dead s rid;
  inv_completed : ∀ rid r, a_runs s !! rid = Some r →
    ar_status r ≠ RUN_PENDING ∧ (ar_completed r = None ↔ ar_status r = RUN_RUNNING);
  inv_no_failed : ∀ k t, a_tasks s !! k = Some t → at_status t ≠ FAILED
}.

Create HintDb lifecycle discriminated.
#[export] Hint Constructors row_step run_step : lifecycle.

(** ** What one row change may do *)

(** Case analysis on statuses: open the disjunctions among the hypotheses and
    close the cases whose statuses clash. *)
Ltac status_cases :=
  unfold active, waiting, released in *; simpl in *; intros;
  repeat match goal with
  | H : _ ∧ _ |- _ => destruct H
  | H : _ ∨ _ |- _ => destruct H
  end; simplify_eq/=; try congruence.

Section Rows.
Context {s s' : astate} {k : uuid} {t t' : atask}.

Lemma row_run : row_step s s' k t t' → at_run t' = at_run t.
Proof. by destruct 1. Qed.

Lemma row_succeeded : row_step s s' k t t' → at_status t = SUCCEEDED → t' = t.
Proof. destruct 1; status_cases. Qed.

Lemma row_becomes_succeeded :
  row_step s s' k t t' → at_status t' = SUCCEEDED →
  t' = t ∨ (at_status t = RUNNING ∧ run_is s (at_run t) RUN_RUNNING ∧
            (all_succeeded s' (at_run t) → run_is s' (at_run t) RUN_SUCCEEDED)).
Proof. destruct 1; status_cases; auto. Qed.

Lemma row_released_or :
  row_step s s' k t t' → released t' → released t ∨ upstream_done s' k.
Proof. destruct 1; status_cases; first [by right|left; split; congruence]. Qed.

Lemma row_attempt_mono : row_step s s' k t t' → at_attempt t ≤ at_attempt t'.
Proof. destruct 1; simpl; lia. Qed.

Lemma row_attempt_released :
  row_step s s' k t t' → at_attempt t < at_attempt t' → at_status t = DISPATCHING.
Proof. destruct 1; simpl; intros; try lia; done. Qed.

Lemma row_blocked :
  row_step s s' k t t' → at_status t' = BLOCKED → t' = t ∨ upstream_pending s' k.
Proof. destruct 1; status_cases; auto. Qed.

Lemma row_lease :
  row_step s s' k t t' →
  (is_Some (at_expires t) ↔ active t) ∧ (active t → is_Some (at_owner t)) →
  (is_Some (at_expires t') ↔ active t') ∧ (active t' → is_Some (at_owner t')).
Proof.
  intros Hrow [He Ho].
  assert (¬ active t → ¬ is_Some (at_expires t)) as Hn by tauto.
  destruct Hrow; simpl; try done; unfold active, waiting in *; simpl;
    repeat split; status_cases; eauto;
    try (exfalso; apply Hn; [intros [?|?]; congruence|done]);
    try (by apply He; auto); by exfalso; eapply is_Some_None.
Qed.

Lemma row_count :
  row_step s s' k t t' →
  0 ≤ at_attempt t ∧ 1 ≤ at_max t ∧
    (active t ∨ at_status t = SUCCEEDED ∨ at_status t = DEAD → 1 ≤ at_attempt t) →
  0 ≤ at_attempt t' ∧ 1 ≤ at_max t' ∧
    (active t' ∨ at_status t' = SUCCEEDED ∨ at_status t' = DEAD → 1 ≤ at_attempt t').
Proof.
  intros Hrow (? & ? & Hi).
  destruct Hrow; (split; [simpl; lia|split; [simpl; lia|]]); [exact Hi|..];
    unfold active in *; simpl; try (intros; lia); try (intros; apply Hi; tauto);
    status_cases.
Qed.

Lemma row_no_failed :
  row_step s s' k t t' → at_status t ≠ FAILED → at_status t' ≠ FAILED.
Proof. destruct 1; status_cases. Qed.

Lemma row_dead :
  row_step s s' k t t' → at_status t' = DEAD →
  t' = t ∨ ¬ run_is s' (at_run t) RUN_RUNNING.
Proof. destruct 1; status_cases; auto. Qed.
End Rows.

(** ** Updates, row by row *)

Section Updates.
Context {s s' : astate} (U : updates s s').

Lemma updates_task_inv k t' :
  a_tasks s' !! k = Some t' → ∃ t, a_tasks s !! k = Some t ∧ row_step s s' k t t'.
Proof.
  intros Hk. pose proof (up_tasks _ _ U k) as Hf. rewrite Hk in Hf.
  inversion Hf; subst. eauto.
Qed.

Lemma updates_task k t :
  a_tasks s !! k = Some t → ∃ t', a_tasks s' !! k = Some t' ∧ row_step s s' k t t'.
Proof.
  intros Hk. pose proof (up_tasks _ _ U k) as Hf. rewrite Hk in Hf.
  inversion Hf; subst. eauto.
Qed.

Lemma updates_run_inv rid r' :
  a_runs s' !! rid = Some r' → ∃ r, a_runs s !! rid = Some r ∧ run_step s s' rid r r'.
Proof.
  intros Hk. pose proof (up_runs _ _ U rid) as Hf. rewrite Hk in Hf.
  inversion Hf; subst. eauto.
Qed.

Lemma updates_run rid r :
  a_runs s !! rid = Some r → ∃ r', a_runs s' !! rid = Some r' ∧ run_step s s' rid r r'.
Proof.
  intros Hk. pose proof (up_runs _ _ U rid) as Hf. rewrite Hk in Hf.
  inversion Hf; subst. eauto.
Qed.

(** Success is final. *)
Lemma updates_succeeded k t :
  a_tasks s !! k = Some t → at_status t = SUCCEEDED → a_tasks s' !! k = Some t.
Proof.
  intros Hk Hs. destruct (updates_task _ _ Hk) as (t' & Hk' & Hrow).
  by rewrite <-(row_succeeded Hrow Hs).
Qed.

Lemma updates_upstream_done k : upstream_done s k → upstream_done s' k.
Proof.
  intros Hd u tu'. rewrite (up_deps _ _ U). intros He Hu'.
  destruct (updates_task_inv _ _ Hu') as (tu & Hu & _).
  specialize (Hd _ _ He Hu). rewrite (updates_succeeded _ _ Hu Hd) in Hu'. naive_solver.
Qed.

(** When every task of a run has succeeded, either that was so before or
    the run has just been completed. *)
Lemma updates_all_succeeded_back rid :
  all_succeeded s' rid → all_succeeded s rid ∨ run_is s' rid RUN_SUCCEEDED.
Proof.
  intros Hall. destruct (decide (map_Forall (λ _ t, at_run t = rid → at_status t = SUCCEEDED)
    (a_tasks s))) as [Hs|Hs]; [by left|right].
  apply map_not_Forall in Hs as (k & t & Hk & Hneg); [|solve_decision].
  destruct (decide (at_run t = rid)) as [<-|]; [|tauto].
  destruct (updates_task _ _ Hk) as (t' & Hk' & Hrow).
  assert (at_status t' = SUCCEEDED) as Hs' by (eapply Hall; [done|by rewrite (row_run Hrow)]).
  destruct (row_becomes_succeeded Hrow Hs') as [->|(_ & _ & Hrun)]; [tauto|auto].
Qed.

Lemma updates_all_succeeded rid : all_succeeded s rid → all_succeeded s' rid.
Proof.
  intros Hall k t' Hk' Hr. destruct (updates_task_inv _ _ Hk') as (t & Hk & Hrow).
  rewrite (row_run Hrow) in Hr. specialize (Hall _ _ Hk Hr).
  by rewrite (row_succeeded Hrow Hall).
Qed.

Context (I : Inv s).

Lemma updates_inv_released k t' :
  a_tasks s' !! k = Some t' → released t' ∨ 0 < at_attempt t' → upstream_done s' k.
Proof.
  intros Hk' Hr. destruct (updates_task_inv _ _ Hk') as (t & Hk & Hrow).
  assert (released t ∨ 0 < at_attempt t → upstream_done s' k) as Hold.
  { intros ?. eapply updates_upstream_done, (inv_released _ I); eauto. }
  destruct Hr as [Hr|Hr].
  - destruct (row_released_or Hrow Hr); auto.
  - destruct (decide (0 < at_attempt t)); [auto|].
    pose proof (row_attempt_released Hrow ltac:(lia)) as Hd. apply Hold. left.
    split; congruence.
Qed.

Lemma updates_inv_blocked k t' :
  a_tasks s' !! k = Some t' → at_status t' = BLOCKED → upstream_pending s' k.
Proof.
  intros Hk' Hb. destruct (updates_task_inv _ _ Hk') as (t & Hk & Hrow).
  destruct (row_blocked Hrow Hb) as [->|?]; [|done].
  eapply (up_wake _ _ U); eauto. by eapply (inv_blocked _ I).
Qed.

Lemma updates_inv_succeeded rid :
  is_Some (a_runs s' !! rid) → run_is s' rid RUN_SUCCEEDED ↔ all_succeeded s' rid.
Proof.
  intros [r' Hr']. destruct (updates_run_inv _ _ Hr') as (r & Hr & Hrun).
  pose proof (inv_succeeded _ I rid ltac:(eauto)) as [Hsa Hsb].
  unfold run_is in *. rewrite Hr in *. rewrite Hr' in *. split.
  - intros [= Hst]. destruct Hrun; simpl in *; try congruence; [|done].
    apply updates_all_succeeded, Hsa. congruence.
  - intros Hall. destruct (updates_all_succeeded_back _ Hall) as [Hs|Hs];
      [|by unfold run_is in Hs; rewrite Hr' in Hs].
    specialize (Hsb Hs). injection Hsb as Hst.
    destruct Hrun as [|c Hn|c Hn|c [Hn|Hn]|(k & t & Hk & Hkr & Hd)]; simpl; try congruence.
    rewrite (Hs _ _ Hk Hkr) in Hd. congruence.
Qed.

Lemma updates_inv_failed rid : run_is s' rid RUN_FAILED → some_dead s' rid.
Proof.
  unfold run_is. destruct (a_runs s' !! rid) as [r'|] eqn:Hr'; [|done]. intros [= Hst].
  destruct (updates_run_inv _ _ Hr') as (r & Hr & Hrun).
  destruct Hrun; simpl in *; try congruence.
  destruct (inv_failed _ I rid) as (k & t & Hk & Hkr & Hd);
    [unfold run_is; rewrite Hr; by f_equal/=|].
  destruct (updates_task _ _ Hk) as (t' & Hk' & Hrow). exists k, t'.
  rewrite (row_run Hrow). split_and!; try done.
  destruct Hrow as [| | | | | | | | | | | |m o ? ? ? Hnf| |]; status_cases;
    exfalso; apply Hnf; unfold run_is; rewrite Hr'; by f_equal/=.
Qed.

Lemma updates_inv_completed rid r' :
  a_runs s' !! rid = Some r' →
  ar_status r' ≠ RUN_PENDING ∧ (ar_completed r' = None ↔ ar_status r' = RUN_RUNNING).
Proof.
  intros Hr'. destruct (updates_run_inv _ _ Hr') as (r & Hr & Hrun).
  destruct (inv_completed _ I _ _ Hr) as [Hp Hc].
  destruct Hrun; simpl; [done|..]; split; done.
Qed.

Lemma updates_inv_attempts k n :
  (k, n) ∈ a_attempts s' ↔ ∃ t, a_tasks s' !! k = Some t ∧ 1 ≤ n ≤ at_attempt t.
Proof.
  rewrite (up_attempts _ _ U), (inv_attempts _ I). split.
  - intros [(t & Hk & Hn)|(t & t' & Hk & Hk' & Hn)].
    + destruct (updates_task _ _ Hk) as (t' & Hk' & Hrow). exists t'.
      pose proof (row_attempt_mono Hrow). split; [done|lia].
    + exists t'. pose proof (inv_count _ I _ _ Hk). split; [done|lia].
  - intros (t' & Hk' & Hn). destruct (updates_task_inv _ _ Hk') as (t & Hk & Hrow).
    destruct (decide (n ≤ at_attempt t)); [left|right]; eauto with lia.
Qed.

Lemma updates_preserves : Inv s'.
Proof.
  split.
  - intros k t' Hk'. destruct (updates_task_inv _ _ Hk') as (t & Hk & Hrow).
    rewrite (row_run Hrow). destruct (inv_run _ I _ _ Hk) as [r Hr].
    destruct (updates_run _ _ Hr) as (r' & Hr' & _). eauto.
  - intros c u. rewrite (up_deps _ _ U). intros He.
    destruct (inv_edges _ I _ _ He) as (tc & tu & Hc & Hu & Heq).
    destruct (updates_task _ _ Hc) as (tc' & Hc' & Hrc).
    destruct (updates_task _ _ Hu) as (tu' & Hu' & Hru).
    exists tc', tu'. by rewrite (row_run Hrc), (row_run Hru).
  - rewrite (up_deps _ _ U). apply (inv_acyclic _ I).
  - apply updates_inv_released.
  - apply updates_inv_blocked.
  - intros k t' Hk'. destruct (updates_task_inv _ _ Hk') as (t & Hk & Hrow).
    eapply (row_lease Hrow), (inv_lease _ I); eauto.
  - intros k t' Hk'. destruct (updates_task_inv _ _ Hk') as (t & Hk & Hrow).
    eapply (row_count Hrow), (inv_count _ I); eauto.
  - apply updates_inv_attempts.
  - intros rid [r' Hr']. destruct (updates_run_inv _ _ Hr') as (r & Hr & _).
    destruct (inv_nonempty _ I rid) as (k & t & Hk & Hkr); [eauto|].
    destruct (updates_task _ _ Hk) as (t' & Hk' & Hrow).
    exists k, t'. by rewrite (row_run Hrow).
  - apply updates_inv_succeeded.
  - apply updates_inv_failed.
  - apply updates_inv_completed.
  - intros k t' Hk'. destruct (updates_task_inv _ _ Hk') as (t & Hk & Hrow).
    eapply (row_no_failed Hrow), (inv_no_failed _ I); eauto.
Qed.
End Updates.

(** ** Creation of a run *)

Section Creates.
Context {s s' : astate} {rid : uuid} {r : arun} {new : gmap uuid atask}
        {edges : gset (uuid * uuid)}.
Context (C : creates s s' rid r new edges) (I : Inv s).

Lemma creates_task k t :
  a_tasks s' !! k = Some t ↔ new !! k = Some t ∨ a_tasks s !! k = Some t.
Proof.
  rewrite (cr_tasks _ _ _ _ _ _ C), lookup_union_Some by apply (cr_tasks_fresh _ _ _ _ _ _ C).
  done.
Qed.

Lemma creates_disjoint k t t' : new !! k = Some t → a_tasks s !! k = Some t' → False.
Proof. apply map_disjoint_spec, (cr_tasks_fresh _ _ _ _ _ _ C). Qed.

Lemma creates_run rid' r' :
  a_runs s' !! rid' = Some r' ↔ (rid' = rid ∧ r' = r) ∨ (rid' ≠ rid ∧ a_runs s !! rid' = Some r').
Proof.
  rewrite (cr_runs _ _ _ _ _ _ C), lookup_insert_Some. naive_solver.
Qed.

Lemma creates_old_run k t : a_tasks s !! k = Some t → at_run t ≠ rid.
Proof.
  intros Hk Hr. destruct (inv_run _ I _ _ Hk) as [r0 Hr0].
  by rewrite Hr, (cr_run_fresh _ _ _ _ _ _ C) in Hr0.
Qed.

Lemma creates_old_edge k t u :
  a_tasks s !! k = Some t → (k, u) ∈ a_deps s' ↔ (k, u) ∈ a_deps s.
Proof.
  intros Hk. rewrite (cr_deps _ _ _ _ _ _ C), elem_of_union. split; [|by right].
  intros [He|?]; [|done]. destruct (cr_edges _ _ _ _ _ _ C _ _ He) as [[t' Hk'] _].
  by destruct (creates_disjoint _ _ _ Hk' Hk).
Qed.

Lemma creates_new_edge k t u :
  new !! k = Some t → (k, u) ∈ a_deps s' ↔ (k, u) ∈ edges.
Proof.
  intros Hk. rewrite (cr_deps _ _ _ _ _ _ C), elem_of_union. split; [|by left].
  intros [?|He]; [done|]. destruct (inv_edges _ I _ _ He) as (t' & _ & Hk' & _).
  by destruct (creates_disjoint _ _ _ Hk Hk').
Qed.

Lemma creates_old_upstream k t u tu :
  a_tasks s !! k = Some t → (k, u) ∈ a_deps s →
  a_tasks s' !! u = Some tu ↔ a_tasks s !! u = Some tu.
Proof.
  intros Hk He. rewrite creates_task. split; [|by right]. intros [Hu|?]; [|done].
  destruct (inv_edges _ I _ _ He) as (_ & tu' & _ & Hu' & _).
  by destruct (creates_disjoint _ _ _ Hu Hu').
Qed.

Lemma creates_old_done k t :
  a_tasks s !! k = Some t → upstream_done s k → upstream_done s' k.
Proof.
  intros Hk Hd u tu He Hu. rewrite (creates_old_edge _ _ _ Hk) in He.
  apply (creates_old_upstream _ _ _ _ Hk He) in Hu. eauto.
Qed.

Lemma creates_old_pending k t :
  a_tasks s !! k = Some t → upstream_pending s k → upstream_pending s' k.
Proof.
  intros Hk (u & tu & He & Hu & Hne). exists u, tu. split_and!; [|by apply creates_task; right|done].
  by eapply creates_old_edge.
Qed.

Lemma creates_new_pending k t :
  new !! k = Some t → (∃ u, (k, u) ∈ edges) → upstream_pending s' k.
Proof.
  intros Hk [u He]. destruct (cr_edges _ _ _ _ _ _ C _ _ He) as [_ [tu Hu]].
  exists u, tu. split_and!; [by eapply creates_new_edge|by apply creates_task; left|].
  destruct (cr_new _ _ _ _ _ _ C _ _ Hu) as (_ & _ & _ & _ & _ & [[-> _]|[-> _]]); done.
Qed.

Lemma creates_new_done k t :
  new !! k = Some t → (∀ u, (k, u) ∉ edges) → upstream_done s' k.
Proof.
  intros Hk Hno u tu He. apply (creates_new_edge _ _ _ Hk) in He. by destruct (Hno u).
Qed.

Lemma creates_acyclic c : Acc (λ u c, (c, u) ∈ a_deps s') c.
Proof.
  assert (∀ c t, a_tasks s !! c = Some t → Acc (λ u c, (c, u) ∈ a_deps s') c) as Hold.
  { intros c0. induction (inv_acyclic _ I c0) as [c0 _ IH]. intros t Hc. constructor.
    intros u He. apply (creates_old_edge _ _ _ Hc) in He.
    destruct (inv_edges _ I _ _ He) as (_ & tu & _ & Hu & _). eauto. }
  assert (∀ c t, new !! c = Some t → Acc (λ u c, (c, u) ∈ a_deps s') c) as Hnew.
  { intros c0. induction (cr_acyclic _ _ _ _ _ _ C c0) as [c0 _ IH]. intros t Hc. constructor.
    intros u He. apply (creates_new_edge _ _ _ Hc) in He.
    destruct (cr_edges _ _ _ _ _ _ C _ _ He) as [_ [tu Hu]]. eauto. }
  constructor. intros u He. rewrite (cr_deps _ _ _ _ _ _ C), elem_of_union in He.
  destruct He as [He|He].
  - destruct (cr_edges _ _ _ _ _ _ C _ _ He) as [_ [tu Hu]]. eauto.
  - destruct (inv_edges _ I _ _ He) as (_ & tu & _ & Hu & _). eauto.
Qed.

Lemma creates_all_succeeded rid' :
  rid' ≠ rid → all_succeeded s' rid' ↔ all_succeeded s rid'.
Proof.
  intros Hne. split; intros Hall k t Hk Hr.
  - eapply Hall; [by apply creates_task; right|done].
  - apply creates_task in Hk as [Hk|Hk]; [|by eapply Hall].
    destruct (cr_new _ _ _ _ _ _ C _ _ Hk) as [<- _]. done.
Qed.

Lemma creates_run_is rid' st : rid' ≠ rid → run_is s' rid' st ↔ run_is s rid' st.
Proof.
  intros Hne. unfold run_is. rewrite (cr_runs _ _ _ _ _ _ C). by rewrite lookup_insert_ne.
Qed.

Lemma creates_new_run st : run_is s' rid st ↔ st = RUN_RUNNING.
Proof.
  unfold run_is. rewrite (cr_runs _ _ _ _ _ _ C), lookup_insert_eq. simpl.
  rewrite (cr_status _ _ _ _ _ _ C). naive_solver.
Qed.

Lemma creates_new_unfinished : ∃ k t, new !! k = Some t ∧ at_run t = rid ∧ at_status t ≠ SUCCEEDED.
Proof.
  destruct (map_choose _ (cr_nonempty _ _ _ _ _ _ C)) as (k & t & Hk). exists k, t.
  destruct (cr_new _ _ _ _ _ _ C _ _ Hk) as (-> & _ & _ & _ & _ & [[-> _]|[-> _]]); done.
Qed.

Lemma creates_inv_edges c u :
  (c, u) ∈ a_deps s' → ∃ tc tu,
    a_tasks s' !! c = Some tc ∧ a_tasks s' !! u = Some tu ∧ at_run tc = at_run tu.
Proof.
  setoid_rewrite creates_task. rewrite (cr_deps _ _ _ _ _ _ C), elem_of_union. intros [He|He].
  - destruct (cr_edges _ _ _ _ _ _ C _ _ He) as [[tc Hc] [tu Hu]]. exists tc, tu.
    destruct (cr_new _ _ _ _ _ _ C _ _ Hc) as [-> _], (cr_new _ _ _ _ _ _ C _ _ Hu) as [-> _].
    auto.
  - destruct (inv_edges _ I _ _ He) as (tc & tu & Hc & Hu & Heq). exists tc, tu. auto.
Qed.

Lemma creates_inv_released k t :
  a_tasks s' !! k = Some t → released t ∨ 0 < at_attempt t → upstream_done s' k.
Proof.
  intros [Hk|Hk]%creates_task Hr; [|eapply creates_old_done, (inv_released _ I); eauto].
  destruct (cr_new _ _ _ _ _ _ C _ _ Hk) as (_ & _ & _ & H0 & _ & [[Hs He]|[Hs He]]).
  - by eapply creates_new_done.
  - destruct Hr as [[? _]|?]; [done|lia].
Qed.

Lemma creates_inv_blocked k t :
  a_tasks s' !! k = Some t → at_status t = BLOCKED → upstream_pending s' k.
Proof.
  intros [Hk|Hk]%creates_task Hb; [|eapply creates_old_pending, (inv_blocked _ I); eauto].
  destruct (cr_new _ _ _ _ _ _ C _ _ Hk) as (_ & _ & _ & _ & _ & [[Hs _]|[_ He]]);
    [congruence|by eapply creates_new_pending].
Qed.

Lemma creates_new_row k t :
  new !! k = Some t →
  ((is_Some (at_expires t) ↔ active t) ∧ (active t → is_Some (at_owner t))) ∧
  (0 ≤ at_attempt t ∧ 1 ≤ at_max t ∧
    (active t ∨ at_status t = SUCCEEDED ∨ at_status t = DEAD → 1 ≤ at_attempt t)) ∧
  at_status t ≠ FAILED.
Proof.
  intros Hk. destruct (cr_new _ _ _ _ _ _ C _ _ Hk) as (_ & -> & -> & -> & ? & Hs).
  unfold active. rewrite !is_Some_alt.
  destruct Hs as [[-> _]|[-> _]]; split_and!; try done; naive_solver.
Qed.

Lemma creates_inv_succeeded rid' :
  is_Some (a_runs s' !! rid') → run_is s' rid' RUN_SUCCEEDED ↔ all_succeeded s' rid'.
Proof.
  intros [r' Hr']. destruct (decide (rid' = rid)) as [->|Hne].
  - rewrite creates_new_run. split; [done|]. intros Hall.
    destruct creates_new_unfinished as (k & t & Hk & Ht & Hu). destruct Hu.
    apply (Hall k); [by apply creates_task; left|done].
  - rewrite creates_run_is, creates_all_succeeded by done. apply (inv_succeeded _ I).
    apply creates_run in Hr' as [[? _]|[_ ?]]; [done|eauto].
Qed.

Lemma creates_preserves : Inv s'.
Proof.
  split.
  - intros k t [Hk|Hk]%creates_task.
    + destruct (cr_new _ _ _ _ _ _ C _ _ Hk) as [-> _]. exists r. apply creates_run. by left.
    + destruct (inv_run _ I _ _ Hk) as [r0 Hr0]. exists r0. apply creates_run. right.
      split; [by eapply creates_old_run|done].
  - apply creates_inv_edges.
  - apply creates_acyclic.
  - apply creates_inv_released.
  - apply creates_inv_blocked.
  - intros k t [Hk|Hk]%creates_task; [by eapply creates_new_row|by eapply (inv_lease _ I)].
  - intros k t [Hk|Hk]%creates_task; [by eapply creates_new_row|by eapply (inv_count _ I)].
  - intros k n. rewrite (cr_attempts _ _ _ _ _ _ C), (inv_attempts _ I).
    setoid_rewrite creates_task. split; [naive_solver|]. intros (t & [Hk|Hk] & Hn); [|eauto].
    destruct (cr_new _ _ _ _ _ _ C _ _ Hk) as (_ & _ & _ & H0 & _). lia.
  - intros rid' [r' Hr']. setoid_rewrite creates_task.
    apply creates_run in Hr' as [[-> ->]|[Hne Hr']].
    + destruct creates_new_unfinished as (k & t & Hk & Ht & _). eauto.
    + destruct (inv_nonempty _ I rid') as (k & t & Hk & Ht); eauto.
  - apply creates_inv_succeeded.
  - intros rid' Hf. destruct (decide (rid' = rid)) as [->|Hne].
    + by apply creates_new_run in Hf.
    + apply creates_run_is in Hf; [|done].
      destruct (inv_failed _ I _ Hf) as (k & t & Hk & ? & ?).
      exists k, t. rewrite creates_task. auto.
  - intros rid' r' [[-> ->]|[_ Hr']]%creates_run; [|by eapply (inv_completed _ I)].
    rewrite (cr_status _ _ _ _ _ _ C), (cr_completed _ _ _ _ _ _ C). done.
  - intros k t [Hk|Hk]%creates_task; [by eapply creates_new_row|by eapply (inv_no_failed _ I)].
Qed.
End Creates.

Lemma empty_inv : Inv empty_state.
Proof.
  assert (∀ k (t : atask), (∅ : gmap uuid atask) !! k ≠ Some t) as Ht
    by (intros; by rewrite lookup_empty).
  assert (∀ k (r : arun), (∅ : gmap uuid arun) !! k ≠ Some r) as Hr
    by (intros; by rewrite lookup_empty).
  split; unfold run_is; simpl.
  1,4,5,6,7,13: by intros k t ?%Ht.
  - by intros c u ?%elem_of_empty.
  - constructor. by intros u ?%elem_of_empty.
  - intros k n. rewrite elem_of_empty. naive_solver.
  - by intros rid [r ?%Hr].
  - by intros rid [r ?%Hr].
  - intros rid. by rewrite lookup_empty.
  - by intros rid r ?%Hr.
Qed.

Lemma lstep_preserves s s' : lstep s s' → Inv s → Inv s'.
Proof. intros [U|rid r new edges C] I; [by eapply updates_preserves|by eapply creates_preserves]. Qed.

Lemma reachable_inv s : reachable s → Inv s.
Proof.
  intros Hr. eapply (rtc_ind_r Inv empty_state empty_inv); [|exact Hr].
  intros s1 s2 _ Hstep I. by eapply lstep_preserves.
Qed.

(** * Building transactions

    Most transactions complete no task and start no attempt; for those the
    conditions on wake-ups and attempts follow from the rows. *)

Definition quiet_row (s s' : astate) (k : uuid) (t t' : atask) : Prop :=
  row_step s s' k t t' ∧ at_attempt t' = at_attempt t ∧
  (at_status t' = SUCCEEDED → at_status t = SUCCEEDED).

Lemma quiet_same s s' k t : quiet_row s s' k t t.
Proof. repeat split; auto with lifecycle. Qed.

Lemma updates_quiet s s' :
  a_deps s' = a_deps s → a_attempts s' = a_attempts s →
  (∀ k, option_Forall2 (quiet_row s s' k) (a_tasks s !! k) (a_tasks s' !! k)) →
  (∀ rid, option_Forall2 (run_step s s' rid) (a_runs s !! rid) (a_runs s' !! rid)) →
  updates s s'.
Proof.
  intros Hd Ha Ht Hr. split; try done.
  - intros k. destruct (Ht k) as [t t' []|]; by constructor.
  - intros k t' _ _ (u & tu & He & Hu & Hn). specialize (Ht u). rewrite Hu in Ht.
    inversion Ht as [? tu' (_ & _ & Hs)|]; subst. exists u, tu'. rewrite Hd. naive_solver.
  - intros k n. rewrite Ha. split; [by left|]. intros [?|(t & t' & Hk & Hk' & ?)]; [done|].
    specialize (Ht k). rewrite Hk, Hk' in Ht. inversion Ht as [? ? (_ & ? & _)|]; subst. lia.
Qed.

(** One row changes. *)
Lemma insert_rows {A} (R : uuid → A → A → Prop) (m : gmap uuid A) k0 x y :
  (∀ k z, R k z z) → m !! k0 = Some x → R k0 x y →
  ∀ k, option_Forall2 (R k) (m !! k) (<[k0 := y]> m !! k).
Proof.
  intros Hrefl Hx Hxy k. destruct (decide (k = k0)) as [->|Hne].
  - rewrite Hx, lookup_insert_eq. by constructor.
  - rewrite lookup_insert_ne by done. destruct (m !! k); by constructor.
Qed.

Lemma same_rows {A} (R : uuid → A → A → Prop) (m : gmap uuid A) :
  (∀ k z, R k z z) → ∀ k, option_Forall2 (R k) (m !! k) (m !! k).
Proof. intros Hrefl k. destruct (m !! k); by constructor. Qed.

(** A lease: one task changes and its new attempt is recorded. *)
Lemma updates_lease s s' k t w e :
  a_tasks s !! k = Some t → at_status t = DISPATCHING →
  a_runs s' = a_runs s → a_deps s' = a_deps s →
  a_tasks s' = <[k := t<| at_status := LEASED |><| at_owner := Some w |>
                       <| at_expires := Some e |><| at_attempt ::= Z.succ |>]> (a_tasks s) →
  a_attempts s' = {[(k, Z.succ (at_attempt t))]} ∪ a_attempts s →
  updates s s'.
Proof.
  intros Hk Hd Hr Hdeps Ht Ha.
  split; [done|rewrite Ht; apply (insert_rows _ _ _ t); auto with lifecycle| | |].
  - rewrite Hr. apply same_rows. auto with lifecycle.
  - intros j t' _ _ (u & tu & He & Hu & Hn). rewrite <-Hdeps in He.
    unfold upstream_pending. rewrite Ht. exists u. destruct (decide (u = k)) as [->|Hne].
    + eexists. by rewrite lookup_insert_eq.
    + exists tu. by rewrite lookup_insert_ne.
  - intros j n. rewrite Ha, Ht, elem_of_union, elem_of_singleton.
    destruct (decide (j = k)) as [->|Hne].
    + rewrite lookup_insert_eq, Hk. split; [intros [[= ->]|?]; [right|by left]|].
      * do 2 eexists. split_and!; [done..| |]; simpl; lia.
      * intros [?|(? & ? & [= <-] & [= <-] & ?)]; [by right|left]. simpl in *. f_equal. lia.
    + rewrite lookup_insert_ne by done. split; [naive_solver|].
      intros [?|(? & ? & Hj & Hj' & ?)]; [by right|]. simplify_eq. lia.
Qed.

#[export] Hint Resolve quiet_same : lifecycle.

(** * Consequences *)

(** A task that could still make its run progress without an operator. *)
Definition live (t : atask) : Prop :=
  at_status t = READY ∨ at_status t = DISPATCHING ∨ at_status t = RETRY_WAIT ∨ active t.

(** In a run that is still open, following pending dependencies from any
    unfinished task ends at a task that is not blocked. *)
Lemma unfinished_frontier s k t :
  Inv s → a_tasks s !! k = Some t → at_status t ≠ SUCCEEDED →
  ∃ k' t', a_tasks s !! k' = Some t' ∧ at_run t' = at_run t ∧
           at_status t' ≠ SUCCEEDED ∧ at_status t' ≠ BLOCKED.
Proof.
  intros I. revert t. induction (inv_acyclic _ I k) as [k _ IH]. intros t Hk Hne.
  destruct (decide (at_status t = BLOCKED)) as [Hb|Hb]; [|by exists k, t].
  destruct (inv_blocked _ I _ _ Hk Hb) as (u & tu & He & Hu & Hnu).
  destruct (inv_edges _ I _ _ He) as (tc & tu' & Hc & Hu' & Heq). simplify_eq.
  destruct (IH u He tu Hu Hnu) as (k' & t' & ? & Hr & ?). exists k', t'. by rewrite Hr, <-Heq.
Qed.

Lemma running_has_frontier s rid :
  Inv s → run_is s rid RUN_RUNNING →
  ∃ k t, a_tasks s !! k = Some t ∧ at_run t = rid ∧
         (live t ∨ at_status t = DEAD ∨ at_status t = CANCELLED).
Proof.
  intros I Hrun. unfold run_is in Hrun. destruct (a_runs s !! rid) as [r|] eqn:Hr; [|done].
  destruct (decide (map_Forall (λ _ t, at_run t = rid → at_status t = SUCCEEDED) (a_tasks s)))
    as [Hall|Hnot].
  - apply (inv_succeeded _ I rid ltac:(eauto)) in Hall. unfold run_is in Hall.
    rewrite Hr in Hall. simplify_eq/=. congruence.
  - apply map_not_Forall in Hnot as (k & t & Hk & Hneg); [|solve_decision].
    destruct (decide (at_run t = rid)) as [Ht|]; [|tauto].
    destruct (unfinished_frontier _ _ _ I Hk ltac:(tauto)) as (k' & t' & Hk' & Hr' & Hs & Hb).
    exists k', t'. split_and!; [done|congruence|]. unfold live, active.
    pose proof (inv_no_failed _ I _ _ Hk'). destruct (at_status t'); naive_solver.
Qed.
