(* ===== verification/Refinement.v ===== *)
(** The storage and scheduler operations refine the abstract life cycle.

    [abs] forgets of a database what [Lifecycle] does not speak about.  For
    every operation on existing runs, [preserves sim op] is proved: whatever
    the environment answers, and whether the operation succeeds, fails or loses
    its commit acknowledgement, the change of the database is a sequence of
    steps of the abstract specification. *)
From S2P Require Import Prelude State Json Schema Sql StoreWorker StoreWorkflow Scheduler Preserve Lifecycle.

Definition abs_task (t : TaskRow) : atask :=
  {| at_run := t_workflow_run_id t; at_status := t_status t; at_owner := t_lease_owner t;
     at_expires := t_lease_expires_at t; at_attempt := t_attempt_count t;
     at_max := t_maximum_attempts t |}.

Definition abs_run (r : RunRow) : arun :=
  {| ar_tenant := r_tenant_id r; ar_status := r_status r; ar_completed := r_completed_at r |}.

Definition abs (db : Db) : astate :=
  {| a_runs := abs_run <$> workflow_runs db; a_tasks := abs_task <$> task_runs db;
     a_deps := dom (task_dependencies db); a_attempts := dom (task_attempts db) |}.

Lemma lookup_abs_task db k : a_tasks (abs db) !! k = abs_task <$> task_runs db !! k.
Proof. apply lookup_fmap. Qed.

Lemma lookup_abs_run db k : a_runs (abs db) !! k = abs_run <$> workflow_runs db !! k.
Proof. apply lookup_fmap. Qed.

Lemma abs_run_is db rid st :
  run_is (abs db) rid st ↔ ∃ r, workflow_runs db !! rid = Some r ∧ r_status r = st.
Proof.
  unfold run_is. rewrite lookup_abs_run. destruct (workflow_runs db !! rid); naive_solver.
Qed.

(** * Simulation *)

Definition sim (db db' : Db) : Prop := Inv (abs db) → rtc lstep (abs db) (abs db').

Lemma rtc_lstep_inv s s' : rtc lstep s s' → Inv s → Inv s'.
Proof. induction 1; eauto using lstep_preserves. Qed.

#[export] Instance sim_preorder : PreOrder sim.
Proof.
  split; [by intros db _|]. intros db1 db2 db3 H12 H23 I.
  etransitivity; [by apply H12|]. apply H23. eapply rtc_lstep_inv; eauto.
Qed.

Lemma sim_updates db db' : (Inv (abs db) → updates (abs db) (abs db')) → sim db db'.
Proof. intros Hu I. apply rtc_once, lstep_update; auto. Qed.

(** Changes outside the abstraction. *)
Record core (db db' : Db) : Prop := {
  co_runs : workflow_runs db' = workflow_runs db;
  co_tasks : task_runs db' = task_runs db;
  co_deps : task_dependencies db' = task_dependencies db;
  co_attempts : dom (task_attempts db') = dom (task_attempts db)
}.

#[export] Instance core_preorder : PreOrder core.
Proof. split; [by split|]. intros db1 db2 db3 [] []. split; congruence. Qed.

Lemma core_abs db db' : core db db' → abs db' = abs db.
Proof. intros []. unfold abs. congruence. Qed.

Lemma sim_core db db' : core db db' → sim db db'.
Proof. intros Hc _. by rewrite (core_abs _ _ Hc). Qed.

(** * Statements outside the abstraction *)

Lemma core_update_attempts P f : stmt_preserves core (update_attempts P f).
Proof. intros env n db a db' [= <- <-]. split; try done. apply dom_update_where. Qed.

Lemma core_update_attempt id k g f : stmt_preserves core (update_attempt id k g f).
Proof. apply core_update_attempts. Qed.

Lemma core_insert_outbox now ty id ev p tr : stmt_preserves core (insert_outbox now ty id ev p tr).
Proof.
  intros env n db a db'. unfold insert_outbox. case_bool_decide; [done|].
  by intros [= <- <-].
Qed.

Lemma core_insert_outbox_from_run now id ev p rid :
  stmt_preserves core (insert_outbox_from_run now id ev p rid).
Proof.
  intros env n db a db'. unfold insert_outbox_from_run.
  case_match; [apply core_insert_outbox|by intros [= <- <-]].
Qed.

Lemma core_insert_audit now t ac a ty id md : stmt_preserves core (insert_audit now t ac a ty id md).
Proof.
  intros env n db x db'. unfold insert_audit. case_bool_decide; [|done]. by intros [= <- <-].
Qed.

#[export] Hint Resolve core_update_attempts core_update_attempt core_insert_outbox
  core_insert_outbox_from_run core_insert_audit : preserve.

(** * Statements that change tasks and runs *)

Lemma update_task_cases id g f env n db rows db' :
  update_task id g f env n db = Ok (rows, db') →
  (∃ t, task_runs db !! id = Some t ∧ g t = true ∧ rows = [(id, f t)] ∧
        db' = db<| task_runs := <[id := f t]> (task_runs db) |>) ∨
  (rows = [] ∧ db' = db ∧ ∀ t, task_runs db !! id = Some t → g t = false).
Proof.
  unfold update_task, update_tasks. intros [= <- <-].
  fold (update_where (λ k t, bool_decide (k = id) && g t) f (task_runs db)).
  assert (∀ k t, bool_decide (k = id) && g t = true → k = id) as Hk
    by (intros k t ?; by bool_split).
  rewrite (rows_where_key _ _ _ id (λ k v _, Hk k v)), (update_where_key _ _ _ id Hk).
  destruct (task_runs db !! id) as [t|]; rewrite ?bool_decide_true by done; simpl.
  - destruct (g t) eqn:Hg; [by left; exists t|right]. destruct db; naive_solver.
  - right. destruct db; naive_solver.
Qed.

Lemma update_run_cases id g f env n db rows db' :
  update_run id g f env n db = Ok (rows, db') →
  (∃ r, workflow_runs db !! id = Some r ∧ g r = true ∧ rows = [(id, f r)] ∧
        db' = db<| workflow_runs := <[id := f r]> (workflow_runs db) |>) ∨
  (rows = [] ∧ db' = db ∧ ∀ r, workflow_runs db !! id = Some r → g r = false).
Proof.
  unfold update_run, update_runs. intros [= <- <-].
  assert (∀ k r, bool_decide (k = id) && g r = true → k = id) as Hk
    by (intros k r ?; by bool_split).
  rewrite (rows_where_key _ _ _ id (λ k v _, Hk k v)), (update_where_key _ _ _ id Hk).
  destruct (workflow_runs db !! id) as [r|]; rewrite ?bool_decide_true by done; simpl.
  - destruct (g r) eqn:Hg; [by left; exists r|right]. destruct db; naive_solver.
  - right. destruct db; naive_solver.
Qed.

(** An update whose count of rows is not used. *)
Lemma update_run_alter id g f env n db rows db' :
  update_run id g f env n db = Ok (rows, db') →
  db' = db<| workflow_runs := alter (λ r, if g r then f r else r) id (workflow_runs db) |>.
Proof.
  intros [= <- <-]. do 2 f_equal. apply map_eq; intros k. rewrite lookup_update_where.
  destruct (decide (k = id)) as [->|Hne].
  - rewrite lookup_alter_eq, bool_decide_true by done. done.
  - rewrite lookup_alter_ne, bool_decide_false by done. by destruct (workflow_runs db !! k).
Qed.

Lemma insert_attempt_Ok now id k w sch env n db u db' :
  insert_attempt now id k w sch env n db = Ok (u, db') →
  task_attempts db !! (id, k) = None ∧
  ∃ row, db' = db<| task_attempts := <[(id, k) := row]> (task_attempts db) |> ∧
         a_worker_id row = w ∧ a_scheduled_at row = sch ∧ a_started_at row = now ∧
         a_ended_at row = None.
Proof.
  unfold insert_attempt. case_bool_decide as Hn; [done|]. intros [= <- <-].
  split; [by apply eq_None_not_Some|]. eexists. split; [reflexivity|done].
Qed.

Lemma lookup_update_tasks P f env n db rows db' k :
  update_tasks P f env n db = Ok (rows, db') →
  task_runs db' !! k = (λ t, if P db k t then f db k t else t) <$> task_runs db !! k.
Proof. intros [= <- <-]. simpl. rewrite map_lookup_imap. by destruct (task_runs db !! k). Qed.

Lemma update_tasks_runs P f env n db rows db' :
  update_tasks P f env n db = Ok (rows, db') → workflow_runs db' = workflow_runs db.
Proof. by intros [= <- <-]. Qed.

Lemma select_task_run_Some id g env n db t r db' :
  select_task_run id g env n db = Ok (Some (t, r), db') →
  db' = db ∧ task_runs db !! id = Some t ∧
  workflow_runs db !! t_workflow_run_id t = Some r ∧ g t r = true.
Proof.
  unfold select_task_run, sql_select. intros [= Hs <-].
  apply bind_Some in Hs as (t' & Ht & Hs). apply bind_Some in Hs as (r' & Hr & Hs).
  destruct (g t' r') eqn:Hg; naive_solver.
Qed.

Lemma select_run_Some id tenant env n db r db' :
  select_run id tenant env n db = Ok (Some r, db') →
  db' = db ∧ workflow_runs db !! id = Some r ∧ r_tenant_id r = tenant.
Proof.
  unfold select_run, sql_select. intros [= Hs <-].
  apply bind_Some in Hs as (r' & Hr & Hs). case_bool_decide; naive_solver.
Qed.

Lemma update_tasks_row P f env n db k t rows db' :
  update_tasks P f env n db = Ok ((k, t) :: rows, db') →
  ∃ t0, task_runs db !! k = Some t0 ∧ P db k t0 = true.
Proof.
  intros [= Hrows _]. assert ((k, t) ∈ (k, t) :: rows) as Hin by by left.
  rewrite <-Hrows in Hin. apply list_elem_of_fmap in Hin as ([k0 t0] & [= -> _] & Hin).
  exists t0. by apply elem_of_rows_where in Hin.
Qed.

(** Only a body that commits changes the database. *)
Lemma preserves_committed {A} (R : Db → Db → Prop) `{!Reflexive R} (body : time → M (outcome A)) :
  (∀ now env n db a s, body now env (mkSess n false db) = (Ok (Commit a), s) → R db (s_db s)) →
  preserves R (in_tx body).
Proof.
  intros Hb env s r s' Hr. apply in_tx_db in Hr as [->|(a & s1 & Hs & -> & _)]; [done|].
  by apply Hb in Hs.
Qed.

Lemma available_at_Ok st attempt env s v s' :
  available_at st attempt env s = (Ok v, s') →
  ∃ n m, s' = mkSess n (s_rows_open s) (s_db s) ∧
    v = env_clock env m + (if bool_decide (st = RETRY_WAIT) then RetryDelay attempt else 0).
Proof.
  unfold available_at, nowPlus. intros H. repeat run_step. simpl in *.
  case_bool_decide; repeat run_step; do 2 eexists; (split; [done|]); [done|].
  by rewrite Z.add_0_r.
Qed.

(** Take apart the run of a transaction's body: monadic structure and branches
    first, then what each statement did. *)
Ltac body_step :=
  match goal with
  | H : (match ?x with _ => _ end) _ _ = (Ok _, _) |- _ => destruct x eqn:?
  | H : nowPlus _ _ _ = (Ok _, _) |- _ => unfold nowPlus in H
  | H : available_at _ _ _ _ = (Ok _, _) |- _ => apply available_at_Ok in H as (? & ? & -> & ?)
  | _ => run_step; simpl in *
  end.

Ltac stmt_step :=
  match goal with
  | H : insert_outbox _ _ _ _ _ _ _ _ _ = Ok _ |- _ => apply core_insert_outbox in H
  | H : insert_outbox_from_run _ _ _ _ _ _ _ _ = Ok _ |- _ =>
      apply core_insert_outbox_from_run in H
  | H : insert_audit _ _ _ _ _ _ _ _ _ _ = Ok _ |- _ => apply core_insert_audit in H
  | H : update_attempt _ _ _ _ _ _ _ = Ok _ |- _ => apply core_update_attempt in H
  | H : count_remaining _ _ _ _ = Ok _ |- _ => unfold count_remaining in H
  | H : sql_select _ _ _ _ = Ok _ |- _ => unfold sql_select in H; injection H as ? ?; subst
  | H : select_task_run _ _ _ _ _ = Ok (Some _, _) |- _ =>
      apply select_task_run_Some in H as (-> & ? & ? & ?)
  | H : select_run _ _ _ _ _ = Ok (Some _, _) |- _ =>
      let Hr := fresh "Hrun" in apply select_run_Some in H as (-> & Hr & ?)
  | H : update_task _ _ _ _ _ _ = Ok _ |- _ =>
      let t := fresh "t" in let Ht := fresh "Htask" in let Hg := fresh "Hguard" in
      apply update_task_cases in H as [(t & Ht & Hg & ? & ->)|(? & -> & ?)]; simplify_eq/=
  | H : update_run _ _ _ _ _ _ = Ok (?rows, _) |- _ =>
      is_var rows; apply update_run_alter in H as ->
  | H : update_run _ _ _ _ _ _ = Ok _ |- _ =>
      let r := fresh "r" in let Hr := fresh "Hrun" in let Hg := fresh "Hguard" in
      apply update_run_cases in H as [(r & Hr & Hg & ? & ->)|(? & -> & ?)]; simplify_eq/=
  end.

(** Drop the statements at the end of a transaction that the abstraction does
    not see. *)
Ltac core_tail :=
  repeat match goal with
  | H : core ?db1 ?db2 |- sim _ ?db2 => transitivity db1; [|by apply sim_core]; clear H
  end.

Ltac open_tx := repeat body_step; repeat stmt_step; core_tail.

(** * Worker protocol *)

(** One task changes and nothing else the abstraction sees. *)
Lemma updates_one db k t t' :
  task_runs db !! k = Some t →
  (let s' := abs (db<| task_runs := <[k := t']> (task_runs db) |>) in
   quiet_row (abs db) s' k (abs_task t) (abs_task t')) →
  updates (abs db) (abs (db<| task_runs := <[k := t']> (task_runs db) |>)).
Proof.
  intros Hk Hq. apply updates_quiet; try done.
  - simpl. rewrite fmap_insert. apply (insert_rows _ _ _ (abs_task t)); [auto with lifecycle| |done].
    by rewrite lookup_fmap, Hk.
  - apply same_rows. auto with lifecycle.
Qed.

Lemma sim_LeaseTask id w lease : preserves sim (LeaseTask id w lease).
Proof.
  apply preserves_committed; [apply _|]. intros now env n db a s Hb. open_tx.
  apply insert_attempt_Ok in Hf0 as (_ & ? & -> & _). bool_split. apply sim_updates; intros _. eapply (updates_lease _ _ id (abs_task t0)); try done.
  - by rewrite lookup_abs_task, Htask.
  - simpl. by rewrite fmap_insert.
  - simpl. by rewrite dom_insert_L.
Qed.

Lemma sim_StartTask id w : preserves sim (StartTask id w).
Proof.
  apply preserves_committed; [apply _|]. intros now env n db a s Hb. open_tx.
  apply sim_updates; intros _. eapply updates_one; [done|]. unfold run_running in *. bool_split.
  split_and!; [|done..]. apply rs_start; [done|]. apply abs_run_is. eauto.
Qed.

Lemma holds_active t : leased_or_running t = true → active (abs_task t).
Proof. unfold leased_or_running. intros [?|?]%orb_true_iff; bool_split; [by left|by right]. Qed.

Lemma sim_heartbeat id w e : stmt_preserves sim (heartbeat_stmt id w e).
Proof.
  intros env n db a db'. unfold heartbeat_stmt.
  destruct (update_task _ _ _ _ _ _) as [[rows db1]|] eqn:Hu; [|done]. intros [= <- <-].
  apply update_task_cases in Hu as [(t & Ht & Hg & _ & ->)|(_ & -> & _)]; [|reflexivity].
  apply sim_updates; intros _. eapply updates_one; [done|]. bool_split.
  split_and!; [|done..]. by apply rs_renew, holds_active.
Qed.

Lemma sim_HeartbeatTask id w lease : preserves sim (HeartbeatTask id w lease).
Proof. unfold HeartbeatTask, nowPlus. preserve. apply sim_heartbeat. Qed.

(** The change of a task whose attempt failed or whose lease expired. *)
Lemma quiet_failure db s' id t r retry avail now :
  leased_or_running t = true → workflow_runs db !! t_workflow_run_id t = Some r →
  (retry = true → t_attempt_count t < t_maximum_attempts t) →
  let st := failure_status (r_status r) retry in
  (st = DEAD → ¬ run_is s' (t_workflow_run_id t) RUN_RUNNING) →
  quiet_row (abs db) s' id (abs_task t)
    (abs_task (failed_row st avail now t)).
Proof.
  intros Ha%holds_active Hr Hretry st Hdead. subst st. unfold failure_status in *.
  assert (run_is (abs db) (t_workflow_run_id t) (r_status r)) as Hrun by (apply abs_run_is; eauto).
  repeat case_bool_decide; [|destruct retry]; (split_and!; [|done..]).
  - apply rs_stop; [done|]. by rewrite H in Hrun.
  - apply rs_retry; [done| |by apply Hretry]. simpl. unfold run_is in *. congruence.
  - apply rs_dead; [done| |by apply Hdead]. simpl. unfold run_is in *. congruence.
Qed.

(** The run of a task that ended it: finished, unless it was already over. *)
Definition end_run (now : time) (st : run_status) (rid : uuid) (runs : gmap uuid RunRow) :=
  alter (λ r, if run_running r then finish_run now st r else r) rid runs.

Lemma end_run_not_running now st rid runs r' :
  st ≠ RUN_RUNNING → end_run now st rid runs !! rid = Some r' → r_status r' ≠ RUN_RUNNING.
Proof.
  intros Hst. unfold end_run. rewrite lookup_alter_eq.
  destruct (runs !! rid) as [r|]; [|done]. intros [= <-].
  destruct (run_running r) eqn:Hrun; [done|]. unfold run_running in Hrun. by bool_split.
Qed.

(** The rows of runs after [end_run]. *)
Lemma end_run_rows s s' now st rid runs :
  a_runs s = abs_run <$> runs → a_runs s' = abs_run <$> end_run now st rid runs →
  (∀ r, runs !! rid = Some r → r_status r = RUN_RUNNING →
     run_step s s' rid (abs_run r) (abs_run (finish_run now st r))) →
  ∀ k, option_Forall2 (run_step s s' k) (a_runs s !! k) (a_runs s' !! k).
Proof.
  intros -> -> Hstep k. rewrite !lookup_fmap. unfold end_run.
  destruct (decide (k = rid)) as [->|Hne].
  - rewrite lookup_alter_eq. destruct (runs !! rid) as [r|] eqn:Hr; simpl; constructor.
    destruct (run_running r) eqn:Hrun; [|auto with lifecycle].
    unfold run_running in Hrun. bool_split. auto.
  - rewrite lookup_alter_ne by done. destruct (runs !! k); constructor. auto with lifecycle.
Qed.

(** A failed attempt, with the failure of the run when the task is dead. *)
Lemma sim_failed db db' id t r retry avail now :
  task_runs db !! id = Some t → leased_or_running t = true →
  workflow_runs db !! t_workflow_run_id t = Some r →
  (retry = true → t_attempt_count t < t_maximum_attempts t) →
  let st := failure_status (r_status r) retry in
  task_runs db' = <[id := failed_row st avail now t]> (task_runs db) →
  workflow_runs db' = (if bool_decide (st = DEAD)
                       then end_run now RUN_FAILED (t_workflow_run_id t) (workflow_runs db)
                       else workflow_runs db) →
  task_dependencies db' = task_dependencies db →
  dom (task_attempts db') = dom (task_attempts db) →
  sim db db'.
Proof.
  intros Ht Ha Hr Hretry st Htasks Hruns Hdeps Hatt.
  apply sim_updates; intros _. apply updates_quiet; [simpl; congruence..| |].
  - simpl. rewrite Htasks, fmap_insert.
    apply (insert_rows _ _ _ (abs_task t)); [auto with lifecycle| |].
    { by rewrite lookup_fmap, Ht. }
    apply (quiet_failure _ _ _ _ r); try done. fold st. intros Hdead.
    rewrite abs_run_is, Hruns, bool_decide_true by done. intros (r' & Hr' & Hs).
    by eapply end_run_not_running in Hr'.
  - case_bool_decide as Hd; [|simpl; rewrite Hruns; apply same_rows; auto with lifecycle].
    eapply end_run_rows; [done|simpl; by rewrite Hruns|]. intros r' Hr' Hrun.
    apply rn_fail; [done|]. exists id, (abs_task (failed_row st avail now t)).
    by rewrite lookup_abs_task, Htasks, lookup_insert_eq.
Qed.

(** Cancelling the work no worker holds in a run that is over. *)
Lemma sim_cancel_not_started now rid env n db rows db' :
  cancel_not_started now rid env n db = Ok (rows, db') →
  (∀ r, workflow_runs db !! rid = Some r → r_status r ≠ RUN_RUNNING) → sim db db'.
Proof.
  intros Hc Hover. apply sim_updates; intros _.
  assert (db' = db<| task_runs := task_runs db' |>) as Hdb by by injection Hc as _ <-.
  apply updates_quiet; [by rewrite Hdb..| |].
  - intros k. rewrite !lookup_abs_task, (lookup_update_tasks _ _ _ _ _ _ _ _ Hc).
    destruct (task_runs db !! k) as [t|]; simpl; constructor.
    destruct (_ && _) eqn:Hg; [|auto with lifecycle]. bool_split.
    split_and!; [|done..]. apply rs_cancel.
    + unfold not_started in *. unfold waiting; simpl. destruct (t_status t); naive_solver.
    + rewrite abs_run_is, Hdb. simpl. subst. naive_solver.
  - rewrite Hdb. apply same_rows. auto with lifecycle.
Qed.

Lemma sim_FailTask id w f : preserves sim (FailTask id w f).
Proof.
  apply preserves_committed; [apply _|]. intros now env n db a s Hb. open_tx; bool_split.
  - transitivity (db3<| workflow_runs := end_run now RUN_FAILED (t_workflow_run_id t)
                                           (workflow_runs db3) |>).
    + destruct Hf2.
      eapply (sim_failed _ _ _ t r
        (Retryable f && bool_decide (t_attempt_count t < t_maximum_attempts t)) _ now); try done; simpl in *.
      * intros ?; by bool_split.
      * exact co_tasks0.
      * by rewrite bool_decide_true, co_runs0.
    + eapply sim_cancel_not_started; [done|]. intros r'. by apply end_run_not_running.
  - eapply (sim_failed _ _ _ t r
        (Retryable f && bool_decide (t_attempt_count t < t_maximum_attempts t)) _ now); try done.
    + intros ?; by bool_split.
    + simpl. by rewrite bool_decide_false.
Qed.

(** * Completion *)

Lemma elem_of_upstreams db c u : u ∈ upstreams db c ↔ (c, u) ∈ dom (task_dependencies db).
Proof.
  unfold upstreams. rewrite list_elem_of_fmap, elem_of_dom. split.
  - intros ([[c' u'] v] & -> & [<- Hv]%list_elem_of_filter). simpl.
    apply elem_of_map_to_list in Hv. eauto.
  - intros [v Hv]. exists ((c, u), v). split; [done|]. apply list_elem_of_filter.
    split; [done|]. by apply elem_of_map_to_list.
Qed.

(** The subquery on dependencies is the abstract notion of a pending upstream. *)
Lemma unmet_pending db c : unmet db c = true ↔ upstream_pending (abs db) c.
Proof.
  unfold unmet, upstream_pending. rewrite existsb_exists. simpl. split.
  - intros (u & Hu & Hs). exists u. destruct (task_runs db !! u) as [tu|] eqn:Htu; [|done].
    exists (abs_task tu). bool_split.
    split_and!; [by apply elem_of_upstreams, list_elem_of_In|by rewrite lookup_fmap, Htu|done].
  - intros (u & tu & Hu & Htu & Hs). exists u. rewrite lookup_fmap in Htu.
    destruct (task_runs db !! u) as [x|]; [|done]. simplify_eq/=.
    split; [by apply list_elem_of_In, elem_of_upstreams|by apply bool_decide_eq_true].
Qed.

Definition succeeded (t : TaskRow) : bool := bool_decide (t_status t = SUCCEEDED).

(** Unfinished dependencies depend only on which tasks have succeeded. *)
Lemma unmet_ext db1 db2 c :
  task_dependencies db2 = task_dependencies db1 →
  (∀ u, succeeded <$> task_runs db2 !! u = succeeded <$> task_runs db1 !! u) →
  unmet db2 c = unmet db1 c.
Proof.
  intros Hdeps Hs. unfold unmet, upstreams. rewrite Hdeps.
  induction (_ <$> _) as [|u l IH]; simpl; [done|]. rewrite IH. f_equal.
  specialize (Hs u). unfold succeeded in Hs.
  destruct (task_runs db2 !! u), (task_runs db1 !! u); simplify_eq/=; [|done..].
  apply bool_decide_ext. rewrite <-!bool_decide_eq_false. by rewrite Hs.
Qed.

Lemma pending_ext db1 db2 c :
  task_dependencies db2 = task_dependencies db1 →
  (∀ u, succeeded <$> task_runs db2 !! u = succeeded <$> task_runs db1 !! u) →
  upstream_pending (abs db2) c ↔ upstream_pending (abs db1) c.
Proof. intros. rewrite <-!unmet_pending. by rewrite (unmet_ext db1 db2). Qed.

(** The statement that makes the children of a completed task ready. *)
Section Unblock.
Context {db1 db2 : Db} {rid id : uuid} {now : time}.
Context (Hdeps : task_dependencies db2 = task_dependencies db1).
Context (H2 : ∀ k, task_runs db2 !! k =
  (λ c, if unblocked_by rid id db1 k c then ready_row now c else c) <$> task_runs db1 !! k).

Lemma unblock_pending c : upstream_pending (abs db2) c ↔ upstream_pending (abs db1) c.
Proof.
  apply pending_ext; [done|]. intros u. rewrite H2.
  destruct (task_runs db1 !! u) as [t|]; simpl; [|done]. f_equal.
  destruct (unblocked_by rid id db1 u t) eqn:Hu; [|done].
  unfold unblocked_by in Hu. bool_split. unfold succeeded.
  apply bool_decide_ext. simpl. split; congruence.
Qed.

Lemma unblock_done c : unmet db1 c = false → upstream_done (abs db2) c.
Proof.
  intros Hu. apply not_pending_done. rewrite unblock_pending, <-unmet_pending. by rewrite Hu.
Qed.

(** A blocked task of the run that depends on [id] and has no unfinished
    dependency left. *)
Definition now_unblocked (k : uuid) (c : TaskRow) : Prop :=
  t_workflow_run_id c = rid ∧ t_status c = BLOCKED ∧
  is_Some (task_dependencies db2 !! (k, id)) ∧ upstream_done (abs db2) k.

Lemma unblocked_by_spec k c : unblocked_by rid id db1 k c = true ↔ now_unblocked k c.
Proof.
  unfold unblocked_by, now_unblocked. rewrite !andb_true_iff, !bool_decide_eq_true, negb_true_iff.
  rewrite Hdeps. split.
  - intros [[[? ?] ?] Hu]. split_and!; [done..|by apply unblock_done].
  - intros (? & ? & ? & Hd). split_and!; try done. apply not_true_is_false.
    rewrite unmet_pending, <-unblock_pending. intros (u & tu & He & Hu & Hn). eauto.
Qed.
End Unblock.
Arguments now_unblocked : clear implicits.

Lemma count_remaining_zero rank (m : gmap uuid TaskRow) rid :
  length (rows_where rank
    (λ _ t, bool_decide (t_workflow_run_id t = rid) && bool_decide (t_status t ≠ SUCCEEDED)) m)
    = 0%nat ↔
  ∀ k t, m !! k = Some t → t_workflow_run_id t = rid → t_status t = SUCCEEDED.
Proof.
  rewrite length_zero_iff_nil. split.
  - intros Hnil k t Hk Hr. destruct (decide (t_status t = SUCCEEDED)); [done|].
    exfalso. eapply (not_elem_of_nil (k, t)). rewrite <-Hnil. apply elem_of_rows_where.
    by rewrite !bool_decide_true.
  - intros Hall. apply elem_of_nil_inv. intros [k t] [Hk Hg]%elem_of_rows_where. bool_split. eauto.
Qed.

Section Complete.
Context {db db1 db' : Db} {id : uuid} {t t' : TaskRow} {r : RunRow} {now : time}.
Let rid := t_workflow_run_id t.
Context (Ht : task_runs db !! id = Some t) (Hst : t_status t = RUNNING).
Context (Hr : workflow_runs db !! rid = Some r) (Hrun : r_status r = RUN_RUNNING).
(** the task is marked, *)
Context (Ht' : abs_task t' = (abs_task t)<| at_status := SUCCEEDED |><| at_expires := None |>).
Context (Ht1 : task_runs db1 = <[id := t']> (task_runs db)).
Context (Hd1 : task_dependencies db1 = task_dependencies db).
(** its children are released, *)
Context (Ht2 : ∀ k, task_runs db' !! k =
  (λ c, if unblocked_by rid id db1 k c then ready_row now c else c) <$> task_runs db1 !! k).
Context (Hd2 : task_dependencies db' = task_dependencies db1).
Context (Ha2 : dom (task_attempts db') = dom (task_attempts db)).
(** and the run is finished if that was its last task. *)
Context (Hr2 : workflow_runs db' = workflow_runs db ∧ ¬ all_succeeded (abs db') rid ∨
  workflow_runs db' = end_run now RUN_SUCCEEDED rid (workflow_runs db) ∧
  all_succeeded (abs db') rid).

Lemma completed_run_is : all_succeeded (abs db') rid → run_is (abs db') rid RUN_SUCCEEDED.
Proof.
  intros Hall. destruct Hr2 as [[_ ?]|[Hr' _]]; [done|]. apply abs_run_is. rewrite Hr'.
  unfold end_run. rewrite lookup_alter_eq, Hr. simpl. unfold run_running.
  rewrite bool_decide_true by done. eauto.
Qed.

Lemma completed_task : task_runs db' !! id = Some t'.
Proof.
  rewrite Ht2, Ht1, lookup_insert_eq. simpl. unfold unblocked_by.
  assert (t_status t' = SUCCEEDED) as -> by (by injection Ht').
  by rewrite (bool_decide_false (SUCCEEDED = BLOCKED)), andb_false_r by done.
Qed.

Lemma completed_other k : k ≠ id → task_runs db1 !! k = task_runs db !! k.
Proof. intros. by rewrite Ht1, lookup_insert_ne. Qed.

Lemma completed_rows k :
  option_Forall2 (row_step (abs db) (abs db') k) (a_tasks (abs db) !! k) (a_tasks (abs db') !! k).
Proof.
  rewrite !lookup_abs_task. destruct (decide (k = id)) as [->|Hne].
  - rewrite completed_task, Ht. simpl. rewrite Ht'. constructor. apply rs_succeed; [done| |].
    + apply abs_run_is. eauto.
    + apply completed_run_is.
  - rewrite Ht2, completed_other by done. destruct (task_runs db !! k) as [c|]; simpl; constructor.
    destruct (unblocked_by rid id db1 k c) eqn:Hu; [|auto with lifecycle].
    unfold unblocked_by in Hu. bool_split. apply rs_unblock; [done|]. by eapply unblock_done.
Qed.

Lemma completed_wake k c' :
  Inv (abs db) → a_tasks (abs db') !! k = Some c' → at_status c' = BLOCKED →
  upstream_pending (abs db) k → upstream_pending (abs db') k.
Proof.
  intros I Hk Hb (u & tu & He & Hu & Hn). rewrite (unblock_pending Hd2 Ht2).
  rewrite lookup_abs_task in Hk, Hu. simpl in He.
  destruct (decide (u = id)) as [->|Hne].
  - destruct (unmet db1 k) eqn:Hm; [by apply unmet_pending|]. exfalso.
    destruct (decide (k = id)) as [->|Hki].
    { rewrite completed_task in Hk. simplify_eq/=. injection Ht'. congruence. }
    rewrite Ht2, completed_other in Hk by done.
    destruct (task_runs db !! k) as [c|] eqn:Hc; [|done]. simplify_eq/=.
    destruct (inv_edges _ I _ _ He) as (tc & tu' & Htc & Htu' & Heq).
    rewrite lookup_abs_task in Htc, Htu'. rewrite Hc in Htc. rewrite Ht in Htu'. simplify_eq/=.
    revert Hb. destruct (unblocked_by rid id db1 k c) eqn:Hub; [done|]. intros Hb.
    unfold unblocked_by in Hub. rewrite Hd1, !bool_decide_true, Hm in Hub by
      (done || by apply elem_of_dom). done.
  - exists u, tu. simpl. by rewrite lookup_fmap, completed_other, Hd1.
Qed.

Lemma sim_completed : sim db db'.
Proof.
  apply sim_updates; intros I. split.
  - simpl. congruence.
  - apply completed_rows.
  - destruct Hr2 as [[Hr' _]|[Hr' Hall]].
    + simpl. rewrite Hr'. apply same_rows. auto with lifecycle.
    + eapply end_run_rows; [done|simpl; by rewrite Hr'|]. intros. by apply rn_succeed.
  - intros k c' Hk Hb. by apply (completed_wake _ _ I Hk Hb).
  - intros k n. simpl. rewrite Ha2. split; [by left|]. intros [?|(x & x' & Hx & Hx' & ?)]; [done|].
    exfalso. rewrite lookup_fmap in Hx, Hx'.
    destruct (decide (k = id)) as [->|Hne].
    + rewrite completed_task in Hx'. rewrite Ht in Hx. simplify_eq/=.
      assert (t_attempt_count t' = t_attempt_count t) by (by injection Ht'). lia.
    + rewrite Ht2, completed_other in Hx' by done. destruct (task_runs db !! k); [|done].
      simplify_eq/=. destruct (unblocked_by _ _ _ _ _); simpl in *; lia.
Qed.
End Complete.

(** The children released and the events written after the task was marked. *)
Lemma completed_children db1 db2 db3 rid id now env n rows :
  update_tasks (unblocked_by rid id) (λ _ _, ready_row now) env n db1 = Ok (rows, db2) → core db2 db3 →
  (∀ k, task_runs db3 !! k =
    (λ c, if unblocked_by rid id db1 k c then ready_row now c else c) <$> task_runs db1 !! k) ∧
  workflow_runs db3 = workflow_runs db1 ∧ task_dependencies db3 = task_dependencies db1 ∧
  dom (task_attempts db3) = dom (task_attempts db1).
Proof.
  intros Hu [-> -> -> ->]. split; [intros k; by apply (lookup_update_tasks _ _ _ _ _ _ _ k Hu)|].
  by injection Hu as _ <-.
Qed.

Lemma all_succeeded_abs db rid :
  all_succeeded (abs db) rid ↔
  ∀ k t, task_runs db !! k = Some t → t_workflow_run_id t = rid → t_status t = SUCCEEDED.
Proof.
  unfold all_succeeded. setoid_rewrite lookup_abs_task. split.
  - intros H k t Hk Hr. apply (H k (abs_task t)); [by rewrite Hk|done].
  - intros H k a Hk Hr. destruct (task_runs db !! k) as [t|] eqn:Ht; [|done]. simplify_eq/=. eauto.
Qed.

(** The committed effect of a completion. *)
Lemma complete_tx_Ok id w out uri logs now env n db a s :
  complete_tx id w out uri logs now env (mkSess n false db) = (Ok (Commit a), s) →
  ∃ t r db1, let db' := s_db s in let rid := t_workflow_run_id t in
    (task_runs db !! id = Some t ∧ t_status t = RUNNING ∧ holds_lease now w t = true ∧
     workflow_runs db !! rid = Some r ∧ r_status r = RUN_RUNNING) ∧
    task_runs db1 = <[id := completed_row out uri now t]> (task_runs db) ∧
    task_dependencies db1 = task_dependencies db ∧
    (∀ k, task_runs db' !! k =
      (λ c, if unblocked_by rid id db1 k c then ready_row now c else c) <$> task_runs db1 !! k) ∧
    task_dependencies db' = task_dependencies db1 ∧
    dom (task_attempts db') = dom (task_attempts db) ∧
    (workflow_runs db' = workflow_runs db ∧ ¬ all_succeeded (abs db') rid ∨
     workflow_runs db' = end_run now RUN_SUCCEEDED rid (workflow_runs db) ∧
     all_succeeded (abs db') rid).
Proof.
  unfold complete_tx. intros Hb. repeat body_step.
  all: repeat match goal with
  | H : mfor _ _ _ _ = _ |- _ => eapply (preserves_mfor core) in H; [simpl in H|intros; preserve]
  end.
  all: repeat stmt_step; unfold run_running in Heqb; bool_split.
  all: match goal with
  | H0 : update_tasks _ _ _ _ _ = Ok (_, ?x), H1 : core ?x (s_db ?y), H2 : core (s_db ?y) ?z |- _ =>
      assert (core x z) as Hc by (by transitivity (s_db y)); clear H1 H2;
      destruct (completed_children _ _ _ _ _ _ _ _ _ H0 Hc) as (Hts & Hrs & Hds & Has);
      clear H0 Hc
  end.
  all: match goal with
  | H : core _ ?x |- _ => destruct H as [Hr1 Ht1 Hd1 Ha1]; simpl in *;
      exists t, r, x; split_and!; try done; try congruence
  end.
  - right. split; [by rewrite Hrs, Hr1|]. apply all_succeeded_abs. simpl.
    by eapply count_remaining_zero.
  - left. split; [congruence|]. rewrite all_succeeded_abs. intros Hall.
    by eapply (count_remaining_zero (env_rank env _)) in Hall.
Qed.

Lemma sim_CompleteTask id w out uri logs : preserves sim (CompleteTask id w out uri logs).
Proof.
  apply preserves_committed; [apply _|]. intros now env n db a s Hb.
  apply complete_tx_Ok in Hb
    as (t & r & db1 & (Ht & Hst & _ & Hr & Hrun) & Ht1 & Hd1 & Ht2 & Hd2 & Ha2 & Hr2).
  by apply (sim_completed (t' := completed_row (default empty_object out) uri now t)
    Ht Hst Hr Hrun eq_refl Ht1 Hd1 Ht2 Hd2 Ha2 Hr2).
Qed.

(** * Cancellation, operator retry and replay *)

Lemma sim_CancelRun tenant user id : preserves sim (CancelRun tenant user id).
Proof.
  apply preserves_committed; [apply _|]. intros now env n db a s Hb. repeat body_step.
  all: repeat stmt_step; core_tail.
  match goal with H : cancel_not_started _ _ _ _ ?db1 = _ |- _ => transitivity db1 end.
  - apply sim_updates; intros _. apply updates_quiet; try done.
    + apply same_rows. auto with lifecycle.
    + simpl. rewrite fmap_insert. eapply insert_rows; [auto with lifecycle|by rewrite lookup_fmap, Hrun|].
      apply rn_cancel. unfold run_open in *. bool_split. simpl. destruct (r_status r); naive_solver.
  - eapply sim_cancel_not_started; [done|]. intros r'. simpl. rewrite lookup_insert_eq.
    by intros [= <-].
Qed.

(** A dead task made ready again; its lease is already clear. *)
Lemma quiet_revive s s' k t o e :
  Inv s → a_tasks s !! k = Some t → at_status t = DEAD → ¬ run_is s' (at_run t) RUN_FAILED →
  o = at_owner t ∨ o = None → e = at_expires t ∨ e = None →
  quiet_row s s' k t
    {| at_run := at_run t; at_status := READY; at_owner := o; at_expires := e;
       at_attempt := at_attempt t; at_max := Z.max (at_max t) (at_attempt t + 1) |}.
Proof.
  intros I Hk Hd Hf Ho He. destruct (inv_lease _ I _ _ Hk) as [[Hl _] _].
  assert (at_expires t = None) as Hn.
  { destruct (at_expires t); [|done]. destruct (Hl ltac:(eauto)); congruence. }
  assert (e = at_expires t) as -> by (destruct He; congruence).
  split_and!; [|done..]. by apply (rs_revive _ _ _ t _ o).
Qed.

Lemma sim_RetryRun tenant user id : preserves sim (RetryRun tenant user id).
Proof.
  apply preserves_committed; [apply _|]. intros now env n db a s Hb. repeat body_step.
  all: repeat stmt_step; core_tail. destruct p as [k0 t0'].
  destruct (update_tasks_row _ _ _ _ _ _ _ _ _ Hf1) as (t0 & Ht0 & Hg). bool_split.
  assert (db2 = db<| task_runs := task_runs db2 |>) as Hdb by by injection Hf1 as _ <-.
  apply sim_updates; intros I. apply updates_quiet; [by rewrite Hdb..| |].
  - intros k. rewrite !lookup_abs_task. simpl. rewrite (lookup_update_tasks _ _ _ _ _ _ _ _ Hf1).
    destruct (task_runs db !! k) as [t|] eqn:Ht; simpl; constructor.
    destruct (_ && _) eqn:Hgk; [|auto with lifecycle]. bool_split.
    apply quiet_revive; simpl; auto; [by rewrite lookup_fmap, Ht|].
    rewrite abs_run_is. simpl. rewrite H3, lookup_alter_eq. intros (r' & Hr' & Hs).
    apply fmap_Some in Hr' as (r'' & _ & ->). done.
  - rewrite Hdb. intros k. rewrite !lookup_abs_run. simpl.
    destruct (decide (k = id)) as [->|Hne].
    + rewrite lookup_alter_eq, Hrun. simpl. constructor. apply rn_reopen.
      exists k0, (abs_task t0). by rewrite lookup_abs_task, Ht0.
    + rewrite lookup_alter_ne by done. destruct (workflow_runs db !! k); constructor.
      auto with lifecycle.
Qed.

(** The rebuilding of cancelled tasks by [ReplayDead]. *)
Lemma sim_rebuild rid now env n db rows db' :
  update_tasks
    (λ _ _ t, bool_decide (t_workflow_run_id t = rid) && bool_decide (t_status t = CANCELLED))
    (λ db k t, t<| t_status := rebuilt_status now db k t |><| t_updated_at := now |>)
    env n db = Ok (rows, db') → sim db db'.
Proof.
  intros Hu. apply sim_updates; intros _.
  assert (db' = db<| task_runs := task_runs db' |>) as Hdb by by injection Hu as _ <-.
  assert (∀ c, upstream_pending (abs db') c ↔ upstream_pending (abs db) c) as Hp.
  { intros c. apply pending_ext; [by rewrite Hdb|]. intros u.
    rewrite (lookup_update_tasks _ _ _ _ _ _ _ _ Hu).
    destruct (task_runs db !! u) as [t|]; simpl; [|done]. f_equal.
    destruct (_ && _) eqn:Hg; [|done]. bool_split. unfold succeeded, rebuilt_status.
    apply bool_decide_ext. simpl. repeat case_match; split; congruence. }
  apply updates_quiet; [by rewrite Hdb..| |rewrite Hdb; apply same_rows; auto with lifecycle].
  intros k. rewrite !lookup_abs_task, (lookup_update_tasks _ _ _ _ _ _ _ _ Hu).
  destruct (task_runs db !! k) as [t|]; simpl; constructor.
  destruct (_ && _) eqn:Hg; [|auto with lifecycle]. bool_split.
  unfold rebuilt_status. destruct (unmet db k) eqn:Hm.
  - split_and!; [|done..]. apply rs_rebuild_blocked; [done|]. by apply Hp, unmet_pending.
  - assert (upstream_done (abs db') k) as Hdone.
    { apply not_pending_done. rewrite Hp, <-unmet_pending. by rewrite Hm. }
    case_bool_decide; (split_and!; [|done..]).
    + apply (rs_rebuild_ready _ _ _ (abs_task t) RETRY_WAIT); auto.
    + apply (rs_rebuild_ready _ _ _ (abs_task t) READY); auto.
Qed.

Lemma sim_ReplayDead tenant user id : preserves sim (ReplayDead tenant user id).
Proof.
  apply preserves_committed; [apply _|]. intros now env n db a s Hb. repeat body_step.
  all: repeat stmt_step; core_tail; [|naive_solver].
  etransitivity; [|by eapply sim_rebuild]. simpl in Htask. simplify_eq. bool_split.
  apply sim_updates; intros I. apply updates_quiet; try done.
  - simpl. rewrite fmap_insert.
    apply (insert_rows _ _ _ (abs_task t)); [auto with lifecycle|by rewrite lookup_fmap, H0|].
    apply quiet_revive; simpl; auto; [by rewrite lookup_fmap, H0|].
    rewrite abs_run_is. simpl. rewrite lookup_alter_eq, H1. simpl.
    case_bool_decide; naive_solver.
  - intros k. rewrite !lookup_abs_run. simpl.
    destruct (decide (k = t_workflow_run_id t)) as [->|Hne].
    + rewrite lookup_alter_eq, H1. simpl. constructor.
      case_bool_decide; [|auto with lifecycle]. apply rn_reopen.
      exists id, (abs_task t). by rewrite lookup_abs_task, H0.
    + rewrite lookup_alter_ne by done. destruct (workflow_runs db !! k); constructor.
      auto with lifecycle.
Qed.

(** * Scheduler *)

Lemma sim_update_tasks P f :
  (∀ db db' k t, task_runs db !! k = Some t → P db k t = true →
     quiet_row (abs db) (abs db') k (abs_task t) (abs_task (f db k t))) →
  stmt_preserves sim (update_tasks P f).
Proof.
  intros Hf env n db rows db' Hu. apply sim_updates; intros _.
  assert (db' = db<| task_runs := task_runs db' |>) as Hdb by by injection Hu as _ <-.
  apply updates_quiet; [by rewrite Hdb..| |rewrite Hdb; apply same_rows; auto with lifecycle].
  intros k. rewrite !lookup_abs_task, (lookup_update_tasks _ _ _ _ _ _ _ _ Hu).
  destruct (task_runs db !! k) as [t|] eqn:Ht; simpl; constructor.
  destruct (P db k t) eqn:Hg; [auto|auto with lifecycle].
Qed.

Lemma sim_promote_retries : preserves sim promote_retries.
Proof.
  unfold promote_retries. preserve. intros env n db rows db' Hu.
  eapply sim_update_tasks in Hu; [done|]. clear. intros db db' k t _ Hg. bool_split.
  split_and!; [|done..]. by apply rs_promote.
Qed.

Lemma sim_dispatch_stmt id now :
  stmt_preserves sim (update_task id (λ t, bool_decide (t_status t = READY))
    (λ t, t<| t_status := DISPATCHING |><| t_updated_at := now |>)).
Proof.
  apply sim_update_tasks. intros db db' k t _ Hg. bool_split.
  split_and!; [|done..]. by apply rs_dispatch.
Qed.

Lemma sim_stmt_core {A} (f : Stmt A) : stmt_preserves core f → stmt_preserves sim f.
Proof. intros Hf env n db a db' Hs. by eapply sim_core, Hf. Qed.

#[export] Hint Resolve sim_dispatch_stmt : preserve.
#[export] Hint Extern 10 (stmt_preserves sim _) => apply sim_stmt_core : preserve.

Lemma sim_dispatch_ready : preserves sim dispatch_ready.
Proof. unfold dispatch_ready, dispatch_one. preserve. Qed.

(** An expired lease as [recoverExpired] read it, while the loop runs: the task
    is untouched and its run has not become, or ceased to be, cancelled. *)
Definition cancelled_run (r : RunRow) : bool := bool_decide (r_status r = RUN_CANCELLED).

Definition still_expired (db : Db) (e : uuid * TaskRow * RunRow) : Prop :=
  let '(id, t, r) := e in
  task_runs db !! id = Some t ∧ leased_or_running t = true ∧
  cancelled_run <$> workflow_runs db !! t_workflow_run_id t = Some (cancelled_run r).

Lemma end_run_cancelled now rid runs k :
  cancelled_run <$> end_run now RUN_FAILED rid runs !! k = cancelled_run <$> runs !! k.
Proof.
  unfold end_run. destruct (decide (k = rid)) as [->|Hne].
  - rewrite lookup_alter_eq. destruct (runs !! rid) as [r|]; simpl; [|done]. f_equal.
    destruct (run_running r) eqn:Hr; [|done]. unfold run_running in Hr. bool_split.
    unfold cancelled_run. by rewrite Hr.
  - by rewrite lookup_alter_ne.
Qed.

Lemma failure_status_cancelled r r' b :
  cancelled_run r = cancelled_run r' → failure_status (r_status r) b = failure_status (r_status r') b.
Proof. unfold failure_status, cancelled_run. by intros ->. Qed.

(** What an iteration of the loop keeps for the following ones. *)
Definition other_tasks (id : uuid) (db db' : Db) : Prop :=
  (∀ k, k ≠ id → task_runs db' !! k = task_runs db !! k) ∧
  (∀ k, cancelled_run <$> workflow_runs db' !! k = cancelled_run <$> workflow_runs db !! k).

Lemma sim_recovered db db' id t r v now :
  still_expired db (id, t, r) →
  let st := failure_status (r_status r) (bool_decide (t_attempt_count t < t_maximum_attempts t)) in
  task_runs db' = <[id := failed_row st v now t]> (task_runs db) →
  workflow_runs db' = (if bool_decide (st = DEAD)
                       then end_run now RUN_FAILED (t_workflow_run_id t) (workflow_runs db)
                       else workflow_runs db) →
  task_dependencies db' = task_dependencies db →
  dom (task_attempts db') = dom (task_attempts db) →
  sim db db' ∧ other_tasks id db db'.
Proof.
  intros (Ht & Ha & Hr) st Htasks Hruns Hdeps Hatt. split; [|split].
  - destruct (workflow_runs db !! t_workflow_run_id t) as [r'|] eqn:Hr'; [|done].
    apply (inj Some) in Hr. unfold st in *.
    rewrite <-(failure_status_cancelled _ _ _ Hr) in Htasks, Hruns.
    eapply (sim_failed _ _ _ t r' _ v now); try done. by intros ?%bool_decide_eq_true.
  - intros k Hne. by rewrite Htasks, lookup_insert_ne.
  - intros k. rewrite Hruns. case_bool_decide; [apply end_run_cancelled|done].
Qed.

(** What an iteration does to the row it was selected with. *)
Lemma recover_one_Ok now id t r env s u s' :
  recover_one now (id, t, r) env s = (Ok u, s') → task_runs (s_db s) !! id = Some t →
  let st := failure_status (r_status r) (bool_decide (t_attempt_count t < t_maximum_attempts t)) in
  ∃ m, core ((s_db s)<| task_runs := <[id := failed_row st (env_clock env m +
                if bool_decide (st = RETRY_WAIT) then RetryDelay (t_attempt_count t) else 0) now t]>
                (task_runs (s_db s)) |>
              <| workflow_runs := if bool_decide (st = DEAD)
                 then end_run now RUN_FAILED (t_workflow_run_id t) (workflow_runs (s_db s))
                 else workflow_runs (s_db s) |>) (s_db s').
Proof.
  intros Hb Ht. unfold recover_one in Hb. repeat body_step.
  all: repeat stmt_step; try naive_solver.
  all: match goal with
  | H1 : core _ ?x, H2 : core ?x _ |- _ => pose proof (transitivity H1 H2) as [Hrs Hts Hds Has]
  end.
  all: eexists; split; [|exact Hts|exact Hds|exact Has]; simpl.
  all: unfold end_run; simpl in *; congruence.
Qed.

Lemma sim_recover_one now id t r env s u s' :
  recover_one now (id, t, r) env s = (Ok u, s') → still_expired (s_db s) (id, t, r) →
  sim (s_db s) (s_db s') ∧ other_tasks id (s_db s) (s_db s').
Proof.
  intros Hb He. destruct (recover_one_Ok _ _ _ _ _ _ _ _ Hb) as (m & [Hrs Hts Hds Has]);
    [apply He|]. by eapply (sim_recovered _ _ id); [exact He|exact Hts|..].
Qed.

Lemma still_expired_other db db' id e :
  other_tasks id db db' → e.1.1 ≠ id → still_expired db e → still_expired db' e.
Proof.
  destruct e as [[id' t] r]. simpl. intros [Hts Hrs] Hne (Ht & Ha & Hr).
  by rewrite Hts, Hrs.
Qed.

Lemma sim_recover_loop now l env s u s' :
  mfor l (recover_one now) env s = (Ok u, s') → NoDup (l.*1.*1) →
  (∀ e, e ∈ l → still_expired (s_db s) e) → sim (s_db s) (s_db s').
Proof.
  revert s. induction l as [|[[id t] r] l IH]; intros s; simpl.
  { intros Hb _ _. run_step. reflexivity. }
  intros Hb [Hnew Hnd]%NoDup_cons He. run_step.
  destruct (sim_recover_one _ _ _ _ _ _ _ _ Hm) as [Hsim Hother]; [apply He; by left|].
  etransitivity; [done|]. apply (IH _ Hb Hnd). intros e Hin.
  apply (still_expired_other (s_db s) _ id); [done| |apply He; by right].
  intros <-. apply Hnew. apply list_elem_of_fmap. exists e.1. split; [done|].
  apply list_elem_of_fmap. eauto.
Qed.

(** Joining with the run keeps each task once. *)
Lemma join_run_sublist db l : (omap (join_run db) l).*1 `sublist_of` l.
Proof.
  induction l as [|kt l IH]; simpl; [done|]. unfold join_run at 1.
  destruct (workflow_runs db !! t_workflow_run_id kt.2); simpl; by constructor.
Qed.

Lemma elem_of_join_run db (l : list (uuid * TaskRow)) (kt : uuid * TaskRow) r :
  (kt, r) ∈ omap (join_run db) l →
  kt ∈ l ∧ workflow_runs db !! t_workflow_run_id kt.2 = Some r.
Proof.
  rewrite list_elem_of_omap. intros (kt' & Hin & Hj). unfold join_run in Hj.
  apply bind_Some in Hj as (r' & Hr & Hj). naive_solver.
Qed.

Lemma select_expired_spec now env n db l db' :
  select_expired now env n db = Ok (l, db') →
  db' = db ∧ NoDup (l.*1.*1) ∧ ∀ e, e ∈ l → still_expired db e ∧ expired now e.1.2 = true.
Proof.
  intros [= <- <-]. split; [done|split].
  - eapply sublist_NoDup; [|apply fmap_sublist, fmap_sublist, sublist_take].
    eapply sublist_NoDup; [|apply fmap_sublist, join_run_sublist]. apply NoDup_rows_where.
  - intros [[id t] r] Hin. eapply elem_of_sublist in Hin; [|apply sublist_take].
    apply elem_of_join_run in Hin as [[Ht Hg]%elem_of_rows_where Hr]. simpl in *. bool_split.
    by rewrite Hr.
Qed.

Lemma sim_recoverExpired : preserves sim recoverExpired.
Proof.
  apply preserves_committed; [apply _|]. intros now env n db a s Hb. do 2 run_step.
  run_step. run_step. apply select_expired_spec in Hf as (-> & Hnd & He).
  match goal with H : mfor _ _ _ _ = _ |- _ => apply sim_recover_loop in H; [done|done|] end.
  intros e Hin. by apply He.
Qed.
