(* ===== verification/Creation.v ===== *)
(** Definitions and runs as they are created.

    [Static] is the part of the database invariant that never changes once a
    row exists: stored definitions are valid, each run belongs to the tenant of
    its definition and is an instance of it (one task per key, one dependency
    edge per declared dependency), and idempotency keys are unique.
    [CreateRun] is shown to make a [creates] step of the abstract life cycle
    and to establish [instance_of]. *)
From S2P Require Import Prelude Model Dag State Json Schema Sql StoreWorker StoreWorkflow Scheduler Preserve Frame Lifecycle Refinement.

(** * Instances of a definition *)

(** The task of a run that was created for the entry [key] of its definition. *)
Record task_of (rid : uuid) (key : string) (spec : TaskSpec) (t : TaskRow) : Prop := {
  to_run : t_workflow_run_id t = rid;
  to_key : t_task_key t = key;
  to_handler : t_handler t = Handler spec;
  to_priority : t_priority t = Priority spec;
  to_timeout : t_timeout_seconds t = TimeoutSeconds (WithDefaults spec)
}.

(** [ids] assigns a task run to every key of the definition. *)
Record instance_by (db : Db) (rid : uuid) (dag : DAG) (ids : gmap string uuid) : Prop := {
  in_dom : dom ids = dom (Tasks dag);
  in_task : ∀ key id spec, ids !! key = Some id → Tasks dag !! key = Some spec →
    ∃ t, task_runs db !! id = Some t ∧ task_of rid key spec t;
  in_only : ∀ id t, task_runs db !! id = Some t → t_workflow_run_id t = rid →
    ids !! t_task_key t = Some id;
  in_edges : ∀ c u, (∃ t, task_runs db !! c = Some t ∧ t_workflow_run_id t = rid) →
    is_Some (task_dependencies db !! (c, u)) ↔
    ∃ key spec dep, Tasks dag !! key = Some spec ∧ dep ∈ DependsOn spec ∧
                    ids !! key = Some c ∧ ids !! dep = Some u
}.

Definition instance_of (db : Db) (rid : uuid) (dag : DAG) : Prop :=
  ∃ ids, instance_by db rid dag ids.

Record Static (db : Db) : Prop := {
  st_definitions : ∀ id d, workflow_definitions db !! id = Some d →
    ∃ dag, unmarshal_dag (d_dag_spec d) = Some dag ∧ valid_dag dag;
  st_runs : ∀ rid r, workflow_runs db !! rid = Some r →
    ∃ d dag, workflow_definitions db !! r_workflow_definition_id r = Some d ∧
             d_tenant_id d = r_tenant_id r ∧ d_version d = r_workflow_version r ∧
             unmarshal_dag (d_dag_spec d) = Some dag ∧ instance_of db rid dag;
  st_idempotency : ∀ rid1 rid2 r1 r2,
    workflow_runs db !! rid1 = Some r1 → workflow_runs db !! rid2 = Some r2 →
    r_tenant_id r1 = r_tenant_id r2 → r_idempotency_key r1 = r_idempotency_key r2 →
    rid1 = rid2
}.

(** * The frame keeps the static invariant *)

Lemma task_of_static rid key spec t t' :
  task_static t' = task_static t → task_of rid key spec t → task_of rid key spec t'.
Proof. unfold task_static. intros [=] []. split; congruence. Qed.

Lemma frame_sym db db' : frame db db' → frame db' db.
Proof. intros []. by split. Qed.

Lemma instance_by_frame db db' rid dag ids :
  frame db db' → instance_by db rid dag ids → instance_by db' rid dag ids.
Proof.
  intros F I. assert (∀ c t, task_runs db' !! c = Some t → ∃ t0, task_runs db !! c = Some t0 ∧
    t_workflow_run_id t = t_workflow_run_id t0 ∧ t_task_key t = t_task_key t0) as Hback.
  { intros c t Hc. destruct (frame_task _ _ _ _ F Hc) as (t0 & Ht0 & [=]). eauto. }
  split; [apply (in_dom _ _ _ _ I)|..].
  - intros key id spec Hid Hspec. destruct (in_task _ _ _ _ I _ _ _ Hid Hspec) as (t & Ht & Hof).
    destruct (frame_task _ _ _ _ (frame_sym _ _ F) Ht) as (t' & Ht' & Hs).
    exists t'. split; [done|]. by eapply task_of_static.
  - intros id t Ht Hr. destruct (Hback _ _ Ht) as (t0 & Ht0 & Hr0 & ->).
    apply (in_only _ _ _ _ I); congruence.
  - intros c u (t & Ht & Hr). destruct (Hback _ _ Ht) as (t0 & Ht0 & Hr0 & _).
    rewrite (fr_deps _ _ F). apply (in_edges _ _ _ _ I). exists t0. split; congruence.
Qed.

Lemma Static_frame db db' : frame db db' → Static db → Static db'.
Proof.
  intros F S. pose proof (fr_definitions _ _ F) as Hd. split; rewrite ?Hd.
  - apply (st_definitions _ S).
  - intros rid r' Hr'. destruct (frame_run _ _ _ _ F Hr') as (r & Hr & [=]).
    destruct (st_runs _ S _ _ Hr) as (d & dag & ? & ? & ? & ? & ids & I). exists d, dag.
    split_and!; try congruence. exists ids. by eapply instance_by_frame.
  - intros rid1 rid2 r1' r2' H1 H2.
    destruct (frame_run _ _ _ _ F H1) as (r1 & Hr1 & [=]), (frame_run _ _ _ _ F H2) as (r2 & Hr2 & [=]).
    intros. eapply (st_idempotency _ S _ _ r1 r2); congruence.
Qed.

(** * The whole invariant, and the operations that keep it *)

Record DbInv (db : Db) : Prop := {
  db_inv : Inv (abs db);
  db_static : Static db
}.

(** An operation that starts in a database that satisfies the invariant makes
    steps of the abstract life cycle and keeps the invariant. *)
Definition refines (db db' : Db) : Prop :=
  DbInv db → rtc lstep (abs db) (abs db') ∧ DbInv db'.

#[export] Instance refines_preorder : PreOrder refines.
Proof.
  split; [by intros db I|]. intros db1 db2 db3 H12 H23 I.
  destruct (H12 I) as [? I2], (H23 I2) as [? I3]. split; [by etransitivity|done].
Qed.

Lemma refines_sim_frame db db' : sim db db' → frame db db' → refines db db'.
Proof.
  intros Hs F [I S]. split; [by apply Hs|]. split; [|by eapply Static_frame].
  by eapply rtc_lstep_inv; [apply Hs|].
Qed.

Lemma preserves_refines {A} (m : M A) :
  preserves sim m → preserves frame m → preserves refines m.
Proof. intros Hs Hf env s r s' Hm. apply refines_sim_frame; [by eapply Hs|by eapply Hf]. Qed.

(** * The loops of [CreateRun] *)

Lemma assign_ids_Ok keys ids0 env s ids s' :
  assign_ids keys ids0 env s = (Ok ids, s') →
  s_db s' = s_db s ∧ dom ids = list_to_set keys ∪ dom ids0.
Proof.
  revert ids0 s. induction keys as [|k keys IH]; intros ids0 s; simpl; intros Hb.
  { run_step. split; [done|set_solver]. }
  repeat run_step. apply IH in Hb as [-> ->]. split; [done|]. rewrite dom_insert_L. set_solver.
Qed.

Lemma sql_check_Ok {A} ok c msg (f : Stmt A) env n db x :
  sql_check ok c msg f env n db = Ok x → ok db = true ∧ f env n db = Ok x.
Proof. unfold sql_check. by destruct (ok db). Qed.

Ltac checks H :=
  repeat (let Hc := fresh "Hc" in apply sql_check_Ok in H as [Hc H]); bool_split.

Lemma insert_task_Ok id row env n db u db' :
  insert_task id row env n db = Ok (u, db') →
  task_runs db !! id = None ∧ 0 < t_maximum_attempts row ∧
  db' = db<| task_runs := <[id := row]> (task_runs db) |>.
Proof. unfold insert_task. intros H. checks H. by injection H as _ <-. Qed.

Definition new_rows (now : time) (rid : uuid) (input : json) (ids : gmap string uuid)
    (l : list (string * TaskSpec)) : list (uuid * TaskRow) :=
  (λ ks, (id_of ids ks.1, new_task now rid input ks.1 ks.2)) <$> l.

Lemma insert_tasks_Ok now rid input ids l env s u s' :
  insert_tasks now rid input ids l env s = (Ok u, s') →
  let new := new_rows now rid input ids l in
  NoDup new.*1 ∧ (∀ k, k ∈ new.*1 → task_runs (s_db s) !! k = None) ∧
  (∀ k t, (k, t) ∈ new → 0 < t_maximum_attempts t) ∧
  s_db s' = (s_db s)<| task_runs := list_to_map new ∪ task_runs (s_db s) |>.
Proof.
  unfold insert_tasks. revert s. induction l as [|[key spec] l IH]; intros s; simpl; intros Hb.
  { run_step. split_and!; [constructor|set_solver..|].
    destruct (s_db s'); simpl. by rewrite (left_id_L ∅ (∪)). }
  repeat run_step. apply insert_task_Ok in Hf as (Hfresh & Hmax & ->).
  apply IH in Hb as (Hnd & Hold & Hpos & ->). simpl in *.
  assert (id_of ids key ∉ (new_rows now rid input ids l).*1) as Hnew.
  { intros Hin. apply Hold in Hin. by rewrite lookup_insert_eq in Hin. }
  split_and!.
  - by constructor.
  - intros k [->|Hk]%elem_of_cons; [done|]. specialize (Hold _ Hk).
    by apply lookup_insert_None in Hold as [? _].
  - intros k t [[= -> ->]|Hk]%elem_of_cons; [done|eauto].
  - simpl. rewrite <-insert_union_r by (by apply not_elem_of_list_to_map).
    by rewrite insert_union_l.
Qed.

Lemma insert_dependency_Ok rid c u env n db x db' :
  insert_dependency rid c u env n db = Ok (x, db') →
  db' = db<| task_dependencies := <[(c, u) := rid]> (task_dependencies db) |>.
Proof. unfold insert_dependency. intros H. checks H. by injection H as _ <-. Qed.

(** The edges the second loop inserts, in order. *)
Definition new_edges (ids : gmap string uuid) (l : list (string * TaskSpec)) : list (uuid * uuid) :=
  l ≫= λ ks, (λ dep, (id_of ids ks.1, id_of ids dep)) <$> DependsOn ks.2.

Definition deps_extend (e : list (uuid * uuid)) (db db' : Db) : Prop :=
  db' = db<| task_dependencies := task_dependencies db' |> ∧
  dom (task_dependencies db') = list_to_set e ∪ dom (task_dependencies db).

Lemma deps_extend_app e1 e2 db1 db2 db3 :
  deps_extend e1 db1 db2 → deps_extend e2 db2 db3 → deps_extend (e1 ++ e2) db1 db3.
Proof.
  intros [H1 D1] [H2 D2]. split; [rewrite H2; simpl; by rewrite H1|].
  rewrite D2, D1, list_to_set_app_L. set_solver.
Qed.

Lemma insert_deps_Ok rid c ids deps env s x s' :
  mfor deps (λ dep, tx_stmt (insert_dependency rid c (id_of ids dep))) env s = (Ok x, s') →
  deps_extend ((λ dep, (c, id_of ids dep)) <$> deps) (s_db s) (s_db s').
Proof.
  revert s. induction deps as [|d deps IH]; intros s; simpl; intros Hb.
  { run_step. split; [by destruct (s_db s')|set_solver]. }
  repeat run_step. apply insert_dependency_Ok in Hf as ->. apply IH in Hb.
  eapply (deps_extend_app [_]); [|done]. split; [done|]. simpl. rewrite dom_insert_L. set_solver.
Qed.

Lemma insert_dependencies_Ok rid ids l env s x s' :
  insert_dependencies rid ids l env s = (Ok x, s') →
  deps_extend (new_edges ids l) (s_db s) (s_db s').
Proof.
  unfold insert_dependencies. revert s. induction l as [|ks l IH]; intros s; simpl; intros Hb.
  { run_step. split; [by destruct (s_db s')|set_solver]. }
  run_step. apply insert_deps_Ok in Hm. apply IH in Hb. by eapply deps_extend_app.
Qed.

(** * What [populate_run] adds *)

Record populated (now : time) (rid : uuid) (input : json) (dag : DAG) (ids : gmap string uuid)
    (new : gmap uuid TaskRow) (edges : gset (uuid * uuid)) (db db' : Db) : Prop := {
  po_ids : dom ids = dom (Tasks dag);
  po_inj : ∀ k1 k2, k1 ∈ dom (Tasks dag) → k2 ∈ dom (Tasks dag) →
    id_of ids k1 = id_of ids k2 → k1 = k2;
  po_new : ∀ k t, new !! k = Some t ↔ ∃ key spec, Tasks dag !! key = Some spec ∧
    k = id_of ids key ∧ t = new_task now rid input key spec;
  po_fresh : new ##ₘ task_runs db;
  po_tasks : task_runs db' = new ∪ task_runs db;
  po_max : ∀ k t, new !! k = Some t → 0 < t_maximum_attempts t;
  po_edges : ∀ c u, (c, u) ∈ edges ↔ ∃ key spec dep, Tasks dag !! key = Some spec ∧
    dep ∈ DependsOn spec ∧ c = id_of ids key ∧ u = id_of ids dep;
  po_deps : dom (task_dependencies db') = edges ∪ dom (task_dependencies db);
  po_runs : workflow_runs db' = workflow_runs db;
  po_definitions : workflow_definitions db' = workflow_definitions db;
  po_attempts : dom (task_attempts db') = dom (task_attempts db)
}.

(** Statements that touch neither tasks, runs, edges nor definitions. *)
Definition aside (db db' : Db) : Prop :=
  core db db' ∧ workflow_definitions db' = workflow_definitions db.

#[export] Instance aside_preorder : PreOrder aside.
Proof.
  split; [by split|]. intros db1 db2 db3 [? ?] [? ?]. split; [by etransitivity|congruence].
Qed.

Lemma aside_stmt {A} (f : Stmt A) :
  stmt_preserves core f → stmt_preserves frame f → stmt_preserves aside f.
Proof. intros Hc Hf env n db a db' H. split; [by eapply Hc|by eapply fr_definitions, Hf]. Qed.

Lemma core_update_artifacts P f : stmt_preserves core (update_artifacts P f).
Proof. by intros env n db a db' [= <- <-]. Qed.

#[export] Hint Resolve core_update_artifacts : preserve.
#[export] Hint Extern 10 (stmt_preserves aside _) => apply aside_stmt : preserve.

Lemma aside_attach_artifact aid rid : preserves aside (attach_artifact aid rid).
Proof. unfold attach_artifact. preserve. Qed.

Lemma new_rows_elem now rid input ids l k t :
  (k, t) ∈ new_rows now rid input ids l ↔
  ∃ key spec, (key, spec) ∈ l ∧ k = id_of ids key ∧ t = new_task now rid input key spec.
Proof.
  unfold new_rows. rewrite list_elem_of_fmap. split.
  - intros ([key spec] & [= -> ->] & Hin). eauto.
  - intros (key & spec & Hin & -> & ->). by exists (key, spec).
Qed.

Lemma new_edges_elem ids l c u :
  (c, u) ∈ new_edges ids l ↔
  ∃ key spec dep, (key, spec) ∈ l ∧ dep ∈ DependsOn spec ∧ c = id_of ids key ∧ u = id_of ids dep.
Proof.
  unfold new_edges. rewrite list_elem_of_bind. split.
  - intros ([key spec] & Hin & Hl). simpl in Hin.
    apply list_elem_of_fmap in Hin as (dep & [= -> ->] & Hdep). eauto 10.
  - intros (key & spec & dep & Hl & Hdep & -> & ->). exists (key, spec). split; [|done].
    apply list_elem_of_fmap. eauto.
Qed.

Lemma NoDup_new_rows_inj now rid input ids l k1 k2 :
  NoDup (new_rows now rid input ids l).*1 → NoDup l.*1 → k1 ∈ l.*1 → k2 ∈ l.*1 →
  id_of ids k1 = id_of ids k2 → k1 = k2.
Proof.
  unfold new_rows. intros Hnd Hl. induction l as [|[key spec] l IH]; simpl in *; [set_solver|].
  apply NoDup_cons in Hnd as [Hn Hnd], Hl as [_ Hl].
  assert (∀ k, k ∈ l.*1 → id_of ids k ≠ id_of ids key) as Hne.
  { intros k Hk Heq. apply Hn. rewrite <-list_fmap_compose, <-Heq.
    apply list_elem_of_fmap in Hk as (ks & -> & Hks).
    apply list_elem_of_fmap. by exists ks. }
  intros [->|H1]%elem_of_cons [->|H2]%elem_of_cons Heq; [done|..].
  - by destruct (Hne k2).
  - by destruct (Hne k1).
  - by apply IH.
Qed.

Lemma elem_of_tasks (dag : DAG) l key spec :
  l ≡ₚ map_to_list (Tasks dag) → (key, spec) ∈ l ↔ Tasks dag !! key = Some spec.
Proof. intros ->. apply elem_of_map_to_list. Qed.

Lemma keys_of_tasks (dag : DAG) l key :
  l ≡ₚ map_to_list (Tasks dag) → key ∈ l.*1 ↔ key ∈ dom (Tasks dag).
Proof.
  intros Hl. rewrite elem_of_dom, list_elem_of_fmap. split.
  - intros ([k spec] & -> & Hin). exists spec. by eapply elem_of_tasks.
  - intros [spec Hs]. exists (key, spec). split; [done|]. by eapply elem_of_tasks.
Qed.

Lemma populated_intro now rid input dag ids l2 l3 db db1 db2 db3 db' :
  l2 ≡ₚ map_to_list (Tasks dag) → l3 ≡ₚ map_to_list (Tasks dag) →
  dom ids = dom (Tasks dag) → aside db db1 →
  let new := new_rows now rid input ids l2 in
  NoDup new.*1 → (∀ k, k ∈ new.*1 → task_runs db1 !! k = None) →
  (∀ k t, (k, t) ∈ new → 0 < t_maximum_attempts t) →
  db2 = db1<| task_runs := list_to_map new ∪ task_runs db1 |> →
  deps_extend (new_edges ids l3) db2 db3 → aside db3 db' →
  populated now rid input dag ids (list_to_map new) (list_to_set (new_edges ids l3)) db db'.
Proof.
  intros Hl2 Hl3 Hids [[Hr1 Ht1 Hd1 Ha1] Hdef1] new Hnd Hfresh Hmax -> [Hdb3 Hdom]
    [[Hr2 Ht2 Hd2 Ha2] Hdef2].
  assert (∀ k t, list_to_map (M := gmap uuid TaskRow) new !! k = Some t ↔ (k, t) ∈ new) as Hnew.
  { intros k t. symmetry. by apply elem_of_list_to_map. }
  rewrite Hdb3 in Hr2, Ht2, Ha2, Hdef2. simpl in *. split; try congruence.
  - intros k1 k2. rewrite <-!(keys_of_tasks dag l2) by done.
    eapply NoDup_new_rows_inj; [done|]. rewrite Hl2. apply NoDup_fst_map_to_list.
  - intros k t. rewrite Hnew. unfold new. rewrite new_rows_elem.
    by setoid_rewrite (elem_of_tasks dag l2).
  - apply map_disjoint_spec. intros k t1 t2 Hk1 Hk2. apply Hnew in Hk1.
    rewrite <-Ht1, Hfresh in Hk2; [done|]. apply list_elem_of_fmap. by exists (k, t1).
  - intros k t Hk%Hnew. eauto.
  - intros c u. rewrite elem_of_list_to_set, new_edges_elem.
    by setoid_rewrite (elem_of_tasks dag l3).
Qed.

Lemma populate_run_Ok now tenant user def aid input trace dag rid env s u s' :
  populate_run now tenant user def aid input trace dag rid env s = (Ok u, s') →
  ∃ ids new edges, populated now rid input dag ids new edges (s_db s) (s_db s').
Proof.
  unfold populate_run. intros Hb. repeat run_step. simpl in *.
  apply aside_attach_artifact in Hm. apply assign_ids_Ok in Hm1 as [Hdb Hids].
  apply insert_tasks_Ok in Hm3 as (Hnd & Hfresh & Hmax & Hdb2).
  apply insert_dependencies_Ok in Hm5. simpl in *. rewrite Hdb in *.
  do 3 eexists. eapply populated_intro; [apply range_map_perm..| |done|done|done|done|done|done|].
  - rewrite Hids, dom_empty_L, (right_id_L ∅ (∪)). apply set_eq; intros key.
    rewrite elem_of_list_to_set. apply keys_of_tasks, range_map_perm.
  - transitivity db0.
    + by eapply (aside_stmt _ (core_insert_outbox _ _ _ _ _ _) (frame_insert_outbox _ _ _ _ _ _)).
    + by eapply (aside_stmt _ (core_insert_audit _ _ _ _ _ _ _) (frame_insert_audit _ _ _ _ _ _ _)).
Qed.

Section NewRun.
Context {db db1 db' : Db} {rid : uuid} {row : RunRow} {now : time} {input : json} {dag : DAG}.
Context {ids : gmap string uuid} {new : gmap uuid TaskRow} {edges : gset (uuid * uuid)}.
Context (V : valid_dag dag) (Hfresh : workflow_runs db !! rid = None).
Context (Hdb1 : db1 = db<| workflow_runs := <[rid := row]> (workflow_runs db) |>).
Context (Hst : r_status row = RUN_RUNNING) (Hco : r_completed_at row = None).
Context (P : populated now rid input dag ids new edges db1 db').

Lemma new_run_task key spec :
  Tasks dag !! key = Some spec → new !! id_of ids key = Some (new_task now rid input key spec).
Proof. intros Hs. apply (po_new _ _ _ _ _ _ _ _ _ P). by exists key, spec. Qed.

Lemma new_run_known key spec dep :
  Tasks dag !! key = Some spec → dep ∈ DependsOn spec → is_Some (Tasks dag !! dep).
Proof. intros Hs. apply (ok_known _ _ _ (valid_tasks _ V _ _ Hs)). Qed.

Lemma new_run_ends c u :
  (c, u) ∈ edges → is_Some (new !! c) ∧ is_Some (new !! u).
Proof.
  intros (key & spec & dep & Hs & Hd & -> & ->)%(po_edges _ _ _ _ _ _ _ _ _ P).
  destruct (new_run_known _ _ _ Hs Hd) as [spec' Hs'].
  split; eexists; by apply new_run_task.
Qed.

Lemma new_run_key key1 key2 spec1 spec2 :
  Tasks dag !! key1 = Some spec1 → Tasks dag !! key2 = Some spec2 →
  id_of ids key1 = id_of ids key2 → key1 = key2.
Proof. intros H1 H2. by apply (po_inj _ _ _ _ _ _ _ _ _ P); apply elem_of_dom. Qed.

(** The edges of the new run follow the definition, so they have no cycle. *)
Lemma new_run_acyclic_key key :
  is_Some (Tasks dag !! key) → Acc (λ u c, (c, u) ∈ edges) (id_of ids key).
Proof.
  induction (valid_dag_wf dag key V) as [key _ IH]. intros [spec Hs]. constructor.
  intros u (key' & spec' & d & Hs' & Hd & Hid & ->)%(po_edges _ _ _ _ _ _ _ _ _ P).
  assert (key = key') as <- by by eapply new_run_key.
  apply IH; [|by eapply new_run_known]. unfold flip, dep_edge, deps_of. by rewrite Hs'.
Qed.

Lemma new_run_acyclic c : Acc (λ u c, (c, u) ∈ edges) c.
Proof.
  constructor. intros u (key & spec & dep & Hs & Hd & -> & ->)%(po_edges _ _ _ _ _ _ _ _ _ P).
  by eapply new_run_acyclic_key, new_run_known.
Qed.

Lemma new_run_nonempty : new ≠ ∅.
Proof.
  intros Hn. pose proof (valid_nonempty _ V) as Hne.
  destruct (map_choose (Tasks dag)) as (key & spec & Hs).
  { intros He. rewrite He, map_size_empty in Hne. lia. }
  apply new_run_task in Hs. by rewrite Hn in Hs.
Qed.

Lemma new_run_creates : creates (abs db) (abs db') rid (abs_run row) (abs_task <$> new) edges.
Proof.
  assert (task_runs db1 = task_runs db) as Ht by by rewrite Hdb1.
  split; simpl.
  - by rewrite lookup_fmap, Hfresh.
  - by rewrite (po_runs _ _ _ _ _ _ _ _ _ P), Hdb1, <-fmap_insert.
  - apply map_disjoint_fmap. rewrite <-Ht. apply (po_fresh _ _ _ _ _ _ _ _ _ P).
  - by rewrite (po_tasks _ _ _ _ _ _ _ _ _ P), map_fmap_union, Ht.
  - by rewrite (po_deps _ _ _ _ _ _ _ _ _ P), Hdb1.
  - by rewrite (po_attempts _ _ _ _ _ _ _ _ _ P), Hdb1.
  - done.
  - done.
  - intros ?%fmap_empty_inv. by apply new_run_nonempty.
  - intros k a Ha. rewrite lookup_fmap in Ha. apply fmap_Some in Ha as (t & Hk & ->).
    pose proof (po_max _ _ _ _ _ _ _ _ _ P _ _ Hk) as Hmax.
    apply (po_new _ _ _ _ _ _ _ _ _ P) in Hk as (key & spec & Hs & -> & ->).
    split_and!; try done; [simpl in *; lia|]. simpl. unfold initial_status. simpl.
    case_bool_decide as Hd; [left|right]; (split; [done|]).
    + intros u (key' & spec' & d & Hs' & Hin & Hid & _)%(po_edges _ _ _ _ _ _ _ _ _ P).
      assert (key = key') as <- by by eapply new_run_key. simplify_eq. rewrite Hd in Hin. set_solver.
    + destruct (DependsOn spec) as [|d l] eqn:Hds; [done|]. exists (id_of ids d).
      apply (po_edges _ _ _ _ _ _ _ _ _ P). exists key, spec, d. rewrite Hds. set_solver.
  - setoid_rewrite lookup_fmap. setoid_rewrite fmap_is_Some. apply new_run_ends.
  - apply new_run_acyclic.
Qed.

Lemma new_run_id key spec : Tasks dag !! key = Some spec → ids !! key = Some (id_of ids key).
Proof.
  intros Hs. assert (key ∈ dom ids) as [id Hid]%elem_of_dom.
  { rewrite (po_ids _ _ _ _ _ _ _ _ _ P). by apply elem_of_dom. }
  unfold id_of. by rewrite Hid.
Qed.

Lemma new_run_id_inv key id : ids !! key = Some id → is_Some (Tasks dag !! key) ∧ id = id_of ids key.
Proof.
  intros Hid. split; [|unfold id_of; by rewrite Hid].
  apply elem_of_dom. rewrite <-(po_ids _ _ _ _ _ _ _ _ _ P). by apply elem_of_dom.
Qed.

Lemma new_run_lookup k t :
  task_runs db' !! k = Some t ↔ new !! k = Some t ∨ task_runs db !! k = Some t.
Proof.
  pose proof (po_fresh _ _ _ _ _ _ _ _ _ P) as Hd.
  rewrite (po_tasks _ _ _ _ _ _ _ _ _ P), lookup_union_Some by done. by rewrite Hdb1.
Qed.

Lemma new_run_dep c u :
  is_Some (task_dependencies db' !! (c, u)) ↔
  (c, u) ∈ edges ∨ is_Some (task_dependencies db !! (c, u)).
Proof.
  rewrite <-!elem_of_dom, (po_deps _ _ _ _ _ _ _ _ _ P), elem_of_union. by rewrite Hdb1.
Qed.

Context (I : Inv (abs db)).

Lemma old_task_run k t : task_runs db !! k = Some t → t_workflow_run_id t ≠ rid.
Proof.
  intros Hk Heq. destruct (inv_run _ I k (abs_task t)) as [r Hr].
  { by rewrite lookup_abs_task, Hk. }
  rewrite lookup_abs_run in Hr. simpl in Hr. by rewrite Heq, Hfresh in Hr.
Qed.

Lemma new_run_instance : instance_by db' rid dag ids.
Proof.
  split; [apply (po_ids _ _ _ _ _ _ _ _ _ P)|..].
  - intros key id spec Hid Hs. destruct (new_run_id_inv _ _ Hid) as [_ ->].
    eexists. rewrite new_run_lookup. split; [left; by apply new_run_task|]. by split.
  - intros id t [Hn|Ho]%new_run_lookup Hr; [|by eapply old_task_run in Hr].
    apply (po_new _ _ _ _ _ _ _ _ _ P) in Hn as (key & spec & Hs & -> & ->).
    by apply (new_run_id _ spec).
  - intros c u (t & Ht & Hr). rewrite new_run_dep, (po_edges _ _ _ _ _ _ _ _ _ P). split.
    + intros [(key & spec & dep & Hs & Hd & -> & ->)|Hold].
      * destruct (new_run_known _ _ _ Hs Hd) as [spec' Hs'].
        exists key, spec, dep. split_and!; [done..| |]; by eapply new_run_id.
      * exfalso. destruct (inv_edges _ I c u) as (tc & _ & Hc & _); [by apply elem_of_dom|].
        rewrite lookup_abs_task in Hc. apply fmap_Some in Hc as (t0 & Ht0 & _).
        assert (task_runs db' !! c = Some t0) as Ht0' by (rewrite new_run_lookup; by right).
        destruct (old_task_run _ _ Ht0). congruence.
    + intros (key & spec & dep & Hs & Hd & Hc & Hu). left. exists key, spec, dep.
      apply new_run_id_inv in Hc as [_ ->], Hu as [_ ->]. done.
Qed.

(** Runs that existed before are instances of their definitions as they were. *)
Lemma old_run_instance rid0 dag0 ids0 :
  rid0 ≠ rid → instance_by db rid0 dag0 ids0 → instance_by db' rid0 dag0 ids0.
Proof.
  intros Hne I0. assert (∀ k t, task_runs db' !! k = Some t → t_workflow_run_id t = rid0 →
    task_runs db !! k = Some t) as Hback.
  { intros k t [Hn|?]%new_run_lookup Hr; [|done].
    by apply (po_new _ _ _ _ _ _ _ _ _ P) in Hn as (? & ? & _ & _ & ->). }
  split; [apply (in_dom _ _ _ _ I0)|..].
  - intros key id spec Hid Hs. destruct (in_task _ _ _ _ I0 _ _ _ Hid Hs) as (t & Ht & Hof).
    exists t. rewrite new_run_lookup. auto.
  - intros id t Ht Hr. apply (in_only _ _ _ _ I0); auto.
  - intros c u (t & Ht & Hr). rewrite new_run_dep, <-(in_edges _ _ _ _ I0) by eauto.
    split; [|auto]. intros [Hin|?]; [|done]. destruct (new_run_ends _ _ Hin) as [[t' Hc] _].
    assert (task_runs db' !! c = Some t') as Ht' by (rewrite new_run_lookup; by left).
    apply (po_new _ _ _ _ _ _ _ _ _ P) in Hc as (? & ? & _ & _ & Heq).
    destruct Hne. rewrite <-Hr. rewrite Ht in Ht'. injection Ht' as ->. by rewrite Heq.
Qed.
End NewRun.

(** * [CreateRun] *)

Lemma input_artifact_uri_db aid tenant : preserves (=) (input_artifact_uri aid tenant).
Proof. unfold input_artifact_uri. preserve. Qed.

Lemma select_definition_Some id tenant env n db d db' :
  select_definition id tenant env n db = Ok (Some d, db') →
  db' = db ∧ workflow_definitions db !! id = Some d ∧ d_tenant_id d = tenant.
Proof.
  unfold select_definition, sql_select. intros [= Hs <-].
  apply bind_Some in Hs as (d' & Hd & Hs). case_bool_decide; naive_solver.
Qed.

Lemma insert_run_Some row env n db rid row' db' :
  insert_run row env n db = Ok (Some (rid, row'), db') →
  row' = row ∧ workflow_runs db !! rid = None ∧
  (∀ k r, workflow_runs db !! k = Some r →
     ¬ (r_tenant_id r = r_tenant_id row ∧ r_idempotency_key r = r_idempotency_key row)) ∧
  db' = db<| workflow_runs := <[rid := row]> (workflow_runs db) |>.
Proof.
  unfold insert_run. case_bool_decide as Hu; [|done]. case_bool_decide as Hp; [done|].
  do 2 (case_bool_decide; simpl; [|done]). intros [= <- <- <-].
  split_and!; [done|by apply eq_None_not_Some| |done].
  intros k r Hr [Ht Hi]. specialize (Hu k r Hr). simpl in Hu. unfold same_idempotency in Hu.
  by rewrite !bool_decide_true in Hu.
Qed.

(** The static invariant after a run has been added. *)
Lemma new_run_static db db1 db' rid row d dag now input ids new edges :
  DbInv db → workflow_runs db !! rid = None →
  (∀ k r, workflow_runs db !! k = Some r →
     ¬ (r_tenant_id r = r_tenant_id row ∧ r_idempotency_key r = r_idempotency_key row)) →
  db1 = db<| workflow_runs := <[rid := row]> (workflow_runs db) |> →
  populated now rid input dag ids new edges db1 db' →
  workflow_definitions db !! r_workflow_definition_id row = Some d →
  d_tenant_id d = r_tenant_id row → d_version d = r_workflow_version row →
  unmarshal_dag (d_dag_spec d) = Some dag → valid_dag dag →
  Static db'.
Proof.
  intros [I S] Hfresh Hidem Hdb1 P Hd Htenant Hversion Hdag V.
  assert (workflow_definitions db' = workflow_definitions db) as Hdefs
    by by rewrite (po_definitions _ _ _ _ _ _ _ _ _ P), Hdb1.
  assert (workflow_runs db' = <[rid := row]> (workflow_runs db)) as Hruns
    by by rewrite (po_runs _ _ _ _ _ _ _ _ _ P), Hdb1.
  split; rewrite ?Hdefs, ?Hruns.
  - apply (st_definitions _ S).
  - intros rid0 r0 [[<- <-]|[Hne Hr0]]%lookup_insert_Some.
    + exists d, dag. split_and!; try done. exists ids. by eapply new_run_instance.
    + destruct (st_runs _ S _ _ Hr0) as (d0 & dag0 & ? & ? & ? & ? & ids0 & I0).
      exists d0, dag0. split_and!; try done. exists ids0. by eapply old_run_instance.
  - intros rid1 rid2 r1 r2 [[<- <-]|[Hne1 H1]]%lookup_insert_Some
      [[<- <-]|[Hne2 H2]]%lookup_insert_Some Ht Hk; [done|..].
    + by destruct (Hidem _ _ H2).
    + by destruct (Hidem _ _ H1).
    + by eapply (st_idempotency _ S).
Qed.

Lemma refines_CreateRun tenant user def key input aids :
  preserves refines (CreateRun tenant user def key input aids).
Proof.
  unfold CreateRun. case_bool_decide; [preserve|].
  apply preserves_committed; [apply _|]. intros now env n db a s Hb DI.
  repeat body_step; [|discriminate].
  apply input_artifact_uri_db in Hm. simpl in Hm. subst db.
  apply select_definition_Some in Hf0 as (-> & Hd & Ht).
  apply insert_run_Some in Hf as (-> & Hfresh & Hidem & Hdb).
  apply populate_run_Ok in Hm3 as (ids & new & edges & P). simpl in P.
  destruct (st_definitions _ (db_static _ DI) _ _ Hd) as (dag & Hdag & V). simplify_eq.
  assert (lstep (abs (s_db s0)) (abs (s_db s))) as Hstep.
  { eapply lstep_create. by eapply (new_run_creates V Hfresh); [..|exact P]. }
  split; [by apply rtc_once|]. split; [by eapply lstep_preserves, DI|].
  by eapply (new_run_static _ _ _ _ _ d _ _ _ _ _ _ DI Hfresh Hidem eq_refl P).
Qed.

(** * Definitions *)

Lemma refines_stmt {A} (f : Stmt A) :
  stmt_preserves core f → stmt_preserves frame f → stmt_preserves refines f.
Proof.
  intros Hc Hf env n db a db' H. apply refines_sim_frame; [by eapply sim_core, Hc|by eapply Hf].
Qed.

#[export] Hint Extern 10 (stmt_preserves refines _) => apply refines_stmt : preserve.
#[export] Hint Resolve refines_CreateRun : preserve.

Lemma insert_definition_Ok now tenant name version spec by_ env n db def db' :
  insert_definition now tenant name version spec by_ env n db = Ok (def, db') →
  ∃ row, workflow_definitions db !! def_ID def = None ∧
         db' = db<| workflow_definitions := <[def_ID def := row]> (workflow_definitions db) |> ∧
         d_dag_spec row = spec.
Proof.
  unfold insert_definition. intros H. checks H. revert H.
  case_bool_decide as Hn; [done|]. intros [= <- <-].
  eexists. split_and!; [by apply eq_None_not_Some|reflexivity|done].
Qed.

Lemma refines_insert_definition now tenant name version dag by_ :
  valid_dag dag →
  stmt_preserves refines (insert_definition now tenant name version (marshal_dag dag) by_).
Proof.
  intros V env n db def db' (row & Hfresh & -> & Hspec)%insert_definition_Ok [I S].
  split; [done|]. split; [done|]. split; simpl.
  - intros id d [[<- <-]|[_ Hd]]%lookup_insert_Some; [|by eapply (st_definitions _ S)].
    exists dag. by rewrite Hspec, unmarshal_marshal_dag.
  - intros rid r Hr. destruct (st_runs _ S _ _ Hr) as (d & dag' & Hd & ? & ? & ? & ids & Hin).
    exists d, dag'. split_and!; try done; [|exists ids; by destruct Hin].
    apply lookup_insert_Some. right. split; congruence.
  - apply (st_idempotency _ S).
Qed.

(** What follows a successful validation may rely on it. *)
Lemma preserves_validate {A} R `{!PreOrder R} dag (m : M A) :
  (valid_dag dag → preserves R m) → preserves R (validate dag ;; m).
Proof.
  intros Hm env s r s' Hb. unfold validate, mbind, M_bind, range_rank in Hb.
  destruct (ValidateDAG _ _ dag) eqn:Hv; [by injection Hb as <- <-|].
  apply ValidateDAG_valid in Hv. by apply (Hm Hv) in Hb.
Qed.

Lemma refines_CreateWorkflow tenant user name dag :
  preserves refines (CreateWorkflow tenant user name dag).
Proof.
  unfold CreateWorkflow. apply preserves_validate; [apply _|]. intros V. preserve.
  - intros env n. by apply refines_insert_definition.
  - intros env n. by apply refines_stmt; [apply core_insert_audit|apply frame_insert_audit].
Qed.

Lemma refines_CreateVersion tenant user def dag :
  preserves refines (CreateVersion tenant user def dag).
Proof.
  unfold CreateVersion. apply preserves_validate; [apply _|]. intros V. preserve.
  by apply refines_insert_definition.
Qed.

(** * Operations outside the life cycle *)

Lemma core_update_schedule id next : stmt_preserves core (update_schedule id next).
Proof. by intros env n db a db' [= <- <-]. Qed.
#[export] Hint Resolve core_update_schedule : preserve.

Lemma refines_WorkerHeartbeat tenant w hs active md :
  preserves refines (WorkerHeartbeat tenant w hs active md).
Proof.
  unfold WorkerHeartbeat. preserve.
  apply refines_stmt; intros env n db a db' [= <- <-]; [done|by apply frame_other].
Qed.

Section Schedules.
Context {location cron : Type} (LoadLocation : string → result location).
Context (cron_parse : string → result cron) (cron_next : cron → location → time → time).
Context (format_rfc3339 : time → string).

Lemma refines_advance l :
  preserves refines (advance_schedules LoadLocation cron_parse cron_next l).
Proof.
  induction l as [|[id item] l IH]; simpl; [preserve|].
  unfold lift_result, misfire_base. preserve.
Qed.

Lemma refines_fireSchedules :
  preserves refines (fireSchedules LoadLocation cron_parse cron_next format_rfc3339).
Proof. unfold fireSchedules, fire_one. preserve. apply refines_advance. Qed.

Lemma refines_tick : preserves refines (tick LoadLocation cron_parse cron_next format_rfc3339).
Proof.
  unfold tick. preserve.
  - apply refines_fireSchedules.
  - apply preserves_refines; [apply sim_promote_retries|apply frame_promote_retries].
  - apply preserves_refines; [apply sim_recoverExpired|apply frame_recoverExpired].
  - apply preserves_refines; [apply sim_dispatch_ready|apply frame_dispatch_ready].
Qed.
End Schedules.
