(* ===== verification/Aloof.v ===== *)
(** The operations that stay out of the engine's tables: keys, artifacts,
    schedules and the outbox protocol change neither definitions, runs, tasks,
    edges nor attempts. *)
From S2P Require Import Prelude Go Model Dag State Json Schema Sql StoreWorker StoreWorkflow Scheduler Outbox Auth Artifacts RateLimit Api Preserve Frame Lifecycle Refinement Creation.

Record aloof (db db' : Db) : Prop := {
  al_tenants : tenants db' = tenants db;
  al_definitions : workflow_definitions db' = workflow_definitions db;
  al_runs : workflow_runs db' = workflow_runs db;
  al_tasks : task_runs db' = task_runs db;
  al_deps : task_dependencies db' = task_dependencies db;
  al_attempts : task_attempts db' = task_attempts db
}.

#[export] Instance aloof_preorder : PreOrder aloof.
Proof. split; [by split|]. intros db1 db2 db3 [] []. split; congruence. Qed.

Lemma aloof_refines db db' : aloof db db' → refines db db'.
Proof.
  intros [Ht Hd Hr Htk Hdp Ha]. apply refines_sim_frame; [|by apply frame_other].
  apply sim_core. split; congruence.
Qed.

Lemma preserves_mono {A} (R R' : Db → Db → Prop) (m : M A) :
  (∀ db db', R db db' → R' db db') → preserves R m → preserves R' m.
Proof. intros HR Hm env s r s' H. by apply HR, (Hm env s r s'). Qed.

(** A statement whose every outcome keeps the tables. *)
Ltac aloof_stmt :=
  let H := fresh in
  intros ? ? ? ? ? H; cbv beta zeta delta [insert_api_key update_api_key touch_api_key insert_artifact
    insert_schedule update_schedule_row claim_stmt ack_stmt release_stmt update_outbox update_artifacts
    insert_audit] in H;
  repeat case_match; simplify_eq; done.

Lemma aloof_insert_audit now t ac a ty id md : stmt_preserves aloof (insert_audit now t ac a ty id md).
Proof. aloof_stmt. Qed.
Lemma aloof_insert_api_key id row : stmt_preserves aloof (insert_api_key id row).
Proof. aloof_stmt. Qed.
Lemma aloof_update_api_key id g f : stmt_preserves aloof (update_api_key id g f).
Proof. aloof_stmt. Qed.
Lemma aloof_touch_api_key id : stmt_preserves aloof (touch_api_key id).
Proof. aloof_stmt. Qed.
Lemma aloof_insert_artifact id row : stmt_preserves aloof (insert_artifact id row).
Proof. aloof_stmt. Qed.
Lemma aloof_insert_schedule row : stmt_preserves aloof (insert_schedule row).
Proof. aloof_stmt. Qed.
Lemma aloof_update_schedule_row id t f : stmt_preserves aloof (update_schedule_row id t f).
Proof. aloof_stmt. Qed.
Lemma aloof_claim batch token ttl : stmt_preserves aloof (claim_stmt batch token ttl).
Proof. aloof_stmt. Qed.
Lemma aloof_ack token id : stmt_preserves aloof (ack_stmt token id).
Proof. aloof_stmt. Qed.
Lemma aloof_release token : stmt_preserves aloof (release_stmt token).
Proof. aloof_stmt. Qed.
#[export] Hint Resolve aloof_insert_audit aloof_insert_api_key aloof_update_api_key aloof_touch_api_key
  aloof_insert_artifact aloof_insert_schedule aloof_update_schedule_row aloof_claim aloof_ack
  aloof_release : preserve.

Lemma aloof_audit t u a id md : preserves aloof (audit t u a id md).
Proof.
  unfold audit. preserve. intros env n db x db' H. by apply aloof_insert_audit in H.
Qed.
#[export] Hint Resolve aloof_audit : preserve.

Lemma aloof_CreateAPIKey id t u name scopes e h : preserves aloof (CreateAPIKey id t u name scopes e h).
Proof. unfold CreateAPIKey. preserve. Qed.

Lemma aloof_RotateAPIKey id t u h : preserves aloof (RotateAPIKey id t u h).
Proof. unfold RotateAPIKey. preserve. Qed.

Lemma aloof_RevokeAPIKey id t u : preserves aloof (RevokeAPIKey id t u).
Proof. unfold RevokeAPIKey. preserve. Qed.

Lemma aloof_CreateArtifact id t u kind key uri ct size sum task :
  preserves aloof (CreateArtifact id t u kind key uri ct size sum task).
Proof. unfold CreateArtifact. preserve. Qed.

Lemma aloof_CompleteArtifact t id size : preserves aloof (CompleteArtifact t id size).
Proof. unfold CompleteArtifact. preserve. by intros env n db x db' [= _ <-]. Qed.

Lemma aloof_AttachArtifactToRun t id r : preserves aloof (AttachArtifactToRun t id r).
Proof.
  unfold AttachArtifactToRun. preserve. intros env n db x db' H.
  destruct (update_artifacts _ _ env n db) as [[[|row rows] db1]|] eqn:Hu; [| |done].
  - injection H as _ <-. by injection Hu as _ <-.
  - case_bool_decide; [|done]. injection H as _ <-. by injection Hu as _ <-.
Qed.

(** * Schedules that are due *)

Section Busy.
Context {location cron : Type} (LoadLocation : string → result location).
Context (cron_parse : string → result cron) (cron_next : cron → location → time → time).

Lemma misfire_base_open item env s :
  ∃ base s', misfire_base item env s = (Ok base, s') ∧ s_rows_open s' = s_rows_open s.
Proof.
  unfold misfire_base. case_bool_decide; [|by do 2 eexists].
  erewrite bind_run by done. case_bool_decide; by do 2 eexists.
Qed.

(** A statement on a connection that is still delivering rows fails. *)
Lemma advance_busy e l env s :
  s_rows_open s = true →
  ∃ err s', advance_schedules LoadLocation cron_parse cron_next (e :: l) env s = (Err err, s').
Proof.
  intros Ho. destruct e as [id item]. simpl.
  destruct (LoadLocation (s_timezone item)); [|by do 2 eexists]. erewrite bind_run by done.
  destruct (cron_parse (s_cron_expression item)); [|by do 2 eexists]. erewrite bind_run by done.
  destruct (misfire_base_open item env s) as (base & s1 & Hb & Ho1). erewrite bind_run by done.
  unfold mbind, M_bind, tx_stmt. rewrite Ho1, Ho. by do 2 eexists.
Qed.

(** The transaction of [fireSchedules] never changes the database: with a due
    schedule it fails, without one it has nothing to do. *)
Lemma advance_unchanged :
  preserves (=) (in_tx (λ now,
    rows ← tx_query_open (select_due now);
    due ← advance_schedules LoadLocation cron_parse cron_next rows;
    rows_close ;;
    mret (Commit due))).
Proof.
  apply preserves_committed; [apply _|]. intros now env n db a s Hb.
  apply bind_Ok in Hb as (rows & s1 & Hq & Hb). unfold tx_query_open in Hq.
  destruct (tx_stmt _ _ _) as [[rows'|] s0] eqn:Ht; [|done]. injection Hq as -> <-.
  apply tx_stmt_Ok in Ht as (_ & _ & db1 & Hsel & ->). injection Hsel as _ <-. simpl in Hb.
  apply bind_Ok in Hb as (due & s2 & Ha & Hb). destruct rows as [|x rows].
  - injection Ha as _ <-. apply bind_Ok in Hb as (u & s3 & Hc & Hb).
    injection Hc as <- <-. by injection Hb as _ <-.
  - destruct (advance_busy x rows env (mkSess (S n) true db)) as (e & s3 & He); [done|].
    by rewrite He in Ha.
Qed.
End Busy.
