(* ===== verification/System.v ===== *)
(** The engine as a whole: every operation on the database, in any order and
    interleaving, with any answers from the environment.

    A [step] is one operation run by some session; the scheduler's cycle
    contributes its transactions one by one, since other sessions may run
    between them.  The theorems hold in every database the system can reach
    from one without definitions and runs. *)
From S2P Require Import Prelude Go Model Dag State Json Schema Sql StoreWorker StoreWorkflow Scheduler Outbox Auth Artifacts RateLimit Api Preserve Frame Lifecycle Refinement Creation Aloof.

Inductive op : Type :=
  | OpCreateWorkflow (tenantID userID name : string) (dag : DAG)
  | OpCreateVersion (tenantID userID definitionID : string) (dag : DAG)
  | OpCreateRun (tenantID userID definitionID key : string) (input : option json)
      (artifacts : list string)
  | OpCancelRun (tenantID userID id : string)
  | OpRetryRun (tenantID userID id : string)
  | OpLeaseTask (taskID workerID : string) (lease : Z)
  | OpStartTask (taskID workerID : string)
  | OpHeartbeatTask (taskID workerID : string) (lease : Z)
  | OpCompleteTask (taskID workerID : string) (output : option json) (artifact : string)
      (logs : list string)
  | OpFailTask (taskID workerID : string) (f : Failure)
  | OpReplayDead (tenantID userID taskID : string)
  | OpWorkerHeartbeat (tenantID workerID : string) (handlers : list string) (active : Z)
      (metadata : option json)
  | OpPromoteRetries
  | OpRecoverExpired
  | OpDispatchReady
  | OpClaimEvents (batch : Z) (token : uuid) (ttl : Z)
  | OpAckEvent (token id : uuid)
  | OpReleaseClaims (token : uuid)
  | OpCreateAPIKey (id tenantID userID name : string) (scopes : list string)
      (expires : option time) (hash : string)
  | OpRotateAPIKey (id tenantID userID hash : string)
  | OpRevokeAPIKey (id tenantID userID : string)
  | OpTouchAPIKey (id : uuid)
  | OpCreateArtifact (id tenantID userID kind key uri contentType : string) (size : Z)
      (checksum : string) (task : option string)
  | OpCompleteArtifact (tenantID id : string) (size : Z)
  | OpAttachArtifactToRun (tenantID artifactID runID : string)
  | OpInsertSchedule (row : time → ScheduleRow)
  | OpPatchSchedule (id tenantID : string) (req : schedulePatch)
  | OpDeleteSchedule (id tenantID : string).

Definition run_unit {A} (m : M A) : M unit := m ;; mret tt.

Definition exec (o : op) : M unit :=
  match o with
  | OpCreateWorkflow t u n d => run_unit (CreateWorkflow t u n d)
  | OpCreateVersion t u id d => run_unit (CreateVersion t u id d)
  | OpCreateRun t u d k i a => run_unit (CreateRun t u d k i a)
  | OpCancelRun t u id => CancelRun t u id
  | OpRetryRun t u id => RetryRun t u id
  | OpLeaseTask id w l => run_unit (LeaseTask id w l)
  | OpStartTask id w => run_unit (StartTask id w)
  | OpHeartbeatTask id w l => run_unit (HeartbeatTask id w l)
  | OpCompleteTask id w o a l => run_unit (CompleteTask id w o a l)
  | OpFailTask id w f => run_unit (FailTask id w f)
  | OpReplayDead t u id => ReplayDead t u id
  | OpWorkerHeartbeat t w h a m => WorkerHeartbeat t w h a m
  | OpPromoteRetries => promote_retries
  | OpRecoverExpired => recoverExpired
  | OpDispatchReady => dispatch_ready
  | OpClaimEvents b t ttl => run_unit (pool_stmt (claim_stmt b t ttl))
  | OpAckEvent t id => run_unit (pool_stmt (ack_stmt t id))
  | OpReleaseClaims t => run_unit (pool_stmt (release_stmt t))
  | OpCreateAPIKey id t u n sc e h => run_unit (CreateAPIKey id t u n sc e h)
  | OpRotateAPIKey id t u h => run_unit (RotateAPIKey id t u h)
  | OpRevokeAPIKey id t u => RevokeAPIKey id t u
  | OpTouchAPIKey id => pool_stmt (touch_api_key id)
  | OpCreateArtifact id t u k key uri ct sz sum task =>
      run_unit (CreateArtifact id t u k key uri ct sz sum task)
  | OpCompleteArtifact t id sz => run_unit (CompleteArtifact t id sz)
  | OpAttachArtifactToRun t a r => AttachArtifactToRun t a r
  | OpInsertSchedule row => run_unit (pool_stmt (insert_schedule row))
  | OpPatchSchedule id t req => run_unit (pool_stmt (update_schedule_row id t (Some ∘ patched req)))
  | OpDeleteSchedule id t => run_unit (pool_stmt (update_schedule_row id t (λ _, None)))
  end.

(** [step db db']: some operation, run in some environment, took [db] to
    [db']; its result does not matter. *)
Inductive step (db : Db) : Db → Prop :=
  | step_op o env n open r s' : exec o env (mkSess n open db) = (r, s') → step db (s_db s').

(** No definition, run, task, edge or attempt yet; tenants, users, keys and
    events are arbitrary. *)
Record initial (db : Db) : Prop := {
  init_definitions : workflow_definitions db = ∅;
  init_runs : workflow_runs db = ∅;
  init_tasks : task_runs db = ∅;
  init_deps : task_dependencies db = ∅;
  init_attempts : task_attempts db = ∅
}.

Definition system_reachable (db : Db) : Prop := ∃ db0, initial db0 ∧ rtc step db0 db.

(** * The invariant *)

Lemma preserves_run_unit {A} R `{!PreOrder R} (m : M A) : preserves R m → preserves R (run_unit m).
Proof. intros Hm. unfold run_unit. preserve. Qed.

Create HintDb operations discriminated.
#[export] Hint Resolve refines_CreateWorkflow refines_CreateVersion refines_CreateRun
  refines_WorkerHeartbeat : operations.
#[export] Hint Resolve sim_CancelRun sim_RetryRun sim_LeaseTask sim_StartTask sim_HeartbeatTask
  sim_CompleteTask sim_FailTask sim_ReplayDead sim_promote_retries sim_recoverExpired
  sim_dispatch_ready : operations.
#[export] Hint Resolve frame_CancelRun frame_RetryRun frame_LeaseTask frame_StartTask
  frame_HeartbeatTask frame_CompleteTask frame_FailTask frame_ReplayDead frame_promote_retries
  frame_recoverExpired frame_dispatch_ready : operations.
#[export] Hint Resolve preserves_refines | 10 : operations.

Lemma refines_aloof {A} (m : M A) : preserves aloof m → preserves refines m.
Proof. apply preserves_mono, aloof_refines. Qed.
#[export] Hint Resolve refines_aloof | 20 : operations.
#[export] Hint Resolve aloof_CreateAPIKey aloof_RotateAPIKey aloof_RevokeAPIKey aloof_CreateArtifact
  aloof_CompleteArtifact aloof_AttachArtifactToRun : operations.
#[export] Hint Extern 1 (preserves aloof (pool_stmt _)) => preserve : operations.

Lemma refines_exec o : preserves refines (exec o).
Proof.
  destruct o; simpl;
    try lazymatch goal with
    | |- preserves _ (run_unit _) => apply preserves_run_unit; [apply _|]
    end; auto with operations.
Qed.

Lemma step_refines db db' : step db db' → refines db db'.
Proof. intros [o env n open r s' H]. by apply refines_exec in H. Qed.

Lemma initial_abs db : initial db → abs db = empty_state.
Proof.
  intros [Hd Hr Ht He Ha]. unfold abs. rewrite Hr, Ht, He, Ha.
  by rewrite !fmap_empty, !dom_empty_L.
Qed.

Lemma initial_inv db : initial db → DbInv db.
Proof.
  intros H0. split; [rewrite initial_abs by done; apply empty_inv|].
  destruct H0 as [Hd Hr _ _ _]. split; rewrite ?Hd, ?Hr; naive_solver.
Qed.

Lemma reachable_db_inv db : system_reachable db → DbInv db.
Proof.
  intros (db0 & H0 & Hs). apply initial_inv in H0.
  induction Hs as [|db1 db2 db3 H12 _ IH]; [done|]. by apply IH, (step_refines _ _ H12).
Qed.

Lemma reachable_inv_abs db : system_reachable db → Inv (abs db).
Proof. intros H. by apply db_inv, reachable_db_inv. Qed.

(** * Refinement *)

(** C2: every execution of the engine is an execution of the abstract life
    cycle: whatever operations run, in whatever order, with whatever failures,
    the state of runs, tasks, dependencies and attempts is reachable in
    [Lifecycle] from the empty state. *)
Theorem system_refines_lifecycle db : system_reachable db → reachable (abs db).
Proof.
  intros (db0 & H0 & Hs). unfold reachable. rewrite <-(initial_abs _ H0).
  apply initial_inv in H0.
  induction Hs as [|db1 db2 db3 H12 _ IH]; [done|].
  destruct (step_refines _ _ H12 H0) as [Hl H2]. etransitivity; [done|auto].
Qed.

(** * Properties of every reachable database *)

Lemma reachable_task db k t :
  task_runs db !! k = Some t → a_tasks (abs db) !! k = Some (abs_task t).
Proof. intros Hk. by rewrite lookup_abs_task, Hk. Qed.

(** C1: dependency safety.  A task that has been released (is neither blocked
    nor cancelled) or has ever been attempted has, for every dependency its
    workflow definition declares, a task run with that key in the same run,
    and that task run has succeeded. *)
Theorem dependency_safety db id t rid r d dag spec dep :
  system_reachable db →
  task_runs db !! id = Some t → t_workflow_run_id t = rid → workflow_runs db !! rid = Some r →
  workflow_definitions db !! r_workflow_definition_id r = Some d →
  unmarshal_dag (d_dag_spec d) = Some dag → Tasks dag !! t_task_key t = Some spec →
  (t_status t ≠ BLOCKED ∧ t_status t ≠ CANCELLED) ∨ 0 < t_attempt_count t →
  dep ∈ DependsOn spec →
  ∃ id' t', task_runs db !! id' = Some t' ∧ t_workflow_run_id t' = rid ∧
            t_task_key t' = dep ∧ t_status t' = SUCCEEDED.
Proof.
  intros [I S]%reachable_db_inv Ht Hrid Hr Hd Hdag Hspec Hrel Hdep.
  destruct (st_runs _ S _ _ Hr) as (d' & dag' & Hd' & _ & _ & Hdag' & ids & In). simplify_eq.
  pose proof (in_only _ _ _ _ In _ _ Ht eq_refl) as Hid.
  destruct (st_definitions _ S _ _ Hd) as (dag'' & Hdag'' & V). simplify_eq.
  destruct (ok_known _ _ _ (valid_tasks _ V _ _ Hspec) _ Hdep) as [spec' Hspec'].
  assert (dep ∈ dom ids) as [u Hu]%elem_of_dom by (rewrite (in_dom _ _ _ _ In); by apply elem_of_dom).
  destruct (in_task _ _ _ _ In _ _ _ Hu Hspec') as (tu & Htu & Hof).
  exists u, tu. split_and!; [done|apply Hof|apply Hof|].
  eapply (inv_released _ I id (abs_task t) (reachable_task _ _ _ Ht) Hrel u (abs_task tu));
    [|by apply reachable_task].
  simpl. apply elem_of_dom, (in_edges _ _ _ _ In); [eauto|]. by exists (t_task_key t), spec, dep.
Qed.

Lemma running_frontier db rid r :
  system_reachable db → workflow_runs db !! rid = Some r → r_status r = RUN_RUNNING →
  ∃ id t, task_runs db !! id = Some t ∧ t_workflow_run_id t = rid ∧
    t_status t ∈ [READY; DISPATCHING; RETRY_WAIT; LEASED; RUNNING; DEAD; CANCELLED].
Proof.
  intros H%reachable_inv_abs Hr Hst.
  destruct (running_has_frontier _ rid H) as (k & a & Hk & Hrun & Hl); [apply abs_run_is; eauto|].
  rewrite lookup_abs_task in Hk. apply fmap_Some in Hk as (t & Ht & ->).
  exists k, t. split_and!; [done..|]. unfold live, active in Hl. simpl in Hl.
  rewrite !elem_of_cons. naive_solver.
Qed.

(** C6: no lost wake-up and no deadlock.  In a run that is RUNNING some task is
    ready, dispatched, waiting for its retry or held by a worker, so that the
    scheduler or a worker can make the run progress, or else some task is DEAD
    or CANCELLED; it never happens that all unfinished tasks wait for each
    other or for an event that has already occurred. *)
Theorem running_run_progress db rid r :
  system_reachable db → workflow_runs db !! rid = Some r → r_status r = RUN_RUNNING →
  ∃ id t, task_runs db !! id = Some t ∧ t_workflow_run_id t = rid ∧
    t_status t ∈ [READY; DISPATCHING; RETRY_WAIT; LEASED; RUNNING; DEAD; CANCELLED].
Proof. apply running_frontier. Qed.

Lemma run_status_tasks db rid r :
  system_reachable db → workflow_runs db !! rid = Some r →
  (r_status r = RUN_SUCCEEDED ↔
     ∀ id t, task_runs db !! id = Some t → t_workflow_run_id t = rid → t_status t = SUCCEEDED) ∧
  (r_status r = RUN_FAILED → ∃ id t, task_runs db !! id = Some t ∧ t_workflow_run_id t = rid ∧
     t_status t = DEAD) ∧
  r_status r ≠ RUN_PENDING ∧
  (∃ id t, task_runs db !! id = Some t ∧ t_workflow_run_id t = rid) ∧
  (r_completed_at r = None ↔ r_status r = RUN_RUNNING).
Proof.
  intros I%reachable_inv_abs Hr.
  assert (a_runs (abs db) !! rid = Some (abs_run r)) as Ha by by rewrite lookup_abs_run, Hr.
  assert (∀ st, run_is (abs db) rid st ↔ r_status r = st) as His.
  { intros st. rewrite abs_run_is. naive_solver. }
  split_and!.
  - rewrite <-all_succeeded_abs, <-(inv_succeeded _ I rid ltac:(eauto)). by rewrite His.
  - intros Hf. destruct (inv_failed _ I rid) as (k & a & Hk & ? & ?); [by apply His|].
    rewrite lookup_abs_task in Hk. apply fmap_Some in Hk as (t & Ht & ->). eauto.
  - by apply (inv_completed _ I _ _ Ha).
  - destruct (inv_nonempty _ I rid ltac:(eauto)) as (k & a & Hk & ?).
    rewrite lookup_abs_task in Hk. apply fmap_Some in Hk as (t & Ht & ->). eauto.
  - by apply (inv_completed _ I _ _ Ha).
Qed.

(** C18: the status of a run agrees with its tasks.  A run is SUCCEEDED exactly
    when all its tasks have succeeded, a FAILED run has a dead task, no run is
    ever PENDING, every run has a task, and [completed_at] is empty exactly
    while the run is RUNNING. *)
Theorem run_status_agrees db rid r :
  system_reachable db → workflow_runs db !! rid = Some r →
  (r_status r = RUN_SUCCEEDED ↔
     ∀ id t, task_runs db !! id = Some t → t_workflow_run_id t = rid → t_status t = SUCCEEDED) ∧
  (r_status r = RUN_FAILED → ∃ id t, task_runs db !! id = Some t ∧ t_workflow_run_id t = rid ∧
     t_status t = DEAD) ∧
  r_status r ≠ RUN_PENDING ∧
  (∃ id t, task_runs db !! id = Some t ∧ t_workflow_run_id t = rid) ∧
  (r_completed_at r = None ↔ r_status r = RUN_RUNNING).
Proof. apply run_status_tasks. Qed.

(** The lease columns.  [lease_expires_at] is set exactly while the task is
    LEASED or RUNNING, and then [lease_owner] is set; the task status FAILED of
    the schema is never used. *)
Lemma lease_columns db id t :
  system_reachable db → task_runs db !! id = Some t →
  (is_Some (t_lease_expires_at t) ↔ t_status t = LEASED ∨ t_status t = RUNNING) ∧
  (t_status t = LEASED ∨ t_status t = RUNNING → is_Some (t_lease_owner t)) ∧
  t_status t ≠ FAILED.
Proof.
  intros I%reachable_inv_abs Ht%reachable_task.
  destruct (inv_lease _ I _ _ Ht) as [He Ho]. split_and!; [done..|].
  by apply (inv_no_failed _ I _ _ Ht).
Qed.

(** The attempt history is complete.  The recorded attempts of a task are
    exactly those numbered 1 to [attempt_count], and a task that a worker holds,
    has completed or has exhausted has at least one. *)
Lemma attempt_history db id t n :
  system_reachable db → task_runs db !! id = Some t →
  (is_Some (task_attempts db !! (id, n)) ↔ 1 ≤ n ≤ t_attempt_count t) ∧
  (t_status t ∈ [LEASED; RUNNING; SUCCEEDED; DEAD] → 1 ≤ t_attempt_count t).
Proof.
  intros I%reachable_inv_abs Ht%reachable_task. split.
  - rewrite <-elem_of_dom. change (dom (task_attempts db)) with (a_attempts (abs db)).
    rewrite (inv_attempts _ I). naive_solver.
  - destruct (inv_count _ I _ _ Ht) as (_ & _ & Hc). intros Hin. apply Hc. unfold active. simpl.
    rewrite !elem_of_cons, elem_of_nil in Hin. tauto.
Qed.

(** C19: a run is a faithful instance of its definition: the definition exists,
    belongs to the run's tenant and has the run's version; its graph is valid;
    and there is one task run per task key, with the handler, priority and
    timeout of the definition, and one dependency edge per declared
    dependency, and nothing else. *)
Theorem run_instantiates_definition db rid r :
  system_reachable db → workflow_runs db !! rid = Some r →
  ∃ d dag, workflow_definitions db !! r_workflow_definition_id r = Some d ∧
           d_tenant_id d = r_tenant_id r ∧ d_version d = r_workflow_version r ∧
           unmarshal_dag (d_dag_spec d) = Some dag ∧ valid_dag dag ∧ instance_of db rid dag.
Proof.
  intros [I S]%reachable_db_inv Hr.
  destruct (st_runs _ S _ _ Hr) as (d & dag & Hd & ? & ? & Hdag & ?).
  destruct (st_definitions _ S _ _ Hd) as (dag' & Hdag' & V). simplify_eq.
  exists d, dag. done.
Qed.

(** Idempotency keys are unique within a tenant: two runs of one tenant with
    the same key are the same run. *)
Lemma idempotency_key_unique db rid1 rid2 r1 r2 :
  system_reachable db →
  workflow_runs db !! rid1 = Some r1 → workflow_runs db !! rid2 = Some r2 →
  r_tenant_id r1 = r_tenant_id r2 → r_idempotency_key r1 = r_idempotency_key r2 →
  rid1 = rid2.
Proof. intros [I S]%reachable_db_inv. apply (st_idempotency _ S). Qed.

Lemma task_run_exists db id t :
  system_reachable db → task_runs db !! id = Some t → is_Some (workflow_runs db !! t_workflow_run_id t).
Proof.
  intros I%reachable_inv_abs Ht%reachable_task. destruct (inv_run _ I _ _ Ht) as [a Ha].
  rewrite lookup_abs_run in Ha. apply fmap_Some in Ha as (r & Hr & _). by exists r.
Qed.

(** * Well-formed databases *)

(** What the columns of the engine's tables may hold together: references that
    exist, enumerations restricted to the values in use, lease columns that go
    with the status, counters and attempt rows that agree, keys that are
    unique. *)
Record well_formed (db : Db) : Prop := {
  wf_task_run : ∀ id t, task_runs db !! id = Some t → is_Some (workflow_runs db !! t_workflow_run_id t);
  wf_edge : ∀ c u, is_Some (task_dependencies db !! (c, u)) → ∃ tc tu,
    task_runs db !! c = Some tc ∧ task_runs db !! u = Some tu ∧
    t_workflow_run_id tc = t_workflow_run_id tu;
  wf_acyclic : ∀ c, Acc (λ u c, is_Some (task_dependencies db !! (c, u))) c;
  wf_task_status : ∀ id t, task_runs db !! id = Some t → t_status t ≠ FAILED;
  wf_lease : ∀ id t, task_runs db !! id = Some t →
    (is_Some (t_lease_expires_at t) ↔ t_status t = LEASED ∨ t_status t = RUNNING) ∧
    (t_status t = LEASED ∨ t_status t = RUNNING → is_Some (t_lease_owner t));
  wf_counts : ∀ id t, task_runs db !! id = Some t → 0 ≤ t_attempt_count t ∧ 1 ≤ t_maximum_attempts t;
  wf_attempts : ∀ id n, is_Some (task_attempts db !! (id, n)) ↔
    ∃ t, task_runs db !! id = Some t ∧ 1 ≤ n ≤ t_attempt_count t;
  wf_run_status : ∀ rid r, workflow_runs db !! rid = Some r →
    r_status r ≠ RUN_PENDING ∧ (r_completed_at r = None ↔ r_status r = RUN_RUNNING);
  wf_run_definition : ∀ rid r, workflow_runs db !! rid = Some r → ∃ d,
    workflow_definitions db !! r_workflow_definition_id r = Some d ∧
    d_tenant_id d = r_tenant_id r ∧ d_version d = r_workflow_version r;
  wf_idempotency : ∀ rid1 rid2 r1 r2,
    workflow_runs db !! rid1 = Some r1 → workflow_runs db !! rid2 = Some r2 →
    r_tenant_id r1 = r_tenant_id r2 → r_idempotency_key r1 = r_idempotency_key r2 → rid1 = rid2
}.

Lemma abs_edge db c u : (c, u) ∈ a_deps (abs db) ↔ is_Some (task_dependencies db !! (c, u)).
Proof. apply elem_of_dom. Qed.

Lemma abs_task_inv db k a :
  a_tasks (abs db) !! k = Some a → ∃ t, task_runs db !! k = Some t ∧ a = abs_task t.
Proof. rewrite lookup_abs_task. intros (t & Ht & ->)%fmap_Some. eauto. Qed.

(** C10: every reachable database is well formed: tasks belong to runs and runs
    to definitions of their tenant; dependency edges join tasks of one run and
    have no cycle; the statuses FAILED of a task and PENDING of a run are never
    used; the lease columns are set exactly while a worker holds the task;
    the attempts recorded for a task are exactly those numbered 1 to
    [attempt_count]; [completed_at] is empty exactly while the run is RUNNING;
    and an idempotency key names one run of its tenant. *)
Theorem reachable_well_formed db : system_reachable db → well_formed db.
Proof.
  intros H. pose proof (reachable_inv_abs _ H) as I.
  destruct (reachable_db_inv _ H) as [_ S]. split.
  - intros id t. by apply task_run_exists.
  - intros c u (tc & tu & (? & ? & ->)%abs_task_inv & (? & ? & ->)%abs_task_inv & ?)%abs_edge%(inv_edges _ I).
    eauto 6.
  - intros c. pose proof (inv_acyclic _ I c) as Ha. induction Ha as [c _ IH].
    constructor. intros u Hu. by apply IH, abs_edge.
  - intros id t Ht. by apply (lease_columns db id).
  - intros id t Ht. destruct (lease_columns db id t H Ht) as (? & ? & _). done.
  - intros id t Ht%reachable_task. by destruct (inv_count _ I _ _ Ht) as (? & ? & _).
  - intros id n. etransitivity; [symmetry; apply elem_of_dom|]. rewrite (inv_attempts _ I id n). split.
    + intros (a & (t & ? & ->)%abs_task_inv & ?). eauto.
    + intros (t & Ht%reachable_task & ?). eauto.
  - intros rid r Hr. by apply (inv_completed _ I rid (abs_run r)); rewrite lookup_abs_run, Hr.
  - intros rid r Hr. destruct (st_runs _ S _ _ Hr) as (d & dag & ? & ? & ? & _). eauto.
  - apply (st_idempotency _ S).
Qed.
