(* ===== verification/History.v ===== *)
(** What no operation ever rewrites.

    [history T db db'] relates two databases of which the second remembers the
    first: definitions and dependency edges are still there unchanged, the
    audit log was only appended to, runs, attempts, artifacts and events keep
    the columns that identify them, a published event stays published, a ready
    artifact stays ready with its size, and every task row is related by [T] to
    the row it was.  Every operation preserves it, which with the refinement of
    the life cycle makes the result of a succeeded task final. *)
From S2P Require Import Prelude Go Model Dag State Json Schema Sql StoreWorker StoreWorkflow Scheduler Outbox Auth Artifacts RateLimit Api Preserve Frame Lifecycle Refinement Creation Aloof System.

(** Every row of [m] is still there, related by [R] to what it was. *)
Definition kept {K A} `{Countable K} (R : A → A → Prop) (m m' : gmap K A) : Prop :=
  ∀ k x, m !! k = Some x → ∃ x', m' !! k = Some x' ∧ R x x'.

#[export] Instance kept_preorder {K A} `{Countable K} (R : A → A → Prop) :
  PreOrder R → PreOrder (kept (K := K) R).
Proof.
  intros [Hr Ht]. split; [intros m k x Hk; eauto|].
  intros m1 m2 m3 H12 H23 k x (y & (z & Hz & Ryz)%H23 & Rxy)%H12. eauto.
Qed.

(** The columns given when the row was written. *)
Definition same {A B} (f : A → B) (x y : A) : Prop := f y = f x.

#[export] Instance same_preorder {A B} (f : A → B) : PreOrder (same f).
Proof. unfold same. split; [done|]. intros x y z. congruence. Qed.

Definition event_columns (o : OutboxRow) :=
  (o_aggregate_type o, o_aggregate_id o, o_event_type o, o_payload o, o_trace_parent o,
   o_created_at o).

Definition event_kept (o o' : OutboxRow) : Prop :=
  same event_columns o o' ∧ (is_Some (o_published_at o) → o_published_at o' = o_published_at o).

Definition artifact_columns (f : ArtifactRow) :=
  (f_tenant_id f, f_kind f, f_object_key f, f_object_uri f, f_content_type f, f_declared_size f,
   f_checksum_sha256 f, f_task_run_id f, f_created_by f, f_created_at f).

Definition artifact_kept (f f' : ArtifactRow) : Prop :=
  same artifact_columns f f' ∧
  (f_status f = "READY" → f_status f' = "READY" ∧ f_size_bytes f' = f_size_bytes f).

Definition attempt_columns (a : AttemptRow) := (a_worker_id a, a_scheduled_at a, a_started_at a).

#[export] Instance event_kept_preorder : PreOrder event_kept.
Proof.
  split; [by intros o|]. intros x y z [Hxy Pxy] [Hyz Pyz]. split; [by transitivity y|].
  intros Hx. rewrite <-Pxy by done. apply Pyz. by rewrite Pxy.
Qed.

#[export] Instance artifact_kept_preorder : PreOrder artifact_kept.
Proof.
  split; [by intros f|]. intros x y z [Hxy Pxy] [Hyz Pyz]. split; [by transitivity y|].
  intros [? <-]%Pxy. by apply Pyz.
Qed.

Record history (T : TaskRow → TaskRow → Prop) (db db' : Db) : Prop := {
  hi_definitions : kept eq (workflow_definitions db) (workflow_definitions db');
  hi_runs : kept (same run_static) (workflow_runs db) (workflow_runs db');
  hi_tasks : kept T (task_runs db) (task_runs db');
  hi_deps : kept eq (task_dependencies db) (task_dependencies db');
  hi_attempts : kept (same attempt_columns) (task_attempts db) (task_attempts db');
  hi_events : kept event_kept (outbox_events db) (outbox_events db');
  hi_artifacts : kept artifact_kept (artifacts db) (artifacts db');
  hi_audit : audit_events db `prefix_of` audit_events db'
}.

#[export] Instance history_preorder T : PreOrder T → PreOrder (history T).
Proof.
  intros ?. split; [by split|]. intros db1 db2 db3 [] [].
  split; by etransitivity.
Qed.

Lemma history_mono (T U : TaskRow → TaskRow → Prop) db db' :
  (∀ k t t', task_runs db !! k = Some t → task_runs db' !! k = Some t' → T t t' → U t t') →
  history T db db' → history U db db'.
Proof.
  intros HTU []. split; try done. intros k t Hk.
  destruct (hi_tasks0 k t Hk) as (t' & Hk' & ?). eauto.
Qed.

(** * Statements *)

Lemma kept_insert {K A} `{Countable K} (R : A → A → Prop) (m : gmap K A) k x :
  PreOrder R → (∀ y, m !! k = Some y → R y x) → kept R m (<[k := x]> m).
Proof.
  intros ? Hx i y Hy. destruct (decide (k = i)) as [<-|?].
  - exists x. by rewrite lookup_insert_eq; eauto.
  - exists y. by rewrite lookup_insert_ne.
Qed.

Lemma kept_new {K A} `{Countable K} (R : A → A → Prop) (m : gmap K A) k x :
  PreOrder R → m !! k = None → kept R m (<[k := x]> m).
Proof. intros ? Hn. apply kept_insert; [done|]. congruence. Qed.

Lemma kept_update {K A} `{Countable K} (R : A → A → Prop) (P : K → A → bool) f (m : gmap K A) :
  PreOrder R → (∀ k x, P k x = true → R x (f x)) → kept R m (update_where P f m).
Proof.
  intros ? Hf k x Hk. rewrite lookup_update_where, Hk. simpl.
  destruct (P k x) eqn:?; [by eauto|by exists x].
Qed.

Section Statements.
Context (T : TaskRow → TaskRow → Prop) `{!PreOrder T}.

Lemma history_update_tasks P f :
  (∀ db k t, P db k t = true → T t (f db k t)) → stmt_preserves (history T) (update_tasks P f).
Proof.
  intros Hf env n db rows db' [= <- <-]. split; try done; simpl.
  intros k t Hk. rewrite map_lookup_imap, Hk. simpl.
  destruct (P db k t) eqn:?; [by eauto|by exists t].
Qed.

Lemma history_update_runs P f :
  (∀ r, run_static (f r) = run_static r) → stmt_preserves (history T) (update_runs P f).
Proof.
  intros Hf env n db rows db' [= <- <-]. split; try done; simpl.
  apply kept_update; [apply _|]. intros k r _. apply Hf.
Qed.

Lemma history_update_attempts P f :
  (∀ a, attempt_columns (f a) = attempt_columns a) →
  stmt_preserves (history T) (update_attempts P f).
Proof.
  intros Hf env n db rows db' [= <- <-]. split; try done; simpl.
  apply kept_update; [apply _|]. intros k a _. apply Hf.
Qed.

Lemma history_update_outbox P f :
  (∀ k o, P k o = true → event_kept o (f o)) → stmt_preserves (history T) (update_outbox P f).
Proof.
  intros Hf env n db rows db' [= <- <-]. split; try done; simpl. by apply kept_update; [apply _|].
Qed.

Lemma history_update_artifacts P f :
  (∀ k a, P k a = true → artifact_kept a (f a)) → stmt_preserves (history T) (update_artifacts P f).
Proof.
  intros Hf env n db rows db' [= <- <-]. split; try done; simpl. by apply kept_update; [apply _|].
Qed.

Lemma not_Some {K A} `{Countable K} (m : gmap K A) k : ¬ is_Some (m !! k) → m !! k = None.
Proof. by rewrite eq_None_not_Some. Qed.

Lemma history_insert_outbox now ty id ev p tr :
  stmt_preserves (history T) (insert_outbox now ty id ev p tr).
Proof.
  intros env n db a db'. unfold insert_outbox. case_bool_decide as Hn; [done|].
  intros [= <- <-]. split; try done. apply kept_new; [apply _|by apply not_Some].
Qed.

Lemma history_insert_outbox_from_run now id ev p rid :
  stmt_preserves (history T) (insert_outbox_from_run now id ev p rid).
Proof.
  intros env n db a db'. unfold insert_outbox_from_run. case_match.
  - apply history_insert_outbox.
  - intros [= <- <-]. reflexivity.
Qed.

Lemma history_insert_audit now t ac a ty id md :
  stmt_preserves (history T) (insert_audit now t ac a ty id md).
Proof.
  intros env n db x db'. unfold insert_audit. case_bool_decide; [|done].
  intros [= <- <-]. split; try done. by eexists.
Qed.

Lemma history_insert_attempt now id k w sch :
  stmt_preserves (history T) (insert_attempt now id k w sch).
Proof.
  intros env n db x db'. unfold insert_attempt. case_bool_decide as Hn; [done|].
  intros [= <- <-]. split; try done. apply kept_new; [apply _|by apply not_Some].
Qed.

Lemma history_insert_definition now tenant name version spec by_ :
  stmt_preserves (history T) (insert_definition now tenant name version spec by_).
Proof.
  unfold insert_definition. repeat apply stmt_preserves_check. intros env n db x db'.
  case_bool_decide as Hn; [done|]. intros [= <- <-]. split; try done.
  apply kept_new; [apply _|by apply not_Some].
Qed.

Lemma history_insert_run row : stmt_preserves (history T) (insert_run row).
Proof.
  intros env n db x db' H. unfold insert_run in H. repeat case_match; simplify_eq; try done.
  bool_split. split; try done. apply kept_new; [apply _|by apply not_Some].
Qed.

Lemma history_insert_task id row : stmt_preserves (history T) (insert_task id row).
Proof.
  unfold insert_task. do 3 apply stmt_preserves_check. intros env n db a db' H.
  unfold sql_check in H. repeat case_match; simplify_eq. bool_split.
  split; try done. by apply kept_new; [apply _|].
Qed.

Lemma history_insert_dependency rid t d : stmt_preserves (history T) (insert_dependency rid t d).
Proof.
  unfold insert_dependency. do 2 apply stmt_preserves_check. intros env n db a db' H.
  unfold sql_check in H. repeat case_match; simplify_eq. bool_split.
  split; try done. by apply kept_new; [apply _|].
Qed.

Lemma history_heartbeat id w e :
  (∀ t now, T t (t<| t_lease_expires_at := Some e |><| t_updated_at := now |>)) → stmt_preserves (history T) (heartbeat_stmt id w e).
Proof.
  intros HT env n db a db'. unfold heartbeat_stmt.
  destruct (update_task _ _ _ _ _ _) as [[rows db1]|] eqn:Hu; [|done].
  intros [= <- <-]. by apply history_update_tasks in Hu.
Qed.

(** Statements on the other tables. *)
Lemma history_other db db' :
  aloof db db' → outbox_events db' = outbox_events db → artifacts db' = artifacts db →
  audit_events db' = audit_events db → history T db db'.
Proof.
  intros [Ht Hd Hr Hk Hdp Hat] He Hf Ha.
  split; rewrite ?He, ?Hf, ?Ha, ?Hd, ?Hr, ?Hk, ?Hdp, ?Hat; reflexivity.
Qed.

Lemma history_insert_artifact id row : stmt_preserves (history T) (insert_artifact id row).
Proof.
  intros env n db x db' H. unfold insert_artifact in H. repeat case_match; simplify_eq.
  all: bool_split; split; try done; (apply kept_new; [apply _|by apply not_Some]).
Qed.

Lemma history_claim batch token ttl : stmt_preserves (history T) (claim_stmt batch token ttl).
Proof.
  intros env n db x db' [= <- <-]. split; try done. simpl. by apply kept_update; [apply _|].
Qed.

Lemma history_ack token id : stmt_preserves (history T) (ack_stmt token id).
Proof.
  intros env n. apply history_update_outbox. intros k o [[_ Hu]%andb_true_iff _]%andb_true_iff.
  split; [done|]. unfold unpublished in Hu. bool_split. by rewrite Hu; intros [].
Qed.

Lemma history_release token : stmt_preserves (history T) (release_stmt token).
Proof. intros env n. by apply history_update_outbox. Qed.
End Statements.

#[export] Hint Resolve history_insert_outbox history_insert_outbox_from_run history_insert_audit
  history_insert_attempt history_insert_definition history_insert_run history_insert_task
  history_insert_dependency history_insert_artifact history_claim history_ack history_release
  : preserve.
#[export] Hint Extern 1 (PreOrder _) => apply _ : preserve.
#[export] Hint Extern 5 (stmt_preserves (history _) (update_tasks _ _)) =>
  apply history_update_tasks; [apply _|done] : preserve.
#[export] Hint Extern 5 (stmt_preserves (history _) (update_task _ _ _)) =>
  apply history_update_tasks; [apply _|done] : preserve.
#[export] Hint Extern 5 (stmt_preserves (history _) (cancel_not_started _ _)) =>
  apply history_update_tasks; [apply _|done] : preserve.
#[export] Hint Extern 5 (stmt_preserves (history _) (heartbeat_stmt _ _ _)) =>
  apply history_heartbeat; [apply _|done] : preserve.
#[export] Hint Extern 5 (stmt_preserves (history _) (update_runs _ _)) =>
  apply history_update_runs; [apply _|done] : preserve.
#[export] Hint Extern 5 (stmt_preserves (history _) (update_run _ _ _)) =>
  apply history_update_runs; [apply _|done] : preserve.
#[export] Hint Extern 5 (stmt_preserves (history _) (update_attempt _ _ _ _)) =>
  apply history_update_attempts; [apply _|done] : preserve.
#[export] Hint Extern 5 (stmt_preserves (history _) (update_artifacts _ _)) =>
  apply history_update_artifacts; [apply _|done] : preserve.

(** * Operations *)

(** The columns a task was created with, and its result. *)
Definition task_record (t : TaskRow) := (task_static t, t_output t, t_output_artifact_uri t).

Notation records := (history (same task_record)).

Lemma history_nowPlus d : preserves records (nowPlus d).
Proof. unfold nowPlus. preserve. Qed.
#[export] Hint Resolve history_nowPlus : preserve.

Lemma history_available_at st attempt : preserves records (available_at st attempt).
Proof. unfold available_at. preserve. Qed.
#[export] Hint Resolve history_available_at : preserve.

Lemma history_LeaseTask id w lease : preserves records (LeaseTask id w lease).
Proof. unfold LeaseTask. preserve. Qed.

Lemma history_StartTask id w : preserves records (StartTask id w).
Proof. unfold StartTask. preserve. Qed.

Lemma history_HeartbeatTask id w lease : preserves records (HeartbeatTask id w lease).
Proof. unfold HeartbeatTask. preserve. Qed.

Lemma history_FailTask id w f : preserves records (FailTask id w f).
Proof. unfold FailTask. preserve. Qed.

Lemma history_ReplayDead tenant user id : preserves records (ReplayDead tenant user id).
Proof. unfold ReplayDead. preserve. Qed.

Lemma history_CancelRun tenant user id : preserves records (CancelRun tenant user id).
Proof. unfold CancelRun. preserve. Qed.

Lemma history_RetryRun tenant user id : preserves records (RetryRun tenant user id).
Proof. unfold RetryRun. preserve. Qed.

Lemma history_promote_retries : preserves records promote_retries.
Proof. unfold promote_retries. preserve. intros env n db. by apply history_update_tasks; [apply _|]. Qed.

Lemma history_recoverExpired : preserves records recoverExpired.
Proof. unfold recoverExpired. preserve. destruct x as [[id t] r]. unfold recover_one. preserve. Qed.

Lemma history_dispatch_ready : preserves records dispatch_ready.
Proof. unfold dispatch_ready. preserve. destruct x as [[id t] r]. unfold dispatch_one. preserve. Qed.

Lemma preserves_assign_ids R `{!PreOrder R} keys ids : preserves R (assign_ids keys ids).
Proof. revert ids. induction keys as [|k keys IH]; intros ids; simpl; preserve. Qed.
#[export] Hint Resolve preserves_assign_ids : preserve.

Lemma history_CreateRun T `{!PreOrder T} tenant user def key input aids :
  preserves (history T) (CreateRun tenant user def key input aids).
Proof.
  unfold CreateRun, input_artifact_uri, getRunTx, populate_run, attach_artifact, insert_tasks,
    insert_dependencies. preserve.
Qed.

Lemma history_validate dag : preserves records (validate dag).
Proof. unfold validate. preserve. Qed.
#[export] Hint Resolve history_validate : preserve.

Lemma history_CreateWorkflow tenant user name dag :
  preserves records (CreateWorkflow tenant user name dag).
Proof.
  unfold CreateWorkflow. preserve; intros env n.
  - exact (history_insert_definition _ _ _ _ _ _ _ env n).
  - exact (history_insert_audit _ _ _ _ _ _ _ _ env n).
Qed.

Lemma history_CreateVersion tenant user def dag :
  preserves records (CreateVersion tenant user def dag).
Proof. unfold CreateVersion. preserve. Qed.

(** A succeeded task keeps its result. *)
Definition settled (t t' : TaskRow) : Prop :=
  same task_static t t' ∧
  (t_status t = SUCCEEDED → t_status t' = SUCCEEDED ∧ same task_record t t').

#[export] Instance settled_preorder : PreOrder settled.
Proof.
  split; [by intros t|]. intros x y z [Hxy Pxy] [Hyz Pyz]. split; [by transitivity y|].
  intros [Hy Rxy]%Pxy. destruct (Pyz Hy) as [? Ryz]. split; [done|by transitivity y].
Qed.

(** The guards of a completion: the task itself is running, the tasks it
    releases are blocked. *)
Lemma history_complete_task id now w out uri :
  stmt_preserves (history settled) (update_task id
    (λ t, bool_decide (t_status t = RUNNING) && holds_lease now w t) (completed_row out uri now)).
Proof.
  apply history_update_tasks; [apply _|]. intros db k t H. bool_split.
  split; [done|]. congruence.
Qed.

Lemma history_release_children rid id now :
  stmt_preserves (history settled) (update_tasks (unblocked_by rid id) (λ _ _, ready_row now)).
Proof.
  apply history_update_tasks; [apply _|]. unfold unblocked_by. intros db k t H. bool_split.
  split; [done|]. congruence.
Qed.
#[export] Hint Resolve history_complete_task history_release_children : preserve.

Lemma history_CompleteTask id w out uri logs :
  preserves (history settled) (CompleteTask id w out uri logs).
Proof. unfold CompleteTask, complete_tx, count_remaining. preserve. Qed.

(** Keys, heartbeats and schedules are in other tables. *)
Ltac other_tables :=
  let H := fresh in
  intros ? ? ? ? ? H; cbv beta zeta delta [insert_api_key update_api_key touch_api_key
    insert_schedule update_schedule_row] in H;
  repeat case_match; simplify_eq; (reflexivity || by apply history_other; [apply _|..]).

Lemma history_insert_api_key id row : stmt_preserves records (insert_api_key id row).
Proof. other_tables. Qed.
Lemma history_update_api_key id g f : stmt_preserves records (update_api_key id g f).
Proof. other_tables. Qed.
Lemma history_touch_api_key id : stmt_preserves records (touch_api_key id).
Proof. other_tables. Qed.
Lemma history_insert_schedule row : stmt_preserves records (insert_schedule row).
Proof. other_tables. Qed.
Lemma history_update_schedule_row id t f : stmt_preserves records (update_schedule_row id t f).
Proof. other_tables. Qed.
#[export] Hint Resolve history_insert_api_key history_update_api_key history_touch_api_key
  history_insert_schedule history_update_schedule_row : preserve.

Lemma history_audit t u a id md : preserves records (audit t u a id md).
Proof.
  unfold audit. preserve. intros env n. exact (history_insert_audit _ _ _ _ _ _ _ _ env n).
Qed.
#[export] Hint Resolve history_audit : preserve.

Lemma history_CreateAPIKey id t u name scopes e h :
  preserves records (CreateAPIKey id t u name scopes e h).
Proof. unfold CreateAPIKey. preserve. Qed.

Lemma history_RotateAPIKey id t u h : preserves records (RotateAPIKey id t u h).
Proof. unfold RotateAPIKey. preserve. Qed.

Lemma history_RevokeAPIKey id t u : preserves records (RevokeAPIKey id t u).
Proof. unfold RevokeAPIKey. preserve. Qed.

Lemma history_CreateArtifact id t u kind key uri ct size sum task :
  preserves records (CreateArtifact id t u kind key uri ct size sum task).
Proof. unfold CreateArtifact. preserve. Qed.

Lemma history_CompleteArtifact t id size : preserves records (CompleteArtifact t id size).
Proof.
  unfold CompleteArtifact. preserve. intros env n. apply history_update_artifacts; [apply _|].
  intros k f H. bool_split. split; [done|]. congruence.
Qed.

Lemma history_AttachArtifactToRun t id r : preserves records (AttachArtifactToRun t id r).
Proof.
  unfold AttachArtifactToRun. preserve. intros env n db x db' H.
  destruct (update_artifacts _ _ env n db) as [[rows db1]|] eqn:Hu; [|done].
  apply (history_update_artifacts (same task_record)) in Hu; [|done].
  destruct rows; [by simplify_eq|]. case_bool_decide; by simplify_eq.
Qed.

Lemma history_WorkerHeartbeat t w hs active md : preserves records (WorkerHeartbeat t w hs active md).
Proof.
  unfold WorkerHeartbeat. preserve. intros env n db x db' [= <- <-].
  by apply history_other; [apply _|..].
Qed.

#[export] Hint Resolve history_CreateWorkflow history_CreateVersion
  history_CancelRun history_RetryRun history_LeaseTask history_StartTask history_HeartbeatTask
  history_FailTask history_ReplayDead history_WorkerHeartbeat history_promote_retries
  history_recoverExpired history_dispatch_ready history_CreateAPIKey history_RotateAPIKey
  history_RevokeAPIKey history_CreateArtifact history_CompleteArtifact
  history_AttachArtifactToRun : operations.
#[export] Hint Extern 1 (preserves (history _) (CreateRun _ _ _ _ _ _)) =>
  apply history_CreateRun, _ : operations.
#[export] Hint Extern 1 (preserves (history _) (pool_stmt _)) => preserve : operations.

(** * Every step *)

(** Every operation but a completion keeps the results of all tasks. *)
Lemma history_exec o :
  preserves records (exec o) ∨ preserves (history settled) (exec o).
Proof.
  destruct o; simpl;
    lazymatch goal with
    | |- _ ∨ preserves _ (run_unit (CompleteTask _ _ _ _ _)) =>
        right; apply preserves_run_unit; [apply _|apply history_CompleteTask]
    | |- _ ∨ preserves _ (run_unit _) => left; apply preserves_run_unit; [apply _|]
    | |- _ => left
    end; auto with operations.
Qed.

Lemma rtc_lstep_succeeded s s' k t :
  rtc lstep s s' → a_tasks s !! k = Some t → at_status t = SUCCEEDED → a_tasks s' !! k = Some t.
Proof.
  intros Hs Hk Ht. induction Hs as [|s1 s2 s3 H12 _ IH]; [done|]. apply IH.
  destruct H12 as [U|rid r new edges C].
  - by eapply updates_succeeded.
  - apply (creates_task C). auto.
Qed.

Lemma step_settled db db' : DbInv db → step db db' → history settled db db'.
Proof.
  intros I [o env n open r s' H]. destruct (history_exec o) as [Ho|Ho]; [|by apply Ho in H].
  pose proof (refines_exec o _ _ _ _ H I) as [Hl _]. apply Ho in H. cbn [s_db] in Hl, H.
  revert H. apply history_mono. simpl. intros k t t' Hk Hk' Hs. split; [exact (f_equal (fst ∘ fst) Hs)|].
  intros Ht. split; [|done].
  apply (rtc_lstep_succeeded _ _ k (abs_task t)) in Hl; [|by rewrite lookup_abs_task, Hk|done].
  rewrite lookup_abs_task, Hk' in Hl. injection Hl as ?. congruence.
Qed.

Lemma history_steps db db' : DbInv db → rtc step db db' → history settled db db'.
Proof.
  intros Hdb Hs. induction Hs as [|db1 db2 db3 H12 _ IH]; [done|].
  transitivity db2; [by apply step_settled|]. by apply IH, (step_refines _ _ H12).
Qed.

(** C7: history is kept.  Whatever operations run after a database was
    reached, in any order and interleaving and with any faults, its
    definitions and dependency edges are still there unchanged, its audit log
    is a prefix of the later one, its runs, attempts, artifacts and events
    keep the columns they were written with, published events stay published,
    ready artifacts stay ready with the size that was verified, and a task
    that had succeeded is still succeeded with the same output and artifact. *)
Theorem history_kept db db' :
  system_reachable db → rtc step db db' → history settled db db'.
Proof. intros Hdb%reachable_db_inv. by apply history_steps. Qed.
