(* ===== verification/SchemaSpec.v ===== *)
(** The constraints the migrations declare, kept by every operation.

    PostgreSQL enforces them; the statements of the model refuse what violates
    one.  [constraints] lists the foreign keys, the unique keys and the checks of
    [migrations/*.up.sql], and the theorem says that no operation, on any path,
    leaves them: no reachable database of the model is one PostgreSQL could not
    hold. *)
From S2P Require Import Prelude Go Model Dag State Json Schema Sql StoreWorker StoreWorkflow Scheduler Outbox Auth Artifacts RateLimit Api Preserve Frame Lifecycle Refinement Creation Aloof System History.

(** Two rows with the same columns are one row. *)
Definition unique {K V B} `{Countable K} (f : V → B) (m : gmap K V) : Prop :=
  ∀ i j x y, m !! i = Some x → m !! j = Some y → f x = f y → i = j.

(** [workflow_definitions], in [001_initial]. *)
Definition definition_ok (db : Db) (d : DefinitionRow) : Prop :=
  d_tenant_id d ∈ tenants db ∧ 0 < d_version d ∧ user_ok db (d_created_by d) = true.

(** [workflow_runs]. *)
Definition run_ok (db : Db) (r : RunRow) : Prop :=
  r_tenant_id r ∈ tenants db ∧ is_Some (workflow_definitions db !! r_workflow_definition_id r).

(** [task_runs]. *)
Definition task_row_ok (db : Db) (t : TaskRow) : Prop :=
  is_Some (workflow_runs db !! t_workflow_run_id t) ∧ 0 < t_maximum_attempts t ∧ 0 < t_timeout_seconds t.

(** [task_dependencies]. *)
Definition edge_ok (db : Db) (e : uuid * uuid) (run : uuid) : Prop :=
  e.1 ≠ e.2 ∧ is_Some (workflow_runs db !! run) ∧ is_Some (task_runs db !! e.1) ∧
  is_Some (task_runs db !! e.2).

(** [schedules]. *)
Definition schedule_ok (db : Db) (s : ScheduleRow) : Prop :=
  s_tenant_id s ∈ tenants db ∧ is_Some (workflow_definitions db !! s_workflow_definition_id s) ∧
  s_misfire_policy s ∈ ["skip"; "catch_up_once"].

(** [api_keys]; [003_production_auth] adds [created_by]. *)
Definition key_ok (db : Db) (k : ApiKeyRow) : Prop :=
  k_tenant_id k ∈ tenants db ∧ user_ok db (k_created_by k) = true.

(** [artifacts], in [004_artifacts]. *)
Definition artifact_ok (db : Db) (f : ArtifactRow) : Prop :=
  f_tenant_id f ∈ tenants db ∧ artifact_kind (f_kind f) = true ∧ 0 ≤ f_declared_size f ∧
  (∀ r, f_workflow_run_id f = Some r → is_Some (workflow_runs db !! r)) ∧
  (∀ t, f_task_run_id f = Some t → is_Some (task_runs db !! t)) ∧ user_ok db (f_created_by f) = true.

(** All tables.  The key of [worker_heartbeats] has its tenant since
    [003_production_auth], [publish_attempts] comes from [007_outbox_claims]; the
    columns that are primary keys are the keys of the maps. *)
Record constraints (db : Db) : Prop := {
  con_users : map_Forall (λ _ u, u_tenant_id u ∈ tenants db) (users db);
  con_user_key : unique (λ u, (u_tenant_id u, u_oidc_subject u)) (users db);
  con_keys : map_Forall (λ _ k, key_ok db k) (api_keys db);
  con_key_hash : unique k_key_hash (api_keys db);
  con_definitions : map_Forall (λ _ d, definition_ok db d) (workflow_definitions db);
  con_definition_key : unique (λ d, (d_tenant_id d, d_name d, d_version d)) (workflow_definitions db);
  con_runs : map_Forall (λ _ r, run_ok db r) (workflow_runs db);
  con_run_key : unique (λ r, (r_tenant_id r, r_idempotency_key r)) (workflow_runs db);
  con_tasks : map_Forall (λ _ t, task_row_ok db t) (task_runs db);
  con_task_key : unique (λ t, (t_workflow_run_id t, t_task_key t)) (task_runs db);
  con_edges : map_Forall (edge_ok db) (task_dependencies db);
  con_attempts : map_Forall (λ k _, is_Some (task_runs db !! k.1)) (task_attempts db);
  con_events : map_Forall (λ _ o, 0 ≤ o_publish_attempts o) (outbox_events db);
  con_schedules : map_Forall (λ _ s, schedule_ok db s) (schedules db);
  con_audit : Forall (λ a, au_tenant_id a ∈ tenants db) (audit_events db);
  con_heartbeats : map_Forall (λ k _, k.1 ∈ tenants db) (worker_heartbeats db);
  con_artifacts : map_Forall (λ _ f, artifact_ok db f) (artifacts db);
  con_artifact_key : unique f_object_key (artifacts db);
  con_artifact_uri : unique f_object_uri (artifacts db)
}.

(** ** Tables *)

Section Table.
Context {K V B : Type} `{Countable K}.
Implicit Types (m : gmap K V) (f : V → B).

Lemma unique_empty f : unique f (∅ : gmap K V).
Proof. intros i j x y Hi. by rewrite lookup_empty in Hi. Qed.

Lemma unique_insert f m k x :
  unique f m → (∀ i y, i ≠ k → m !! i = Some y → f y ≠ f x) → unique f (<[k := x]> m).
Proof.
  intros Hu Hx i j y z. rewrite !lookup_insert. intros Hi Hj Hf.
  destruct (decide (k = i)) as [<-|?], (decide (k = j)) as [<-|?]; simplify_eq; try done.
  - by destruct (Hx j z (not_eq_sym ltac:(done))).
  - by destruct (Hx i y (not_eq_sym ltac:(done))).
  - eauto.
Qed.

Lemma unique_update f P g m :
  unique f m → (∀ k x, P k x = true → f (g x) = f x) → unique f (update_where P g m).
Proof.
  intros Hu Hg i j y z. rewrite !lookup_update_where.
  assert (∀ k x, f (if P k x then g x else x) = f x) as Hf by (intros k x; destruct (P k x) eqn:?; eauto).
  intros (x & Hx & ->)%fmap_Some (x' & Hx' & ->)%fmap_Some. rewrite !Hf. by apply Hu.
Qed.

Lemma map_Forall_update (Q : K → V → Prop) P g m :
  map_Forall Q m → (∀ k x, m !! k = Some x → P k x = true → Q k x → Q k (g x)) →
  map_Forall Q (update_where P g m).
Proof.
  intros Hm Hg k y. rewrite lookup_update_where. intros (x & Hx & ->)%fmap_Some.
  destruct (P k x) eqn:?; [by apply Hg; auto|by apply Hm].
Qed.

Lemma is_Some_insert m k x i : is_Some (m !! i) → is_Some (<[k := x]> m !! i).
Proof. intros Hi. rewrite lookup_insert. by destruct (decide (k = i)). Qed.

Lemma is_Some_update P g m i : is_Some (m !! i) → is_Some (update_where P g m !! i).
Proof. intros [x Hx]. rewrite lookup_update_where, Hx. by eexists. Qed.

Lemma map_Forall_add (Q Q' : K → V → Prop) m k x :
  map_Forall Q m → (∀ i y, Q i y → Q' i y) → Q' k x → map_Forall Q' (<[k := x]> m).
Proof.
  intros Hm HQ Hx i y Hi. rewrite lookup_insert in Hi.
  destruct (decide (k = i)) as [<-|?]; simplify_eq; [done|]. by apply HQ, Hm.
Qed.
End Table.

(** ** Relations *)

(** The constraints are kept, and no run disappears. *)
Definition lawful (db db' : Db) : Prop :=
  (∀ r, is_Some (workflow_runs db !! r) → is_Some (workflow_runs db' !! r)) ∧
  (∀ t, is_Some (task_runs db !! t) → is_Some (task_runs db' !! t)) ∧
  (constraints db → constraints db').

#[export] Instance lawful_preorder : PreOrder lawful.
Proof.
  unfold lawful. split; [intros db; by split_and!|]. intros x y z (? & ? & ?) (? & ? & ?). split_and!; auto.
Qed.

(** The same, for what happens once run [rid] and task [id] exist. *)
Definition given (Q : Db → Prop) (db db' : Db) : Prop := Q db → lawful db db'.

Definition has_run (rid : uuid) (db : Db) : Prop := is_Some (workflow_runs db !! rid).
Definition has_task (id : uuid) (db : Db) : Prop := is_Some (task_runs db !! id).

#[export] Instance given_run_preorder rid : PreOrder (given (has_run rid)).
Proof.
  split; [by intros db _|]. intros x y z Hxy Hyz Hx. destruct (Hxy Hx) as (Hr & ? & ?).
  destruct (Hyz (Hr _ Hx)) as (? & ? & ?). split_and!; auto.
Qed.

#[export] Instance given_task_preorder id : PreOrder (given (has_task id)).
Proof.
  split; [by intros db _|]. intros x y z Hxy Hyz Hx. destruct (Hxy Hx) as (? & Ht & ?).
  destruct (Hyz (Ht _ Hx)) as (? & ? & ?). split_and!; auto.
Qed.

Lemma stmt_given {A} Q (f : Stmt A) : stmt_preserves lawful f → stmt_preserves (given Q) f.
Proof. intros Hf env n db a db' H _. by eapply Hf. Qed.

(** A step whose result says what the next ones rely on. *)
Lemma preserves_bind_given {A B} (m : M A) (k : A → M B) (Q : A → Db → Prop) :
  (∀ env s r s', m env s = (r, s') → lawful (s_db s) (s_db s') ∧ ∀ a, r = Ok a → Q a (s_db s')) →
  (∀ a, preserves (given (Q a)) (k a)) → preserves lawful (m ≫= k).
Proof.
  intros Hm Hk env s r s'. unfold mbind, M_bind.
  destruct (m env s) as [[a|e] s1] eqn:Hms; destruct (Hm _ _ _ _ Hms) as [H1 HQ].
  - intros H. etransitivity; [exact H1|]. by apply (Hk a _ _ _ _ H), HQ.
  - by intros [= <- <-].
Qed.

(** ** Statements *)

(** The columns of a task and of a run that constraints speak of. *)
Definition task_kept (t t' : TaskRow) : Prop :=
  t_workflow_run_id t' = t_workflow_run_id t ∧ t_task_key t' = t_task_key t ∧
  t_timeout_seconds t' = t_timeout_seconds t ∧ t_maximum_attempts t ≤ t_maximum_attempts t'.

Lemma lawful_update_tasks P f :
  (∀ db k t, P db k t = true → task_kept t (f db k t)) → stmt_preserves lawful (update_tasks P f).
Proof.
  intros Hf env n db rows db' [= <- <-].
  assert (∀ k t, task_kept t (if P db k t then f db k t else t)) as Hk.
  { intros k t. destruct (P db k t) eqn:?; [by apply Hf|by split_and!]. }
  assert (∀ i, is_Some (task_runs db !! i) → is_Some (map_imap
    (λ k t, Some (if P db k t then f db k t else t)) (task_runs db) !! i)) as Hdom.
  { intros i [t Ht]. rewrite map_lookup_imap, Ht. by eexists. }
  split_and!; [done|done|]. intros []. split; simpl; try done.
  - intros k t. rewrite map_lookup_imap. intros (t0 & Ht0 & [= <-])%bind_Some.
    destruct (con_tasks0 k t0 Ht0) as (? & ? & ?). destruct (Hk k t0) as (E1 & _ & E2 & ?).
    unfold task_row_ok. rewrite E1, E2. split_and!; [done|lia|done].
  - intros i j t t'. rewrite !map_lookup_imap.
    intros (x & Hx & [= <-])%bind_Some (y & Hy & [= <-])%bind_Some.
    destruct (Hk i x) as (-> & -> & _), (Hk j y) as (-> & -> & _). by apply con_task_key0.
  - intros e r He. destruct (con_edges0 e r He) as (? & ? & ? & ?). by split_and!; auto.
  - intros k a Ha. by apply Hdom, (con_attempts0 k a).
  - intros k f0 Hf0. destruct (con_artifacts0 k f0 Hf0) as (? & ? & ? & ? & ? & ?). split_and!; eauto.
Qed.

Lemma lawful_update_runs P f :
  (∀ r, run_static (f r) = run_static r) → stmt_preserves lawful (update_runs P f).
Proof.
  intros Hf env n db rows db' [= <- <-].
  assert (∀ i, is_Some (workflow_runs db !! i) → is_Some (update_where P f (workflow_runs db) !! i)) as Hdom
    by (intros i; apply is_Some_update).
  assert (∀ r, r_tenant_id (f r) = r_tenant_id r ∧ r_idempotency_key (f r) = r_idempotency_key r ∧
    r_workflow_definition_id (f r) = r_workflow_definition_id r) as Hcol.
  { intros r. specialize (Hf r). injection Hf. auto. }
  split_and!; [done|done|]. intros []. split; simpl; try done.
  - apply map_Forall_update; [exact con_runs0|]. intros k r _ _ [? ?]. unfold run_ok.
    by destruct (Hcol r) as (-> & _ & ->).
  - apply unique_update; [done|]. intros k r _. by destruct (Hcol r) as (-> & -> & _).
  - intros k t Ht. destruct (con_tasks0 k t Ht) as (? & ? & ?). split_and!; auto.
  - intros e r He. destruct (con_edges0 e r He) as (? & ? & ? & ?). split_and!; auto.
  - intros k f0 Hf0. destruct (con_artifacts0 k f0 Hf0) as (? & ? & ? & ? & ? & ?). split_and!; eauto.
Qed.

Lemma lawful_update_attempts P f : stmt_preserves lawful (update_attempts P f).
Proof.
  intros env n db rows db' [= <- <-]. split_and!; [done|done|]. intros []. split; simpl; try done.
  by apply map_Forall_update.
Qed.

Lemma lawful_update_outbox P f :
  (∀ o, o_publish_attempts o ≤ o_publish_attempts (f o)) → stmt_preserves lawful (update_outbox P f).
Proof.
  intros Hf env n db rows db' [= <- <-]. split_and!; [done|done|]. intros []. split; simpl; try done.
  apply map_Forall_update; [done|]. intros k o _ _ Ho. specialize (Hf o). lia.
Qed.

Definition artifact_keys (f : ArtifactRow) := (f_object_key f, f_object_uri f).

Lemma lawful_update_artifacts (Q : Db → Prop) P f :
  (∀ a, artifact_keys (f a) = artifact_keys a) →
  (∀ db k a, Q db → artifacts db !! k = Some a → P k a = true → artifact_ok db a → artifact_ok db (f a)) →
  stmt_preserves (given Q) (update_artifacts P f).
Proof.
  intros Hk Hf env n db rows db' [= <- <-] HQ. split_and!; [done|done|]. intros []. split; simpl; try done.
  - apply map_Forall_update; [done|]. intros k a Hka HP Ha. by apply (Hf db k).
  - apply unique_update; [done|]. intros k a _. exact (f_equal fst (Hk a)).
  - apply unique_update; [done|]. intros k a _. exact (f_equal snd (Hk a)).
Qed.

Lemma update_artifacts_none P f env n db db' :
  update_artifacts P f env n db = Ok ([], db') → ∀ k a, artifacts db !! k = Some a → P k a = false.
Proof.
  intros [= Hrows%fmap_nil_inv _] k a Ha. apply not_true_is_false. intros HP.
  apply (not_elem_of_nil (k, a)). rewrite <-Hrows. by apply elem_of_rows_where.
Qed.

Lemma lawful_insert_outbox now ty id ev p tr : stmt_preserves lawful (insert_outbox now ty id ev p tr).
Proof.
  intros env n db a db'. unfold insert_outbox. cbv zeta. case_bool_decide; [done|]. intros [= <- <-].
  split_and!; [done|done|]. intros []. split; simpl; try done. by eapply map_Forall_add.
Qed.

Lemma lawful_insert_outbox_from_run now id ev p rid :
  stmt_preserves lawful (insert_outbox_from_run now id ev p rid).
Proof.
  intros env n db a db'. unfold insert_outbox_from_run. case_match.
  - apply lawful_insert_outbox.
  - intros [= <- <-]. reflexivity.
Qed.

Lemma lawful_insert_audit now t ac a ty id md : stmt_preserves lawful (insert_audit now t ac a ty id md).
Proof.
  intros env n db x db'. unfold insert_audit. case_bool_decide; [|done]. intros [= <- <-].
  split_and!; [done|done|]. intros []. split; simpl; try done. apply Forall_app. by repeat constructor.
Qed.

Lemma lawful_insert_attempt now id k w sch :
  stmt_preserves (given (has_task id)) (insert_attempt now id k w sch).
Proof.
  intros env n db x db'. unfold insert_attempt. case_bool_decide; [done|]. intros [= <- <-] Ht.
  split_and!; [done|done|]. intros []. split; simpl; try done. by eapply map_Forall_add.
Qed.

Lemma lawful_insert_definition now tenant name version spec by_ :
  stmt_preserves lawful (insert_definition now tenant name version spec by_).
Proof.
  intros env n db x db' H. unfold insert_definition, sql_check in H. cbv zeta in H.
  repeat case_match; simplify_eq. bool_split. split_and!; [done|done|]. intros [].
  split; simpl; try done.
  - by eapply map_Forall_add.
  - apply unique_insert; [done|]. intros i d _ Hd E. simplify_eq.
    match goal with Hu : map_Forall _ (workflow_definitions db) |- _ => by destruct (Hu i d Hd) end.
  - intros k r Hr. destruct (con_runs0 k r Hr). split; [done|by apply is_Some_insert].
  - intros k s Hs. destruct (con_schedules0 k s Hs) as (? & ? & ?). split_and!; [done|by apply is_Some_insert|done].
Qed.

Lemma lawful_insert_run row env n db x db' :
  insert_run row env n db = Ok (x, db') →
  lawful db db' ∧ ∀ rid r, x = Some (rid, r) → has_run rid db'.
Proof.
  intros H. unfold insert_run in H. cbv zeta in H. repeat case_match; simplify_eq; [|by split].
  bool_split. assert (∀ i, is_Some (workflow_runs db !! i) →
    is_Some (<[env_uuid env n := row]> (workflow_runs db) !! i)) as Hdom by (intros i; apply is_Some_insert).
  split; [|intros rid r [= <- <-]; unfold has_run; simpl; by rewrite lookup_insert_eq].
  split_and!; [done|done|]. intros []. split; simpl; try done.
  - by eapply map_Forall_add.
  - apply unique_insert; [done|]. intros i r _ Hr [= E1 E2].
    match goal with Hu : map_Forall _ (workflow_runs db) |- _ =>
      specialize (Hu i r Hr); unfold same_idempotency in Hu; by rewrite !bool_decide_true in Hu end.
  - intros k t Ht. destruct (con_tasks0 k t Ht) as (? & ? & ?). split_and!; auto.
  - intros e r He. destruct (con_edges0 e r He) as (? & ? & ? & ?). split_and!; auto.
  - intros k f0 Hf0. destruct (con_artifacts0 k f0 Hf0) as (? & ? & ? & ? & ? & ?). split_and!; eauto.
Qed.

Lemma lawful_insert_task id row : stmt_preserves lawful (insert_task id row).
Proof.
  intros env n db x db' H. unfold insert_task, sql_check in H. repeat case_match; simplify_eq. bool_split.
  assert (∀ i, is_Some (task_runs db !! i) → is_Some (<[id := row]> (task_runs db) !! i)) as Hdom
    by (intros i; apply is_Some_insert).
  split_and!; [done|done|]. intros []. split; simpl; try done.
  - by eapply map_Forall_add.
  - apply unique_insert; [done|]. intros i t _ Ht E. simplify_eq.
    match goal with Hu : map_Forall _ (task_runs db) |- _ => by destruct (Hu i t Ht) end.
  - intros e r He. destruct (con_edges0 e r He) as (? & ? & ? & ?). split_and!; auto.
  - intros k a Ha. by apply Hdom, (con_attempts0 k a).
  - intros k f0 Hf0. destruct (con_artifacts0 k f0 Hf0) as (? & ? & ? & ? & ? & ?). split_and!; eauto.
Qed.

Lemma lawful_insert_dependency rid t d : stmt_preserves lawful (insert_dependency rid t d).
Proof.
  intros env n db x db' H. unfold insert_dependency, sql_check in H. repeat case_match; simplify_eq. bool_split.
  split_and!; [done|done|]. intros []. split; simpl; try done. by eapply map_Forall_add.
Qed.

Lemma lawful_heartbeat id w e : stmt_preserves lawful (heartbeat_stmt id w e).
Proof.
  intros env n db a db'. unfold heartbeat_stmt.
  destruct (update_task _ _ _ _ _ _) as [[rows db1]|] eqn:Hu; [|done].
  intros [= <- <-]. by apply lawful_update_tasks in Hu.
Qed.

Lemma lawful_insert_api_key id row : stmt_preserves lawful (insert_api_key id row).
Proof.
  intros env n db x db' H. unfold insert_api_key in H. cbv zeta in H. repeat case_match; simplify_eq. bool_split.
  split_and!; [done|done|]. intros []. split; simpl; try done.
  - by eapply map_Forall_add.
  - apply unique_insert; [done|]. intros i k _ Hk.
    match goal with Hu : map_Forall _ (api_keys db) |- _ => by apply (Hu i k Hk) end.
Qed.

Lemma lawful_update_api_key id g f :
  (∀ now k, k_tenant_id (f now k) = k_tenant_id k ∧ k_created_by (f now k) = k_created_by k) →
  stmt_preserves lawful (update_api_key id g f).
Proof.
  intros Hf env n db x db' H. unfold update_api_key in H. cbv zeta in H.
  repeat case_match; simplify_eq; try reflexivity. bool_split.
  split_and!; [done|done|]. intros []. split; simpl; try done.
  - eapply map_Forall_add; [done|done|]. unfold key_ok.
    destruct (Hf (env_now env n) a) as [-> ->]. by eapply con_keys0.
  - apply unique_insert; [done|]. intros i k Hi Hk.
    match goal with Hu : map_Forall _ (api_keys db) |- _ => by apply (Hu i k Hk) end.
Qed.

Lemma lawful_touch_api_key id : stmt_preserves lawful (touch_api_key id).
Proof.
  intros env n db x db' H. unfold touch_api_key in H. injection H as _ <-.
  split_and!; [done|done|]. intros []. split; simpl; try done.
  - intros i k. rewrite lookup_alter. destruct (decide (id = i)); [|by apply con_keys0].
    intros (k0 & Hk0 & ->)%fmap_Some. exact (con_keys0 _ _ Hk0).
  - intros i j k k'. rewrite !lookup_alter.
    destruct (decide (id = i)), (decide (id = j)); rewrite ?fmap_Some; naive_solver.
Qed.

Lemma lawful_insert_schedule row : stmt_preserves lawful (insert_schedule row).
Proof.
  intros env n db x db' H. unfold insert_schedule in H. cbv zeta in H.
  repeat case_match; simplify_eq; try reflexivity. bool_split.
  split_and!; [done|done|]. intros []. split; simpl; try done. eapply map_Forall_add; [done|done|].
  split_and!; [|by eexists|done].
  match goal with Hd : workflow_definitions db !! _ = Some _, E : d_tenant_id _ = _ |- _ =>
    rewrite <-E; by apply (con_definitions0 _ _ Hd) end.
Qed.

Lemma lawful_patch_schedule id t req : stmt_preserves lawful (update_schedule_row id t (Some ∘ patched req)).
Proof.
  intros env n db x db' H. unfold update_schedule_row in H.
  destruct (schedules db !! id) as [s|] eqn:Hs; [case_bool_decide|]; simplify_eq; try reflexivity.
  split_and!; [done|done|]. intros []. split; simpl; try done. intros i s0. rewrite lookup_partial_alter.
  destruct (decide (id = i)); [|by apply con_schedules0]. intros [= <-]. exact (con_schedules0 _ _ Hs).
Qed.

Lemma lawful_delete_schedule id t : stmt_preserves lawful (update_schedule_row id t (λ _, None)).
Proof.
  intros env n db x db' H. unfold update_schedule_row in H. repeat case_match; simplify_eq; try reflexivity.
  split_and!; [done|done|]. intros []. split; simpl; try done. intros i s0. rewrite lookup_partial_alter.
  destruct (decide (id = i)); [done|by apply con_schedules0].
Qed.

Lemma lawful_insert_artifact id row :
  (∀ now, f_workflow_run_id (row now) = None) → stmt_preserves lawful (insert_artifact id row).
Proof.
  intros Hrun env n db x db' H. unfold insert_artifact in H. cbv zeta in H. specialize (Hrun (env_now env n)).
  set (f := row (env_now env n)) in *.
  assert (∀ t, f_task_run_id f = Some t → is_Some (task_runs db !! t)) as Ht.
  { intros t E. rewrite E in H. apply not_eq_None_Some. intros E0. rewrite E0 in H.
    repeat case_match; simplify_eq; bool_split; done. }
  assert (∀ r, f_workflow_run_id f = Some r → is_Some (workflow_runs db !! r)) as Hr by congruence.
  destruct (negb (artifact_kind _)) eqn:Hk; [done|]. apply negb_false_iff in Hk.
  case_bool_decide as Hsize; [done|]. case_bool_decide; [done|].
  destruct (bool_decide _) eqn:Hkey in H; [|done]. destruct (bool_decide _) eqn:Huri in H; [|done].
  destruct (bool_decide (f_tenant_id f ∈ _)) eqn:Htenant; [|done]. cbn [negb] in H.
  match type of H with (if ?b then _ else _) = _ => destruct b; [done|] end. destruct (user_ok _ _) eqn:Huser; [|done].
  injection H as _ <-. bool_split.
  split_and!; [done|done|]. intros []. split; simpl; try done.
  - eapply map_Forall_add; [exact con_artifacts0|done|]. split_and!; try done. lia.
  - apply unique_insert; [done|]. intros i g _ Hg. by apply (Hkey i g Hg).
  - apply unique_insert; [done|]. intros i g _ Hg. by apply (Huri i g Hg).
Qed.

Lemma lawful_claim batch token ttl : stmt_preserves lawful (claim_stmt batch token ttl).
Proof.
  intros env n db x db' [= <- <-]. split_and!; [done|done|]. intros []. split; simpl; try done.
  apply map_Forall_update; [done|]. intros k o _ _ Ho. simpl. lia.
Qed.

Lemma lawful_ack token id : stmt_preserves lawful (ack_stmt token id).
Proof. intros env n. by apply lawful_update_outbox. Qed.

Lemma lawful_release token : stmt_preserves lawful (release_stmt token).
Proof. intros env n. by apply lawful_update_outbox. Qed.

#[export] Hint Resolve lawful_update_attempts lawful_insert_outbox lawful_insert_outbox_from_run
  lawful_insert_audit lawful_insert_attempt lawful_insert_definition lawful_insert_task
  lawful_insert_dependency lawful_heartbeat lawful_insert_api_key lawful_touch_api_key
  lawful_insert_schedule lawful_patch_schedule lawful_delete_schedule lawful_claim lawful_ack lawful_release
  : preserve.
#[export] Hint Extern 8 (stmt_preserves (given _) _) => apply stmt_given : preserve.
#[export] Hint Extern 5 (stmt_preserves lawful (update_attempt _ _ _ _)) =>
  apply lawful_update_attempts : preserve.
#[export] Hint Extern 5 (stmt_preserves lawful (update_run _ _ _)) =>
  apply lawful_update_runs; done : preserve.
#[export] Hint Extern 5 (stmt_preserves lawful (update_runs _ _)) =>
  apply lawful_update_runs; done : preserve.

(** A statement on tasks that keeps the columns constraints speak of. *)
Ltac task_columns :=
  intros ? ?; apply lawful_update_tasks; intros ? ? ? _; split_and!; simpl; (done || lia).
#[export] Hint Extern 5 (stmt_preserves lawful (update_tasks _ _)) => task_columns : preserve.
#[export] Hint Extern 5 (stmt_preserves lawful (update_task _ _ _)) => task_columns : preserve.
#[export] Hint Extern 5 (stmt_preserves lawful (cancel_not_started _ _)) => task_columns : preserve.

(** ** Operations *)

Lemma lawful_nowPlus d : preserves lawful (nowPlus d).
Proof. unfold nowPlus. preserve. Qed.
#[export] Hint Resolve lawful_nowPlus : preserve.

Lemma lawful_available_at st attempt : preserves lawful (available_at st attempt).
Proof. unfold available_at. preserve. Qed.
#[export] Hint Resolve lawful_available_at : preserve.

Lemma lawful_StartTask id w : preserves lawful (StartTask id w).
Proof. unfold StartTask. preserve. Qed.

Lemma lawful_HeartbeatTask id w lease : preserves lawful (HeartbeatTask id w lease).
Proof. unfold HeartbeatTask. preserve. Qed.

Lemma lawful_CompleteTask id w out uri logs : preserves lawful (CompleteTask id w out uri logs).
Proof. unfold CompleteTask, complete_tx, count_remaining. preserve. Qed.

Lemma lawful_FailTask id w f : preserves lawful (FailTask id w f).
Proof. unfold FailTask. preserve. Qed.

Lemma lawful_ReplayDead tenant user id : preserves lawful (ReplayDead tenant user id).
Proof. unfold ReplayDead. preserve. Qed.

Lemma lawful_CancelRun tenant user id : preserves lawful (CancelRun tenant user id).
Proof. unfold CancelRun. preserve. Qed.

Lemma lawful_RetryRun tenant user id : preserves lawful (RetryRun tenant user id).
Proof. unfold RetryRun. preserve. Qed.

Lemma lawful_promote_retries : preserves lawful promote_retries.
Proof. unfold promote_retries. preserve. task_columns. Qed.

Lemma lawful_recoverExpired : preserves lawful recoverExpired.
Proof. unfold recoverExpired. preserve. destruct x as [[id t] r]. unfold recover_one. preserve. Qed.

Lemma lawful_dispatch_ready : preserves lawful dispatch_ready.
Proof. unfold dispatch_ready. preserve. destruct x as [[id t] r]. unfold dispatch_one. preserve. Qed.

(** The attempt is recorded for the task whose lease was taken. *)
Lemma lawful_LeaseTask id w lease : preserves lawful (LeaseTask id w lease).
Proof.
  unfold LeaseTask. apply preserves_in_tx; [apply _|]. intros now. preserve_step; [preserve|].
  apply (preserves_bind_given _ _ (λ rows db, ∀ k t l, rows = (k, t) :: l → has_task k db)).
  - intros env s r s' H. split.
    { refine (preserves_tx_stmt lawful _ _ env s r s' H). task_columns. }
    intros rows -> k t l ->. apply tx_stmt_Ok in H as (_ & _ & db & Hu & ->).
    apply update_task_cases in Hu as [(t0 & _ & _ & [= -> -> ->] & ->)|[? _]]; [|done].
    unfold has_task. simpl. by rewrite lookup_insert_eq.
  - intros [|[k t] l].
    + intros env s r s' [= <- <-]. by intros _.
    + apply (preserves_mono (given (has_task k))); [intros db db' H Hk; apply H; eauto|preserve].
Qed.

(** The run exists before anything refers to it. *)
Lemma lawful_attach_artifact aid rid : preserves (given (has_run rid)) (attach_artifact aid rid).
Proof.
  unfold attach_artifact. preserve. apply lawful_update_artifacts; [done|].
  intros db k a Hr _ _ (? & ? & ? & ? & ? & ?). split_and!; try done. by intros r [= <-].
Qed.

Lemma preserves_given {A} Q (m : M A) : preserves lawful m → preserves (given Q) m.
Proof. apply preserves_mono. by intros db db' H _. Qed.

Lemma lawful_populate_run now tenant user def aid input trace dag rid :
  preserves (given (has_run rid)) (populate_run now tenant user def aid input trace dag rid).
Proof.
  unfold populate_run, insert_tasks, insert_dependencies.
  apply preserves_bind; [apply _|apply lawful_attach_artifact|intros ?]. preserve.
Qed.

Lemma lawful_CreateRun tenant user def key input aids : preserves lawful (CreateRun tenant user def key input aids).
Proof.
  unfold CreateRun, input_artifact_uri. preserve_step; [preserve|]. cbv zeta. apply preserves_in_tx; [apply _|].
  intros now. do 2 (preserve_step; [preserve|]). preserve_step; [|preserve]. preserve_step; [|preserve].
  preserve_step; [preserve|].
  apply (preserves_bind_given _ _ (λ row db, ∀ rid r, row = Some (rid, r) → has_run rid db)).
  - intros env s r s' H. split.
    { refine (preserves_tx_stmt lawful _ _ env s r s' H). intros env1 n db x db' Hi.
      exact (proj1 (lawful_insert_run _ _ _ _ _ _ Hi)). }
    intros row -> rid run E. apply tx_stmt_Ok in H as (_ & _ & db & Hi & ->).
    destruct (lawful_insert_run _ _ _ _ _ _ Hi) as [_ Hr]. by eapply Hr.
  - intros [[rid r]|].
    + apply (preserves_mono (given (has_run rid))); [intros db db' H Hk; apply H; eauto|].
      apply preserves_bind; [apply _|apply lawful_populate_run|intros ?]. preserve.
    + apply preserves_given. unfold getRunTx. preserve.
Qed.

Lemma lawful_validate dag : preserves lawful (validate dag).
Proof. unfold validate. preserve. Qed.
#[export] Hint Resolve lawful_validate : preserve.

Lemma lawful_CreateWorkflow tenant user name dag : preserves lawful (CreateWorkflow tenant user name dag).
Proof.
  unfold CreateWorkflow. preserve; intros env n.
  - exact (lawful_insert_definition _ _ _ _ _ _ env n).
  - exact (lawful_insert_audit _ _ _ _ _ _ _ env n).
Qed.

Lemma lawful_CreateVersion tenant user def dag : preserves lawful (CreateVersion tenant user def dag).
Proof. unfold CreateVersion. preserve. Qed.

Lemma lawful_audit t u a id md : preserves lawful (audit t u a id md).
Proof. unfold audit. preserve. intros env n. exact (lawful_insert_audit _ _ _ _ _ _ _ env n). Qed.
#[export] Hint Resolve lawful_audit : preserve.

Lemma lawful_CreateAPIKey id t u name scopes e h : preserves lawful (CreateAPIKey id t u name scopes e h).
Proof. unfold CreateAPIKey. preserve. Qed.

Lemma lawful_RotateAPIKey id t u h : preserves lawful (RotateAPIKey id t u h).
Proof. unfold RotateAPIKey. preserve. by apply lawful_update_api_key. Qed.

Lemma lawful_RevokeAPIKey id t u : preserves lawful (RevokeAPIKey id t u).
Proof. unfold RevokeAPIKey. preserve. by apply lawful_update_api_key. Qed.

Lemma lawful_CreateArtifact id t u kind key uri ct size sum task :
  preserves lawful (CreateArtifact id t u kind key uri ct size sum task).
Proof. unfold CreateArtifact. preserve. by apply lawful_insert_artifact. Qed.

Lemma lawful_CompleteArtifact t id size : preserves lawful (CompleteArtifact t id size).
Proof.
  unfold CompleteArtifact. preserve. intros env n db x db' H.
  apply (lawful_update_artifacts (λ _, True)) in H; [by apply H|done|]. by intros.
Qed.

Lemma lawful_AttachArtifactToRun t id r : preserves lawful (AttachArtifactToRun t id r).
Proof.
  unfold AttachArtifactToRun. preserve. intros env n db x db' H.
  destruct (update_artifacts _ _ env n db) as [[rows db1]|] eqn:Hu; [|done].
  destruct rows as [|row rows].
  - injection H as _ <-. pose proof (update_artifacts_none _ _ _ _ _ _ Hu) as Hnone.
    apply (lawful_update_artifacts (λ db0, db0 = db)) in Hu; [by apply Hu|done|].
    intros db0 k a -> Ha HP. by rewrite (Hnone k a Ha) in HP.
  - case_bool_decide as Hr; [|done]. injection H as _ <-.
    apply (lawful_update_artifacts (has_run r)) in Hu; [by apply Hu|done|].
    intros db0 k a Hr0 _ _ (? & ? & ? & ? & ? & ?). split_and!; try done. by intros r0 [= <-].
Qed.

Lemma lawful_WorkerHeartbeat t w hs active md : preserves lawful (WorkerHeartbeat t w hs active md).
Proof.
  apply preserves_pool_stmt; [apply _|]. intros env n db x db' H. unfold sql_check in H.
  repeat case_match; simplify_eq. bool_split. split_and!; [done|done|]. intros []. split; simpl; try done.
  by eapply map_Forall_add.
Qed.

#[export] Hint Resolve lawful_CreateWorkflow lawful_CreateVersion lawful_CreateRun lawful_CancelRun
  lawful_RetryRun lawful_LeaseTask lawful_StartTask lawful_HeartbeatTask lawful_CompleteTask lawful_FailTask
  lawful_ReplayDead lawful_WorkerHeartbeat lawful_promote_retries lawful_recoverExpired lawful_dispatch_ready
  lawful_CreateAPIKey lawful_RotateAPIKey lawful_RevokeAPIKey lawful_CreateArtifact lawful_CompleteArtifact
  lawful_AttachArtifactToRun : operations.
#[export] Hint Extern 1 (preserves lawful (pool_stmt _)) => preserve : operations.

Lemma lawful_exec o : preserves lawful (exec o).
Proof.
  destruct o; simpl;
    try lazymatch goal with
    | |- preserves _ (run_unit _) => apply preserves_run_unit; [apply _|]
    end; auto with operations.
Qed.

(** The constraints of the schema hold.  From a database that satisfies the
    foreign keys, the unique keys and the checks the migrations declare, every
    operation leads to one that does, on every path: with any faults,
    interleaving and lost commits, and also for the operations whose statements
    rely on rows written before in the same transaction. *)
Theorem constraints_kept db db' : constraints db → rtc step db db' → constraints db'.
Proof.
  intros Hdb Hs. induction Hs as [|db1 db2 db3 [o env n open r s' H] _ IH]; [done|].
  apply IH. by apply lawful_exec in H as (_ & _ & Hc); apply Hc.
Qed.
