(* ===== verification/MetricsSpec.v ===== *)
(** What the metrics say of a reachable database: the figures of the tenants
    add up to those of the platform, and the retry counter is what the attempt
    counters of the tasks say. *)
From S2P Require Import Prelude Go Model Dag State Json Schema Sql StoreWorker StoreWorkflow Scheduler Metrics System.

(** The sum of the groups whose labels satisfy [p]. *)
Definition total (p : list string → bool) (groups : list (list string * Z)) : Z :=
  foldr Z.add 0 (filter (λ g, p g.1) groups).*2.

Lemma total_cons p g groups :
  total p (g :: groups) = (if p g.1 then g.2 else 0) + total p groups.
Proof. unfold total. rewrite filter_cons. destruct (p g.1); [done|symmetry; apply Z.add_0_l]. Qed.

Section Groups.
Context {A : Type} (key : A → list string) (p : list string → bool).

Definition group_counts (rows : list A) (keys : list (list string)) : list (list string * Z) :=
  (λ k, (k, count (filter (λ a, key a = k) rows))) <$> keys.

Lemma group_counts_cons a rows keys :
  NoDup keys →
  total p (group_counts (a :: rows) keys) =
  total p (group_counts rows keys) + if bool_decide (key a ∈ keys) && p (key a) then 1 else 0.
Proof.
  unfold group_counts. induction keys as [|k keys IH]; intros Hnd.
  { rewrite bool_decide_false by apply not_elem_of_nil. done. }
  apply NoDup_cons in Hnd as [Hk Hnd]. rewrite !fmap_cons, !total_cons, IH by done.
  cbn [fst snd]. unfold count. rewrite filter_cons. destruct (decide (key a = k)) as [He|He].
  - rewrite (bool_decide_false (key a ∈ keys)) by (by rewrite He).
    rewrite bool_decide_true by (rewrite He; by left). subst k. destruct (p (key a)); simpl; lia.
  - rewrite (bool_decide_ext (key a ∈ k :: keys) (key a ∈ keys)) by set_solver. lia.
Qed.

Lemma group_counts_total rows keys :
  NoDup keys → (∀ a, a ∈ rows → key a ∈ keys) →
  total p (group_counts rows keys) = count (filter (λ a, p (key a)) rows).
Proof.
  intros Hnd. induction rows as [|a rows IH]; intros Hin.
  - clear. unfold group_counts. induction keys as [|k keys IH]; [done|].
    rewrite fmap_cons, total_cons, IH. by destruct (p _).
  - rewrite group_counts_cons, IH, bool_decide_true by (done || set_solver).
    unfold count. rewrite filter_cons. destruct (p (key a)); simpl; lia.
Qed.

(** The groups that satisfy a condition hold the rows that do. *)
Lemma group_by_total rows :
  total p (group_by key count rows) = count (filter (λ a, p (key a)) rows).
Proof.
  apply (group_counts_total rows); [apply NoDup_remove_dups|].
  intros a Ha. by apply elem_of_remove_dups, list_elem_of_fmap_2.
Qed.
End Groups.

Definition status_label (st : task_status) (labels : list string) : bool :=
  bool_decide (last labels = Some (task_status_text st)).

(** The join with the runs loses no task. *)
Lemma task_join_total rank db (q : TaskRow → bool) :
  well_formed db →
  count (filter (λ tr, q tr.1) (task_join rank db)) =
  count (filter (λ kt, q kt.2) (table rank (task_runs db))).
Proof.
  intros W. unfold task_join, count. f_equal.
  assert (∀ kt, kt ∈ table rank (task_runs db) → is_Some (workflow_runs db !! t_workflow_run_id kt.2)) as Hin.
  { intros [k t] [Ht _]%elem_of_rows_where. by apply (wf_task_run _ W k t). }
  induction (table rank (task_runs db)) as [|[k t] l IH]; [done|]. simpl.
  destruct (Hin (k, t)) as [r Hr]; [by left|]. simpl in Hr. rewrite Hr. simpl.
  rewrite !filter_cons. simpl. destruct (q t); simpl; [f_equal|]; apply IH; intros; apply Hin; by right.
Qed.

(** The attempts that count as retries, task by task. *)
Definition retry_keys (db : Db) (rows : list (uuid * TaskRow)) : list (uuid * Z) :=
  rows ≫= λ kt, (λ n, (kt.1, n)) <$> seqZ 2 (t_attempt_count kt.2 - 1).

Lemma elem_of_retry_keys db rows k n :
  (k, n) ∈ retry_keys db rows ↔ ∃ t, (k, t) ∈ rows ∧ 2 ≤ n ≤ t_attempt_count t.
Proof.
  unfold retry_keys. rewrite list_elem_of_bind. split.
  - intros ([k' t] & (n' & [= <- <-] & Hn%elem_of_seqZ)%list_elem_of_fmap & Hin). simpl in *.
    exists t. split; [done|lia].
  - intros (t & Hin & Hn). exists (k, t). split; [|done].
    apply (list_elem_of_fmap_2 (λ n, (k, n))), elem_of_seqZ. simpl. lia.
Qed.

Lemma NoDup_retry_keys db rows : NoDup rows.*1 → NoDup (retry_keys db rows).
Proof.
  induction rows as [|[k t] rows IH]; [by constructor|]. simpl. intros [Hk Hnd]%NoDup_cons.
  apply NoDup_app. split_and!; [|intros [k' n]|by apply IH].
  - apply NoDup_fmap_2; [by intros ?? [= ]|apply NoDup_seqZ].
  - intros (n' & [= -> ->] & _)%list_elem_of_fmap (t' & Hin & _)%elem_of_retry_keys.
    apply Hk. by apply (list_elem_of_fmap_2 fst _ (k, t')).
Qed.

Lemma length_retry_keys db rows :
  Forall (λ kt, 0 ≤ t_attempt_count kt.2) rows →
  Z.of_nat (length (retry_keys db rows)) =
  foldr Z.add 0 ((λ kt, Z.max 0 (t_attempt_count kt.2 - 1)) <$> rows).
Proof.
  unfold retry_keys. induction 1 as [|[k t] rows Ht _ IH]; [done|].
  rewrite bind_cons, length_app, Nat2Z.inj_add, IH, fmap_cons. cbn [foldr fst snd] in *.
  rewrite length_fmap, length_seqZ. lia.
Qed.

Lemma retry_count_attempts db rank :
  well_formed db →
  retry_count db =
  foldr Z.add 0 ((λ kt, Z.max 0 (t_attempt_count kt.2 - 1)) <$> table rank (task_runs db)).
Proof.
  intros W. rewrite <-(length_retry_keys db).
  - unfold retry_count. f_equal. rewrite <-size_dom.
    assert (dom (filter (λ ka : uuid * Z * AttemptRow, 1 < ka.1.2) (task_attempts db))
      = list_to_set (retry_keys db (table rank (task_runs db)))) as ->.
    { apply set_eq; intros [k n]. rewrite elem_of_dom, elem_of_list_to_set, elem_of_retry_keys.
      unfold is_Some. setoid_rewrite map_lookup_filter_Some. simpl.
      setoid_rewrite elem_of_rows_where. pose proof (wf_attempts _ W k n) as Ha. split.
      - intros (a & Hl & Hn). destruct (proj1 Ha) as (t & Ht & ?); [by eexists|]. exists t.
        split; [done|lia].
      - intros (t & [Ht _] & Hn). destruct (proj2 Ha) as [a Hl]; [exists t; split; [done|lia]|].
        exists a. split; [done|lia]. }
    rewrite size_list_to_set; [done|]. apply NoDup_retry_keys, NoDup_rows_where.
  - apply Forall_forall. intros [k t] [Ht _]%elem_of_rows_where. by apply (wf_counts _ W k t).
Qed.

Lemma table_perm {V} rank (m : gmap uuid V) : table rank m ≡ₚ map_to_list m.
Proof.
  unfold table, rows_where. rewrite order_by_perm.
  induction (map_to_list m) as [|kv l IH]; [done|]. rewrite filter_cons_True by done. by constructor.
Qed.

Lemma count_perm {A} (l l' : list A) : l ≡ₚ l' → count l = count l'.
Proof. intros H. unfold count. by rewrite H. Qed.

Lemma status_text_inj st st' : task_status_text st = task_status_text st' → st = st'.
Proof. by destruct st, st'. Qed.

Definition has_status (st : task_status) (t : TaskRow) : bool := bool_decide (t_status t = st).

(** The tasks a status label stands for. *)
Lemma status_label_count {A} (row : A → TaskRow) (label : A → list string) st (l : list A) :
  (∀ a, last (label a) = Some (task_status_text (t_status (row a)))) →
  count (filter (λ a, status_label st (label a)) l) =
  count (filter (λ a, has_status st (row a)) l).
Proof.
  intros Hl. f_equal. apply list_filter_ext_in. intros a _. unfold status_label, has_status. rewrite Hl.
  rewrite !bool_decide_spec. split; [|by intros ->]. intros [= H]. by apply status_text_inj.
Qed.

Definition in_status (db : Db) (st : task_status) : Z :=
  count (filter (λ kt, has_status st kt.2) (map_to_list (task_runs db))).

Lemma queue_depth_total rank db st : total (status_label st) (queue_depth rank db) = in_status db st.
Proof.
  unfold queue_depth. rewrite group_by_total, (status_label_count snd) by done.
  apply count_perm. by rewrite table_perm.
Qed.

Lemma tenant_queue_depth_total rank db st :
  well_formed db → total (status_label st) (tenant_queue_depth rank db) = in_status db st.
Proof.
  intros W. unfold tenant_queue_depth. rewrite group_by_total, (status_label_count fst) by done.
  rewrite (task_join_total rank db (has_status st) W).
  apply count_perm. by rewrite table_perm.
Qed.

(** The metrics of a reachable database are consistent.  For every task
    status the tenants' queue depths add up to the platform's queue depth,
    which is the number of task runs in that status, and [task_retries_total]
    is the number of attempts beyond the first of every task, as the tasks'
    own attempt counters say. *)
Theorem metrics_consistent db rank rank' st :
  system_reachable db →
  total (status_label st) (tenant_queue_depth rank db) = in_status db st ∧
  total (status_label st) (queue_depth rank' db) = in_status db st ∧
  retry_count db
    = foldr Z.add 0 ((λ kt, Z.max 0 (t_attempt_count kt.2 - 1)) <$> table rank (task_runs db)).
Proof.
  intros H. pose proof (reachable_well_formed _ H) as W. split_and!.
  - by apply tenant_queue_depth_total.
  - apply queue_depth_total.
  - by apply retry_count_attempts.
Qed.
