(* ===== verification/WorkerSpec.v ===== *)
(** What each operation of the worker protocol does and refuses to do.

    [Refinement] shows that the operations stay within the life cycle; the
    theorems here say exactly which change a successful call makes, and that a
    worker without a valid lease changes nothing. *)
From S2P Require Import Prelude State Json Schema Sql StoreWorker StoreWorkflow Scheduler Preserve Lifecycle Refinement.

(** The call returned an error and left the database alone; when nothing else
    fails the error is [e]. *)
Definition rejected {A} (e : error) (m : M A) (env : Env) (s : Sess) : Prop :=
  ∃ e' s', m env s = (Err e', s') ∧ s_db s' = s_db s ∧ (calm env → e' = e).

Definition refused {A} : M A → Env → Sess → Prop := rejected ErrLeaseLost.

(** * Refusals *)

Lemma select_task_run_join id g env n db :
  (∀ t r, task_runs db !! id = Some t → workflow_runs db !! t_workflow_run_id t = Some r →
     g t r = false) →
  select_task_run id g env n db = Ok (None, db).
Proof.
  intros Hg. unfold select_task_run, sql_select.
  destruct (task_runs db !! id) as [t|]; simpl; [|done].
  destruct (workflow_runs db !! t_workflow_run_id t) as [r|] eqn:Hr; simpl; [|done].
  by rewrite Hg.
Qed.

Lemma select_task_run_None id g env n db :
  (∀ t r, task_runs db !! id = Some t → g t r = false) →
  select_task_run id g env n db = Ok (None, db).
Proof. intros Hg. apply select_task_run_join. eauto. Qed.

Lemma update_task_None id g f env n db :
  (∀ t, task_runs db !! id = Some t → g t = false) →
  update_task id g f env n db = Ok ([], db).
Proof.
  intros Hg. destruct (update_task id g f env n db) as [[rows db']|] eqn:Hu; [|done].
  apply update_task_cases in Hu as [(t & Ht & Hgt & _)|(-> & -> & _)]; [|done].
  by rewrite Hg in Hgt.
Qed.

(** A transaction whose first statement finds no row. *)
Lemma rejected_in_tx {A B} e (f : time → Stmt B) (none : B) (k : time → B → M (outcome A)) env s :
  (∀ n, f (env_now env (s_tick s)) env n (s_db s) = Ok (none, s_db s)) →
  (∀ now, k now none = throw e) →
  rejected e (in_tx (λ now, x ← tx_stmt (f now); k now x)) env s.
Proof.
  intros Hf Hk. unfold rejected, in_tx, mbind, M_bind, tx_stmt. simpl.
  destruct (env_fault env (s_tick s)) as [e1|] eqn:H0.
  { do 2 eexists. split_and!; [done..|]. intros [Hc _]. by rewrite Hc in H0. }
  destruct (env_fault env (S (s_tick s))) as [e1|] eqn:H1; simpl.
  { do 2 eexists. split_and!; [done..|]. intros [Hc _]. by rewrite Hc in H1. }
  rewrite Hf, Hk. do 2 eexists. by split_and!.
Qed.

Section Fencing.
Context (env : Env) (s : Sess) (id w : string).

(** The worker does not hold an unexpired lease on the task: another worker
    does, the lease has run out, or there is none. *)
Definition fenced : Prop :=
  ∀ n t, task_runs (s_db s) !! id = Some t →
    t_lease_owner t ≠ Some w ∨ ∀ e, t_lease_expires_at t = Some e → e ≤ env_now env n.

Lemma fenced_holds n t :
  fenced → task_runs (s_db s) !! id = Some t → holds_lease (env_now env n) w t = false.
Proof.
  intros Hf Ht. unfold holds_lease, unexpired. destruct (Hf n t Ht) as [Ho|He].
  - by rewrite bool_decide_false.
  - apply andb_false_intro2. destruct (t_lease_expires_at t) as [e|]; [|done].
    apply bool_decide_false. specialize (He e eq_refl). lia.
Qed.

Lemma fenced_start : fenced → refused (StartTask id w) env s.
Proof.
  intros Hf. unfold StartTask. eapply (rejected_in_tx _ _ None); [|done].
  intros n. apply select_task_run_None. intros t r Ht. by rewrite (fenced_holds _ _ Hf Ht), andb_false_r.
Qed.

Lemma fenced_complete out uri logs : fenced → refused (CompleteTask id w out uri logs) env s.
Proof.
  intros Hf. unfold CompleteTask. eapply (rejected_in_tx _ _ None); [|done].
  intros n. apply select_task_run_None. intros t r Ht. by rewrite (fenced_holds _ _ Hf Ht), andb_false_r.
Qed.

Lemma fenced_fail f : fenced → refused (FailTask id w f) env s.
Proof.
  intros Hf. unfold FailTask. eapply (rejected_in_tx _ _ None); [|done].
  intros n. apply select_task_run_None. intros t r Ht. by rewrite (fenced_holds _ _ Hf Ht), andb_false_r.
Qed.

Lemma fenced_heartbeat_stmt e n :
  fenced → heartbeat_stmt id w e env n (s_db s) = Ok (None, s_db s).
Proof.
  intros Hf. unfold heartbeat_stmt. rewrite update_task_None; [done|].
  intros t Ht. by rewrite (fenced_holds _ _ Hf Ht), andb_false_r.
Qed.

Lemma fenced_heartbeat lease : fenced → refused (HeartbeatTask id w lease) env s.
Proof.
  intros Hf. unfold refused, rejected, HeartbeatTask, nowPlus, mbind, M_bind, mret, M_ret, time_now, pool_stmt.
  cbn [s_tick s_db s_rows_open]. rewrite fenced_heartbeat_stmt by done.
  destruct (env_fault env (S (s_tick s))) as [e1|] eqn:H1.
  { do 2 eexists. split_and!; [done..|]. intros [Hc _]. by rewrite Hc in H1. }
  unfold commit. destruct (env_commit env _) eqn:H2; do 2 eexists; (split_and!; [done..|]);
    intros [_ Hc]; by rewrite ?Hc in H2.
Qed.
End Fencing.

(** C11: fencing.  A worker that does not hold an unexpired lease on a task can
    neither start, renew, complete nor fail it: each call returns an error
    ([ErrLeaseLost] unless the database itself fails) and changes nothing. *)
Theorem stale_worker_fenced env s id w out uri logs f lease :
  fenced env s id w →
  refused (StartTask id w) env s ∧ refused (HeartbeatTask id w lease) env s ∧
  refused (CompleteTask id w out uri logs) env s ∧ refused (FailTask id w f) env s.
Proof.
  intros H. split_and!; [by apply fenced_start|by apply fenced_heartbeat|
    by apply fenced_complete|by apply fenced_fail].
Qed.

(** * Leases *)

(** A transaction that returned a value has committed, unless its body abandons. *)
Lemma in_tx_committed {A} (body : time → M (outcome A)) env s a s' :
  in_tx body env s = (Ok a, s') →
  (∀ now s0 a0 s1, body now env s0 ≠ (Ok (Abandon a0), s1)) →
  ∃ s1, body (env_now env (s_tick s)) env (mkSess (S (s_tick s)) false (s_db s))
          = (Ok (Commit a), s1) ∧ s_db s' = s_db s1.
Proof. intros [(_ & s1 & Hb)|?]%in_tx_Ok Hno; [by destruct (Hno _ _ _ _ Hb)|done]. Qed.

Ltac no_abandon := intros; intro; repeat body_step; discriminate.

Lemma insert_outbox_Ok now ty id ev p tr env n db u db' :
  insert_outbox now ty id ev p tr env n db = Ok (u, db') →
  outbox_events db !! env_uuid env n = None ∧
  db' = db<| outbox_events := <[env_uuid env n :=
    {| o_aggregate_type := ty; o_aggregate_id := id; o_event_type := ev; o_payload := p;
       o_trace_parent := tr; o_published_at := None; o_created_at := now; o_claim_token := None;
       o_claim_expires_at := None; o_publish_attempts := 0 |}]> (outbox_events db) |>.
Proof.
  unfold insert_outbox. case_bool_decide as Hn; [done|]. intros [= <- <-].
  split; [by apply eq_None_not_Some|done].
Qed.

(** The event that reports a change of a task, not yet published. *)
Record task_event (rid id : uuid) (kind : string) (e : OutboxRow) : Prop := {
  te_aggregate : o_aggregate_type e = "task_run" ∧ o_aggregate_id e = id;
  te_kind : o_event_type e = kind;
  te_run : json_text (o_payload e) "workflow_run_id" = Some rid;
  te_new : o_published_at e = None ∧ o_claim_token e = None
}.

Lemma LeaseTask_change id w l env s tr s' :
  LeaseTask id w l env s = (Ok tr, s') →
  ∃ t r expires row ev e,
    let db := s_db s in
    let t' := t<| t_status := LEASED |><| t_lease_owner := Some w |>
               <| t_lease_expires_at := Some expires |><| t_attempt_count := t_attempt_count t + 1 |>
               <| t_updated_at := env_now env (s_tick s) |> in
    task_runs db !! id = Some t ∧ t_status t = DISPATCHING ∧
    workflow_runs db !! t_workflow_run_id t = Some r ∧
    tr = mkTaskRun id t' (r_input_artifact_uri r) ∧
    task_attempts db !! (id, t_attempt_count t + 1) = None ∧ a_worker_id row = w ∧
    a_ended_at row = None ∧ outbox_events db !! ev = None ∧
    task_event (t_workflow_run_id t) id "task.leased" e ∧
    s_db s' = db<| task_runs := <[id := t']> (task_runs db) |>
                <| task_attempts := <[(id, t_attempt_count t + 1) := row]> (task_attempts db) |>
                <| outbox_events := <[ev := e]> (outbox_events db) |>.
Proof.
  intros Hl. apply in_tx_committed in Hl as (s1 & Hb & Hdb); [|no_abandon].
  repeat body_step. injection H as <-.
  apply insert_outbox_Ok in Hf as [Hev ->]. stmt_step.
  apply insert_attempt_Ok in Hf0 as (Hatt & row & -> & Hw & _ & _ & Hend).
  stmt_step. bool_split. do 2 eexists. exists (env_clock env (S (s_tick s)) + l), row.
  do 2 eexists. split_and!; [done..|exact Hev| |exact Hdb]. done.
Qed.

(** C39: a successful lease.  The task was dispatched; it is now leased by the
    caller with its attempt counter increased, the new attempt is recorded
    under that number, one [task.leased] event of the run is queued, and
    nothing else has changed. *)
Theorem LeaseTask_effect id w l env s tr s' :
  LeaseTask id w l env s = (Ok tr, s') →
  ∃ t r expires row ev e,
    let db := s_db s in
    let t' := t<| t_status := LEASED |><| t_lease_owner := Some w |>
               <| t_lease_expires_at := Some expires |><| t_attempt_count := t_attempt_count t + 1 |>
               <| t_updated_at := env_now env (s_tick s) |> in
    task_runs db !! id = Some t ∧ t_status t = DISPATCHING ∧
    workflow_runs db !! t_workflow_run_id t = Some r ∧
    tr = mkTaskRun id t' (r_input_artifact_uri r) ∧
    task_attempts db !! (id, t_attempt_count t + 1) = None ∧ a_worker_id row = w ∧
    a_ended_at row = None ∧ outbox_events db !! ev = None ∧
    task_event (t_workflow_run_id t) id "task.leased" e ∧
    s_db s' = db<| task_runs := <[id := t']> (task_runs db) |>
                <| task_attempts := <[(id, t_attempt_count t + 1) := row]> (task_attempts db) |>
                <| outbox_events := <[ev := e]> (outbox_events db) |>.
Proof. apply LeaseTask_change. Qed.

Lemma LeaseTask_refused id w l env s :
  (∀ t, task_runs (s_db s) !! id = Some t → t_status t ≠ DISPATCHING) →
  refused (LeaseTask id w l) env s.
Proof.
  intros Hn. unfold refused, rejected, LeaseTask, in_tx, nowPlus, mbind, M_bind, mret, M_ret, time_now, tx_stmt.
  cbn [s_tick s_db s_rows_open].
  rewrite update_task_None; [|intros t Ht; apply bool_decide_eq_false; eauto].
  destruct (env_fault env (s_tick s)) as [e1|] eqn:H0.
  { do 2 eexists. split_and!; [done..|]. intros [Hc _]. by rewrite Hc in H0. }
  destruct (env_fault env (S (S (s_tick s)))) as [e|] eqn:H1; do 2 eexists;
    (split_and!; [done..|]); intros [Hc _]; by rewrite ?Hc in H1.
Qed.

(** The errors that workers are told as a conflict. *)
Definition conflicting (e : error) : bool := bool_decide (e ∈ [ErrLeaseLost; ErrConflict]).

Lemma fault_not_conflicting f : conflicting (fault_error f) = false.
Proof. by destruct f. Qed.

(** Computations that never end in one of them. *)
Definition unconflicted {A} (m : M A) : Prop :=
  ∀ env s e s', m env s = (Err e, s') → conflicting e = false.

Lemma unconflicted_ret {A} (a : A) : unconflicted (mret a).
Proof. by intros env s e s'. Qed.

Lemma unconflicted_throw {A} e : conflicting e = false → unconflicted (throw (A := A) e).
Proof. by intros He env s e' s' [= <- _]. Qed.

Lemma unconflicted_bind {A B} (m : M A) (k : A → M B) :
  unconflicted m → (∀ a, unconflicted (k a)) → unconflicted (m ≫= k).
Proof.
  intros Hm Hk env s e s'. unfold mbind, M_bind. destruct (m env s) as [[a|x] s1] eqn:H; [apply Hk|].
  intros [= <- _]. by eapply Hm.
Qed.

Lemma bind_Err {A B} (m : M A) (k : A → M B) env s e s' :
  (m ≫= k) env s = (Err e, s') →
  m env s = (Err e, s') ∨ ∃ a s1, m env s = (Ok a, s1) ∧ k a env s1 = (Err e, s').
Proof. unfold mbind, M_bind. destruct (m env s) as [[a|x] s1]; [eauto|]. intros [= <- <-]. by left. Qed.

Lemma unconflicted_tx_stmt {A} (f : Stmt A) :
  (∀ env n db e, f env n db = Err e → conflicting e = false) → unconflicted (tx_stmt f).
Proof.
  intros Hf env s e s'. unfold tx_stmt. destruct (s_rows_open s); [by intros [= <- _]|].
  destruct (env_fault env (s_tick s)); [intros [= <- _]; apply fault_not_conflicting|].
  destruct (f env (s_tick s) (s_db s)) as [[? ?]|e'] eqn:H; [done|]. intros [= <- _]. by eapply Hf.
Qed.

Lemma in_tx_conflict {A} (body : time → M (outcome A)) env s e s' :
  in_tx body env s = (Err e, s') → conflicting e = true →
  s_db s' = s_db s ∧ ∃ s1,
    body (env_now env (s_tick s)) env (mkSess (S (s_tick s)) false (s_db s)) = (Err e, s1).
Proof.
  unfold in_tx. destruct (env_fault env (s_tick s)).
  { intros [= <- _]. by rewrite fault_not_conflicting. }
  destruct (body _ _ _) as [[[a|a]|x] s1]; [|done|intros [= <- <-]; eauto].
  unfold commit. destruct (env_commit env _); [done|..]; intros [= <- _]; by rewrite fault_not_conflicting.
Qed.

(** Only a task that is not DISPATCHING makes [LeaseTask] report a conflict. *)
Lemma LeaseTask_conflict id w l env s e s' :
  LeaseTask id w l env s = (Err e, s') → conflicting e = true →
  s_db s' = s_db s ∧ ∀ t, task_runs (s_db s) !! id = Some t → t_status t ≠ DISPATCHING.
Proof.
  intros H Hc. apply in_tx_conflict in H as [Hdb [s1 H]]; [|done]. split; [done|].
  apply bind_Err in H as [H|(expires & s2 & Hp & H)]; [done|]. injection Hp as _ <-.
  apply bind_Err in H as [H|(rows & s3 & Hu & H)].
  { apply unconflicted_tx_stmt in H; [congruence|done]. }
  apply tx_stmt_Ok in Hu as (_ & _ & db & Hu & ->). cbn [s_db] in Hu.
  apply update_task_cases in Hu as [(t & Ht & Hg & -> & ->)|(-> & -> & Hno)].
  - exfalso. eapply unconflicted_bind in H; [congruence|by apply unconflicted_tx_stmt|].
    intros [r|]; [|by apply unconflicted_throw].
    apply unconflicted_bind; [apply unconflicted_tx_stmt|intros []].
    { intros ???? He. unfold insert_attempt in He. case_bool_decide; by simplify_eq. }
    apply unconflicted_bind; [by intros ????|intros trace].
    apply unconflicted_bind; [apply unconflicted_tx_stmt|intros []; apply unconflicted_ret].
    intros ???? He. unfold insert_outbox in He. cbv zeta in He. case_bool_decide; by simplify_eq.
  - intros t Ht. by apply Hno, bool_decide_eq_false in Ht.
Qed.

Lemma LeaseTask_leases id w l env s tr s' :
  LeaseTask id w l env s = (Ok tr, s') →
  ∃ t r, task_runs (s_db s') !! id = Some t ∧ t_status t = LEASED ∧ t_lease_owner t = Some w ∧
    workflow_runs (s_db s') !! t_workflow_run_id t = Some r ∧
    tr = mkTaskRun id t (r_input_artifact_uri r).
Proof.
  intros Hl. apply in_tx_committed in Hl as (s1 & Hb & ->); [|no_abandon].
  repeat body_step. injection H as <-. apply core_insert_outbox in Hf as [-> -> _ _]. stmt_step.
  apply insert_attempt_Ok in Hf0 as (_ & row & -> & _). stmt_step.
  do 2 eexists. simpl. rewrite lookup_insert_eq. by split_and!.
Qed.

(** Duplicate delivery.  Kafka may deliver a dispatch message twice; once a
    worker has leased the task, every further lease request on the resulting
    database is refused and changes nothing, also for the same worker. *)
Theorem duplicate_delivery_refused id w1 l1 env1 s1 tr s1' w2 l2 env2 s2 :
  LeaseTask id w1 l1 env1 s1 = (Ok tr, s1') → s_db s2 = s_db s1' →
  refused (LeaseTask id w2 l2) env2 s2.
Proof.
  intros (t & r & Ht & Hst & _)%LeaseTask_leases Hdb. apply LeaseTask_refused.
  rewrite Hdb. intros t' Ht'. simplify_eq. congruence.
Qed.

(** * Completion *)

(** What a completed task holds. *)
Lemma CompleteTask_succeeds id w out uri logs env s tr s' :
  CompleteTask id w out uri logs env s = (Ok tr, s') →
  ∃ t, task_runs (s_db s') !! id = Some t ∧ t_status t = SUCCEEDED ∧
    t_output t = Some (default empty_object out) ∧ t_output_artifact_uri t = nullif_empty uri.
Proof.
  intros Hl. apply in_tx_committed in Hl as (s1 & Hb & ->); [|unfold complete_tx; no_abandon].
  apply complete_tx_Ok in Hb as (t & r & db1 & (Ht & _) & Ht1 & Hd1 & Ht2 & _).
  exists (completed_row (default empty_object out) uri (env_now env (s_tick s)) t).
  split; [by eapply completed_task|done].
Qed.

(** The worker holds a lease on the task that has not run out. *)
Definition lease_held (now : time) (w : string) (t : TaskRow) : Prop :=
  t_lease_owner t = Some w ∧ ∃ e, t_lease_expires_at t = Some e ∧ now < e.

Lemma holds_lease_held now w t : holds_lease now w t = true → lease_held now w t.
Proof.
  unfold holds_lease, unexpired, lease_held. destruct (t_lease_expires_at t) as [e|].
  - intros [?%bool_decide_eq_true ?%bool_decide_eq_true]%andb_true_iff. eauto.
  - by rewrite andb_false_r.
Qed.

Lemma CompleteTask_change id w out uri logs env s tr s' :
  CompleteTask id w out uri logs env s = (Ok tr, s') →
  ∃ t r, let db := s_db s in let db' := s_db s' in
    let now := env_now env (s_tick s) in let rid := t_workflow_run_id t in
    task_runs db !! id = Some t ∧ t_status t = RUNNING ∧ lease_held now w t ∧
    workflow_runs db !! rid = Some r ∧ r_status r = RUN_RUNNING ∧
    task_runs db' !! id = Some
      (t<| t_status := SUCCEEDED |><| t_output := Some (default empty_object out) |>
        <| t_output_artifact_uri := if bool_decide (uri = "") then None else Some uri |>
        <| t_lease_expires_at := None |><| t_updated_at := now |>) ∧
    (∀ k c, k ≠ id → task_runs db !! k = Some c → now_unblocked db' rid id k c →
       task_runs db' !! k = Some
         (c<| t_status := READY |><| t_available_at := now |><| t_updated_at := now |>)) ∧
    (∀ k c, k ≠ id → task_runs db !! k = Some c → ¬ now_unblocked db' rid id k c →
       task_runs db' !! k = Some c) ∧
    (all_succeeded (abs db') rid →
       workflow_runs db' = <[rid := r<| r_status := RUN_SUCCEEDED |><| r_completed_at := Some now |>]>
                             (workflow_runs db)) ∧
    (¬ all_succeeded (abs db') rid → workflow_runs db' = workflow_runs db).
Proof.
  intros Hl. apply in_tx_committed in Hl as (s1 & Hb & ->); [|unfold complete_tx; no_abandon].
  apply complete_tx_Ok in Hb
    as (t & r & db1 & (Ht & Hst & Hold & Hr & Hrun) & Ht1 & Hd1 & Ht2 & Hd2 & _ & Hr2).
  exists t, r. split_and!; try done.
  - by apply holds_lease_held.
  - by eapply completed_task.
  - intros k c Hne Hc Hu. rewrite Ht2, Ht1, lookup_insert_ne, Hc by done. simpl.
    by rewrite (proj2 (unblocked_by_spec Hd2 Ht2 k c) Hu).
  - intros k c Hne Hc Hu. rewrite Ht2, Ht1, lookup_insert_ne, Hc by done. simpl.
    rewrite (not_true_is_false (unblocked_by _ _ _ _ _)); [done|].
    by rewrite (unblocked_by_spec Hd2 Ht2).
  - intros Hall. destruct Hr2 as [[_ ?]|[-> _]]; [done|]. unfold end_run.
    apply map_eq; intros k. destruct (decide (k = t_workflow_run_id t)) as [->|Hne].
    + rewrite lookup_alter_eq, lookup_insert_eq, Hr. simpl. unfold run_running.
      by rewrite bool_decide_true.
    + by rewrite lookup_alter_ne, lookup_insert_ne.
  - by intros Hno; destruct Hr2 as [[-> _]|[_ ?]].
Qed.

(** C12: a successful completion.  The task was RUNNING under an unexpired lease
    of the caller in a RUNNING run; it is now SUCCEEDED with the given output;
    every blocked task that depended on it and has no unfinished dependency
    left is READY, every other task is as it was; and the run is SUCCEEDED if
    that was its last unfinished task and unchanged otherwise. *)
Theorem CompleteTask_effect id w out uri logs env s tr s' :
  CompleteTask id w out uri logs env s = (Ok tr, s') →
  ∃ t r, let db := s_db s in let db' := s_db s' in
    let now := env_now env (s_tick s) in let rid := t_workflow_run_id t in
    task_runs db !! id = Some t ∧ t_status t = RUNNING ∧ lease_held now w t ∧
    workflow_runs db !! rid = Some r ∧ r_status r = RUN_RUNNING ∧
    task_runs db' !! id = Some
      (t<| t_status := SUCCEEDED |><| t_output := Some (default empty_object out) |>
        <| t_output_artifact_uri := if bool_decide (uri = "") then None else Some uri |>
        <| t_lease_expires_at := None |><| t_updated_at := now |>) ∧
    (∀ k c, k ≠ id → task_runs db !! k = Some c → now_unblocked db' rid id k c →
       task_runs db' !! k = Some
         (c<| t_status := READY |><| t_available_at := now |><| t_updated_at := now |>)) ∧
    (∀ k c, k ≠ id → task_runs db !! k = Some c → ¬ now_unblocked db' rid id k c →
       task_runs db' !! k = Some c) ∧
    (all_succeeded (abs db') rid →
       workflow_runs db' = <[rid := r<| r_status := RUN_SUCCEEDED |><| r_completed_at := Some now |>]>
                             (workflow_runs db)) ∧
    (¬ all_succeeded (abs db') rid → workflow_runs db' = workflow_runs db).
Proof. apply CompleteTask_change. Qed.

(** * Failure *)

Lemma leased_or_running_true t : leased_or_running t = true → t_status t = LEASED ∨ t_status t = RUNNING.
Proof. unfold leased_or_running. rewrite orb_true_iff, !bool_decide_eq_true. done. Qed.

Definition cancelled_row (now : time) (t : TaskRow) : TaskRow :=
  t<| t_status := CANCELLED |><| t_updated_at := now |>.

(** No worker holds the task and it is not over. *)
Definition unheld (t : TaskRow) : bool :=
  bool_decide (t_status t ∈ [BLOCKED; READY; DISPATCHING; RETRY_WAIT]).

Lemma not_started_unheld t : not_started t = unheld t.
Proof. unfold not_started, unheld. by destruct (t_status t). Qed.

Lemma cancel_not_started_lookup now rid env n db rows db' k c :
  cancel_not_started now rid env n db = Ok (rows, db') → task_runs db !! k = Some c →
  task_runs db' !! k = Some (if bool_decide (t_workflow_run_id c = rid) && unheld c
                             then cancelled_row now c else c).
Proof.
  intros Hc Hk. by rewrite (lookup_update_tasks _ _ _ _ _ _ _ _ Hc), Hk, <-not_started_unheld.
Qed.

(** The status a failed attempt leads to: CANCELLED in a cancelled run,
    RETRY_WAIT while the failure is retryable and attempts remain, else DEAD. *)
Definition failure_outcome (f : Failure) (r : RunRow) (t : TaskRow) : task_status :=
  if bool_decide (r_status r = RUN_CANCELLED) then CANCELLED
  else if Retryable f && bool_decide (t_attempt_count t < t_maximum_attempts t) then RETRY_WAIT
  else DEAD.

Lemma FailTask_change id w f env s tr s' :
  FailTask id w f env s = (Ok tr, s') →
  ∃ t r clock, let db := s_db s in let db' := s_db s' in
    let now := env_now env (s_tick s) in let rid := t_workflow_run_id t in
    let st := failure_outcome f r t in
    let delay := if bool_decide (st = RETRY_WAIT) then RetryDelay (t_attempt_count t) else 0 in
    task_runs db !! id = Some t ∧ (t_status t = LEASED ∨ t_status t = RUNNING) ∧ lease_held now w t ∧
    workflow_runs db !! rid = Some r ∧
    task_runs db' !! id = Some
      (t<| t_status := st |><| t_available_at := env_clock env clock + delay |>
        <| t_lease_owner := None |><| t_lease_expires_at := None |><| t_updated_at := now |>) ∧
    (∀ k c, k ≠ id → task_runs db !! k = Some c → task_runs db' !! k = Some
       (if bool_decide (st = DEAD) && (bool_decide (t_workflow_run_id c = rid) && unheld c)
        then cancelled_row now c else c)) ∧
    workflow_runs db' = (if bool_decide (st = DEAD)
      then alter (λ r, if bool_decide (r_status r = RUN_RUNNING)
                       then r<| r_status := RUN_FAILED |><| r_completed_at := Some now |> else r)
             rid (workflow_runs db)
      else workflow_runs db).
Proof.
  intros Hl. apply in_tx_committed in Hl as (s1 & Hb & ->); [|no_abandon].
  repeat body_step; subst. all: repeat stmt_step.
  all: exists t, r, x0; change (failure_outcome f r t) with (failure_status (r_status r)
    (Retryable f && bool_decide (t_attempt_count t < t_maximum_attempts t))); rewrite Heqb.
  all: match goal with H : _ && _ = true |- _ =>
         apply andb_true_iff in H as [Hheld%leased_or_running_true Hlease%holds_lease_held] end.
  all: bool_split.
  - destruct Hf2 as [Hr2 Ht2 _ _], Hf as [-> -> _ _]. simpl in *.
    split_and!; try done.
    + erewrite cancel_not_started_lookup; [|done|simpl; by rewrite Ht2, lookup_insert_eq].
      unfold unheld. simpl. by rewrite Heqb, andb_false_r.
    + intros k c Hne Hc. erewrite cancel_not_started_lookup; [done..|].
      simpl. by rewrite Ht2, lookup_insert_ne.
    + injection Hf0 as _ <-. simpl. by rewrite Hr2.
  - match goal with
    | H1 : core _ ?x, H2 : core ?x _ |- _ => pose proof (transitivity H1 H2) as [Hrs Hts _ _]
    end. simpl in *. rewrite Hts, Hrs. split_and!; try done.
    + by rewrite lookup_insert_eq.
    + intros k c Hne Hc. by rewrite lookup_insert_ne.
Qed.

(** C13: a reported failure.  The caller held an unexpired lease; the lease is
    cleared and the task moves to the status of [failure_outcome], a retry
    being available after the back-off delay of its attempt number.  If the
    task is DEAD its run is no longer RUNNING and every task of the run that no
    worker holds is CANCELLED; otherwise no run and no other task changes. *)
Theorem FailTask_effect id w f env s tr s' :
  FailTask id w f env s = (Ok tr, s') →
  ∃ t r clock, let db := s_db s in let db' := s_db s' in
    let now := env_now env (s_tick s) in let rid := t_workflow_run_id t in
    let st := failure_outcome f r t in
    let delay := if bool_decide (st = RETRY_WAIT) then RetryDelay (t_attempt_count t) else 0 in
    task_runs db !! id = Some t ∧ (t_status t = LEASED ∨ t_status t = RUNNING) ∧ lease_held now w t ∧
    workflow_runs db !! rid = Some r ∧
    task_runs db' !! id = Some
      (t<| t_status := st |><| t_available_at := env_clock env clock + delay |>
        <| t_lease_owner := None |><| t_lease_expires_at := None |><| t_updated_at := now |>) ∧
    (∀ k c, k ≠ id → task_runs db !! k = Some c → task_runs db' !! k = Some
       (if bool_decide (st = DEAD) && (bool_decide (t_workflow_run_id c = rid) && unheld c)
        then cancelled_row now c else c)) ∧
    workflow_runs db' = (if bool_decide (st = DEAD)
      then alter (λ r, if bool_decide (r_status r = RUN_RUNNING)
                       then r<| r_status := RUN_FAILED |><| r_completed_at := Some now |> else r)
             rid (workflow_runs db)
      else workflow_runs db).
Proof. apply FailTask_change. Qed.
