(* ===== verification/RunSpec.v ===== *)
(** What the operations on runs do: creation, its idempotent repetition,
    cancellation, operator retry, replay of dead tasks, and the isolation of
    tenants. *)
From S2P Require Import Prelude Model Dag State Json Schema Sql StoreWorker StoreWorkflow Scheduler Preserve Frame Lifecycle Refinement Creation System WorkerSpec.

(** * Creation *)

Lemma CreateRun_change tenant user def key input aids env s rid r s' :
  system_reachable (s_db s) →
  CreateRun tenant user def key input aids env s = (Ok ((rid, r), true), s') →
  ∃ d dag, let db := s_db s in let db' := s_db s' in
    workflow_definitions db !! def = Some d ∧ d_tenant_id d = tenant ∧
    unmarshal_dag (d_dag_spec d) = Some dag ∧ workflow_runs db !! rid = None ∧
    workflow_runs db' = <[rid := r]> (workflow_runs db) ∧ r_tenant_id r = tenant ∧
    r_idempotency_key r = key ∧ r_status r = RUN_RUNNING ∧ r_workflow_version r = d_version d ∧
    instance_of db' rid dag ∧
    (∀ id t, task_runs db !! id = Some t → task_runs db' !! id = Some t) ∧
    (∀ id t spec, task_runs db' !! id = Some t → t_workflow_run_id t = rid →
       Tasks dag !! t_task_key t = Some spec →
       t_attempt_count t = 0 ∧ t_status t = (if bool_decide (DependsOn spec = []) then READY else BLOCKED)) ∧
    (∀ id t, task_runs db' !! id = Some t → t_workflow_run_id t = rid → t_available_at t = env_now env (s_tick s)).
Proof.
  intros DI%reachable_db_inv. unfold CreateRun. case_bool_decide as Hkey; [done|].
  intros [(_ & s1 & Hb)|(s1 & Hb & ->)]%in_tx_Ok.
  { repeat body_step; try discriminate. all: by injection H. }
  repeat body_step; try discriminate. injection H as <- <-.
  apply input_artifact_uri_db in Hm. simpl in Hm. 
  apply select_definition_Some in Hf0 as (-> & Hd & Ht).
  apply insert_run_Some in Hf as (-> & Hfresh & Hidem & ->).
  apply populate_run_Ok in Hm3 as (ids & new & edges & P). simpl in P.
  rewrite <-Hm in *. pose proof (new_run_lookup eq_refl P) as Hlook.
  destruct (st_definitions _ (db_static _ DI) _ _ Hd) as (dag & Hdag & V).
  assert (dag = d0) as -> by congruence. exists d, d0. split_and!; try done.
  - apply (po_runs _ _ _ _ _ _ _ _ _ P).
  - exists ids. by eapply (new_run_instance V Hfresh eq_refl P), DI.
  - intros id t Hid. apply Hlook. by right.
  - intros id t spec [Hn|Hold]%Hlook Hr Hs.
    + apply (po_new _ _ _ _ _ _ _ _ _ P) in Hn as (k & spec' & Hs' & _ & ->).
      simpl in *. unfold initial_status. simpl. by simplify_eq.
    + by eapply (old_task_run Hfresh (db_inv _ DI)) in Hold.
  - intros id t [Hn|Hold]%Hlook Hr.
    + by apply (po_new _ _ _ _ _ _ _ _ _ P) in Hn as (k & spec' & Hs' & _ & ->).
    + by eapply (old_task_run Hfresh (db_inv _ DI)) in Hold.
Qed.

(** C20: a successful creation.  The run is new and RUNNING with the version of
    the tenant's definition; it has one task per key of the definition, at
    attempt 0, READY exactly when the key has no dependencies and BLOCKED
    otherwise; existing runs and tasks are as they were. *)
Theorem CreateRun_effect tenant user def key input aids env s rid r s' :
  system_reachable (s_db s) →
  CreateRun tenant user def key input aids env s = (Ok ((rid, r), true), s') →
  ∃ d dag, let db := s_db s in let db' := s_db s' in
    workflow_definitions db !! def = Some d ∧ d_tenant_id d = tenant ∧
    unmarshal_dag (d_dag_spec d) = Some dag ∧ workflow_runs db !! rid = None ∧
    workflow_runs db' = <[rid := r]> (workflow_runs db) ∧ r_tenant_id r = tenant ∧
    r_idempotency_key r = key ∧ r_status r = RUN_RUNNING ∧ r_workflow_version r = d_version d ∧
    instance_of db' rid dag ∧
    (∀ id t, task_runs db !! id = Some t → task_runs db' !! id = Some t) ∧
    (∀ id t spec, task_runs db' !! id = Some t → t_workflow_run_id t = rid →
       Tasks dag !! t_task_key t = Some spec →
       t_attempt_count t = 0 ∧ t_status t = (if bool_decide (DependsOn spec = []) then READY else BLOCKED)).
Proof.
  intros Hreach (d & dag & H)%CreateRun_change; [|done]. exists d, dag. simpl in *. destruct_and! H. by split_and!.
Qed.

(** * Idempotency *)

Lemma getRunTx_Ok db tenant key rid r env n :
  env_fault env n = None → Static db → workflow_runs db !! rid = Some r →
  r_tenant_id r = tenant → r_idempotency_key r = key →
  getRunTx tenant key env (mkSess n false db) = (Ok (rid, r), mkSess (S n) false db).
Proof.
  intros Hf S Hr Ht Hk. unfold getRunTx, mbind, M_bind, tx_stmt, sql_select. simpl. rewrite Hf.
  rewrite (rows_where_key _ _ _ rid).
  - rewrite Hr. unfold same_idempotency. by rewrite !bool_decide_true.
  - intros k r' Hr' Hs. unfold same_idempotency in Hs. bool_split.
    eapply (st_idempotency _ S); eauto; congruence.
Qed.

Lemma insert_run_conflict row env n db rid r :
  workflow_runs db !! rid = Some r → r_tenant_id r = r_tenant_id row →
  r_idempotency_key r = r_idempotency_key row → insert_run row env n db = Ok (None, db).
Proof.
  intros Hr Ht Hk. unfold insert_run. rewrite bool_decide_false; [done|]. intros Hall.
  specialize (Hall _ _ Hr). simpl in Hall. unfold same_idempotency in Hall.
  by rewrite !bool_decide_true in Hall.
Qed.

(** Repeating a creation.  When the tenant already has a run with the given
    idempotency key, [CreateRun] returns that run, reports that it created
    nothing, and changes nothing, whatever input or version the repetition
    asks for. *)
Theorem CreateRun_idempotent tenant user def key input env s d dag rid r :
  system_reachable (s_db s) → calm env → key ≠ "" →
  workflow_definitions (s_db s) !! def = Some d → d_tenant_id d = tenant →
  unmarshal_dag (d_dag_spec d) = Some dag →
  workflow_runs (s_db s) !! rid = Some r → r_tenant_id r = tenant → r_idempotency_key r = key →
  ∃ s', CreateRun tenant user def key input [] env s = (Ok ((rid, r), false), s') ∧
        s_db s' = s_db s.
Proof.
  intros [_ S]%reachable_db_inv [Hf Hc] Hkey Hd Ht Hdag Hr Hrt Hrk.
  unfold CreateRun. rewrite bool_decide_false by done. unfold in_tx. rewrite Hf.
  erewrite bind_run; [|done].
  erewrite bind_run; [|apply tx_stmt_run; [apply Hf|]; unfold select_definition, sql_select;
    rewrite Hd; simpl; by rewrite bool_decide_true].
  cbv beta iota. rewrite Hdag. erewrite bind_run; [|done].
  erewrite bind_run; [|apply tx_stmt_run; [apply Hf|by eapply insert_run_conflict]].
  cbv beta iota. erewrite bind_run; [|by apply getRunTx_Ok].
  simpl. by eexists.
Qed.

(** * Cancellation and recovery by an operator *)

(** A successful cancellation.  The run belonged to the tenant and was not
    over; it is CANCELLED now, every task of it that no worker holds is
    CANCELLED, tasks held by workers keep their lease, and nothing changes in
    other runs. *)
Theorem CancelRun_effect tenant user id env s s' :
  CancelRun tenant user id env s = (Ok tt, s') →
  ∃ r, let db := s_db s in let db' := s_db s' in let now := env_now env (s_tick s) in
    workflow_runs db !! id = Some r ∧ r_tenant_id r = tenant ∧
    r_status r ∈ [RUN_PENDING; RUN_RUNNING] ∧
    workflow_runs db' = <[id := r<| r_status := RUN_CANCELLED |><| r_completed_at := Some now |>]>
                          (workflow_runs db) ∧
    (∀ k c, task_runs db !! k = Some c → task_runs db' !! k = Some
       (if bool_decide (t_workflow_run_id c = id) && unheld c
        then cancelled_row now c else c)).
Proof.
  intros Hl. apply in_tx_committed in Hl as (s1 & Hb & ->); [|no_abandon].
  repeat body_step. apply core_insert_audit in Hf as [-> -> _ _]. stmt_step. bool_split.
  exists r. split_and!; try done.
  - unfold run_open in *. destruct (r_status r); try done; set_solver.
  - injection Hf0 as _ <-. done.
  - intros k c Hc. by eapply cancel_not_started_lookup.
Qed.

(** The row of a dead task made ready by [RetryRun]. *)
Definition revived_row (now : time) (t : TaskRow) : TaskRow :=
  t<| t_status := READY |><| t_available_at := now |>
   <| t_maximum_attempts := Z.max (t_maximum_attempts t) (t_attempt_count t + 1) |>
   <| t_lease_owner := None |><| t_lease_expires_at := None |><| t_updated_at := now |>.

(** A successful operator retry.  The run belonged to the tenant and had a
    dead task; it is RUNNING again, exactly its dead tasks are READY, each with
    at least one attempt left, and no other task has changed. *)
Theorem RetryRun_effect tenant user id env s s' :
  RetryRun tenant user id env s = (Ok tt, s') →
  ∃ r, let db := s_db s in let db' := s_db s' in let now := env_now env (s_tick s) in
    workflow_runs db !! id = Some r ∧ r_tenant_id r = tenant ∧
    (∃ k t, task_runs db !! k = Some t ∧ t_workflow_run_id t = id ∧ t_status t = DEAD) ∧
    workflow_runs db' !! id = Some (r<| r_status := RUN_RUNNING |><| r_completed_at := None |>) ∧
    (∀ k c, task_runs db !! k = Some c → task_runs db' !! k = Some
       (if bool_decide (t_workflow_run_id c = id) && bool_decide (t_status c = DEAD)
        then revived_row now c else c)) ∧
    (∀ c, t_attempt_count (revived_row now c) < t_maximum_attempts (revived_row now c)).
Proof.
  intros Hl. apply in_tx_committed in Hl as (s1 & Hb & ->); [|no_abandon].
  repeat body_step. apply core_insert_audit in Hf as [-> -> _ _]. stmt_step. stmt_step.
  destruct p as [k0 t0']. destruct (update_tasks_row _ _ _ _ _ _ _ _ _ Hf1) as (t0 & Ht0 & Hg).
  bool_split. exists r. split_and!; [done..|eauto| | |].
  - simpl. by rewrite lookup_alter_eq, (update_tasks_runs _ _ _ _ _ _ _ Hf1), Hrun.
  - intros k c Hc. simpl. by rewrite (lookup_update_tasks _ _ _ _ _ _ _ _ Hf1), Hc.
  - intros c. simpl. lia.
Qed.

Lemma unmet_status db k (st : task_status) :
  (upstream_pending (abs db) k → (if unmet db k then BLOCKED else st) = BLOCKED) ∧
  (upstream_done (abs db) k → (if unmet db k then BLOCKED else st) = st).
Proof.
  destruct (unmet db k) eqn:Hu.
  - split; [done|]. apply unmet_pending in Hu as (u & t & He & Ht & Hn). intros Hd. naive_solver.
  - split; [|done]. intros Hp%unmet_pending. congruence.
Qed.

(** A successful replay of a dead task.  The task belonged to a run of the
    tenant; it is READY with at least one attempt left; a FAILED run is RUNNING
    again; and every cancelled task of the run is rebuilt: BLOCKED while a
    dependency is unfinished, RETRY_WAIT until its back-off ends, else READY. *)
Theorem ReplayDead_effect tenant user id env s s' :
  ReplayDead tenant user id env s = (Ok tt, s') →
  ∃ t r, let db := s_db s in let db' := s_db s' in let now := env_now env (s_tick s) in
    let rid := t_workflow_run_id t in
    task_runs db !! id = Some t ∧ t_status t = DEAD ∧
    workflow_runs db !! rid = Some r ∧ r_tenant_id r = tenant ∧
    (r_status r = RUN_FAILED → ∃ r', workflow_runs db' !! rid = Some r' ∧ r_status r' = RUN_RUNNING) ∧
    (∃ t', task_runs db' !! id = Some t' ∧ t_status t' = READY ∧
           t_attempt_count t' < t_maximum_attempts t') ∧
    (∀ k c, k ≠ id → task_runs db !! k = Some c → t_workflow_run_id c = rid →
       t_status c = CANCELLED → ∃ c', task_runs db' !! k = Some c' ∧
         (upstream_pending (abs db) k → t_status c' = BLOCKED) ∧
         (upstream_done (abs db) k →
            t_status c' = if bool_decide (now < t_available_at c) then RETRY_WAIT else READY)).
Proof.
  intros Hl. apply in_tx_committed in Hl as (s1 & Hb & ->); [|no_abandon].
  repeat body_step. apply core_insert_audit in Hf as [-> -> _ _].
  apply core_insert_outbox in Hf0 as [-> -> _ _]. repeat stmt_step; [|naive_solver].
  simpl in *. simplify_eq. bool_split. exists t, r. split_and!; try done.
  - intros Hfail. rewrite (update_tasks_runs _ _ _ _ _ _ _ Hf1). simpl.
    rewrite lookup_alter_eq, H1. simpl. rewrite bool_decide_true by done. eauto.
  - rewrite (lookup_update_tasks _ _ _ _ _ _ _ _ Hf1). simpl. rewrite lookup_insert_eq. simpl.
    rewrite andb_false_r.
    eexists. split_and!; [done..|]. simpl. lia.
  - intros k c Hne Hc Hr Hst. rewrite (lookup_update_tasks _ _ _ _ _ _ _ _ Hf1). simpl.
    rewrite lookup_insert_ne, Hc by done. simpl. rewrite !bool_decide_true by done.
    eexists. split; [done|]. simpl. unfold rebuilt_status.
    rewrite (unmet_ext (s_db s)); [apply unmet_status|done|]. intros u. simpl.
    destruct (decide (u = id)) as [->|]; [|by rewrite lookup_insert_ne].
    rewrite lookup_insert_eq, H0. simpl. unfold succeeded. by rewrite H2.
Qed.

(** * Isolation of tenants *)

Lemma select_run_None id tenant env n db :
  (∀ r, workflow_runs db !! id = Some r → r_tenant_id r ≠ tenant) →
  select_run id tenant env n db = Ok (None, db).
Proof.
  intros Hr. unfold select_run, sql_select. destruct (workflow_runs db !! id) as [r|]; simpl; [|done].
  by rewrite bool_decide_false by eauto.
Qed.

Lemma update_run_None id g f env n db :
  (∀ r, workflow_runs db !! id = Some r → g r = false) →
  update_run id g f env n db = Ok ([], db).
Proof.
  intros Hg. destruct (update_run id g f env n db) as [[rows db']|] eqn:Hu; [|done].
  apply update_run_cases in Hu as [(r & Hr & Hgr & _)|(-> & -> & _)]; [|done].
  by rewrite Hg in Hgr.
Qed.

(** A read on the pool that finds no row. *)
Lemma rejected_pool {A B} e (f : Stmt B) (none : B) (k : B → M A) env s :
  (∀ n, f env n (s_db s) = Ok (none, s_db s)) → k none = throw e →
  rejected e (x ← pool_stmt f; k x) env s.
Proof.
  intros Hf Hk. unfold rejected, mbind, M_bind, pool_stmt. rewrite Hf.
  destruct (env_fault env (s_tick s)) as [e1|] eqn:H0.
  { do 2 eexists. split_and!; [done..|]. intros [Hc _]. by rewrite Hc in H0. }
  unfold commit. destruct (env_commit env _) eqn:H1; rewrite ?Hk; do 2 eexists;
    (split_and!; [done..|]); intros [_ Hc]; by rewrite ?Hc in H1.
Qed.

Lemma foreign_CancelRun tenant user id env s :
  (∀ r, workflow_runs (s_db s) !! id = Some r → r_tenant_id r ≠ tenant) →
  rejected ErrNotFound (CancelRun tenant user id) env s.
Proof.
  intros Hr. unfold CancelRun, rejected, in_tx.
  destruct (env_fault env (s_tick s)) as [e1|] eqn:H0.
  { do 2 eexists. split_and!; [done..|]. intros [Hc _]. by rewrite Hc in H0. }
  unfold mbind, M_bind, tx_stmt. cbn [s_tick s_rows_open s_db].
  rewrite update_run_None by (intros r Hid; by rewrite bool_decide_false by eauto).
  destruct (env_fault env (S (s_tick s))) as [e1|] eqn:H1.
  { do 2 eexists. split_and!; [done..|]. intros [Hc _]. by rewrite Hc in H1. }
  unfold try. cbn [s_tick s_rows_open s_db]. rewrite select_run_None by done.
  destruct (env_fault env (S (S (s_tick s)))) as [e1|] eqn:H2.
  { do 2 eexists. split_and!; [done..|]. intros [Hc _]. by rewrite Hc in H2. }
  do 2 eexists. by split_and!.
Qed.

(** C21: isolation of tenants.  A tenant can neither cancel, retry nor read a run
    of another tenant, nor replay its dead tasks: each call is answered like
    one for a run that does not exist ([ErrNotFound], unless the database
    itself fails) and changes nothing. *)
Theorem tenant_isolation tenant user rid env s :
  (∀ r, workflow_runs (s_db s) !! rid = Some r → r_tenant_id r ≠ tenant) →
  rejected ErrNotFound (CancelRun tenant user rid) env s ∧
  rejected ErrNotFound (RetryRun tenant user rid) env s ∧
  rejected ErrNotFound (GetRun tenant rid) env s ∧
  rejected ErrNotFound (Events tenant rid) env s ∧
  (∀ id, (∀ t, task_runs (s_db s) !! id = Some t → t_workflow_run_id t = rid) →
     rejected ErrNotFound (ReplayDead tenant user id) env s ∧
     rejected ErrNotFound (TaskBelongsToTenant id tenant) env s).
Proof.
  intros Hr. split_and!.
  - by apply foreign_CancelRun.
  - unfold RetryRun. eapply (rejected_in_tx _ _ None); [|done]. intros n. by apply select_run_None.
  - unfold GetRun. eapply (rejected_pool _ _ None); [|done]. intros n. by apply select_run_None.
  - unfold Events. eapply (rejected_pool _ _ None); [|done]. intros n. by apply select_run_None.
  - intros id Ht.
    assert (∀ t r, task_runs (s_db s) !! id = Some t →
      workflow_runs (s_db s) !! t_workflow_run_id t = Some r → r_tenant_id r ≠ tenant) as Hf.
    { intros t r Hid. rewrite (Ht _ Hid). apply Hr. }
    split.
    + unfold ReplayDead. eapply (rejected_in_tx _ _ None); [|done]. intros n.
      apply select_task_run_join. intros t r Hid Hrun. by rewrite bool_decide_false by eauto.
    + unfold TaskBelongsToTenant. eapply (rejected_pool _ _ None); [|done]. intros n.
      apply select_task_run_join. intros t r Hid Hrun. by rewrite bool_decide_false by eauto.
Qed.

(** * New versions *)

(** A workflow never gets a second version: PostgreSQL cannot prepare the
    statement for the audit entry, since nothing determines the type of its
    parameter, so [CreateVersion] ends in an error and changes nothing. *)
Theorem CreateVersion_refused tenant user def dag env s r s' :
  CreateVersion tenant user def dag env s = (r, s') → (∃ e, r = Err e) ∧ s_db s' = s_db s.
Proof.
  intros H. split.
  - destruct r as [d|e]; [exfalso|eauto]. apply bind_Ok in H as (u & s1 & _ & H).
    apply in_tx_Ok in H as [(_ & s2 & Hb)|(s2 & Hb & _)]; repeat body_step; done.
  - symmetry. revert H. refine ((_ : preserves (=) (CreateVersion tenant user def dag)) env s r s').
    apply preserves_validate; [apply _|]. intros _. apply preserves_committed; [apply _|].
    intros now env' n db a s1 Hb. exfalso. repeat body_step. done.
Qed.
