(* ===== verification/SchedulerSpec.v ===== *)
(** What the scheduler's steps do: dispatch and recovery make exactly their
    change and, when the database answers, always get there; a due schedule
    stops the whole cycle. *)
From S2P Require Import Prelude State Json Schema Sql StoreWorker StoreWorkflow Scheduler Preserve Frame Lifecycle Refinement Creation Aloof System WorkerSpec.

(** * Progress of loops *)

(** Identifiers drawn from statement [n] on are not used for events yet. *)
Definition fresh_from (env : Env) (n : nat) (db : Db) : Prop :=
  ∀ m, (n ≤ m)%nat → outbox_events db !! env_uuid env m = None.

Lemma mfor_total {A} (P : nat → Db → Prop) (l : list A) f env n db :
  (∀ x n db, x ∈ l → P n db →
     ∃ n' db', f x env (mkSess n false db) = (Ok tt, mkSess n' false db') ∧ P n' db') →
  P n db →
  ∃ n' db', mfor l f env (mkSess n false db) = (Ok tt, mkSess n' false db') ∧ P n' db'.
Proof.
  revert n db. induction l as [|x l IH]; intros n db Hf HP; simpl; [by do 2 eexists|].
  destruct (Hf x n db) as (n1 & db1 & H1 & HP1); [by left|done|].
  destruct (IH n1 db1) as (n2 & db2 & H2 & HP2); [|done|].
  { intros y m db0 Hy. apply Hf. by right. }
  exists n2, db2. split; [|done]. erewrite bind_run; done.
Qed.

Lemma insert_outbox_total env n db now ty id ev p tr :
  Inj (=) (=) (env_uuid env) → fresh_from env n db →
  ∃ db', insert_outbox now ty id ev p tr env n db = Ok (tt, db') ∧ fresh_from env (S n) db'.
Proof.
  intros Hinj Hf. unfold insert_outbox. rewrite bool_decide_false.
  2: { rewrite Hf by lia. apply is_Some_None. }
  eexists. split; [done|]. intros m Hm. simpl. rewrite lookup_insert_ne; [apply Hf; lia|].
  intros ->%Hinj. lia.
Qed.

(** Statements that leave the events alone. *)
Lemma fresh_later env n m db db' :
  fresh_from env n db → (n ≤ m)%nat → outbox_events db' = outbox_events db → fresh_from env m db'.
Proof. intros Hf Hle He k Hk. rewrite He. apply Hf. lia. Qed.

(** * Dispatch *)

Definition dispatched_row (now : time) (t : TaskRow) : TaskRow :=
  t<| t_status := DISPATCHING |><| t_updated_at := now |>.

Lemma dispatch_one_effect now id t r env s u s' k t0 :
  dispatch_one now (id, t, r) env s = (Ok u, s') → task_runs (s_db s) !! k = Some t0 →
  task_runs (s_db s') !! k = Some (if bool_decide (k = id) && bool_decide (t_status t0 = READY)
                                   then dispatched_row now t0 else t0).
Proof.
  intros Hb Hk. unfold dispatch_one in Hb. run_step. run_step.
  pose proof (lookup_update_tasks _ _ _ _ _ _ _ k Hf) as Hlook. rewrite Hk in Hlook.
  destruct (bool_decide (length v = 1%nat)).
  - run_step. cbn [s_db]. apply core_insert_outbox in Hf0 as [_ -> _ _]. exact Hlook.
  - by run_step.
Qed.

Lemma dispatch_loop_effect now l env s u s' k t :
  mfor l (dispatch_one now) env s = (Ok u, s') → task_runs (s_db s) !! k = Some t →
  task_runs (s_db s') !! k = Some (if bool_decide (k ∈ l.*1.*1) && bool_decide (t_status t = READY)
                                   then dispatched_row now t else t).
Proof.
  revert s t. induction l as [|[[id x] r] l IH]; intros s t Hb Hk; simpl in Hb.
  { by run_step. }
  run_step. pose proof (dispatch_one_effect _ _ _ _ _ _ _ _ _ _ Hm Hk) as Hk1.
  rewrite (IH _ _ Hb Hk1), !fmap_cons. cbn [fst]. f_equal.
  destruct (decide (k = id)) as [->|Hne].
  - rewrite (bool_decide_true (id = id)), (bool_decide_true (id ∈ id :: _)) by (done || by left).
    cbn [andb]. destruct (bool_decide (t_status t = READY)) eqn:Hr; simpl; [|by rewrite Hr, andb_false_r].
    by rewrite andb_false_r.
  - rewrite (bool_decide_false (k = id)) by done. cbn [andb].
    rewrite (bool_decide_ext (k ∈ id :: l.*1.*1) (k ∈ l.*1.*1)); [done|].
    rewrite elem_of_cons. naive_solver.
Qed.

(** The event a dispatched task is announced with: it tells the workers which
    task to lease and which handler it needs. *)
Definition dispatch_event (id : uuid) (t : TaskRow) (e : OutboxRow) : Prop :=
  task_event (t_workflow_run_id t) id "task.dispatch" e ∧
  o_payload e = JObj [("task_run_id", JStr id); ("workflow_run_id", JStr (t_workflow_run_id t));
                      ("task_key", JStr (t_task_key t)); ("handler", JStr (t_handler t))].

(** It carries the trace of its run. *)
Definition announces (x : uuid * TaskRow * RunRow) (e : OutboxRow) : Prop :=
  dispatch_event x.1.1 x.1.2 e ∧ o_trace_parent e = Some (coalesce (r_trace_parent x.2)).

Lemma dispatch_one_event now id t r env s u s' t0 :
  dispatch_one now (id, t, r) env s = (Ok u, s') → task_runs (s_db s) !! id = Some t0 → t_status t0 = READY →
  ∃ ev e, outbox_events (s_db s) !! ev = None ∧
    outbox_events (s_db s') = <[ev := e]> (outbox_events (s_db s)) ∧ announces (id, t, r) e.
Proof.
  intros Hb Ht0 Hr. unfold dispatch_one in Hb. run_step. run_step. cbn [s_db] in *.
  apply update_task_cases in Hf as [(t1 & Ht1 & Hg & -> & ->)|(-> & -> & Hno)]; simpl in Hb.
  - run_step. apply insert_outbox_Ok in Hf as [Hn ->]. simpl in *. by do 2 eexists.
  - apply Hno in Ht0. by bool_split.
Qed.

(** The loop adds one event per task and nothing else. *)
Lemma dispatch_loop_events now l env s u s' :
  mfor l (dispatch_one now) env s = (Ok u, s') → NoDup l.*1.*1 →
  (∀ id t r, (id, t, r) ∈ l → task_runs (s_db s) !! id = Some t ∧ t_status t = READY) →
  ∃ events, Forall2 announces l events.*2 ∧ NoDup events.*1 ∧
    (∀ ev, ev ∈ events.*1 → outbox_events (s_db s) !! ev = None) ∧
    outbox_events (s_db s') = list_to_map events ∪ outbox_events (s_db s).
Proof.
  revert s. induction l as [|[[id t] r] l IH]; intros s; simpl; intros Hb Hnd Hl.
  { run_step. exists []. split_and!; [done|constructor|by intros ? ?%not_elem_of_nil|].
    simpl. by rewrite (left_id_L ∅ (∪)). }
  apply NoDup_cons in Hnd as [Hnew Hnd]. run_step. destruct (Hl id t r) as [Ht Hr]; [by left|].
  destruct (dispatch_one_event _ _ _ _ _ _ _ _ _ Hm Ht Hr) as (ev & e & Hn & He & Ha).
  destruct (IH _ Hb Hnd) as (events & Hall & Hnd' & Hfresh & Hout).
  { intros id1 t1 r1 Hin. destruct (Hl id1 t1 r1) as [Ht1 Hr1]; [by right|]. split; [|done].
    rewrite (dispatch_one_effect _ _ _ _ _ _ _ _ _ _ Hm Ht1). rewrite bool_decide_false; [done|].
    intros ->. apply Hnew. by apply (list_elem_of_fmap_2 fst _ (id, t1)), (list_elem_of_fmap_2 fst _ (id, t1, r1)). }
  rewrite He in Hfresh, Hout. exists ((ev, e) :: events). rewrite !fmap_cons. cbn [fst snd]. split_and!.
  - by constructor.
  - apply NoDup_cons. split; [|done]. intros Hin%Hfresh. by rewrite lookup_insert_eq in Hin.
  - intros ev' [->|Hin]%elem_of_cons; [done|]. apply Hfresh in Hin. by apply lookup_insert_None in Hin as [? _].
  - rewrite Hout. simpl. rewrite <-insert_union_r; [|apply not_elem_of_list_to_map_1; intros Hin%Hfresh;
      by rewrite lookup_insert_eq in Hin]. by rewrite insert_union_l.
Qed.

Lemma update_task_total id g f env n db :
  ∃ rows db', update_task id g f env n db = Ok (rows, db') ∧ outbox_events db' = outbox_events db.
Proof. do 2 eexists. split; [done|]. done. Qed.

Lemma dispatch_one_total now e env n db :
  calm env → Inj (=) (=) (env_uuid env) → fresh_from env n db →
  ∃ n' db', dispatch_one now e env (mkSess n false db) = (Ok tt, mkSess n' false db') ∧
            fresh_from env n' db'.
Proof.
  intros [Hc _] Hinj Hf. destruct e as [[id t] r]. unfold dispatch_one.
  edestruct (update_task_total id) as (rows & db1 & Hu & He).
  erewrite bind_run; [|apply tx_stmt_run; [apply Hc|exact Hu]].
  assert (fresh_from env (S n) db1) as Hf1 by (eapply fresh_later; [exact Hf|lia|done]).
  case_bool_decide; [|by do 2 eexists].
  edestruct (insert_outbox_total env (S n)) as (db' & Hi & Hf'); [done..|].
  do 2 eexists. split; [|exact Hf']. apply tx_stmt_run; [apply Hc|exact Hi].
Qed.

(** * Dispatch: the whole transaction *)

(** The tasks the scheduler may dispatch now. *)
Definition dispatchable (env : Env) (now : time) (n : nat) (k : uuid) (t : TaskRow) : bool :=
  bool_decide (t_status t = READY) && bool_decide (t_available_at t ≤ now) && negb (env_locked env n k).

Lemma omap_join_all db l :
  (∀ kt : uuid * TaskRow, kt ∈ l → is_Some (workflow_runs db !! t_workflow_run_id kt.2)) →
  (omap (join_run db) l).*1 = l.
Proof.
  induction l as [|kt l IH]; simpl; intros Hl; [done|].
  destruct (Hl kt) as [r Hr]; [by left|]. unfold join_run at 1. rewrite Hr. simpl.
  f_equal. apply IH. intros; apply Hl. by right.
Qed.

Lemma select_ready_spec now env n db l db' :
  select_ready now env n db = Ok (l, db') →
  db' = db ∧ NoDup (l.*1.*1) ∧
  ∀ id t r, (id, t, r) ∈ l → task_runs db !! id = Some t ∧ dispatchable env now n id t = true ∧
    workflow_runs db !! t_workflow_run_id t = Some r.
Proof.
  intros [= <- <-]. split; [done|split].
  - eapply sublist_NoDup; [|apply fmap_sublist, fmap_sublist, sublist_take].
    rewrite order_by_keys_perm.
    eapply sublist_NoDup; [|apply fmap_sublist, join_run_sublist]. apply NoDup_rows_where.
  - intros id t r Hin. eapply elem_of_sublist in Hin; [|apply sublist_take].
    rewrite order_by_keys_perm in Hin.
    by apply elem_of_join_run in Hin as [[Ht Hg]%elem_of_rows_where Hr].
Qed.

Lemma dispatchable_ready env now n k t : dispatchable env now n k t = true → t_status t = READY.
Proof. unfold dispatchable. intros. by bool_split. Qed.

(** A successful dispatch, whatever the database answered on the way: some of
    the tasks that are due, each with its event. *)
Lemma dispatch_ready_Ok env s u s' :
  let now := env_now env (s_tick s) in
  dispatch_ready env s = (Ok u, s') →
  ∃ l events, select_ready now env (S (s_tick s)) (s_db s) = Ok (l, s_db s) ∧
    Forall2 announces l events.*2 ∧ NoDup events.*1 ∧
    (∀ ev, ev ∈ events.*1 → outbox_events (s_db s) !! ev = None) ∧
    outbox_events (s_db s') = list_to_map events ∪ outbox_events (s_db s) ∧
    ∀ k t, task_runs (s_db s) !! k = Some t →
      task_runs (s_db s') !! k = Some (if bool_decide (k ∈ l.*1.*1) then dispatched_row now t else t).
Proof.
  intros now [(_ & s1 & Hb)|(s1 & Hb & Hdb)]%in_tx_Ok; [by repeat run_step|].
  repeat run_step. pose proof (select_ready_spec _ _ _ _ _ _ Hf) as (-> & Hnd & Hl). cbn [s_db] in *.
  assert (∀ id t r, (id, t, r) ∈ v → task_runs (s_db s) !! id = Some t ∧ t_status t = READY) as Hready.
  { intros id t r (Ht & Hd & _)%Hl. split; [done|by eapply dispatchable_ready]. }
  destruct (dispatch_loop_events _ _ _ _ _ _ Hm0 Hnd Hready) as (events & Hall & Hnd' & Hfresh & Hout).
  exists v, events. rewrite Hdb. split_and!; try done. intros k t Ht.
  rewrite (dispatch_loop_effect _ _ _ _ _ _ _ _ Hm0 Ht). do 2 f_equal.
  destruct (bool_decide (k ∈ v.*1.*1)) eqn:Hk; [|done]. rewrite bool_decide_true; [done|].
  apply bool_decide_eq_true in Hk as ([k' t'] & -> & ([[k1 t1] r] & [= -> ->] & Hin)%list_elem_of_fmap)%list_elem_of_fmap.
  destruct (Hready _ _ _ Hin) as [Ht1 ?]. simpl in *. congruence.
Qed.

(** A selection that is not cut off by its limit has every row. *)
Lemma elem_of_take_all {A} n (l : list A) x : (length l ≤ n)%nat → x ∈ take n l ↔ x ∈ l.
Proof. intros Hl. by rewrite take_ge. Qed.

(** Every task has its run, so the join keeps every row. *)
Lemma joined_rows db rank P : DbInv db →
  (omap (join_run db) (rows_where rank P (task_runs db))).*1 = rows_where rank P (task_runs db).
Proof.
  intros DI. apply omap_join_all. intros [k t] [Ht _]%elem_of_rows_where.
  destruct (inv_run _ (db_inv _ DI) k (abs_task t)) as [r Hr]; [by rewrite lookup_abs_task, Ht|].
  rewrite lookup_abs_run in Hr. apply fmap_Some in Hr as (r' & Hr & _). eauto.
Qed.

Lemma select_ready_all now env n db l db' k t :
  DbInv db → select_ready now env n db = Ok (l, db') →
  (length (rows_where (env_rank env n) (dispatchable env now n) (task_runs db)) ≤ 100)%nat →
  task_runs db !! k = Some t → dispatchable env now n k t = true → ∃ r, (k, t, r) ∈ l.
Proof.
  intros DI [= <- <-] Hlen Ht Hd.
  pose proof (joined_rows _ (env_rank env n) (dispatchable env now n) DI) as Hjoin.
  assert ((k, t) ∈ (omap (join_run db) (rows_where (env_rank env n) (dispatchable env now n)
    (task_runs db))).*1) as Hin by (rewrite Hjoin; by apply elem_of_rows_where).
  apply list_elem_of_fmap in Hin as ([kt r] & Hkt & Hin). simpl in Hkt. subst kt.
  exists r. rewrite elem_of_take_all, elem_of_order_by_keys; [done|].
  rewrite order_by_keys_perm. rewrite <-Hjoin, length_fmap in Hlen. exact Hlen.
Qed.

(** The selection is the tasks that are due. *)
Lemma select_ready_perm now env n db l db' :
  DbInv db → select_ready now env n db = Ok (l, db') →
  (length (rows_where (env_rank env n) (dispatchable env now n) (task_runs db)) ≤ 100)%nat →
  l.*1 ≡ₚ rows_where (env_rank env n) (dispatchable env now n) (task_runs db).
Proof.
  intros DI [= <- <-] Hlen. rewrite <-(joined_rows _ (env_rank env n) (dispatchable env now n) DI) in Hlen |- *.
  rewrite length_fmap in Hlen. apply fmap_Permutation. rewrite take_ge by (by rewrite order_by_keys_perm).
  by rewrite order_by_keys_perm.
Qed.

Lemma dispatch_ready_total env s :
  calm env → Inj (=) (=) (env_uuid env) → fresh_from env (s_tick s) (s_db s) →
  ∃ s', dispatch_ready env s = (Ok tt, s').
Proof.
  intros Hcalm Hinj Hfresh. pose proof Hcalm as [Hc Hcm].
  destruct (select_ready (env_now env (s_tick s)) env (S (s_tick s)) (s_db s)) as [[l db]|] eqn:Hsel; [|done].
  pose proof (select_ready_spec _ _ _ _ _ _ Hsel) as (-> & Hnd & Hl).
  destruct (mfor_total (fresh_from env) l (dispatch_one (env_now env (s_tick s))) env (S (S (s_tick s))) (s_db s))
    as (n' & db' & Hloop & _).
  { intros e n db _. by apply dispatch_one_total. }
  { eapply fresh_later; [exact Hfresh|lia|done]. }
  exists (mkSess (S n') false db'). unfold dispatch_ready, in_tx. rewrite Hc.
  erewrite bind_run; [|apply tx_stmt_run; [apply Hc|exact Hsel]].
  erewrite bind_run; [|exact Hloop]. simpl. unfold commit. by rewrite Hcm.
Qed.

Lemma dispatch_ready_exact env s :
  let now := env_now env (s_tick s) in
  let due := dispatchable env now (S (s_tick s)) in
  system_reachable (s_db s) → calm env → Inj (=) (=) (env_uuid env) →
  fresh_from env (s_tick s) (s_db s) →
  (length (rows_where (env_rank env (S (s_tick s))) due (task_runs (s_db s))) ≤ 100)%nat →
  ∃ s' tasks events, dispatch_ready env s = (Ok tt, s') ∧
    (∀ k t, task_runs (s_db s) !! k = Some t →
       task_runs (s_db s') !! k = Some (if due k t then dispatched_row now t else t)) ∧
    (∀ k t, (k, t) ∈ tasks ↔ task_runs (s_db s) !! k = Some t ∧ due k t = true) ∧ NoDup tasks.*1 ∧
    Forall2 (λ kt e, dispatch_event kt.1 kt.2 e) tasks events.*2 ∧ NoDup events.*1 ∧
    (∀ ev, ev ∈ events.*1 → outbox_events (s_db s) !! ev = None) ∧
    outbox_events (s_db s') = list_to_map events ∪ outbox_events (s_db s).
Proof.
  intros now due DI%reachable_db_inv Hcalm Hinj Hfresh Hlen.
  destruct (dispatch_ready_total env s Hcalm Hinj Hfresh) as [s' Hrun].
  destruct (dispatch_ready_Ok env s tt s' Hrun) as (l & events & Hsel & Hall & Hnd & Hnew & Hout & Htasks).
  pose proof (select_ready_perm _ _ _ _ _ _ DI Hsel Hlen) as Hperm.
  assert (∀ k t, (k, t) ∈ l.*1 ↔ task_runs (s_db s) !! k = Some t ∧ due k t = true) as Hl
    by (intros k t; by rewrite Hperm, elem_of_rows_where).
  exists s', l.*1, events. split_and!; try done.
  - intros k t Ht. rewrite (Htasks k t Ht). destruct (due k t) eqn:Hd.
    + rewrite bool_decide_true; [done|]. apply (list_elem_of_fmap_2 fst _ (k, t)). by apply Hl.
    + rewrite bool_decide_false; [done|]. intros ([k' t'] & -> & [Ht' Hd']%Hl)%list_elem_of_fmap. simpl in *. congruence.
  - rewrite Hperm. apply NoDup_rows_where.
  - apply Forall2_fmap_l. eapply Forall2_impl; [exact Hall|]. by intros x e [? _].
Qed.

Lemma dispatch_ready_run env s :
  let now := env_now env (s_tick s) in
  let due := dispatchable env now (S (s_tick s)) in
  system_reachable (s_db s) → calm env → Inj (=) (=) (env_uuid env) →
  fresh_from env (s_tick s) (s_db s) →
  (length (rows_where (env_rank env (S (s_tick s))) due (task_runs (s_db s))) ≤ 100)%nat →
  ∃ s', dispatch_ready env s = (Ok tt, s') ∧
    ∀ k t, task_runs (s_db s) !! k = Some t →
      task_runs (s_db s') !! k = Some (if due k t then dispatched_row now t else t) ∧
      (due k t = true → ∃ ev e, outbox_events (s_db s) !! ev = None ∧
         outbox_events (s_db s') !! ev = Some e ∧
         dispatch_event k t e).
Proof.
  intros now due Hreach Hcalm Hinj Hfresh Hlen.
  destruct (dispatch_ready_exact env s Hreach Hcalm Hinj Hfresh Hlen)
    as (s' & tasks & events & Hrun & Hrows & Hin & _ & Hall & Hnd & Hnew & Hout).
  exists s'. split; [done|]. intros k t Ht. split; [by apply Hrows|]. intros Hd.
  assert ((k, t) ∈ tasks) as [i Hi]%list_elem_of_lookup by (by apply Hin).
  destruct (Forall2_lookup_l _ _ _ _ _ Hall Hi) as (e & He & Hev).
  apply list_lookup_fmap_Some in He as ([ev e'] & -> & He). apply list_elem_of_lookup_2 in He.
  exists ev, e'. split_and!; [|rewrite Hout; by apply lookup_union_Some_l, elem_of_list_to_map_1|done].
  apply Hnew. by apply (list_elem_of_fmap_2 fst _ (ev, e')).
Qed.

(** C16: dispatch is complete and exact.  When the database answers, the
    identifiers drawn for events are new and at most 100 tasks, the LIMIT of the
    query, are READY, due and not locked elsewhere, the dispatch step succeeds:
    exactly these tasks are DISPATCHING, every other task is as it was, and the
    outbox has gained exactly one event for each of them and nothing else: a
    [task.dispatch] event of its run, still to be published, that names the task
    and its handler. *)
Theorem dispatch_ready_complete env s :
  let now := env_now env (s_tick s) in
  let due := dispatchable env now (S (s_tick s)) in
  system_reachable (s_db s) → calm env → Inj (=) (=) (env_uuid env) →
  fresh_from env (s_tick s) (s_db s) →
  (length (rows_where (env_rank env (S (s_tick s))) due (task_runs (s_db s))) ≤ 100)%nat →
  ∃ s' tasks events, dispatch_ready env s = (Ok tt, s') ∧
    (∀ k t, task_runs (s_db s) !! k = Some t →
       task_runs (s_db s') !! k = Some (if due k t then dispatched_row now t else t)) ∧
    (∀ k t, (k, t) ∈ tasks ↔ task_runs (s_db s) !! k = Some t ∧ due k t = true) ∧ NoDup tasks.*1 ∧
    Forall2 (λ kt e, dispatch_event kt.1 kt.2 e) tasks events.*2 ∧ NoDup events.*1 ∧
    (∀ ev, ev ∈ events.*1 → outbox_events (s_db s) !! ev = None) ∧
    outbox_events (s_db s') = list_to_map events ∪ outbox_events (s_db s).
Proof. apply dispatch_ready_exact. Qed.

(** * Recovery of expired leases *)

(** The tasks whose lease has run out. *)
Definition lost (env : Env) (now : time) (n : nat) (k : uuid) (t : TaskRow) : bool :=
  (bool_decide (t_status t = LEASED) || bool_decide (t_status t = RUNNING))
  && match t_lease_expires_at t with Some e => bool_decide (e ≤ now) | None => false end
  && negb (env_locked env n k).

(** The status an expired attempt leads to. *)
Definition expiry_outcome (r : RunRow) (t : TaskRow) : task_status :=
  if bool_decide (r_status r = RUN_CANCELLED) then CANCELLED
  else if bool_decide (t_attempt_count t < t_maximum_attempts t) then RETRY_WAIT else DEAD.

(** The row of a recovered task; the clock is read once per task. *)
Definition recovered_row (env : Env) (m : nat) (now : time) (r : RunRow) (t : TaskRow) : TaskRow :=
  t<| t_status := expiry_outcome r t |>
   <| t_available_at := env_clock env m + if bool_decide (expiry_outcome r t = RETRY_WAIT)
                                          then RetryDelay (t_attempt_count t) else 0 |>
   <| t_lease_owner := None |><| t_lease_expires_at := None |><| t_updated_at := now |>.

Lemma recover_one_effect now id t r env s u s' :
  recover_one now (id, t, r) env s = (Ok u, s') → task_runs (s_db s) !! id = Some t →
  (∃ m, task_runs (s_db s') = <[id := recovered_row env m now r t]> (task_runs (s_db s))) ∧
  workflow_runs (s_db s') = (if bool_decide (expiry_outcome r t = DEAD)
    then end_run now RUN_FAILED (t_workflow_run_id t) (workflow_runs (s_db s))
    else workflow_runs (s_db s)).
Proof. intros Hb Ht. destruct (recover_one_Ok _ _ _ _ _ _ _ _ Hb Ht) as (m & [-> -> _ _]). eauto. Qed.

Definition not_running (runs : gmap uuid RunRow) (rid : uuid) : Prop :=
  ∀ r, runs !! rid = Some r → run_running r = false.

Lemma end_run_stays now st rid runs k :
  st ≠ RUN_RUNNING → not_running runs k ∨ k = rid → not_running (end_run now st rid runs) k.
Proof.
  intros Hst H r Hr. unfold end_run in Hr. destruct (decide (k = rid)) as [->|Hne].
  - rewrite lookup_alter_eq in Hr. apply fmap_Some in Hr as (r0 & Hr0 & ->).
    destruct (run_running r0) eqn:?; [by apply bool_decide_eq_false|done].
  - rewrite lookup_alter_ne in Hr by done. destruct H; naive_solver.
Qed.

Lemma recover_loop_effect now l env s u s' :
  mfor l (recover_one now) env s = (Ok u, s') → NoDup (l.*1.*1) →
  (∀ id t r, (id, t, r) ∈ l → task_runs (s_db s) !! id = Some t) →
  (∀ k, k ∉ l.*1.*1 → task_runs (s_db s') !! k = task_runs (s_db s) !! k) ∧
  (∀ k, not_running (workflow_runs (s_db s)) k → not_running (workflow_runs (s_db s')) k) ∧
  ∀ id t r, (id, t, r) ∈ l →
    (∃ m, task_runs (s_db s') !! id = Some (recovered_row env m now r t)) ∧
    (expiry_outcome r t = DEAD → not_running (workflow_runs (s_db s')) (t_workflow_run_id t)).
Proof.
  revert s. induction l as [|[[id0 t0] r0] l IH]; intros s Hb Hnd Hl; simpl in Hb.
  { run_step. split_and!; [done..|]. by intros ??? ?%not_elem_of_nil. }
  rewrite !fmap_cons in Hnd |- *. cbn [fst] in *. apply NoDup_cons in Hnd as [Hnew Hnd]. run_step.
  destruct (recover_one_effect _ _ _ _ _ _ _ _ Hm) as [[m Ht1] Hr1]; [eapply Hl; by left|].
  destruct (IH _ Hb Hnd) as (Hsame & Hkeep & Hdone).
  { intros id t r Hin. rewrite Ht1, lookup_insert_ne; [eapply Hl; by right|].
    intros ->. apply Hnew. by apply (list_elem_of_fmap_2 fst _ (id, t)),
      (list_elem_of_fmap_2 fst _ (id, t, r)). }
  split_and!.
  - intros k [Hne Hk]%not_elem_of_cons. by rewrite Hsame, Ht1, lookup_insert_ne.
  - intros k Hk. apply Hkeep. rewrite Hr1. case_bool_decide; [|done]. apply end_run_stays; auto.
  - intros id t r [[= -> -> ->]|Hin]%elem_of_cons; [|by apply Hdone]. split.
    + exists m. by rewrite Hsame, Ht1, lookup_insert_eq.
    + intros Hd. apply Hkeep. rewrite Hr1, bool_decide_true by done. apply end_run_stays; auto.
Qed.

Lemma update_attempt_total id k g f env n db :
  ∃ db', update_attempt id k g f env n db = Ok (tt, db') ∧ outbox_events db' = outbox_events db.
Proof. eexists. split; [done|]. done. Qed.

Lemma insert_outbox_from_run_total env n db now id ev p rid :
  Inj (=) (=) (env_uuid env) → fresh_from env n db →
  ∃ db', insert_outbox_from_run now id ev p rid env n db = Ok (tt, db') ∧ fresh_from env (S n) db'.
Proof.
  intros Hinj Hf. unfold insert_outbox_from_run. destruct (workflow_runs db !! rid).
  - by apply insert_outbox_total.
  - eexists. split; [done|]. by eapply (fresh_later env n); [|lia|].
Qed.

Lemma available_at_total st attempt env n db :
  ∃ v n', available_at st attempt env (mkSess n false db) = (Ok v, mkSess n' false db) ∧ (n ≤ n')%nat.
Proof.
  unfold available_at. erewrite bind_run by done.
  case_bool_decide; do 2 eexists; (split; [done|]); simpl; lia.
Qed.

Lemma recover_one_total now e env n db :
  calm env → Inj (=) (=) (env_uuid env) → fresh_from env n db →
  ∃ n' db', recover_one now e env (mkSess n false db) = (Ok tt, mkSess n' false db') ∧
            fresh_from env n' db'.
Proof.
  intros [Hc _] Hinj Hf. destruct e as [[id t] r]. unfold recover_one.
  set (st := failure_status _ _).
  destruct (available_at_total st (t_attempt_count t) env n db) as (v & n1 & Hav & Hn1).
  erewrite bind_run; [|exact Hav].
  edestruct (update_task_total id) as (rows & db1 & Hu & He).
  erewrite bind_run; [|apply tx_stmt_run; [apply Hc|exact Hu]].
  edestruct (update_attempt_total id) as (db2 & Ha & He2).
  erewrite bind_run; [|apply tx_stmt_run; [apply Hc|exact Ha]].
  assert (fresh_from env (S (S n1)) db2) as Hf2
    by (eapply (fresh_later env n); [done|lia|congruence]).
  edestruct (insert_outbox_from_run_total env (S (S n1)) db2) as (db3 & Ho & Hf3); [done..|].
  erewrite bind_run; [|apply tx_stmt_run; [apply Hc|exact Ho]].
  case_bool_decide; [|by do 2 eexists].
  erewrite bind_run; [|by apply tx_stmt_run; [apply Hc|]].
  do 2 eexists. split; [done|]. by eapply fresh_later; [exact Hf3|lia|].
Qed.

Lemma select_expired_lost now env n db l db' :
  select_expired now env n db = Ok (l, db') →
  db' = db ∧ NoDup (l.*1.*1) ∧
  ∀ id t r, (id, t, r) ∈ l → task_runs db !! id = Some t ∧ lost env now n id t = true.
Proof.
  intros Hsel. pose proof (select_expired_spec _ _ _ _ _ _ Hsel) as (Hdb & Hnd & _).
  split_and!; [done..|]. injection Hsel as <- _. intros id t r Hin.
  eapply elem_of_sublist in Hin; [|apply sublist_take].
  by apply elem_of_join_run in Hin as [[Ht Hg]%elem_of_rows_where _].
Qed.

Lemma select_expired_all now env n db l db' k t :
  DbInv db → select_expired now env n db = Ok (l, db') →
  (length (rows_where (env_rank env n) (lost env now n) (task_runs db)) ≤ 100)%nat →
  task_runs db !! k = Some t → lost env now n k t = true →
  ∃ r, (k, t, r) ∈ l ∧ workflow_runs db !! t_workflow_run_id t = Some r.
Proof.
  intros DI [= <- <-] Hlen Ht Hd.
  pose proof (joined_rows _ (env_rank env n) (lost env now n) DI) as Hjoin.
  assert ((k, t) ∈ (omap (join_run db) (rows_where (env_rank env n) (lost env now n)
    (task_runs db))).*1) as Hin by (rewrite Hjoin; by apply elem_of_rows_where).
  apply list_elem_of_fmap in Hin as ([kt r] & Hkt & Hin). simpl in Hkt. subst kt.
  exists r. split; [|by apply elem_of_join_run in Hin as [_ ?]]. rewrite elem_of_take_all; [done|].
  rewrite <-Hjoin, length_fmap in Hlen. exact Hlen.
Qed.

(** C17: recovery is complete.  When the database answers, the identifiers drawn
    for events are new and at most 100 tasks, the LIMIT of the query, have an
    expired lease and are not locked elsewhere, the recovery step succeeds: exactly
    these tasks lose their lease, each moving to
    RETRY_WAIT with the back-off of its attempt number while attempts remain,
    to DEAD otherwise (its run is then no longer RUNNING), and to CANCELLED in
    a cancelled run; every other task is as it was. *)
Theorem recoverExpired_complete env s :
  let now := env_now env (s_tick s) in
  let out := lost env now (S (s_tick s)) in
  system_reachable (s_db s) → calm env → Inj (=) (=) (env_uuid env) →
  fresh_from env (s_tick s) (s_db s) →
  (length (rows_where (env_rank env (S (s_tick s))) out (task_runs (s_db s))) ≤ 100)%nat →
  ∃ s', recoverExpired env s = (Ok tt, s') ∧
    ∀ k t, task_runs (s_db s) !! k = Some t →
      if out k t then
        ∃ r m, workflow_runs (s_db s) !! t_workflow_run_id t = Some r ∧
          task_runs (s_db s') !! k = Some (recovered_row env m now r t) ∧
          (expiry_outcome r t = DEAD → not_running (workflow_runs (s_db s')) (t_workflow_run_id t))
      else task_runs (s_db s') !! k = Some t.
Proof.
  intros now out DI%reachable_db_inv Hcalm Hinj Hfresh Hlen. pose proof Hcalm as [Hc Hcm].
  destruct (select_expired now env (S (s_tick s)) (s_db s)) as [[l db]|] eqn:Hsel; [|done].
  pose proof (select_expired_lost _ _ _ _ _ _ Hsel) as (-> & Hnd & Hl).
  destruct (mfor_total (fresh_from env) l (recover_one now) env (S (S (s_tick s))) (s_db s))
    as (n' & db' & Hloop & _).
  { intros e n db _. by apply recover_one_total. }
  { eapply fresh_later; [exact Hfresh|lia|done]. }
  destruct (recover_loop_effect _ _ _ _ _ _ Hloop Hnd) as (Hsame & _ & Hdone); [naive_solver|].
  exists (mkSess (S n') false db'). split.
  - unfold recoverExpired, in_tx. rewrite Hc. fold now.
    erewrite bind_run; [|apply tx_stmt_run; [apply Hc|exact Hsel]].
    erewrite bind_run; [|exact Hloop]. simpl. unfold commit. by rewrite Hcm.
  - intros k t Ht. cbn [s_db] in *. destruct (out k t) eqn:Hd.
    + destruct (select_expired_all _ _ _ _ _ _ _ _ DI Hsel Hlen Ht Hd) as (r & Hin & Hr).
      destruct (Hdone _ _ _ Hin) as [[m Hm] Hdead]. eauto.
    + rewrite Hsame; [done|].
      intros ([k' t'] & -> & ([[k1 t1] r] & [= -> ->] & Hin)%list_elem_of_fmap)%list_elem_of_fmap.
      apply Hl in Hin as [Ht1 Hd1]. simpl in *. unfold out in Hd. congruence.
Qed.

(** * Due schedules *)

Section Busy.
Context {location cron : Type} (LoadLocation : string → result location).
Context (cron_parse : string → result cron) (cron_next : cron → location → time → time).
Context (format_rfc3339 : time → string).

Lemma select_due_some now env n db l db' k sc :
  select_due now env n db = Ok (l, db') → schedules db !! k = Some sc → s_enabled sc = true →
  s_next_execution_at sc ≤ now → env_locked env n k = false → l ≠ [].
Proof.
  intros [= <- <-] Hk He Hn Hl Hnil. apply (f_equal length) in Hnil.
  rewrite length_take, order_by_perm in Hnil. simpl in Hnil.
  assert ((k, sc) ∈ rows_where (env_rank env n) (λ k s, s_enabled s &&
    bool_decide (s_next_execution_at s ≤ now) && negb (env_locked env n k)) (schedules db)) as Hin.
  { apply elem_of_rows_where. split; [done|]. by rewrite He, Hl, bool_decide_true. }
  destruct (rows_where _ _ _); [by apply not_elem_of_nil in Hin|]. simpl in Hnil. lia.
Qed.

(** C38: a due schedule stops the scheduler.  [fireSchedules] issues its UPDATE
    on the transaction whose result set is still open, which the connection
    refuses; so while an enabled schedule is due and not locked elsewhere,
    [fireSchedules] and the whole [tick] return an error and change nothing: no
    run is created, and no retry, expired lease or ready task is handled. *)
Theorem due_schedule_blocks_tick env s k sc :
  schedules (s_db s) !! k = Some sc → s_enabled sc = true →
  s_next_execution_at sc ≤ env_now env (s_tick s) → env_locked env (S (s_tick s)) k = false →
  ∃ e s', tick LoadLocation cron_parse cron_next format_rfc3339 env s = (Err e, s') ∧
          s_db s' = s_db s.
Proof.
  intros Hk He Hn Hl.
  assert (∃ e s', fireSchedules LoadLocation cron_parse cron_next format_rfc3339 env s = (Err e, s')
    ∧ s_db s' = s_db s) as (e & s' & Hf & Hdb).
  2: { exists e, s'. split; [|done]. unfold tick, mbind, M_bind. by rewrite Hf. }
  unfold fireSchedules, in_tx, tx_query_open, tx_stmt, mbind at 1, M_bind at 1.
  destruct (env_fault env (s_tick s)); [by do 2 eexists|].
  unfold mbind at 1, M_bind at 1. cbn [s_rows_open s_tick s_db].
  destruct (env_fault env (S (s_tick s))); [by do 2 eexists|].
  destruct (select_due _ env _ (s_db s)) as [[l db]|] eqn:Hsel; [|done].
  pose proof (select_due_some _ _ _ _ _ _ _ _ Hsel Hk He Hn Hl) as Hne.
  destruct l as [|x l]; [done|]. cbn [s_rows_open s_tick s_db].
  destruct (advance_busy LoadLocation cron_parse cron_next x l env (mkSess (S (S (s_tick s))) true db)) as (e & s1 & Ha); [done|].
  unfold mbind at 1, M_bind at 1. rewrite Ha. by do 2 eexists.
Qed.
End Busy.
