(* ===== verification/Numbering.v ===== *)
(** Which identifiers an operation draws.

    Identifiers come from the environment, one per statement counter.  [numbers m]
    says that the counter only grows and that every event [m] adds has the
    identifier of one of the counters it passed, so that identifiers that were
    fresh before are fresh after it. *)
From S2P Require Import Prelude State Json Schema Sql StoreWorker StoreWorkflow Scheduler Preserve Refinement WorkerSpec SchedulerSpec.

Definition numbered (env : Env) (s s' : Sess) : Prop :=
  (s_tick s ≤ s_tick s')%nat ∧
  ∀ k, is_Some (outbox_events (s_db s') !! k) → is_Some (outbox_events (s_db s) !! k) ∨
    ∃ i, (s_tick s ≤ i < s_tick s')%nat ∧ k = env_uuid env i.

Definition numbers {A} (m : M A) : Prop := ∀ env s r s', m env s = (r, s') → numbered env s s'.

Definition stmt_numbers {A} (f : Stmt A) : Prop := ∀ env n db a db', f env n db = Ok (a, db') →
  ∀ k, is_Some (outbox_events db' !! k) → is_Some (outbox_events db !! k) ∨ k = env_uuid env n.

Create HintDb numbering.

#[export] Instance numbered_preorder env : PreOrder (numbered env).
Proof.
  split; [by intros s; split; [|left]|].
  intros x y z [Hxy Kxy] [Hyz Kyz]. split; [lia|]. intros k [H|(i & ? & ->)]%Kyz.
  - apply Kxy in H as [?|(i & ? & ->)]; [by left|]. right. exists i. split; [lia|done].
  - right. exists i. split; [lia|done].
Qed.

(** Fresh identifiers stay fresh. *)
Lemma numbered_fresh env s s' :
  Inj (=) (=) (env_uuid env) → numbered env s s' → fresh_from env (s_tick s) (s_db s) →
  fresh_from env (s_tick s') (s_db s').
Proof.
  intros Hinj [Hle Hk] Hf m Hm. apply eq_None_not_Some. intros [H|(i & ? & ->%Hinj)]%Hk; [|lia].
  rewrite Hf in H by lia. by destruct H.
Qed.

(** * Rules *)

(** The counter moved and the events did not. *)
Lemma numbered_same env s s' :
  (s_tick s ≤ s_tick s')%nat → outbox_events (s_db s') = outbox_events (s_db s) → numbered env s s'.
Proof. intros Hle He. split; [done|]. rewrite He. by left. Qed.

Lemma numbered_stmt {A} (f : Stmt A) env n open a db db' n' open' :
  stmt_numbers f → f env n db = Ok (a, db') → (n < n')%nat →
  numbered env (mkSess n open db) (mkSess n' open' db').
Proof.
  intros Hf Hr Hn. split; simpl; [lia|]. intros k [?| ->]%(Hf _ _ _ _ _ Hr); [by left|].
  right. exists n. split; [lia|done].
Qed.

Lemma numbers_ret {A} (a : A) : numbers (mret a).
Proof. intros env s r s' [= _ <-]. reflexivity. Qed.

Lemma numbers_throw {A} e : numbers (throw (A := A) e).
Proof. intros env s r s' [= _ <-]. reflexivity. Qed.

Lemma numbers_time_now : numbers time_now.
Proof. intros env s r s' [= _ <-]. apply numbered_same; simpl; [lia|done]. Qed.

Lemma numbers_trace_parent : numbers trace_parent.
Proof. intros env s r s' [= _ <-]. reflexivity. Qed.

Lemma numbers_range_rank : numbers range_rank.
Proof. intros env s r s' [= _ <-]. apply numbered_same; simpl; [lia|done]. Qed.

Lemma numbers_new_uuid : numbers new_uuid.
Proof. intros env s r s' [= _ <-]. apply numbered_same; simpl; [lia|done]. Qed.

Lemma numbers_bind {A B} (m : M A) (k : A → M B) :
  numbers m → (∀ a, numbers (k a)) → numbers (m ≫= k).
Proof.
  intros Hm Hk env s r s'. unfold mbind, M_bind. destruct (m env s) as [[a|e] s1] eqn:H1.
  - intros H2. etransitivity; [by eapply Hm|by eapply Hk].
  - intros [= _ <-]. by eapply Hm.
Qed.

Lemma numbers_try {A} (m : M A) : numbers m → numbers (try m).
Proof.
  intros Hm env s r s'. unfold try. destruct (m env s) as [x s1] eqn:H1. intros [= _ <-]. by eapply Hm.
Qed.

Lemma numbers_mfor {A} (l : list A) f : (∀ x, numbers (f x)) → numbers (mfor l f).
Proof.
  intros Hf. induction l as [|x l IH]; simpl; [apply numbers_ret|]. by apply numbers_bind.
Qed.

Lemma numbers_assign_ids l ids : numbers (assign_ids l ids).
Proof.
  revert ids. induction l as [|k l IH]; intros ids; simpl; [apply numbers_ret|].
  apply numbers_bind; [apply numbers_new_uuid|intros id; apply IH].
Qed.

Lemma numbers_tx_stmt {A} (f : Stmt A) : stmt_numbers f → numbers (tx_stmt f).
Proof.
  intros Hf env [n open db] r s'. unfold tx_stmt. cbn [s_rows_open s_tick s_db].
  destruct open; [intros [= _ <-]; apply numbered_same; simpl; [lia|done]|].
  destruct (env_fault env n); [intros [= _ <-]; apply numbered_same; simpl; [lia|done]|].
  destruct (f env n db) as [[a db']|e] eqn:Hr; intros [= _ <-].
  - eapply numbered_stmt; [exact Hf|exact Hr|lia].
  - apply numbered_same; simpl; [lia|done].
Qed.

Lemma numbers_pool_stmt {A} (f : Stmt A) : stmt_numbers f → numbers (pool_stmt f).
Proof.
  intros Hf env [n open db] r s'. unfold pool_stmt. cbn [s_rows_open s_tick s_db].
  destruct (env_fault env n); [intros [= _ <-]; apply numbered_same; simpl; [lia|done]|].
  destruct (f env n db) as [[a db']|e] eqn:Hr; [|intros [= _ <-]; apply numbered_same; simpl; [lia|done]].
  unfold commit. destruct (env_commit env (S n)); intros [= _ <-];
    first [eapply numbered_stmt; [exact Hf|exact Hr|lia] | apply numbered_same; simpl; [lia|done]].
Qed.

Lemma numbers_in_tx {A} (body : time → M (outcome A)) :
  (∀ now, numbers (body now)) → numbers (in_tx body).
Proof.
  intros Hb env [n open db] r s'. unfold in_tx. cbn [s_tick s_db].
  destruct (env_fault env n); [intros [= _ <-]; apply numbered_same; simpl; [lia|done]|].
  destruct (body _ env (mkSess (S n) false db)) as [x s1] eqn:H1. apply Hb in H1.
  assert (numbered env (mkSess n open db) s1) as H
    by (transitivity (mkSess (S n) false db); [apply numbered_same; simpl; [lia|done]|exact H1]).
  assert (∀ k, (s_tick s1 ≤ k)%nat → numbered env (mkSess n open db) (mkSess k false db)) as Hundo.
  { intros k Hk. destruct H as [Hle _]. apply numbered_same; simpl in *; [lia|done]. }
  destruct x as [[a|a]|e]; [|intros [= _ <-]; by apply Hundo..].
  unfold commit. destruct (env_commit env (s_tick s1)); intros [= _ <-]; try (apply Hundo; lia).
  all: etransitivity; [exact H|]; apply numbered_same; simpl; [lia|done].
Qed.

Lemma stmt_numbers_same {A} (f : Stmt A) :
  stmt_preserves (λ db db', outbox_events db' = outbox_events db) f → stmt_numbers f.
Proof. intros Hf env n db a db' Hr k. rewrite (Hf _ _ _ _ _ Hr). by left. Qed.

Lemma stmt_numbers_insert_outbox now ty id ev p tr : stmt_numbers (insert_outbox now ty id ev p tr).
Proof.
  intros env n db a db' [_ ->]%insert_outbox_Ok k. simpl. destruct (decide (k = env_uuid env n)); [by right|].
  rewrite lookup_insert_ne by done. by left.
Qed.

Lemma stmt_numbers_insert_outbox_from_run now id ev p rid :
  stmt_numbers (insert_outbox_from_run now id ev p rid).
Proof.
  intros env n db a db'. unfold insert_outbox_from_run. destruct (workflow_runs db !! rid).
  - apply stmt_numbers_insert_outbox.
  - intros [= _ <-]. by left.
Qed.

(** Statements on the other tables. *)
Ltac other_table :=
  apply stmt_numbers_same;
  let H := fresh in
  intros ? ? ? ? ? H;
  unfold select_task_run, select_ready, select_expired, count_remaining, update_task, update_run,
    update_attempt, update_tasks, update_runs, update_attempts, insert_attempt,
    select_input_artifact, select_definition, insert_run, insert_task, insert_dependency, update_artifacts,
    insert_audit, sql_check, sql_select in H;
  first [by simplify_eq | repeat case_match; by simplify_eq].

Ltac number_step :=
  lazymatch goal with
  | |- numbers (mbind _ _) => apply numbers_bind; [|intros ?]
  | |- numbers (mfor _ _) => apply numbers_mfor; intros ?
  | |- numbers (in_tx _) => apply numbers_in_tx; intros ?
  | |- numbers (tx_stmt _) => apply numbers_tx_stmt
  | |- numbers (pool_stmt _) => apply numbers_pool_stmt
  | |- numbers (try _) => apply numbers_try
  | |- numbers (mret _) => apply numbers_ret
  | |- numbers (throw _) => apply numbers_throw
  | |- numbers time_now => apply numbers_time_now
  | |- numbers trace_parent => apply numbers_trace_parent
  | |- numbers range_rank => apply numbers_range_rank
  | |- numbers (assign_ids _ _) => apply numbers_assign_ids
  | |- numbers (nowPlus _) => unfold nowPlus
  | |- numbers (available_at _ _) => unfold available_at
  | |- numbers (match ?x with _ => _ end) => destruct x
  | |- stmt_numbers (insert_outbox _ _ _ _ _ _) => apply stmt_numbers_insert_outbox
  | |- stmt_numbers (insert_outbox_from_run _ _ _ _ _) => apply stmt_numbers_insert_outbox_from_run
  | |- stmt_numbers _ => other_table
  end.
Ltac number := repeat number_step.

(** * The operations of a cycle *)

Lemma numbers_LeaseTask id w l : numbers (LeaseTask id w l).
Proof. unfold LeaseTask. number. Qed.

Lemma numbers_StartTask id w : numbers (StartTask id w).
Proof. unfold StartTask. number. Qed.

Lemma numbers_HeartbeatTask id w l : numbers (HeartbeatTask id w l).
Proof. unfold HeartbeatTask, heartbeat_stmt. number. Qed.

Lemma numbers_FailTask id w f : numbers (FailTask id w f).
Proof. unfold FailTask, cancel_not_started. cbv zeta. number. Qed.

Lemma numbers_CompleteTask id w out uri logs : numbers (CompleteTask id w out uri logs).
Proof. unfold CompleteTask, complete_tx. number. Qed.

Lemma numbers_promote_retries : numbers promote_retries.
Proof. unfold promote_retries. number. Qed.

Lemma numbers_recoverExpired : numbers recoverExpired.
Proof. unfold recoverExpired, recover_one. number. Qed.

Lemma numbers_dispatch_ready : numbers dispatch_ready.
Proof. unfold dispatch_ready, dispatch_one. number. Qed.

Lemma numbers_CreateRun t u d k i a : numbers (CreateRun t u d k i a).
Proof.
  unfold CreateRun, populate_run, attach_artifact, insert_tasks, insert_dependencies, getRunTx, input_artifact_uri.
  number.
Qed.
