(* ===== verification/OutboxSpec.v ===== *)
(** The outbox protocol: any number of publishers that may stall, lose their
    claims or crash, while the operations of the engine go on.

    [cstep] interleaves the operations of the engine with the statements and
    deliveries of the publishers; every call of [publishClaimedBatch] is an
    execution of it.  The invariant gives delivery before acknowledgement, the
    claim gives the order of each key, and the outbox drains when nothing fails. *)
From S2P Require Import Prelude Go Model Dag State Json Schema Sql StoreWorker StoreWorkflow Scheduler Outbox Auth Artifacts RateLimit Api Preserve Frame Lifecycle Refinement Creation Aloof System History WorkerSpec.

(** * The protocol *)

(** Where a publisher is in [publishClaimedBatch]; one that is not listed is
    between batches. *)
Inductive pstate : Type :=
  | Sending (token : uuid) (todo : list event)
  | Acking (token : uuid) (e : event) (todo : list event)
  | Releasing (token : uuid).

Record Cluster := mkCluster {
  c_db : Db;
  c_topic : list Message;
  c_pubs : gmap nat pstate
}.

Definition published (o : OutboxRow) : Prop := o_published_at o ≠ None.

(** The operations of the engine that are not the publishers'. *)
Definition publisher_op (o : op) : bool :=
  match o with OpClaimEvents _ _ _ | OpAckEvent _ _ | OpReleaseClaims _ => true | _ => false end.

(** A statement that failed, or whose effect was committed all the same. *)
Definition perhaps {A} (f : Stmt A) (db db' : Db) : Prop :=
  db' = db ∨ ∃ env n a, f env n db = Ok (a, db').

Inductive cstep (c : Cluster) : Cluster → Prop :=
  | cs_claim i batch token ttl env n events db' :
      c_pubs c !! i = None → claim_stmt batch token ttl env n (c_db c) = Ok (events, db') →
      cstep c (mkCluster db' (c_topic c) (<[i := Sending token events]> (c_pubs c)))
  | cs_claim_lost batch token ttl db' :
      perhaps (claim_stmt batch token ttl) (c_db c) db' →
      cstep c (mkCluster db' (c_topic c) (c_pubs c))
  | cs_send i token e todo :
      c_pubs c !! i = Some (Sending token (e :: todo)) →
      cstep c (mkCluster (c_db c) (c_topic c ++ [message_of e])
                 (<[i := Acking token e todo]> (c_pubs c)))
  | cs_send_failed i token e todo (sent : bool) :
      c_pubs c !! i = Some (Sending token (e :: todo)) →
      cstep c (mkCluster (c_db c) (if sent then c_topic c ++ [message_of e] else c_topic c)
                 (<[i := Releasing token]> (c_pubs c)))
  | cs_ack i token e todo env n row db' :
      c_pubs c !! i = Some (Acking token e todo) →
      ack_stmt token (ev_id e) env n (c_db c) = Ok ([row], db') →
      cstep c (mkCluster db' (c_topic c) (<[i := Sending token todo]> (c_pubs c)))
  | cs_ack_failed i token e todo db' :
      c_pubs c !! i = Some (Acking token e todo) →
      perhaps (ack_stmt token (ev_id e)) (c_db c) db' →
      cstep c (mkCluster db' (c_topic c) (<[i := Releasing token]> (c_pubs c)))
  | cs_release i token db' :
      c_pubs c !! i = Some (Releasing token) → perhaps (release_stmt token) (c_db c) db' →
      cstep c (mkCluster db' (c_topic c) (delete i (c_pubs c)))
  | cs_done i token :
      c_pubs c !! i = Some (Sending token []) →
      cstep c (mkCluster (c_db c) (c_topic c) (delete i (c_pubs c)))
  | cs_crash i : cstep c (mkCluster (c_db c) (c_topic c) (delete i (c_pubs c)))
  | cs_engine o env n open r s' :
      publisher_op o = false → exec o env (mkSess n open (c_db c)) = (r, s') →
      cstep c (mkCluster (s_db s') (c_topic c) (c_pubs c)).

(** No message sent, no publisher at work, no event marked published. *)
Record cluster_initial (c : Cluster) : Prop := {
  ci_topic : c_topic c = [];
  ci_pubs : c_pubs c = ∅;
  ci_events : ∀ k o, outbox_events (c_db c) !! k = Some o → o_published_at o = None
}.

Definition cluster_reachable (c : Cluster) : Prop := ∃ c0, cluster_initial c0 ∧ rtc cstep c0 c.

(** * What the engine does to the outbox *)

(** It adds events, unclaimed and to be published. *)
Record produces (db db' : Db) : Prop := {
  pr_old : outbox_events db ⊆ outbox_events db';
  pr_new : ∀ k o, outbox_events db' !! k = Some o →
    outbox_events db !! k = Some o ∨ (o_published_at o = None ∧ o_claim_token o = None)
}.

#[export] Instance produces_preorder : PreOrder produces.
Proof.
  split; [split; eauto|]. intros x y z [Exy Nxy] [Eyz Nyz].
  split; [by etransitivity|]. intros k o [?%Nxy|?]%Nyz; eauto.
Qed.

Lemma produces_same db db' : outbox_events db' = outbox_events db → produces db db'.
Proof. intros He. split; [by rewrite He|rewrite He; by left]. Qed.

Lemma produces_insert_outbox now ty id ev p tr : stmt_preserves produces (insert_outbox now ty id ev p tr).
Proof.
  intros env n db a db' [Hn ->]%insert_outbox_Ok. split; simpl; [by apply insert_subseteq|].
  intros k o. destruct (decide (k = env_uuid env n)) as [->|].
  - rewrite lookup_insert_eq. intros [= <-]. by right.
  - rewrite lookup_insert_ne by done. by left.
Qed.

Lemma produces_insert_outbox_from_run now id ev p rid :
  stmt_preserves produces (insert_outbox_from_run now id ev p rid).
Proof.
  intros env n db a db'. unfold insert_outbox_from_run. destruct (workflow_runs db !! rid).
  - apply produces_insert_outbox.
  - by intros [= _ <-].
Qed.
#[export] Hint Resolve produces_insert_outbox produces_insert_outbox_from_run : preserve.

(** Statements on the other tables. *)
Ltac produces_nothing :=
  let H := fresh in
  intros ? ? ? ? ? H;
  unfold heartbeat_stmt, cancel_not_started, update_task, update_run, update_attempt, update_tasks, update_runs,
    update_attempts, insert_attempt, insert_definition, insert_run, insert_task, insert_dependency,
    update_artifacts, insert_artifact, insert_audit, insert_api_key, update_api_key, touch_api_key,
    insert_schedule, update_schedule_row, sql_check, sql_select in H;
  repeat case_match; simplify_eq; by apply produces_same.
#[export] Hint Extern 20 (stmt_preserves produces _) => produces_nothing : preserve.

Lemma produces_exec o : publisher_op o = false → preserves produces (exec o).
Proof.
  intros Ho. destruct o; try done; simpl; try (apply preserves_run_unit; [apply _|]).
  all: unfold CreateWorkflow, CreateVersion, CreateRun, populate_run, attach_artifact, insert_tasks,
    insert_dependencies, getRunTx, input_artifact_uri, CancelRun, RetryRun, LeaseTask, StartTask, HeartbeatTask,
    CompleteTask, complete_tx, FailTask, ReplayDead, WorkerHeartbeat, promote_retries, recoverExpired, recover_one,
    dispatch_ready, dispatch_one, available_at, nowPlus, CreateAPIKey, RotateAPIKey, RevokeAPIKey, audit,
    CreateArtifact, CompleteArtifact, AttachArtifactToRun, validate.
  all: cbv zeta; preserve.
Qed.

(** * Rows of the outbox *)

(** The columns that no statement of the protocol changes. *)
Definition same_event (o o' : OutboxRow) : Prop :=
  o_ordering_key o' = o_ordering_key o ∧ o_payload o' = o_payload o ∧
  o_event_type o' = o_event_type o ∧ o_created_at o' = o_created_at o.

(** The statements of the protocol keep every event, and published events
    published. *)
Record evolves (m m' : gmap uuid OutboxRow) : Prop := {
  evo_back : ∀ k o', m' !! k = Some o' → ∃ o, m !! k = Some o ∧ same_event o o' ∧ (published o → published o');
  evo_dom : dom m' = dom m
}.

Lemma evolves_lookup m m' k o : evolves m m' → m !! k = Some o →
  ∃ o', m' !! k = Some o' ∧ same_event o o' ∧ (published o → published o').
Proof.
  intros [Hb Hd] Hk. assert (is_Some (m' !! k)) as [o' Hk'].
  { apply elem_of_dom. rewrite Hd. by apply elem_of_dom. }
  destruct (Hb _ _ Hk') as (o1 & Ho1 & ?). simplify_eq. eauto.
Qed.

Lemma evolves_update P f m :
  (∀ o, same_event o (f o) ∧ (published o → published (f o))) → evolves m (update_where P f m).
Proof.
  intros Hf. split; [|apply dom_update_where]. intros k o'. rewrite lookup_update_where.
  intros (o & Ho & ->)%fmap_Some. exists o. split; [done|].
  destruct (P k o); [apply Hf|done].
Qed.

Lemma earlier_same k o1 o1' k2 o2 o2' :
  same_event o1 o1' → same_event o2 o2' → earlier (k, o1') (k2, o2') = earlier (k, o1) (k2, o2).
Proof.
  intros (_ & _ & _ & H1) (_ & _ & _ & H2). unfold earlier, event_keys. simpl. by rewrite H1, H2.
Qed.

(** The message that announces an event. *)
Definition message_for (k : uuid) (o : OutboxRow) : Message :=
  mkMessage (o_ordering_key o) (o_payload o) (o_event_type o) k.

Lemma message_same k o o' : same_event o o' → message_for k o' = message_for k o.
Proof. intros (H1 & H2 & H3 & _). unfold message_for. congruence. Qed.

(** * The invariant *)

Definition sent (k : uuid) (l : list Message) : Prop := ∃ m, m ∈ l ∧ m_event_id m = k.

(** A publisher may send [e]: it is an event of the outbox. *)
Definition sendable (m : gmap uuid OutboxRow) (e : event) : Prop :=
  ∃ o, m !! ev_id e = Some o ∧ message_of e = message_for (ev_id e) o.

Record topic_ok (m : gmap uuid OutboxRow) (topic : list Message) : Prop := {
  to_published : ∀ k o, m !! k = Some o → published o → sent k topic;
  to_event : ∀ x, x ∈ topic → ∃ o, m !! m_event_id x = Some o ∧ x = message_for (m_event_id x) o
}.

Definition in_hand (p : pstate) : list event :=
  match p with Sending _ l => l | Acking _ e l => e :: l | Releasing _ => [] end.

Record pub_ok (m : gmap uuid OutboxRow) (topic : list Message) (p : pstate) : Prop := {
  po_hand : ∀ e, e ∈ in_hand p → sendable m e;
  po_acking : ∀ token e l, p = Acking token e l → message_of e ∈ topic
}.

Definition outbox_inv (c : Cluster) : Prop :=
  topic_ok (outbox_events (c_db c)) (c_topic c) ∧
  map_Forall (λ _, pub_ok (outbox_events (c_db c)) (c_topic c)) (c_pubs c).

(** * Preservation *)

Lemma list_snoc_split {A} (l l1 l2 : list A) x y :
  l ++ [y] = l1 ++ x :: l2 → (l1 = l ∧ x = y ∧ l2 = []) ∨ ∃ l2', l = l1 ++ x :: l2'.
Proof.
  destruct l2 as [|z l2 _] using rev_ind; intros H.
  - apply app_inj_tail in H as [-> ->]. by left.
  - right. exists l2. rewrite app_comm_cons, app_assoc in H. by apply app_inj_tail in H as [-> _].
Qed.

Lemma sent_app k l1 l2 : sent k l1 → sent k (l1 ++ l2).
Proof. intros (x & Hx & <-). exists x. split; [apply elem_of_app; by left|done]. Qed.

Lemma sendable_evolves m m' e : evolves m m' → sendable m e → sendable m' e.
Proof.
  intros Hev (o & Ho & Hm). destruct (evolves_lookup _ _ _ _ Hev Ho) as (o' & Ho' & Hs & _).
  exists o'. split; [done|by rewrite (message_same _ _ _ Hs)].
Qed.

Lemma sendable_produces db db' e :
  produces db db' → sendable (outbox_events db) e → sendable (outbox_events db') e.
Proof. intros [Hold _] (o & Ho & Hm). exists o. split; [by eapply lookup_weaken|done]. Qed.

Lemma topic_evolves m m' topic :
  evolves m m' → (∀ k o', m' !! k = Some o' → published o' → (∃ o, m !! k = Some o ∧ published o) ∨ sent k topic) →
  topic_ok m topic → topic_ok m' topic.
Proof.
  intros Hev Hnew [Hpub Hevent]. split.
  - intros k o' Hk Hp. destruct (Hnew _ _ Hk Hp) as [(o & Ho & Hpo)|]; eauto.
  - intros x Hx. destruct (Hevent x Hx) as (o & Ho & Hmsg).
    destruct (evolves_lookup _ _ _ _ Hev Ho) as (o' & Ho' & Hs & _).
    exists o'. by rewrite (message_same _ _ _ Hs).
Qed.

Lemma topic_produces db db' topic :
  produces db db' → topic_ok (outbox_events db) topic → topic_ok (outbox_events db') topic.
Proof.
  intros [Hold Hnew] [Hpub Hevent]. split.
  - intros k o Hk Hp. destruct (Hnew _ _ Hk) as [?|[? _]]; [eauto|done].
  - intros x Hx. destruct (Hevent x Hx) as (o & Ho & Hm). exists o.
    split; [by eapply lookup_weaken|done].
Qed.

Lemma topic_send m topic e : sendable m e → topic_ok m topic → topic_ok m (topic ++ [message_of e]).
Proof.
  intros (o & Ho & Hm) [Hpub Hevent]. split.
  - intros k o1 Hk Hk1. apply sent_app. eauto.
  - intros x [Hx|Hx]%elem_of_app; [by apply Hevent|].
    apply list_elem_of_singleton in Hx as ->. exists o. by rewrite Hm.
Qed.

(** The statements of the protocol. *)
Lemma claim_evolves batch token ttl env n db events db' :
  claim_stmt batch token ttl env n db = Ok (events, db') →
  evolves (outbox_events db) (outbox_events db') ∧
  (∀ k o', outbox_events db' !! k = Some o' → published o' →
     ∃ o, outbox_events db !! k = Some o ∧ published o).
Proof.
  intros [= <- <-]. simpl. split; [by apply evolves_update|]. intros k o'.
  rewrite lookup_update_where. intros (o & -> & ->)%fmap_Some. case_bool_decide; eauto.
Qed.

Lemma release_evolves token env n db rows db' :
  release_stmt token env n db = Ok (rows, db') →
  evolves (outbox_events db) (outbox_events db') ∧
  (∀ k o', outbox_events db' !! k = Some o' → published o' →
     ∃ o, outbox_events db !! k = Some o ∧ published o).
Proof.
  intros [= <- <-]. simpl. split; [by apply evolves_update|]. intros k o'.
  rewrite lookup_update_where. intros (o & -> & ->)%fmap_Some.
  destruct (bool_decide _ && _); eauto.
Qed.

Lemma ack_evolves token id env n db rows db' :
  ack_stmt token id env n db = Ok (rows, db') →
  evolves (outbox_events db) (outbox_events db') ∧
  (∀ k o', outbox_events db' !! k = Some o' → published o' →
     (∃ o, outbox_events db !! k = Some o ∧ published o) ∨ k = id).
Proof.
  intros [= <- <-]. simpl. split; [by apply evolves_update|]. intros k o'.
  rewrite lookup_update_where. intros (o & -> & ->)%fmap_Some.
  destruct (_ && bool_decide _) eqn:Hg; [|eauto]. bool_split. auto.
Qed.

Lemma candidates_spec batch env n m k o :
  (k, o) ∈ candidates batch env n m →
  m !! k = Some o ∧ unpublished o = true ∧ head_of_key m k o = true.
Proof.
  intros Hin. eapply elem_of_sublist in Hin; [|apply sublist_take].
  rewrite elem_of_order_by_keys, elem_of_rows_where in Hin. destruct Hin as [Hk Hg]. by bool_split.
Qed.

Lemma head_of_key_spec m k o : head_of_key m k o = true →
  ∀ k' o', m !! k' = Some o' → o_ordering_key o' = o_ordering_key o →
    earlier (k', o') (k, o) = true → published o'.
Proof.
  unfold head_of_key. rewrite forallb_forall. intros Hall k' o' Hk' Hkey He Hu.
  specialize (Hall (k', o')). rewrite <-list_elem_of_In, elem_of_map_to_list in Hall.
  specialize (Hall Hk'). simpl in Hall. rewrite bool_decide_true, He in Hall by done.
  unfold unpublished in Hall. by rewrite bool_decide_true in Hall.
Qed.

(** What a claim hands out: events whose predecessors are all published. *)
Lemma claimed_first batch token ttl env n db events db' e :
  claim_stmt batch token ttl env n db = Ok (events, db') → e ∈ events →
  ∃ o, outbox_events db !! ev_id e = Some o ∧ message_of e = message_for (ev_id e) o ∧
    ∀ k' o', outbox_events db !! k' = Some o' → o_ordering_key o' = o_ordering_key o →
      earlier (k', o') (ev_id e, o) = true → published o'.
Proof.
  intros Hc He. injection Hc as <- <-. simpl in *.
  apply list_elem_of_fmap in He as ([k o'] & -> & [Hk Hin]%elem_of_rows_where).
  apply bool_decide_eq_true, list_elem_of_fmap in Hin as ([k0 o] & -> & Hcand). simpl in *.
  pose proof (candidates_spec _ _ _ _ _ _ Hcand) as (Ho & _ & Hh).
  rewrite lookup_update_where, Ho in Hk. simpl in Hk. rewrite bool_decide_true in Hk.
  2: { by apply (list_elem_of_fmap_2 fst _ (k0, o)). }
  injection Hk as <-. exists o. split_and!; [done..|]. by apply head_of_key_spec.
Qed.

Lemma claimed_sendable batch token ttl env n db events db' e :
  claim_stmt batch token ttl env n db = Ok (events, db') → e ∈ events →
  sendable (outbox_events db') e.
Proof.
  intros Hc He. pose proof (claim_evolves _ _ _ _ _ _ _ _ Hc) as [Hev _].
  eapply sendable_evolves; [exact Hev|]. destruct (claimed_first _ _ _ _ _ _ _ _ _ Hc He) as (o & Ho & Hm & _).
  by exists o.
Qed.

Lemma perhaps_evolves {A} (f : Stmt A) db db' :
  (∀ env n a db', f env n db = Ok (a, db') → evolves (outbox_events db) (outbox_events db') ∧
     (∀ k o', outbox_events db' !! k = Some o' → published o' →
        ∃ o, outbox_events db !! k = Some o ∧ published o)) →
  perhaps f db db' →
  evolves (outbox_events db) (outbox_events db') ∧
  (∀ k o', outbox_events db' !! k = Some o' → published o' →
     ∃ o, outbox_events db !! k = Some o ∧ published o).
Proof.
  intros Hf [->|(env & n & a & Ha)]; [|by eapply Hf].
  split; [|eauto]. split; [|done]. intros k o Hk. exists o. by split_and!.
Qed.

Lemma pub_evolves m m' topic p : evolves m m' → pub_ok m topic p → pub_ok m' topic p.
Proof. intros Hev [Hh Ha]. split; [|done]. intros e He. by eapply sendable_evolves, Hh. Qed.

Lemma pub_topic m topic l p : pub_ok m topic p → pub_ok m (topic ++ l) p.
Proof. intros [Hh Ha]. split; [done|]. intros. apply elem_of_app. left. eauto. Qed.

(** A step that only changes the database: nothing becomes published that was
    not sent. *)
Lemma outbox_inv_evolves c db' :
  evolves (outbox_events (c_db c)) (outbox_events db') →
  (∀ k o', outbox_events db' !! k = Some o' → published o' →
     (∃ o, outbox_events (c_db c) !! k = Some o ∧ published o) ∨ sent k (c_topic c)) →
  outbox_inv c → outbox_inv (mkCluster db' (c_topic c) (c_pubs c)).
Proof.
  intros Hev Hnew [Ht Hp]. split; simpl; [by eapply topic_evolves|].
  eapply map_Forall_impl; [exact Hp|]. intros i p. by apply pub_evolves.
Qed.

Lemma outbox_inv_send c e : sendable (outbox_events (c_db c)) e → outbox_inv c →
  outbox_inv (mkCluster (c_db c) (c_topic c ++ [message_of e]) (c_pubs c)).
Proof.
  intros He [Ht Hp]. split; simpl; [by apply topic_send|].
  eapply map_Forall_impl; [exact Hp|]. intros i p. by apply pub_topic.
Qed.

(** A step that only moves one publisher. *)
Lemma outbox_inv_move c i p :
  pub_ok (outbox_events (c_db c)) (c_topic c) p → outbox_inv c →
  outbox_inv (mkCluster (c_db c) (c_topic c) (<[i := p]> (c_pubs c))).
Proof. intros Hok [Ht Hp]. split; simpl; [done|]. by apply map_Forall_insert_2. Qed.

Lemma outbox_inv_delete c i : outbox_inv c → outbox_inv (mkCluster (c_db c) (c_topic c) (delete i (c_pubs c))).
Proof. intros [Ht Hp]. split; simpl; [done|]. by apply map_Forall_delete. Qed.

Lemma releasing_ok m topic token : pub_ok m topic (Releasing token).
Proof. split; [by intros e ?%not_elem_of_nil|done]. Qed.

Lemma ack_inv c i token e todo env n rows db' :
  c_pubs c !! i = Some (Acking token e todo) →
  ack_stmt token (ev_id e) env n (c_db c) = Ok (rows, db') →
  outbox_inv c → outbox_inv (mkCluster db' (c_topic c) (c_pubs c)).
Proof.
  intros Hi Ha Hinv. pose proof (ack_evolves _ _ _ _ _ _ _ Ha) as [Hev Hnew].
  apply outbox_inv_evolves; [done| |done]. intros k o' Hk Hp.
  destruct (Hnew k o' Hk Hp) as [?| ->]; [by left|right].
  destruct Hinv as [_ Hpubs]. apply Hpubs in Hi as [_ Hack].
  exists (message_of e). split; [by eapply Hack|done].
Qed.

Lemma outbox_step c c' : cstep c c' → outbox_inv c → outbox_inv c'.
Proof.
  intros Hstep Hinv. pose proof Hinv as [Ht Hp]. destruct Hstep.
  - pose proof (claim_evolves _ _ _ _ _ _ _ _ H0) as [Hev Hnew].
    apply (outbox_inv_move (mkCluster db' (c_topic c) (c_pubs c))); simpl.
    + split; [|done]. intros e He. by eapply claimed_sendable.
    + apply outbox_inv_evolves; [done| |done]. intros. left. eauto.
  - apply perhaps_evolves in H as [Hev Hnew]; [|intros ???? Hc; apply (claim_evolves _ _ _ _ _ _ _ _ Hc)].
    apply outbox_inv_evolves; [done| |done]. intros. left. eauto.
  - pose proof (Hp _ _ H) as [Hh _]. simpl in Hh.
    apply (outbox_inv_move (mkCluster (c_db c) (c_topic c ++ [message_of e]) (c_pubs c))); simpl.
    + split; simpl; [done|]. intros ? ? ? [= -> -> ->]. apply elem_of_app. right. by left.
    + apply outbox_inv_send; [|done]. apply Hh. by left.
  - pose proof (Hp _ _ H) as [Hh _]. simpl in Hh.
    destruct sent0; [|by apply outbox_inv_move; [apply releasing_ok|]].
    apply (outbox_inv_move (mkCluster (c_db c) (c_topic c ++ [message_of e]) (c_pubs c)));
      [apply releasing_ok|]. apply outbox_inv_send; [|done]. apply Hh. by left.
  - pose proof (Hp _ _ H) as [Hh _]. simpl in Hh.
    pose proof (ack_evolves _ _ _ _ _ _ _ H0) as [Hev _].
    apply (outbox_inv_move (mkCluster db' (c_topic c) (c_pubs c))); [|by eapply ack_inv].
    split; simpl; [|done]. intros x Hx. eapply sendable_evolves; [exact Hev|]. apply Hh. by right.
  - apply (outbox_inv_move (mkCluster db' (c_topic c) (c_pubs c))); [apply releasing_ok|].
    destruct H0 as [->|(env & n & a & Ha)]; [by destruct c|by eapply ack_inv].
  - apply perhaps_evolves in H0 as [Hev Hnew]; [|intros ???? Hr; apply (release_evolves _ _ _ _ _ _ Hr)].
    apply (outbox_inv_delete (mkCluster db' (c_topic c) (c_pubs c))), outbox_inv_evolves;
      [done| |done]. intros. left. eauto.
  - by apply outbox_inv_delete.
  - by apply outbox_inv_delete.
  - apply (produces_exec _ H) in H0. simpl in H0.
    split; simpl; [by eapply topic_produces|]. eapply map_Forall_impl; [exact Hp|].
    intros i p [Hh Ha]. split; [|done]. intros e He. by eapply sendable_produces, Hh.
Qed.

Lemma cluster_inv c : cluster_reachable c → outbox_inv c.
Proof.
  intros (c0 & [Htop Hpubs Hev] & Hs). assert (outbox_inv c0) as H0.
  { split; rewrite ?Hpubs; [|apply map_Forall_empty]. rewrite Htop. split.
    - intros k o Hk Hp. by apply Hev in Hk.
    - by intros x ?%not_elem_of_nil. }
  clear Htop Hpubs Hev. induction Hs as [|c1 c2 c3 H12 _ IH]; [done|]. by apply IH, (outbox_step c1).
Qed.

(** * The order of a key *)

(** Events keep what decides their order. *)
Lemma cstep_rows c c' k o :
  cstep c c' → outbox_events (c_db c) !! k = Some o →
  ∃ o', outbox_events (c_db c') !! k = Some o' ∧ same_event o o'.
Proof.
  assert (∀ db db', evolves (outbox_events db) (outbox_events db') → outbox_events db !! k = Some o →
    ∃ o', outbox_events db' !! k = Some o' ∧ same_event o o') as Hevolves.
  { intros db db' Hev Hk. destruct (evolves_lookup _ _ _ _ Hev Hk) as (o' & ? & ? & _). eauto. }
  assert (∃ o', Some o = Some o' ∧ same_event o o') as Hsame by by exists o.
  intros Hstep Hk. destruct Hstep; simpl; rewrite ?Hk; try exact Hsame.
  - eapply Hevolves; [|exact Hk]. by apply (claim_evolves _ _ _ _ _ _ _ _ H0).
  - destruct H as [->|(env & n & a & Ha)]; [by rewrite Hk|].
    eapply Hevolves; [|exact Hk]. by apply (claim_evolves _ _ _ _ _ _ _ _ Ha).
  - eapply Hevolves; [|exact Hk]. by apply (ack_evolves _ _ _ _ _ _ _ H0).
  - destruct H0 as [->|(env & n & a & Ha)]; [by rewrite Hk|].
    eapply Hevolves; [|exact Hk]. by apply (ack_evolves _ _ _ _ _ _ _ Ha).
  - destruct H0 as [->|(env & n & a & Ha)]; [by rewrite Hk|].
    eapply Hevolves; [|exact Hk]. by apply (release_evolves _ _ _ _ _ _ Ha).
  - apply (produces_exec _ H) in H0 as [Hold _]. exists o. split; [by eapply lookup_weaken|done].
Qed.

(** The events of a step that were there before it, and those it hands to a
    publisher or to the topic. *)
Lemma same_event_order k o1 o1' k2 o2 o2' :
  same_event o1 o1' → same_event o2 o2' → o_ordering_key o1' = o_ordering_key o2' →
  earlier (k, o1') (k2, o2') = true → o_ordering_key o1 = o_ordering_key o2 ∧ earlier (k, o1) (k2, o2) = true.
Proof.
  intros H1 H2 Hkey He. rewrite (earlier_same _ _ _ _ _ _ H1 H2) in He.
  destruct H1 as (? & _), H2 as (? & _). split; [congruence|done].
Qed.

Section Order.
(** [k'] is visible from [c0] on, where nobody holds the event [y]. *)
Context (c0 : Cluster) (k' y : uuid).

(** The earlier event was sent before [y] was taken up, and before every later
    message of [y]. *)
Record ordered (c : Cluster) (l : list Message) : Prop := {
  or_topic : c_topic c = c_topic c0 ++ l;
  or_hand : ∀ i p e, c_pubs c !! i = Some p → e ∈ in_hand p → ev_id e = y → sent k' (c_topic c);
  or_sent : ∀ l1 x l2, l = l1 ++ x :: l2 → m_event_id x = y → sent k' (c_topic c0 ++ l1)
}.

(** A publisher changes its state. *)
Lemma ordered_move c l db' i p :
  ordered c l → (∀ e, e ∈ in_hand p → ev_id e = y → sent k' (c_topic c)) →
  ordered (mkCluster db' (c_topic c) (<[i := p]> (c_pubs c))) l.
Proof.
  intros [Ht Hh Hs] Hp. split; [done| |done]. simpl. intros j q e.
  rewrite lookup_insert_Some. intros [[_ <-]|[_ Hj]]; eauto.
Qed.

Lemma ordered_delete c l db' i : ordered c l → ordered (mkCluster db' (c_topic c) (delete i (c_pubs c))) l.
Proof.
  intros [Ht Hh Hs]. split; [done| |done]. simpl. intros j q e [_ Hj]%lookup_delete_Some. eauto.
Qed.

Lemma ordered_db c l db' : ordered c l → ordered (mkCluster db' (c_topic c) (c_pubs c)) l.
Proof. by intros [Ht Hh Hs]. Qed.

Lemma ordered_send c l db' i p e :
  ordered c l → (ev_id e = y → sent k' (c_topic c)) → (∀ x, x ∈ in_hand p → ev_id x = y → sent k' (c_topic c)) →
  ordered (mkCluster db' (c_topic c ++ [message_of e]) (<[i := p]> (c_pubs c))) (l ++ [message_of e]).
Proof.
  intros [Ht Hh Hs] He Hp. split; simpl.
  - by rewrite Ht, app_assoc.
  - intros j q x. rewrite lookup_insert_Some. intros [[_ <-]|[_ Hj]] Hx Hy; apply sent_app; eauto.
  - intros l1 x l2 Hl Hx. destruct (list_snoc_split _ _ _ _ _ Hl) as [(-> & -> & ->)|(l2' & Hl')]; [|eauto].
    rewrite <-Ht. by apply He.
Qed.

(** Nothing happened to [y] while it is not in the outbox. *)
Lemma ordered_absent c l :
  outbox_inv c → c_topic c = c_topic c0 ++ l → outbox_events (c_db c) !! y = None → ordered c l.
Proof.
  intros [[_ Hev] Hpubs] Ht Hy. split; [done|..].
  - intros i p e Hi He Hid. apply Hpubs in Hi as [Hh _]. destruct (Hh e He) as (o & Ho & _). congruence.
  - intros l1 x l2 Hl Hx. destruct (Hev x) as (o & Ho & _); [|congruence].
    rewrite Ht, Hl. apply elem_of_app. right. apply elem_of_app. right. by left.
Qed.

(** The claim is what takes [y] up: [k'] is published by then. *)
Lemma ordered_claim c l batch token ttl env n events db' i o' o :
  outbox_inv c → claim_stmt batch token ttl env n (c_db c) = Ok (events, db') →
  outbox_events (c_db c) !! k' = Some o' → outbox_events (c_db c) !! y = Some o →
  o_ordering_key o' = o_ordering_key o → earlier (k', o') (y, o) = true →
  ordered c l → ordered (mkCluster db' (c_topic c) (<[i := Sending token events]> (c_pubs c))) l.
Proof.
  intros [[Hpub _] _] Hc Hk Hy Hkey He Ho. apply ordered_move; [done|]. simpl. intros e Hin Hid.
  destruct (claimed_first _ _ _ _ _ _ _ _ _ Hc Hin) as (o1 & Ho1 & _ & Hfirst). rewrite Hid in Ho1, Hfirst.
  assert (o1 = o) as -> by congruence. eauto.
Qed.

Lemma ordered_step c c' l o' o :
  outbox_inv c → cstep c c' →
  outbox_events (c_db c) !! k' = Some o' → outbox_events (c_db c) !! y = Some o →
  o_ordering_key o' = o_ordering_key o → earlier (k', o') (y, o) = true →
  ordered c l → ∃ l', ordered c' l'.
Proof.
  intros Hinv Hstep Hk Hy Hkey He Ho. pose proof (or_hand _ _ Ho) as Hhand. destruct Hstep.
  - exists l. by eapply ordered_claim.
  - exists l. by apply ordered_db.
  - exists (l ++ [message_of e]). apply ordered_send; [done|..]; simpl.
    + intros. eapply (Hhand _ _ e H); [by left|done].
    + intros x Hx. by apply (Hhand _ _ x H).
  - pose proof (Hhand _ _ e H ltac:(by left)) as He'.
    destruct sent0; [exists (l ++ [message_of e]); apply ordered_send|exists l; apply ordered_move]; try done.
    all: simpl; by intros ? ?%not_elem_of_nil.
  - exists l. apply ordered_move; [done|]. simpl. intros x Hx. apply (Hhand _ _ x H). by right.
  - exists l. apply ordered_move; [done|]. simpl. by intros ? ?%not_elem_of_nil.
  - exists l. by apply ordered_delete.
  - exists l. by apply ordered_delete.
  - exists l. by apply ordered_delete.
  - exists l. by apply ordered_db.
Qed.
End Order.

(** Only the engine adds events. *)
Lemma cstep_new c c' y o :
  cstep c c' → outbox_events (c_db c) !! y = None → outbox_events (c_db c') !! y = Some o →
  c_topic c' = c_topic c ∧ c_pubs c' = c_pubs c.
Proof.
  assert (∀ db db', evolves (outbox_events db) (outbox_events db') → outbox_events db !! y = None →
    outbox_events db' !! y = Some o → False) as Hevolves.
  { intros db db' Hev Hn Ho. destruct (evo_back _ _ Hev _ _ Ho) as (o1 & ? & _). congruence. }
  intros Hstep Hn Ho. destruct Hstep; simpl in *; try done; try congruence; exfalso.
  - eapply Hevolves; [|exact Hn|exact Ho]. by apply (claim_evolves _ _ _ _ _ _ _ _ H0).
  - eapply Hevolves; [|exact Hn|exact Ho]. by apply (ack_evolves _ _ _ _ _ _ _ H0).
  - destruct H0 as [->|(env & n & a & Ha)]; [congruence|].
    eapply Hevolves; [|exact Hn|exact Ho]. by apply (ack_evolves _ _ _ _ _ _ _ Ha).
  - destruct H0 as [->|(env & n & a & Ha)]; [congruence|].
    eapply Hevolves; [|exact Hn|exact Ho]. by apply (release_evolves _ _ _ _ _ _ Ha).
Qed.

Lemma rtc_rows c c' k o : rtc cstep c c' → outbox_events (c_db c) !! k = Some o →
  is_Some (outbox_events (c_db c') !! k).
Proof.
  intros Hs. revert o. induction Hs as [|c1 c2 c3 H12 _ IH]; intros o Hk; [by eexists|].
  destruct (cstep_rows _ _ _ _ H12 Hk) as (o2 & Ho2 & _). by apply IH in Ho2.
Qed.

Lemma rtc_topic c c' : rtc cstep c c' → ∃ l, c_topic c' = c_topic c ++ l.
Proof.
  induction 1 as [|c1 c2 c3 H12 _ [l ->]]; [exists []; by rewrite app_nil_r|].
  assert (∃ l1, c_topic c2 = c_topic c1 ++ l1) as [l1 ->].
  { destruct H12; simpl; try (exists []; by rewrite app_nil_r); [by eexists|].
    destruct sent0; [by eexists|exists []; by rewrite app_nil_r]. }
  exists (l1 ++ l). by rewrite app_assoc.
Qed.

Lemma cluster_reachable_rtc c c' : cluster_reachable c → rtc cstep c c' → cluster_reachable c'.
Proof. intros (c0 & H0 & Hs) H. exists c0. split; [done|by etransitivity]. Qed.

Lemma ordered_run c0 c k' y o0 o' o :
  cluster_reachable c0 → rtc cstep c0 c → outbox_events (c_db c0) !! k' = Some o0 →
  (∀ i p e, c_pubs c0 !! i = Some p → e ∈ in_hand p → ev_id e ≠ y) →
  outbox_events (c_db c) !! k' = Some o' → outbox_events (c_db c) !! y = Some o →
  o_ordering_key o' = o_ordering_key o → earlier (k', o') (y, o) = true →
  ∃ l, ordered c0 k' y c l.
Proof.
  intros Hreach Hs Hk0 Hfree. revert o' o. pattern c. revert c Hs. apply rtc_ind_r.
  { intros o' o Hk Hy Hkey He. exists []. split; [by rewrite app_nil_r| |by intros [|] ? ? [=]]. intros i p e Hi Hin Hid. by destruct (Hfree i p e Hi Hin). }
  intros c c' Hs Hstep IH o' o Hk Hy Hkey He.
  pose proof (cluster_inv _ (cluster_reachable_rtc _ _ Hreach Hs)) as Hinv.
  destruct (rtc_rows _ _ _ _ Hs Hk0) as [o1 Ho1].
  destruct (cstep_rows _ _ _ _ Hstep Ho1) as (o1' & Ho1' & Hs1). assert (o1' = o') as -> by congruence.
  destruct (outbox_events (c_db c) !! y) as [o2|] eqn:Ho2.
  - destruct (cstep_rows _ _ _ _ Hstep Ho2) as (o2' & Ho2' & Hs2). assert (o2' = o) as -> by congruence.
    destruct (same_event_order _ _ _ _ _ _ Hs1 Hs2 Hkey He) as [Hkey' He'].
    destruct (IH _ _ Ho1 eq_refl Hkey' He') as [l Hl]. by eapply ordered_step.
  - destruct (rtc_topic _ _ Hs) as [l Hl]. exists l.
    destruct (cstep_new _ _ _ _ Hstep Ho2 Hy) as [Ht Hp].
    apply (ordered_absent c0 k' y c l Hinv Hl), (ordered_db c0 k' y c l (c_db c')) in Ho2.
    destruct c'. simpl in *. by rewrite Ht, Hp.
Qed.

(** A topic is made of messages of events. *)
Lemma sent_message c k o l1 l2 :
  outbox_inv c → c_topic c = l1 ++ l2 → outbox_events (c_db c) !! k = Some o → sent k l1 → message_for k o ∈ l1.
Proof.
  intros [[_ Hev] _] Ht Ho (x & Hx & Hid). destruct (Hev x) as (o1 & Ho1 & Hm); [rewrite Ht; apply elem_of_app; by left|].
  rewrite Hid in Ho1, Hm. assert (o1 = o) as -> by congruence. by rewrite <-Hm.
Qed.

(** The order of a key, whatever publishers run side by side.  Take a state in
    which an event [k'] is visible and no publisher has another event of its
    ordering key in hand.  When afterwards, at any time and after any
    interleaving, a message of the other event is sent, and that event is the
    later of the two, the message of [k'] is already on the topic. *)
Theorem outbox_key_order_concurrent c0 c k' o0 o' o l1 x l2 :
  cluster_reachable c0 → rtc cstep c0 c → outbox_events (c_db c0) !! k' = Some o0 →
  (∀ i p e, c_pubs c0 !! i = Some p → e ∈ in_hand p → ev_id e ≠ m_event_id x) →
  c_topic c = c_topic c0 ++ l1 ++ x :: l2 →
  outbox_events (c_db c) !! k' = Some o' → outbox_events (c_db c) !! m_event_id x = Some o →
  o_ordering_key o' = o_ordering_key o → earlier (k', o') (m_event_id x, o) = true →
  message_for k' o' ∈ c_topic c0 ++ l1.
Proof.
  intros Hreach Hs Hk0 Hfree Ht Hk Hy Hkey He.
  destruct (ordered_run _ _ _ _ _ _ _ Hreach Hs Hk0 Hfree Hk Hy Hkey He) as [l [Hl _ Hsent]].
  rewrite Ht in Hl. apply app_inv_head in Hl. pose proof (cluster_inv _ (cluster_reachable_rtc _ _ Hreach Hs)) as Hinv.
  eapply (sent_message c _ _ _ (x :: l2)); [done|by rewrite Ht, app_assoc|done|].
  by eapply Hsent.
Qed.

(** * The code follows the protocol *)

Lemma pool_perhaps {A} (f : Stmt A) env s r s' :
  pool_stmt f env s = (r, s') → perhaps f (s_db s) (s_db s').
Proof. intros [->|(a & db & Hf & -> & _)]%pool_stmt_db; [by left|right; eauto]. Qed.

Section Follows.
Context (s : Service) (env : Env) (bus : Bus) (i : nat) (pubs : gmap nat pstate).
Context (Hfree : pubs !! i = None).

(** The cluster as the publisher [i] sees it. *)
Definition at_state (w : World) (p : pstate) : Cluster :=
  mkCluster (s_db (w_sess w)) (w_topic w) (<[i := p]> pubs).

Definition at_rest (w : World) : Cluster := mkCluster (s_db (w_sess w)) (w_topic w) pubs.

Lemma step_move w p p' db' topic' :
  cstep (at_state w p) (mkCluster db' topic' (<[i := p']> (<[i := p]> pubs))) →
  cstep (at_state w p) (mkCluster db' topic' (<[i := p']> pubs)).
Proof. by rewrite insert_insert_eq. Qed.

Lemma step_rest w p db' topic' :
  cstep (at_state w p) (mkCluster db' topic' (delete i (<[i := p]> pubs))) →
  cstep (at_state w p) (mkCluster db' topic' pubs).
Proof. by rewrite delete_insert_eq, delete_id. Qed.

Lemma release_follows token w r w' :
  releaseClaims token env bus w = (r, w') →
  rtc cstep (at_state w (Releasing token)) (at_rest w').
Proof.
  unfold releaseClaims, ptry, lift, mbind, P_bind. destruct (pool_stmt _ _ _) as [x s1] eqn:Hp.
  intros [= <- <-]. apply rtc_once. unfold at_rest. simpl. apply step_rest.
  eapply cs_release; [apply lookup_insert_eq|]. by eapply pool_perhaps.
Qed.
Lemma abandon_follows {A} token e w (r : result A) w' :
  (releaseClaims token ;; pthrow e) env bus w = (r, w') →
  is_ok r = false ∧ rtc cstep (at_state w (Releasing token)) (at_rest w').
Proof.
  unfold mbind, P_bind. destruct (releaseClaims token env bus w) as [[u|e'] w1] eqn:Hr;
    intros [= <- <-]; (split; [done|by eapply release_follows]).
Qed.

Lemma live_same t e w r w' :
  Live_Publish t e env bus w = (r, w') →
  s_db (w_sess w') = s_db (w_sess w) ∧ w_topic w' = w_topic w.
Proof. unfold Live_Publish. case_bool_decide; [by intros [= _ <-]|]. case_match; by intros [= _ <-]. Qed.

Lemma notify_follows e w r w' :
  notify s e env bus w = (r, w') →
  is_ok r = true ∧ s_db (w_sess w') = s_db (w_sess w) ∧ w_topic w' = w_topic w.
Proof.
  unfold notify. destruct (Live s); [|by intros [= <- <-]]. unfold mbind, P_bind, ptry, mret, P_ret.
  destruct (Live_Publish _ _ env bus w) as [x w1] eqn:Hl. intros [= <- <-].
  split; [done|by eapply live_same].
Qed.

Lemma ack_follows token e todo w r w' :
  publish_acked s token e env bus w = (r, w') →
  if is_ok r then rtc cstep (at_state w (Acking token e todo)) (at_state w' (Sending token todo))
  else rtc cstep (at_state w (Acking token e todo)) (at_rest w').
Proof.
  unfold publish_acked, mbind at 1, P_bind at 1, ptry at 1, lift at 1.
  destruct (pool_stmt _ _ _) as [x s1] eqn:Hp.
  assert (∀ err r w', (releaseClaims token ;; pthrow err) env bus (w<| w_sess := s1 |>) = (r, w') →
    is_ok (A := unit) r = false ∧ rtc cstep (at_state w (Acking token e todo)) (at_rest w')) as Habandon.
  { intros err r0 w0 [Hr Hs]%abandon_follows. split; [done|].
    eapply rtc_l; [|exact Hs]. apply step_move. simpl.
    eapply cs_ack_failed; [apply lookup_insert_eq|]. by eapply pool_perhaps. }
  destruct x as [rows|err]; [|by intros [-> ?]%Habandon].
  case_bool_decide as Hlen; [by intros [-> ?]%Habandon|].
  destruct rows as [|row [|]]; [done| |done].
  intros (-> & Hdb & Htop)%notify_follows. unfold at_state at 2. rewrite Hdb, Htop. simpl.
  apply rtc_once, step_move. eapply cs_ack; [apply lookup_insert_eq|]. by apply pool_stmt_Ok in Hp as [Hp _].
Qed.

Lemma publish_one_follows token e todo w r w' :
  publish_one s token e env bus w = (r, w') →
  if is_ok r then rtc cstep (at_state w (Sending token (e :: todo))) (at_state w' (Sending token todo))
  else rtc cstep (at_state w (Sending token (e :: todo))) (at_rest w').
Proof.
  unfold publish_one, mbind at 1, P_bind at 1, ptry at 1, Publish.
  destruct (bus_publish bus (s_tick (w_sess w))) as [|err|err].
  - intros Hack. pose proof (ack_follows _ _ todo _ _ _ Hack) as H. simpl in H.
    assert (cstep (at_state w (Sending token (e :: todo))) (mkCluster (s_db (w_sess w))
      (w_topic w ++ [message_of e]) (<[i := Acking token e todo]> pubs))) as H1
      by (apply step_move, cs_send, lookup_insert_eq).
    destruct (is_ok r); eapply rtc_l; [exact H1|exact H|exact H1|exact H].
  - intros [-> Hs]%abandon_follows. eapply rtc_l; [|exact Hs]. apply step_move.
    exact (cs_send_failed (at_state w (Sending token (e :: todo))) i token e todo true
      (lookup_insert_eq _ _ _)).
  - intros [-> Hs]%abandon_follows. eapply rtc_l; [|exact Hs]. apply step_move.
    exact (cs_send_failed (at_state w (Sending token (e :: todo))) i token e todo false
      (lookup_insert_eq _ _ _)).
Qed.

Lemma publish_all_follows token todo w r w' :
  publish_all s token todo env bus w = (r, w') →
  rtc cstep (at_state w (Sending token todo)) (at_rest w').
Proof.
  revert w r. induction todo as [|e todo IH]; intros w r; simpl.
  { intros [= <- <-]. apply rtc_once. unfold at_rest. apply step_rest.
    eapply cs_done, lookup_insert_eq. }
  unfold mbind, P_bind. destruct (publish_one s token e env bus w) as [r1 w1] eqn:H1.
  pose proof (publish_one_follows _ _ todo _ _ _ H1) as Hs. destruct r1 as [u|err]; simpl in Hs.
  - intros H2. etrans; [exact Hs|by eapply IH].
  - by intros [= <- <-].
Qed.
End Follows.

Lemma batch_follows s env bus w r w' i pubs :
  publishClaimedBatch s env bus w = (r, w') → pubs !! i = None →
  rtc cstep (mkCluster (s_db (w_sess w)) (w_topic w) pubs)
            (mkCluster (s_db (w_sess w')) (w_topic w') pubs).
Proof.
  intros Hrun Hfree. unfold publishClaimedBatch in Hrun.
  case_bool_decide; [by injection Hrun as <- <-|].
  unfold mbind at 1, P_bind at 1, lift at 1, new_uuid in Hrun.
  unfold mbind at 1, P_bind at 1, lift at 1 in Hrun. cbn [w_sess] in Hrun.
  destruct (pool_stmt _ _ _) as [[events|err] s1] eqn:Hp.
  2: { injection Hrun as <- <-. apply rtc_once. simpl. eapply cs_claim_lost.
       by apply pool_perhaps in Hp. }
  unfold mbind, P_bind in Hrun.
  destruct (publish_all _ _ _ _ _ _) as [r1 w1] eqn:Hall.
  assert (w1 = w') as -> by (destruct r1; by injection Hrun).
  eapply publish_all_follows in Hall; [|exact Hfree]. eapply rtc_l; [|exact Hall].
  unfold at_state. simpl. eapply (cs_claim (mkCluster _ _ _)); [done|].
  simpl. apply pool_stmt_Ok in Hp as [Hp _]. exact Hp.
Qed.

(** The code follows the protocol.  Every call of [publishClaimedBatch] by an
    idle publisher, whatever the database and Kafka answer, is a sequence of
    steps of the protocol that leaves the publisher idle and the other
    publishers alone. *)
Theorem publishClaimedBatch_follows s env bus w r w' i pubs :
  publishClaimedBatch s env bus w = (r, w') → pubs !! i = None →
  rtc cstep (mkCluster (s_db (w_sess w)) (w_topic w) pubs)
            (mkCluster (s_db (w_sess w')) (w_topic w') pubs).
Proof. apply batch_follows. Qed.

Definition outbox (w : World) : gmap uuid OutboxRow := outbox_events (s_db (w_sess w)).

(** The cluster of a world, with some other publishers in the middle of their
    work. *)
Definition cluster_of (w : World) (pubs : gmap nat pstate) : Cluster :=
  mkCluster (s_db (w_sess w)) (w_topic w) pubs.

Lemma batch_reachable s env bus w r w' pubs :
  cluster_reachable (cluster_of w pubs) → publishClaimedBatch s env bus w = (r, w') →
  cluster_reachable (cluster_of w' pubs).
Proof.
  intros Hreach Hrun. eapply cluster_reachable_rtc; [exact Hreach|].
  eapply (batch_follows _ _ _ _ _ _ (fresh (dom pubs))); [exact Hrun|].
  apply not_elem_of_dom, is_fresh.
Qed.

(** What a publisher sends are events it claimed. *)
Lemma publish_one_topic s token e env bus w r w' :
  publish_one s token e env bus w = (r, w') →
  w_topic w' = w_topic w ++ [message_of e] ∨ (w_topic w' = w_topic w ∧ is_ok r = false).
Proof.
  assert (∀ t w r w', releaseClaims t env bus w = (r, w') → w_topic w' = w_topic w) as Hrel.
  { intros t v r1 v'. unfold releaseClaims, ptry, lift, mbind, P_bind.
    destruct (pool_stmt _ _ _). by intros [= _ <-]. }
  assert (∀ err t w (r : result unit) w', (releaseClaims t ;; pthrow err) env bus w = (r, w') →
    w_topic w' = w_topic w ∧ is_ok r = false) as Hab.
  { intros err t v r1 v'. unfold mbind at 1, P_bind at 1.
    destruct (releaseClaims t env bus v) as [[u|e1] v1] eqn:Hr; intros [= <- <-]; by apply Hrel in Hr. }
  unfold publish_one, mbind at 1, P_bind at 1, ptry at 1, Publish.
  destruct (bus_publish bus (s_tick (w_sess w))) as [|err|err]; [|intros [-> _]%Hab; by left|intros H%Hab; by right].
  unfold publish_acked, mbind at 1, P_bind at 1, ptry at 1, lift at 1.
  destruct (pool_stmt _ _ _) as [x s1]. left. revert H. destruct x as [rows|err]; [|by intros [-> _]%Hab].
  case_bool_decide; [by intros [-> _]%Hab|]. by intros (_ & _ & ->)%notify_follows.
Qed.

Lemma publish_all_topic s token events env bus w r w' :
  publish_all s token events env bus w = (r, w') →
  ∃ l, w_topic w' = w_topic w ++ (message_of <$> l) ∧ l `prefix_of` events.
Proof.
  revert w. induction events as [|e events IH]; intros w; simpl.
  { intros [= _ <-]. exists []. by rewrite app_nil_r. }
  unfold mbind, P_bind. destruct (publish_one s token e env bus w) as [r1 w1] eqn:H1.
  apply publish_one_topic in H1 as [Ht|[Ht Hr]].
  - destruct r1 as [u|err].
    + intros (l & Hl & Hp)%IH. exists (e :: l). split; [|by apply prefix_cons].
      by rewrite Hl, Ht, <-app_assoc.
    + intros [= _ <-]. exists [e]. split; [done|]. apply prefix_cons, prefix_nil.
  - destruct r1 as [u|err]; [done|]. intros [= _ <-]. exists []. split; [by rewrite app_nil_r|apply prefix_nil].
Qed.

(** The messages of a batch, and the events before theirs. *)
Lemma batch_topic s env bus w r w' :
  publishClaimedBatch s env bus w = (r, w') →
  ∃ l, w_topic w' = w_topic w ++ l ∧ ∀ x, x ∈ l → ∃ o, outbox w !! m_event_id x = Some o ∧
    x = message_for (m_event_id x) o ∧ ∀ k' o', outbox w !! k' = Some o' → o_ordering_key o' = o_ordering_key o →
      earlier (k', o') (m_event_id x, o) = true → published o'.
Proof.
  assert (w' = w ∨ w_topic w' = w_topic w → ∃ l, w_topic w' = w_topic w ++ l ∧ ∀ x, x ∈ l →
    ∃ o, outbox w !! m_event_id x = Some o ∧ x = message_for (m_event_id x) o ∧ ∀ k' o', outbox w !! k' = Some o' →
      o_ordering_key o' = o_ordering_key o → earlier (k', o') (m_event_id x, o) = true → published o') as Hnone.
  { intros H. exists []. rewrite app_nil_r. split; [by destruct H as [-> | ->]|]. by intros x ?%not_elem_of_nil. }
  unfold publishClaimedBatch. case_bool_decide; [intros [= _ <-]; apply Hnone; by left|].
  unfold mbind at 1, P_bind at 1, lift at 1, new_uuid. unfold mbind at 1, P_bind at 1, lift at 1. cbn [w_sess].
  destruct (pool_stmt _ _ _) as [[events|err] s1] eqn:Hp; [|intros [= _ <-]; apply Hnone; by right].
  apply pool_stmt_Ok in Hp as [Hp _]. unfold mbind, P_bind.
  destruct (publish_all _ _ _ _ _ _) as [r1 w1] eqn:Hall. intros Hrun.
  assert (w1 = w') as -> by (destruct r1; by injection Hrun).
  apply publish_all_topic in Hall as (l & Ht & [rest Hl]). exists (message_of <$> l). split; [exact Ht|].
  intros x (e & -> & He)%list_elem_of_fmap.
  destruct (claimed_first _ _ _ _ _ _ _ _ e Hp) as (o & Ho & Hm & Hfirst); [rewrite Hl; apply elem_of_app; by left|].
  exists o. split_and!; [exact Ho|exact Hm|exact Hfirst].
Qed.

(** C14: delivery before acknowledgement.  The engine and any number of publishers
    have run, stalled, lost their claims or crashed in any interleaving, and some
    may be in the middle of a batch.  Then a call of [publishClaimedBatch],
    whatever the database and Kafka answer, ends in a state of the same kind, where
    every event marked published has its message on the topic, under the event's
    ordering key and with its payload and type, and every message of an event is
    that message. *)
Theorem outbox_at_least_once s env bus w r w' pubs :
  cluster_reachable (cluster_of w pubs) → publishClaimedBatch s env bus w = (r, w') →
  cluster_reachable (cluster_of w' pubs) ∧
  ∀ k o, outbox w' !! k = Some o →
    (published o → message_for k o ∈ w_topic w') ∧
    (∀ x, x ∈ w_topic w' → m_event_id x = k → x = message_for k o).
Proof.
  intros Hreach Hrun. pose proof (batch_reachable _ _ _ _ _ _ _ Hreach Hrun) as Hreach'. split; [done|].
  pose proof (cluster_inv _ Hreach') as Hinv. pose proof Hinv as [[Hpub Hevent] _]. intros k o Hk. split.
  - intros Hp. eapply (sent_message _ _ _ _ [] Hinv); [by rewrite app_nil_r|exact Hk|]. by apply (Hpub k o).
  - intros x (o' & Ho' & Hx)%Hevent <-. simpl in *. unfold outbox in Hk. congruence.
Qed.

(** C5: the order of a key.  In any state that the engine and any number of
    publishers reach, a call of [publishClaimedBatch], whatever the database and
    Kafka answer, appends to the topic only messages of events of the outbox, and
    for each of them every event of the same ordering key that is earlier, by
    creation time and id, and visible when the call starts has its message on the
    topic already. *)
Theorem outbox_key_order s env bus w r w' pubs :
  cluster_reachable (cluster_of w pubs) → publishClaimedBatch s env bus w = (r, w') →
  ∃ l, w_topic w' = w_topic w ++ l ∧
    ∀ x, x ∈ l → ∃ o, outbox w !! m_event_id x = Some o ∧ x = message_for (m_event_id x) o ∧
      ∀ k' o', outbox w !! k' = Some o' → o_ordering_key o' = o_ordering_key o →
        earlier (k', o') (m_event_id x, o) = true → message_for k' o' ∈ w_topic w.
Proof.
  intros Hreach Hrun. destruct (batch_topic _ _ _ _ _ _ Hrun) as (l & Ht & Hl). exists l. split; [exact Ht|].
  intros x (o & Ho & Hx & Hfirst)%Hl. exists o. split_and!; [exact Ho|exact Hx|]. intros k' o' Hk Hkey He.
  pose proof (cluster_inv _ Hreach) as Hinv. eapply (sent_message _ _ _ _ [] Hinv); [by rewrite app_nil_r|exact Hk|].
  destruct Hinv as [[Hpub _] _]. apply (Hpub k' o' Hk). by apply (Hfirst k' o').
Qed.

(** * Draining the outbox *)

(** The events still to be published. *)
Definition pending (m : gmap uuid OutboxRow) : gmap uuid OutboxRow :=
  filter (λ ko, o_published_at ko.2 = None) m.

(** No event still to be published is claimed. *)
Definition unclaimed (m : gmap uuid OutboxRow) : Prop :=
  ∀ k o, m !! k = Some o → o_published_at o = None → o_claim_token o = None.

Section Drain.
Context (s : Service) (env : Env) (bus : Bus).
Context (Hcalm : calm env) (Hbus : ∀ n, bus_publish bus n = Delivered).
Context (Hlocks : ∀ n k, env_locked env n k = false).

Lemma ack_run token id n db o :
  outbox_events db !! id = Some o → o_published_at o = None → o_claim_token o = Some token →
  ack_stmt token id env n db =
    Ok ([(id, publish_row (env_now env n) o)],
        db<| outbox_events := <[id := publish_row (env_now env n) o]> (outbox_events db) |>).
Proof.
  intros Ho Hp Ht. unfold ack_stmt, update_outbox.
  assert (∀ k v, bool_decide (k = id) && unpublished v
    && bool_decide (o_claim_token v = Some token) = true → k = id) as Hk by (intros; by bool_split).
  rewrite (rows_where_key _ _ _ id (λ k v _, Hk k v)), (update_where_key _ _ _ id Hk), Ho.
  unfold unpublished. by rewrite !bool_decide_true.
Qed.

Lemma publish_one_run token e w o :
  outbox w !! ev_id e = Some o → o_published_at o = None → o_claim_token o = Some token →
  ∃ now w', publish_one s token e env bus w = (Ok tt, w') ∧
    outbox w' = <[ev_id e := publish_row now o]> (outbox w) ∧ w_topic w' = w_topic w ++ [message_of e].
Proof.
  intros Ho Hp Ht. unfold publish_one, mbind at 1, P_bind at 1, ptry at 1, Publish. rewrite Hbus.
  unfold publish_acked, mbind at 1, P_bind at 1, ptry at 1, lift. simpl.
  rewrite (pool_stmt_run _ _ (tick_once (w_sess w)) _ _ Hcalm (ack_run _ _ _ _ _ Ho Hp Ht)). simpl.
  destruct (notify s e env bus _) as [r w'] eqn:Hn.
  apply notify_follows in Hn as (Hr & Hsame & Htop). destruct r as [[]|]; [|done].
  do 2 eexists. split; [done|]. unfold outbox. by rewrite Hsame, Htop.
Qed.

Lemma publish_all_run token l w :
  NoDup (ev_id <$> l) →
  (∀ e, e ∈ l → ∃ o, outbox w !! ev_id e = Some o ∧ o_published_at o = None ∧ o_claim_token o = Some token) →
  ∃ w', publish_all s token l env bus w = (Ok tt, w') ∧ w_topic w' = w_topic w ++ (message_of <$> l) ∧
    (∀ k, k ∉ ev_id <$> l → outbox w' !! k = outbox w !! k) ∧
    (∀ k, k ∈ ev_id <$> l → ∃ o, outbox w' !! k = Some o ∧ published o).
Proof.
  revert w. induction l as [|e l IH]; intros w Hnd Hl; simpl.
  { exists w. rewrite app_nil_r. split_and!; [done..|]. by intros k ?%not_elem_of_nil. }
  apply NoDup_cons in Hnd as [Hnew Hnd]. destruct (Hl e) as (o & Ho & Hp & Ht); [by left|].
  destruct (publish_one_run token e w o Ho Hp Ht) as (now & w1 & H1 & Hw1 & Htop1).
  destruct (IH w1 Hnd) as (w2 & H2 & Htop2 & Hsame & Hpub).
  { intros x Hx. destruct (Hl x) as (o1 & ? & ? & ?); [by right|]. exists o1. rewrite Hw1.
    rewrite lookup_insert_ne; [done|]. intros Heq. apply Hnew. rewrite Heq.
    by apply list_elem_of_fmap_2. }
  exists w2. split_and!.
  - unfold mbind, P_bind. by rewrite H1, H2.
  - by rewrite Htop2, Htop1, <-app_assoc.
  - intros k [Hne Hk]%not_elem_of_cons. by rewrite Hsame, Hw1, lookup_insert_ne.
  - intros k [->|Hk]%elem_of_cons; [|by apply Hpub]. rewrite Hsame, Hw1, lookup_insert_eq by done.
    by eexists.
Qed.

(** Some pending event is the first of its key. *)
Lemma first_event (l : list (uuid * OutboxRow)) :
  l ≠ [] → ∃ x, x ∈ l ∧ ∀ y, y ∈ l → earlier y x = false.
Proof.
  unfold earlier. induction l as [|x l IH]; intros Hne; [done|]. destruct l as [|y l].
  { exists x. split; [by left|]. intros y ->%list_elem_of_singleton. by rewrite lex_leb_refl. }
  destruct IH as (z & Hz & Hmin); [done|].
  destruct (lex_leb_total (event_keys x) (event_keys z)) as [Hle|Hle].
  - exists x. split; [by left|]. intros u [->|Hu]%elem_of_cons; [by rewrite lex_leb_refl|].
    apply Hmin, negb_false_iff in Hu. by rewrite (lex_leb_trans _ _ _ Hle Hu).
  - exists z. split; [by right|]. intros u [->|Hu]%elem_of_cons; [by rewrite Hle|by apply Hmin].
Qed.

Lemma some_candidate batch n m :
  0 < batch → unclaimed m → pending m ≠ ∅ → candidates batch env n m ≠ [].
Proof.
  intros Hb Hq Hne Hnil.
  destruct (first_event (map_to_list (pending m))) as ([k o] & Hin & Hmin).
  { by intros ?%map_to_list_empty_iff. }
  apply elem_of_map_to_list, map_lookup_filter_Some in Hin as [Hk Hp]. simpl in Hp.
  apply (f_equal length) in Hnil. unfold candidates in Hnil.
  rewrite length_take, order_by_keys_perm in Hnil. simpl in Hnil.
  assert ((k, o) ∈ rows_where (env_rank env n) (λ k o, unpublished o && claimable (env_now env n) o
    && head_of_key m k o && negb (env_locked env n k)) m) as Hrow.
  { apply elem_of_rows_where. split; [done|]. unfold unpublished, claimable.
    rewrite Hlocks, !bool_decide_true by eauto. simpl. rewrite andb_true_r.
    apply forallb_forall. intros [k1 o1] Hin1%list_elem_of_In%elem_of_map_to_list. simpl.
    apply negb_true_iff. unfold unpublished. destruct (decide (o_published_at o1 = None)) as [Hp1|].
    - rewrite (Hmin (k1, o1)); [by rewrite andb_false_r|].
      by apply elem_of_map_to_list, map_lookup_filter_Some.
    - rewrite (bool_decide_false (o_published_at o1 = None)) by done. by rewrite andb_false_r. }
  destruct (rows_where _ _ _); [by apply not_elem_of_nil in Hrow|]. simpl in Hnil. lia.
Qed.
(** What a claim on an outbox without claims hands out. *)
Lemma claim_run batch token ttl n db :
  unclaimed (outbox_events db) →
  ∃ events db', claim_stmt batch token ttl env n db = Ok (events, db') ∧
    NoDup (ev_id <$> events) ∧
    (ev_id <$> events) ≡ₚ (candidates batch env n (outbox_events db)).*1 ∧
    (∀ e, e ∈ events → ∃ o, outbox_events db' !! ev_id e = Some o ∧ o_published_at o = None ∧
       o_claim_token o = Some token ∧ ∃ o0, pending (outbox_events db) !! ev_id e = Some o0 ∧
       message_of e = message_for (ev_id e) o0) ∧
    (∀ k, k ∉ ev_id <$> events → outbox_events db' !! k = outbox_events db !! k).
Proof.
  intros Hq. set (m := outbox_events db). set (ids := (candidates batch env n m).*1).
  set (chosen := λ (k : uuid) (_ : OutboxRow), bool_decide (k ∈ ids)).
  set (m' := update_where chosen (claim_row token (env_now env n + ttl)) m).
  assert (∀ rows : list (uuid * OutboxRow), ev_id <$> (scan_claimed db <$> rows) = rows.*1) as Hids
    by (intros; by rewrite <-list_fmap_compose).
  assert (∀ k, k ∈ ids → ∃ o, m !! k = Some o ∧ o_published_at o = None) as Hin.
  { intros k ([k0 o] & -> & (Hk & Hp & _)%candidates_spec)%list_elem_of_fmap.
    exists o. split; [done|]. unfold unpublished in Hp. by bool_split. }
  assert (∀ k, k ∈ (rows_where (env_rank env n) chosen m').*1 ↔ k ∈ ids) as Hrows.
  { intros k. rewrite list_elem_of_fmap. split.
    - intros ([k0 o] & -> & [_ Hc]%elem_of_rows_where). by apply bool_decide_eq_true in Hc.
    - intros Hk. destruct (Hin k Hk) as (o & Ho & _).
      exists (k, claim_row token (env_now env n + ttl) o). split; [done|].
      apply elem_of_rows_where. unfold m', chosen. rewrite lookup_update_where, Ho. simpl.
      by rewrite bool_decide_true. }
  exists (scan_claimed db <$> rows_where (env_rank env n) chosen m'), (db<| outbox_events := m' |>).
  rewrite Hids. split_and!; [done|apply NoDup_rows_where| | |].
  - apply NoDup_Permutation; [apply NoDup_rows_where| |done].
    eapply sublist_NoDup; [|apply fmap_sublist, sublist_take].
    rewrite order_by_keys_perm. apply NoDup_rows_where.
  - intros e ([k o'] & -> & [Hk Hc]%elem_of_rows_where)%list_elem_of_fmap. simpl.
    apply bool_decide_eq_true in Hc. destruct (Hin k Hc) as (o & Ho & Hp). exists o'.
    unfold m', chosen in Hk. rewrite lookup_update_where, Ho in Hk. simpl in Hk.
    rewrite bool_decide_true in Hk by done. injection Hk as <-. split_and!; try done.
    + unfold m', chosen. rewrite lookup_update_where, Ho. simpl. by rewrite bool_decide_true.
    + exists o. split; [by apply map_lookup_filter_Some|done].
  - intros k Hk. rewrite Hrows in Hk. unfold m', chosen. simpl. rewrite lookup_update_where.
    rewrite bool_decide_false by done. fold m. by destruct (m !! k).
Qed.

(** What a batch does to the events to be published. *)
Lemma published_batch m m' (ids : list uuid) :
  unclaimed m → (∀ k, k ∉ ids → m' !! k = m !! k) →
  (∀ k, k ∈ ids → ∃ o, m' !! k = Some o ∧ published o) →
  (∀ k, k ∈ ids → is_Some (pending m !! k)) →
  unclaimed m' ∧ (ids ≠ [] → (size (pending m') < size (pending m))%nat) ∧
  (ids = [] → pending m' = pending m).
Proof.
  intros Hq Hsame Hpub Hpend. split_and!.
  - intros k o Hk Hp. destruct (decide (k ∈ ids)) as [Hin|Hout].
    + destruct (Hpub k Hin) as (o' & ? & ?). by simplify_eq.
    + rewrite Hsame in Hk by done. eauto.
  - intros Hne. destruct ids as [|k ids]; [done|]. apply map_subset_size. split.
    + apply map_subseteq_spec. intros k1 o1 [Hk1 Hp1]%map_lookup_filter_Some.
      apply map_lookup_filter_Some. split; [|done]. destruct (decide (k1 ∈ k :: ids)) as [Hin|Hout].
      * destruct (Hpub k1 Hin) as (o' & ? & ?). by simplify_eq.
      * by rewrite <-Hsame.
    + intros Hsub. destruct (Hpend k) as [o Ho]; [by left|].
      eapply lookup_weaken in Ho as [Ho Hp]%map_lookup_filter_Some; [|exact Hsub].
      destruct (Hpub k) as (o' & ? & ?); [by left|]. by simplify_eq.
  - intros ->. f_equal. apply map_eq. intros k. apply Hsame, not_elem_of_nil.
Qed.

Lemma batch_run w :
  positive_or (OutboxPublishTimeout s) defaultOutboxPublishTimeout
    < positive_or (OutboxClaimTTL s) defaultOutboxClaimTTL →
  unclaimed (outbox w) →
  ∃ n w' ms, publishClaimedBatch s env bus w = (Ok n, w') ∧ unclaimed (outbox w') ∧
    w_topic w' = w_topic w ++ ms ∧
    (∀ k o, pending (outbox w) !! k = Some o →
       message_for k o ∈ ms ∨ pending (outbox w') !! k = Some o) ∧
    ((n = 0%nat ∧ pending (outbox w') = ∅) ∨
     (n ≠ 0%nat ∧ (size (pending (outbox w')) < size (pending (outbox w)))%nat)).
Proof.
  intros Httl Hq. unfold publishClaimedBatch. rewrite bool_decide_false by lia.
  unfold mbind at 1, P_bind at 1, lift at 1, new_uuid.
  cbv beta iota. set (token := env_uuid env _). set (batch := positive_or (OutboxBatchSize s) _).
  set (s1 := mkSess _ _ _ : Sess). set (ttl := positive_or (OutboxClaimTTL s) _).
  destruct (claim_run batch token ttl (s_tick s1) (s_db s1) Hq)
    as (events & db' & Hclaim & Hnd & Hperm & Hev & Hother).
  pose proof (pool_stmt_run _ _ s1 _ _ Hcalm Hclaim) as Hpool. set (s2 := mkSess _ _ db') in Hpool.
  unfold mbind at 1, P_bind at 1, lift.
  change (w_sess (w<| w_sess := s1 |>)) with s1. rewrite Hpool.
  destruct (publish_all_run token events (w<| w_sess := s1 |><| w_sess := s2 |>)) as (w' & Hall & Htop & Hsame & Hpub); [done| |].
  { intros e He. destruct (Hev e He) as (o & Ho & Hp & Ht & _). exists o.
    done. }
  assert (∀ k, k ∉ ev_id <$> events → outbox w' !! k = outbox w !! k) as Hrest.
  { intros k Hk. rewrite Hsame by done. by apply Hother. }
  destruct (published_batch (outbox w) (outbox w') (ev_id <$> events)) as (Hq' & Hless & Hzero); try done.
  { intros k (e & -> & He)%list_elem_of_fmap. destruct (Hev e He) as (o & _ & _ & _ & o0 & ? & _). eauto. }
  exists (length events), w', (message_of <$> events). split_and!; [|done|exact Htop| |].
  { unfold mbind, P_bind. by rewrite Hall. }
  { intros k o Hk. destruct (decide (k ∈ ev_id <$> events)) as [Hin|Hout].
    - left. apply list_elem_of_fmap in Hin as (e & -> & He). destruct (Hev e He) as (o1 & _ & _ & _ & o0 & Ho0 & Hmsg).
      change (pending (outbox w) !! ev_id e = Some o0) in Ho0. simplify_eq. rewrite <-Hmsg.
      by apply list_elem_of_fmap_2.
    - right. apply map_lookup_filter_Some in Hk as [Hk Hp]. apply map_lookup_filter_Some. by rewrite Hrest. }
  destruct events as [|e events]; [left|right; split; [done|by apply Hless]].
  split; [done|]. rewrite Hzero by done. apply dec_stable. intros Hne.
  eapply (some_candidate batch (s_tick s1) (outbox w)); [|done|done|].
  - unfold batch, positive_or, defaultOutboxBatchSize. case_bool_decide; lia.
  - apply Permutation_nil, (fmap_nil_inv fst) in Hperm. exact Hperm.
Qed.
End Drain.

Lemma publishBatch_run s env bus w fuel :
  calm env → (∀ n, bus_publish bus n = Delivered) → (∀ n k, env_locked env n k = false) →
  positive_or (OutboxPublishTimeout s) defaultOutboxPublishTimeout
    < positive_or (OutboxClaimTTL s) defaultOutboxClaimTTL →
  unclaimed (outbox w) → (size (pending (outbox w)) < fuel)%nat →
  ∃ w' ms, publishBatch fuel s env bus w = (Ok (Some tt), w') ∧ w_topic w' = w_topic w ++ ms ∧
    (∀ k o, outbox w !! k = Some o → o_published_at o = None → message_for k o ∈ ms) ∧
    ∀ k o, outbox w' !! k = Some o → published o.
Proof.
  intros Hcalm Hbus Hlocks Httl. revert w. induction fuel as [|fuel IH]; intros w Hq Hlt; [lia|].
  destruct (batch_run s env bus Hcalm Hbus Hlocks w Httl Hq)
    as (n & w1 & ms & Hrun & Hq1 & Htop & Hms & [[-> Hnone]|[Hn Hless]]); simpl; unfold mbind, P_bind; rewrite Hrun.
  - exists w1, ms. split_and!; [done..| |].
    + intros k o Hk Hp. destruct (Hms k o) as [?|Hin]; [by apply map_lookup_filter_Some|done|].
      by rewrite Hnone, lookup_empty in Hin.
    + intros k o Hk Hp. eapply (map_filter_empty_not_lookup _ _ k o) in Hnone; [by destruct Hnone|done].
  - rewrite bool_decide_false by done.
    destruct (IH w1 Hq1) as (w2 & ms2 & Hrun2 & Htop2 & Hms2 & Hpub); [lia|].
    exists w2, (ms ++ ms2). split_and!; [done| | |done].
    + by rewrite Htop2, Htop, app_assoc.
    + intros k o Hk Hp. rewrite elem_of_app.
      destruct (Hms k o) as [?|[? ?]%map_lookup_filter_Some]; [by apply map_lookup_filter_Some|by left|].
      right. by apply Hms2.
Qed.

(** C15: the outbox drains.  When nothing fails, nobody else holds rows or claims
    and the configured timeout is shorter than the claim, the loop of
    [publishBatch] ends by itself, after at most one round more than there
    are events to publish; messages were only appended to the topic, one of
    every event that was to be published among them, and every event has been
    published. *)
Theorem publishBatch_drains s env bus w fuel :
  calm env → (∀ n, bus_publish bus n = Delivered) → (∀ n k, env_locked env n k = false) →
  positive_or (OutboxPublishTimeout s) defaultOutboxPublishTimeout
    < positive_or (OutboxClaimTTL s) defaultOutboxClaimTTL →
  unclaimed (outbox w) → (size (pending (outbox w)) < fuel)%nat →
  ∃ w' ms, publishBatch fuel s env bus w = (Ok (Some tt), w') ∧ w_topic w' = w_topic w ++ ms ∧
    (∀ k o, outbox w !! k = Some o → o_published_at o = None → message_for k o ∈ ms) ∧
    ∀ k o, outbox w' !! k = Some o → published o.
Proof. apply publishBatch_run. Qed.
