(* ===== verification/Trace.v ===== *)
(** The trace of a run: [internal/tracecontext], the headers of a published
    message and the context a worker takes from them.

    The OpenTelemetry propagator and tracer are a class; [TracingSpec] is what
    their documentation promises.  The theorem follows the trace of the request
    that created a run through the run's row, the outbox and the message to the
    worker that executes the task. *)
From S2P Require Import Prelude Go Url Mux Model Dag State Json Schema Sql StoreWorker StoreWorkflow Scheduler Outbox Auth Stream Artifacts RateLimit Api Http Rpc Client WorkerGo Preserve Frame Lifecycle Refinement Creation Aloof System History WorkerSpec RunSpec SchedulerSpec OutboxSpec.

Abbreviation carrier := (list (string * string)).

(** [otel.GetTextMapPropagator()], [otel.Tracer(...).Start] and the trace
    identifier of the span a context carries, if it is valid. *)
Class Tracing (context : Type) := {
  Inject : context → carrier → carrier;
  Extract : context → carrier → context;
  tracer_Start : string → context → context;
  span_trace : context → option string
}.

(** With the propagator [Setup] installs: a valid span is written to
    [traceparent] and read back, nothing else of the carrier that the program
    uses changes, and a child span is in the trace of its parent. *)
Class TracingSpec {context : Type} (T : Tracing context) := {
  ts_roundtrip c l t : span_trace c = Some t → ∃ tp, assoc "traceparent" (Inject c l) = Some tp ∧ tp ≠ "" ∧
    ∀ c', span_trace (Extract c' [("traceparent", tp)]) = Some t;
  ts_other c l key : key ∉ ["traceparent"; "tracestate"; "baggage"] → assoc key (Inject c l) = assoc key l;
  ts_child name c t : span_trace c = Some t → span_trace (tracer_Start name c) = Some t
}.

Section Trace.
Context {context : Type} `{Tracing context}.
Implicit Types (ctx : context).

Definition FromContext ctx : string := default "" (assoc "traceparent" (Inject ctx [])).

Definition IntoContext ctx (traceParent : string) : context :=
  if bool_decide (traceParent = "") then ctx else Extract ctx [("traceparent", traceParent)].

(** The context [publishClaimedBatch] publishes an event with, and the headers
    [Publisher.Publish] writes. *)
Definition publish_context ctx (e : event) : context :=
  tracer_Start "outbox.publish" (IntoContext ctx (ev_traceParent e)).

Definition publish_headers ctx (e : event) : carrier :=
  Inject (publish_context ctx e) (headers_of (message_of e)).

(** The context the Go worker calls [execute] with, and the one [execute] makes
    its calls with. *)
Definition task_context ctx (headers : carrier) : context := IntoContext ctx (header headers "traceparent").
Definition execute_context ctx (headers : carrier) : context :=
  tracer_Start "task.execute" (task_context ctx headers).

Context {TS : TracingSpec (context := context) _}.

Lemma IntoContext_FromContext ctx ctx' t :
  span_trace ctx = Some t → span_trace (IntoContext ctx' (FromContext ctx)) = Some t.
Proof.
  intros Ht. unfold IntoContext, FromContext. destruct (ts_roundtrip ctx [] t Ht) as (tp & -> & Hne & Hx).
  cbn [default]. by rewrite bool_decide_false.
Qed.

(** Publishing keeps the headers the workers filter on. *)
Lemma publish_headers_kept ctx e :
  header (publish_headers ctx e) "event_type" = ev_eventType e ∧
  header (publish_headers ctx e) "event_id" = ev_id e.
Proof. unfold header, publish_headers. rewrite !ts_other by (by rewrite !not_elem_of_cons; split_and!; [..|apply not_elem_of_nil]). done. Qed.

Lemma execute_context_trace ctx ctx' e t :
  span_trace (publish_context ctx e) = Some t →
  span_trace (execute_context ctx' (publish_headers ctx e)) = Some t.
Proof.
  intros Ht. apply ts_child. unfold task_context, header, publish_headers, IntoContext.
  destruct (ts_roundtrip _ (headers_of (message_of e)) t Ht) as (tp & -> & Hne & Hx).
  cbn [default]. by rewrite bool_decide_false.
Qed.

(** The run remembers the trace of the request that created it. *)
Lemma CreateRun_trace tenant user def key input aids env s rid r s' :
  CreateRun tenant user def key input aids env s = (Ok ((rid, r), true), s') →
  r_trace_parent r = Some (env_trace env).
Proof.
  unfold CreateRun. case_bool_decide as Hkey; [done|]. intros [(_ & s1 & Hb)|(s1 & Hb & _)]%in_tx_Ok.
  { repeat body_step; try discriminate. }
  repeat body_step; try discriminate. injection H0 as <- <-. by apply insert_run_Some in Hf as (-> & _).
Qed.

Lemma CreateRun_step tenant user def key input aids env s x s' :
  CreateRun tenant user def key input aids env s = (Ok x, s') → step (s_db s) (s_db s').
Proof.
  intros Hc. destruct s as [n open db]. eapply (step_op _ (OpCreateRun tenant user def key input aids) env n open (Ok tt)).
  simpl. unfold run_unit. by rewrite (bind_run _ _ _ _ _ _ Hc).
Qed.

Lemma created_trace tenant user def key input aids env s rid r s' db :
  system_reachable (s_db s) → CreateRun tenant user def key input aids env s = (Ok ((rid, r), true), s') →
  rtc step (s_db s') db →
  ∃ r', workflow_runs db !! rid = Some r' ∧ r_trace_parent r' = Some (env_trace env).
Proof.
  intros Hreach Hc Hs. pose proof (CreateRun_trace _ _ _ _ _ _ _ _ _ _ _ Hc) as Ht.
  destruct (CreateRun_change _ _ _ _ _ _ _ _ _ _ _ Hreach Hc) as (d & dag & _ & _ & _ & _ & Hruns & _).
  pose proof (CreateRun_step _ _ _ _ _ _ _ _ _ _ Hc) as Hstep.
  assert (DbInv (s_db s')) as DI by (by apply (step_refines _ _ Hstep), reachable_db_inv).
  destruct (hi_runs _ _ _ (history_steps _ _ DI Hs) rid r) as (r' & Hr' & Hsame);
    [rewrite Hruns; apply lookup_insert_eq|].
  exists r'. split; [done|]. unfold same, run_static in Hsame. congruence.
Qed.

(** A task that a dispatch moves is announced by a new event, with the trace of
    its run. *)
Lemma dispatched_announced env n open db u s' id t t' r :
  dispatch_ready env (mkSess n open db) = (Ok u, s') →
  task_runs db !! id = Some t → t_status t ≠ DISPATCHING →
  task_runs (s_db s') !! id = Some t' → t_status t' = DISPATCHING →
  workflow_runs db !! t_workflow_run_id t = Some r →
  ∃ ev row, outbox_events db !! ev = None ∧ outbox_events (s_db s') !! ev = Some row ∧
    announces (id, t, r) row.
Proof.
  intros Hd Ht Hst Ht' Hst' Hr.
  destruct (dispatch_ready_Ok _ _ _ _ Hd) as (l & events & Hsel & Hall & Hnd & Hnew & Hout & Htasks).
  cbn [s_db s_tick] in *. rewrite (Htasks id t Ht) in Ht'. case_bool_decide as Hin; [|congruence].
  apply list_elem_of_fmap in Hin as ([id' t1] & -> & ([[id1 t2] r1] & [= -> ->] & Hin)%list_elem_of_fmap).
  destruct (select_ready_spec _ _ _ _ _ _ Hsel) as (_ & _ & Hl). destruct (Hl _ _ _ Hin) as (Ht1 & _ & Hr1).
  simpl in *. assert (t2 = t) as -> by congruence. assert (r1 = r) as -> by congruence.
  apply list_elem_of_lookup in Hin as [i Hi]. destruct (Forall2_lookup_l _ _ _ _ _ Hall Hi) as (e & He & Hev).
  apply list_lookup_fmap_Some in He as ([ev e'] & -> & He). apply list_elem_of_lookup_2 in He.
  exists ev, e'. split_and!; [|rewrite Hout; by apply lookup_union_Some_l, elem_of_list_to_map_1|done].
  apply Hnew. by apply (list_elem_of_fmap_2 fst _ (ev, e')).
Qed.

(** What a publisher claims of an event is what was queued, however long ago. *)
Lemma claimed_columns db db' ev row batch token ttl env n events db'' e :
  DbInv db → rtc step db db' → outbox_events db !! ev = Some row →
  claim_stmt batch token ttl env n db' = Ok (events, db'') → e ∈ events → ev_id e = ev →
  ev_eventType e = o_event_type row ∧ ev_payload e = o_payload row ∧
  ev_traceParent e = coalesce (o_trace_parent row).
Proof.
  intros DI Hs Hrow Hc He Hid. destruct (hi_events _ _ _ (history_steps _ _ DI Hs) ev row Hrow) as (row1 & Hrow1 & Hsame & _).
  injection Hc as <- <-. apply list_elem_of_fmap in He as ([k row2] & -> & [Hk _]%elem_of_rows_where).
  simpl in Hid, Hk. subst k. rewrite lookup_update_where, Hrow1 in Hk. injection Hk as <-.
  unfold same, event_columns in Hsame. injection Hsame as _ _ H1 H2 H3 _. case_bool_decide; simpl; by rewrite H1, H2, H3.
Qed.

(** C28: the trace of a run reaches its workers.  A run is created by a request
    that belongs to trace [t]; afterwards anything may happen, until a dispatch
    moves one of the run's tasks to DISPATCHING.  It queues a new event for the
    task.  Whenever, after anything else, a publisher claims that event, what it
    publishes is a dispatch message that names the task and from whose headers a
    worker continues trace [t]. *)
Theorem trace_reaches_worker ctx0 t tenant user def key input aids env s rid r s1 db2 env2 n open u s3 id task task' :
  system_reachable (s_db s) → span_trace ctx0 = Some t → env_trace env = FromContext ctx0 →
  CreateRun tenant user def key input aids env s = (Ok ((rid, r), true), s1) → rtc step (s_db s1) db2 →
  task_runs db2 !! id = Some task → t_workflow_run_id task = rid → t_status task ≠ DISPATCHING →
  dispatch_ready env2 (mkSess n open db2) = (Ok u, s3) →
  task_runs (s_db s3) !! id = Some task' → t_status task' = DISPATCHING →
  ∃ ev row, outbox_events db2 !! ev = None ∧ outbox_events (s_db s3) !! ev = Some row ∧ dispatch_event id task row ∧
    ∀ db4 batch token ttl env4 n4 events db5 e,
      rtc step (s_db s3) db4 → claim_stmt batch token ttl env4 n4 db4 = Ok (events, db5) → e ∈ events → ev_id e = ev →
      m_value (message_of e) = o_payload row ∧
      ∀ ctx ctx', header (publish_headers ctx e) "event_type" = "task.dispatch" ∧
        span_trace (execute_context ctx' (publish_headers ctx e)) = Some t.
Proof.
  intros Hreach Ht Henv Hc Hs Htask <- Hst Hd Htask' Hst'.
  destruct (created_trace _ _ _ _ _ _ _ _ _ _ _ _ Hreach Hc Hs) as (r2 & Hr2 & Htp).
  destruct (dispatched_announced _ _ _ _ _ _ _ _ _ _ Hd Htask Hst Htask' Hst' Hr2)
    as (ev & row & Hn & He & Hev & Htrace). exists ev, row. split_and!; [done..|].
  assert (system_reachable (s_db s3)) as DI%reachable_db_inv.
  { destruct Hreach as (db0 & H0 & Hs0). exists db0. split; [done|]. etransitivity; [exact Hs0|].
    eapply rtc_l; [exact (CreateRun_step _ _ _ _ _ _ _ _ _ _ Hc)|]. etransitivity; [exact Hs|]. apply rtc_once.
    by apply (step_op _ OpDispatchReady env2 n open (Ok u)). }
  intros db4 batch token ttl env4 n4 events db5 e Hs4 Hclaim Hin Hid.
  destruct (claimed_columns _ _ _ _ _ _ _ _ _ _ _ _ DI Hs4 He Hclaim Hin Hid) as (Hty & Hp & Htr).
  split; [done|]. intros ctx ctx'. destruct (publish_headers_kept ctx e) as [-> _].
  destruct Hev as [[]]. split; [congruence|]. apply execute_context_trace, ts_child.
  rewrite Htr, Htrace. simpl. rewrite Htp. simpl. rewrite Henv. by apply IntoContext_FromContext.
Qed.
End Trace.
