(* ===== verification/AuthSpec.v ===== *)
(** What authentication promises: who is let in, that a generated key works,
    and that a revoked or rotated one does not. *)
From S2P Require Import Prelude Go Json Schema Sql StoreWorker StoreWorkflow Auth.

(** * Tokens *)

Fixpoint no_underscore (s : string) : bool :=
  match s with
  | "" => true
  | String c s => negb (Ascii.eqb c "_") && no_underscore s
  end%string.

Lemma split_first_cut rest p s : no_underscore p = true →
  split_first "_" rest (p +:+ String "_" s) = p :: rest s.
Proof.
  induction p as [|c p IH]; intros Hp; [done|]. simpl in Hp. bool_split.
  simpl. by rewrite H, IH.
Qed.

Section Tokens.
Context (uuid_Parse : string → bool) (sha256 : string → string).
Lemma base64_nonempty l : l ≠ [] → base64 l ≠ "".
Proof. by destruct l as [|a [|b [|c l]]]. Qed.

Lemma generated_id id pepper secret token hash :
  no_underscore id = true →
  GenerateAPIKeyForID uuid_Parse sha256 id pepper (Ok secret) = Ok (token, hash) → secret ≠ [] →
  APIKeyID uuid_Parse token = Some id ∧ hash = HashAPIKey sha256 token pepper ∧
  has_prefix "rm_" token = true ∧ token ≠ "".
Proof.
  intros Htext. unfold GenerateAPIKeyForID. destruct (uuid_Parse id) eqn:Hid; [|done]. simpl.
  intros [= <- <-] Hne. split; [|done]. unfold APIKeyID.
  rewrite (eq_refl : "rm_" +:+ id +:+ "_" +:+ base64 secret = "rm" +:+ String "_" (id +:+ "_" +:+ base64 secret)).
  cbn [splitN]. rewrite split_first_cut by done.
  rewrite (eq_refl : "_" +:+ base64 secret = String "_" (base64 secret)), split_first_cut by auto.
  simpl. rewrite Hid. simpl. by rewrite bool_decide_false by (by apply base64_nonempty).
Qed.
End Tokens.

(** * Authentication *)

(** A call that leaves the keys alone. *)
Definition preserves_keys {A} (m : M A) : Prop :=
  ∀ env s r s', m env s = (r, s') → api_keys (s_db s') = api_keys (s_db s).

Section Authentication.
Context (uuid_Parse : string → bool) (sha256 : string → string).
Context (config : AuthConfig) (verify : string → result (list (string * json))).

(** The key of the token is stored, neither revoked nor expired, and its hash
    is that of the whole token. *)
Record accepted_key (db : Db) (raw : string) (now : time) (p : Principal) (id : uuid) (k : ApiKeyRow)
    : Prop := {
  ak_id : APIKeyID uuid_Parse raw = Some id;
  ak_row : api_keys db !! id = Some k;
  ak_live : k_revoked_at k = None;
  ak_hash : k_key_hash k = HashAPIKey sha256 raw (APIKeyPepper config);
  ak_unexpired : ∀ e, k_expires_at k = Some e → now < e;
  ak_principal : p = mkPrincipal (k_tenant_id k) "" "viewer" "api_key" (k_scopes k)
}.

(** The verified claims of the token name a user of the database. *)
Record accepted_user (db : Db) (raw : string) (p : Principal) (id : uuid) (u : UserRow) : Prop := {
  au_production : Dev config = false;
  au_claims : ∃ claims, verify raw = Ok claims ∧ u_oidc_subject u = claim_text claims "sub" ∧
    u_tenant_id u = claim_text claims (tenant_claim config);
  au_row : users db !! id = Some u;
  au_principal : p = mkPrincipal (u_tenant_id u) id (u_role u) "oidc" []
}.

Lemma key_expired_Ok e env s b s' :
  key_expired e env s = (Ok b, s') →
  s_db s' = s_db s ∧ (b = false → ∀ t, e = Some t → env_clock env (s_tick s) < t).
Proof.
  destruct e as [t|]; simpl; intros H; repeat run_step; [|done]. simpl. split; [done|].
  intros Hb t' [= <-]. bool_split. lia.
Qed.

Lemma authenticateAPIKey_Ok raw env s p s' :
  authenticateAPIKey uuid_Parse sha256 config raw env s = (Ok p, s') →
  ∃ now id k, accepted_key (s_db s) raw now p id k.
Proof.
  unfold authenticateAPIKey. destruct (APIKeyID uuid_Parse raw) as [id|] eqn:Hid; [|done].
  intros (row & s1 & Hrow & H)%bind_Ok. apply pool_stmt_Ok in Hrow as [[= Hrow Hdb] _].
  destruct row as [k|]; [|done]. case_bool_decide as Hhash; [done|].
  apply bind_Ok in H as (e & s2 & He & H). apply key_expired_Ok in He as [_ He].
  destruct e; [done|]. apply bind_Ok in H as (u & s3 & _ & H). apply ret_Ok in H as [<- _].
  apply bind_Some in Hrow as (k' & Hk & Hrow). case_bool_decide as Hrev; [|done].
  injection Hrow as ->. exists (env_clock env (s_tick s1)), id, k. split; try done; auto.
Qed.

Lemma authenticateOIDC_Ok raw env s p s' :
  authenticateOIDC config verify raw env s = (Ok p, s') → ∃ id u, accepted_user (s_db s) raw p id u.
Proof.
  unfold authenticateOIDC. destruct (Dev config) eqn:Hdev; [done|].
  destruct (verify raw) as [claims|] eqn:Hv; [|done]. destruct (_ || _); [done|].
  intros (row & s1 & Hrow & H)%bind_Ok. apply pool_stmt_Ok in Hrow as [[= Hrow Hdb] _].
  destruct row as [[id u]|]; [|done]. apply ret_Ok in H as [<- _].
  apply head_Some_elem_of, elem_of_rows_where in Hrow as [Hu Hg]. bool_split.
  exists id, u. split; eauto.
Qed.

(** A failed authentication leaves no trace. *)
Lemma pool_select_db {A} (q : Env → nat → Db → A) env s r s' :
  pool_stmt (sql_select q) env s = (r, s') → s_db s' = s_db s.
Proof. by intros [?|(a & db & [= _ <-] & ? & _)]%pool_stmt_db. Qed.

Lemma key_expired_db e env s r s' : key_expired e env s = (r, s') → s_db s' = s_db s.
Proof. destruct e; by intros [= _ <-]. Qed.

Lemma authenticateAPIKey_failure raw env s e s' :
  authenticateAPIKey uuid_Parse sha256 config raw env s = (Err e, s') → s_db s' = s_db s.
Proof.
  unfold authenticateAPIKey. destruct (APIKeyID uuid_Parse raw) as [id|]; [|by intros [= _ <-]].
  unfold mbind, M_bind.
  destruct (pool_stmt _ env s) as [[[k|]|] s1] eqn:Hp; apply pool_select_db in Hp;
    [|by intros [= _ <-]..].
  case_bool_decide; [by intros [= _ <-]|].
  destruct (key_expired _ env s1) as [[[]|] s2] eqn:Hk; apply key_expired_db in Hk;
    [intros [= _ <-]; congruence| |intros [= _ <-]; congruence].
  unfold try. by destruct (pool_stmt _ env s2) as [x s3].
Qed.

Lemma authenticateOIDC_failure raw env s e s' :
  authenticateOIDC config verify raw env s = (Err e, s') → s_db s' = s_db s.
Proof.
  unfold authenticateOIDC. destruct (Dev config); [by intros [= _ <-]|].
  destruct (verify raw) as [claims|]; [|by intros [= _ <-]]. destruct (_ || _); [by intros [= _ <-]|].
  unfold mbind, M_bind.
  destruct (pool_stmt _ env s) as [[[[id u]|]|] s1] eqn:Hp; apply pool_select_db in Hp;
    [done|by intros [= _ <-]..].
Qed.

Lemma authenticate_failure raw env s e s' :
  Authenticate uuid_Parse sha256 config verify raw env s = (Err e, s') → s_db s' = s_db s.
Proof.
  unfold Authenticate. case_bool_decide; [by intros [= _ <-]|]. destruct (has_prefix "rm_" raw);
    [apply authenticateAPIKey_failure|apply authenticateOIDC_failure].
Qed.

(** Only known identities are let in.  A principal is returned only for an
    API key that is stored, not revoked, not expired and whose hash is that of
    the presented token, or for a token whose verified claims name a user of
    the claimed tenant; the principal's tenant, role and scopes are those of
    that key or user. *)
Theorem Authenticate_sound raw env s p s' :
  Authenticate uuid_Parse sha256 config verify raw env s = (Ok p, s') →
  (∃ now id k, accepted_key (s_db s) raw now p id k) ∨ (∃ id u, accepted_user (s_db s) raw p id u).
Proof.
  unfold Authenticate. case_bool_decide; [done|]. destruct (has_prefix "rm_" raw).
  - intros ?%authenticateAPIKey_Ok. by left.
  - intros ?%authenticateOIDC_Ok. by right.
Qed.

Lemma AuthenticateWorker_scope raw env s p s' :
  AuthenticateWorker uuid_Parse sha256 config verify raw env s = (Ok p, s') →
  HasScope p "workers:execute" = true.
Proof.
  unfold AuthenticateWorker. destruct (Dev config && _ && _); [by intros [<- <-]%ret_Ok|].
  intros ([p'|] & s1 & _ & H)%bind_Ok; [|done]. destruct (_ && HasScope p' _) eqn:Hs; [|done].
  apply ret_Ok in H as [-> ->]. by bool_split.
Qed.

(** Workers.  The worker interface admits only API keys of scope
    [workers:execute] and, when development mode is configured, the development
    token. *)
Theorem AuthenticateWorker_sound raw env s p s' :
  AuthenticateWorker uuid_Parse sha256 config verify raw env s = (Ok p, s') →
  HasScope p "workers:execute" = true ∧
  ((Dev config = true ∧ raw = DevWorkerToken config ∧ raw ≠ "") ∨
   ∃ now id k, accepted_key (s_db s) raw now p id k ∧ "workers:execute" ∈ k_scopes k).
Proof.
  intros Hw. split; [by eapply AuthenticateWorker_scope|]. revert Hw.
  unfold AuthenticateWorker. destruct (Dev config && _ && _) eqn:Hd.
  { intros [<- <-]%ret_Ok. bool_split. by left. }
  intros (r & s1 & Hr & H)%bind_Ok. unfold try in Hr.
  destruct (Authenticate uuid_Parse sha256 config verify raw env s) as [r0 s0] eqn:Ha.
  injection Hr as -> ->. destruct r as [p'|]; [|done]. destruct (_ && HasScope p' _) eqn:Hs; [|done].
  apply ret_Ok in H as [-> ->]. apply andb_true_iff in Hs as [Hk%bool_decide_eq_true Hs].
  right. unfold Authenticate in Ha. case_bool_decide; [done|].
  destruct (has_prefix "rm_" raw).
  - destruct (authenticateAPIKey_Ok _ _ _ _ _ Ha) as (now & id & k & Hacc). exists now, id, k.
    split; [done|]. destruct Hacc as [_ _ _ _ _ ->]. unfold HasScope in Hs. simpl in Hs.
    apply existsb_exists in Hs as (sc & Hin & Hsc). bool_split. subst. by apply list_elem_of_In.
  - destruct (authenticateOIDC_Ok _ _ _ _ _ Ha) as (id & u & [_ _ _ ->]). done.
Qed.

(** A key as it is stored by [CreateAPIKey] or [RotateAPIKey]. *)
Lemma authenticate_stored raw env s id k :
  calm env → has_prefix "rm_" raw = true → raw ≠ "" → APIKeyID uuid_Parse raw = Some id →
  api_keys (s_db s) !! id = Some k → k_revoked_at k = None →
  k_key_hash k = HashAPIKey sha256 raw (APIKeyPepper config) →
  (∀ e m, k_expires_at k = Some e → env_clock env m < e) →
  ∃ s', Authenticate uuid_Parse sha256 config verify raw env s =
    (Ok (mkPrincipal (k_tenant_id k) "" "viewer" "api_key" (k_scopes k)), s').
Proof.
  intros Hcalm Hp Hne Hid Hk Hrev Hhash Hexp. unfold Authenticate.
  rewrite bool_decide_false, Hp by done. unfold authenticateAPIKey. rewrite Hid.
  erewrite bind_run; [|apply pool_stmt_run; [done|]; unfold select_api_key, sql_select; rewrite Hk; simpl;
    by rewrite bool_decide_true]. cbv beta iota.
  rewrite bool_decide_false by (intros Hneq; by apply Hneq).
  assert (∀ s, ∃ s', key_expired (k_expires_at k) env s = (Ok false, s')) as Hex.
  { intros s0. destruct (k_expires_at k) as [e|]; [|by eexists]. eexists. simpl.
    erewrite bind_run by done. unfold mret, M_ret. rewrite bool_decide_false; [done|].
    specialize (Hexp e (s_tick s0) eq_refl). lia. }
  edestruct Hex as [s2 H2]. erewrite bind_run by exact H2. cbv beta iota.
  erewrite bind_run; [by eexists|]. unfold try.
  by rewrite (pool_stmt_run _ _ s2 _ _ Hcalm eq_refl).
Qed.

(** C29: a generated key works.  For an identifier without underscores, as the
    canonical text of a UUID is, the token that [GenerateAPIKeyForID] returns
    authenticates its key when the database answers and the key's row holds the
    returned hash, is not revoked and has not expired: the principal is the key's
    tenant with the key's scopes. *)
Theorem generated_key_authenticates id secret token hash env s k :
  no_underscore id = true →
  GenerateAPIKeyForID uuid_Parse sha256 id (APIKeyPepper config) (Ok secret) = Ok (token, hash) →
  secret ≠ [] → calm env → api_keys (s_db s) !! id = Some k → k_key_hash k = hash →
  k_revoked_at k = None → (∀ e m, k_expires_at k = Some e → env_clock env m < e) →
  ∃ s', Authenticate uuid_Parse sha256 config verify token env s =
    (Ok (mkPrincipal (k_tenant_id k) "" "viewer" "api_key" (k_scopes k)), s').
Proof.
  intros Huuid Hgen Hne Hcalm Hk Hh Hrev Hexp.
  destruct (generated_id _ _ _ _ _ _ _ Huuid Hgen Hne) as (Hid & Hhash & Hp & Hne').
  eapply authenticate_stored; try done. congruence.
Qed.

(** No principal for a token whose key is revoked or has another hash. *)
Definition locked_out (raw : string) (db : Db) : Prop :=
  ∀ env s r s', s_db s = db → Authenticate uuid_Parse sha256 config verify raw env s = (r, s') →
    is_ok r = false.

Lemma no_key_no_entry raw id db :
  has_prefix "rm_" raw = true → APIKeyID uuid_Parse raw = Some id →
  (∀ k, api_keys db !! id = Some k → k_revoked_at k ≠ None ∨
     k_key_hash k ≠ HashAPIKey sha256 raw (APIKeyPepper config)) →
  locked_out raw db.
Proof.
  intros Hp Hid Hno env s [p|e] s' Hdb; [|done]. unfold Authenticate.
  case_bool_decide; [done|]. rewrite Hp. intros (now & id' & k & [Hid' Hk Hl Hh _ _])%authenticateAPIKey_Ok.
  simplify_eq. destruct (Hno k Hk); congruence.
Qed.

Lemma update_api_key_Some id g f env n db key db' :
  update_api_key id g f env n db = Ok (Some key, db') →
  ∃ k, api_keys db !! id = Some k ∧ g k = true ∧ api_keys db' !! id = Some (f (env_now env n) k).
Proof.
  unfold update_api_key. destruct (api_keys db !! id) as [k|]; [|done].
  destruct (g k) eqn:Hg; [|done]. case_bool_decide; [|done]. intros [= _ <-].
  exists k. simpl. by rewrite lookup_insert_eq.
Qed.

Lemma audit_keys t u a id md : preserves_keys (audit t u a id md).
Proof.
  intros env s r s'. unfold audit, try, mbind, M_bind.
  destruct (pool_stmt _ env s) as [x s1] eqn:Hp. intros [= _ <-].
  apply pool_stmt_db in Hp as [->|(b & db & Hi & -> & _)]; [done|].
  unfold insert_audit in Hi. case_bool_decide; [|done]. by injection Hi as _ <-.
Qed.

(** Revocation and rotation.  Once [RevokeAPIKey] has returned, no token with
    that key's identifier authenticates; once [RotateAPIKey] has returned, none
    does but those with the new hash. *)
Theorem withdrawn_keys_rejected id tenant user hash raw env s :
  has_prefix "rm_" raw = true → APIKeyID uuid_Parse raw = Some id →
  (∀ s', RevokeAPIKey id tenant user env s = (Ok tt, s') → locked_out raw (s_db s')) ∧
  (∀ key s', RotateAPIKey id tenant user hash env s = (Ok key, s') →
     HashAPIKey sha256 raw (APIKeyPepper config) ≠ hash → locked_out raw (s_db s')).
Proof.
  intros Hp Hid. split.
  - intros s' (row & s1 & Hrow & H)%bind_Ok. apply pool_stmt_Ok in Hrow as [Hrow _].
    destruct row as [key|]; [|done]. apply update_api_key_Some in Hrow as (k & Hk & Hg & Hk').
    apply (no_key_no_entry _ id); [done..|]. intros k1. apply audit_keys in H. rewrite H, Hk'.
    intros [= <-]. by left.
  - intros key s' (row & s1 & Hrow & H)%bind_Ok Hne. apply pool_stmt_Ok in Hrow as [Hrow _].
    destruct row as [key'|]; [|done]. apply update_api_key_Some in Hrow as (k & Hk & Hg & Hk').
    apply bind_Ok in H as (u & s2 & Ha & [_ <-]%ret_Ok). apply audit_keys in Ha.
    apply (no_key_no_entry _ id); [done..|]. intros k1. rewrite Ha, Hk'. intros [= <-]. right.
    simpl. congruence.
Qed.
End Authentication.
