(* ===== verification/ArtifactSpec.v ===== *)
(** What the artifact operations promise: an upload is registered within the
    limits and under the tenant's own key, it becomes READY only when the stored
    object has the declared size and checksum, and only READY artifacts of the
    tenant are handed out. *)
From S2P Require Import Prelude Go Url State Json Schema Sql StoreWorker StoreWorkflow Artifacts.

Lemma ask_Ok {A} (f : nat → result A) env s a s' :
  ask f env s = (Ok a, s') → f (s_tick s) = Ok a ∧ s_db s' = s_db s.
Proof. by intros [= -> <-]. Qed.

Lemma wrap_Ok {A} p (r : result A) a : wrap p r = Ok a → r = Ok a.
Proof. by destruct r. Qed.

Lemma getArtifact_Ok P tenant env s a s' :
  getArtifact P tenant env s = (Ok a, s') →
  s_db s' = s_db s ∧ ∃ id f, artifacts (s_db s) !! id = Some f ∧ f_tenant_id f = tenant ∧
    P id f = true ∧ a = scan_artifact id f.
Proof.
  unfold getArtifact. intros (row & s1 & Hrow & H)%bind_Ok.
  apply pool_stmt_Ok in Hrow as [[= Hrow Hdb] _]. destruct row as [[id f]|]; [|done].
  apply ret_Ok in H as [<- <-]. split; [done|].
  apply head_Some_elem_of, elem_of_rows_where in Hrow as [Hf Hg]. bool_split. exists id, f. done.
Qed.

Lemma CompleteArtifact_Ok tenant id size env s a s' :
  CompleteArtifact tenant id size env s = (Ok a, s') →
  ∃ f now, artifacts (s_db s) !! id = Some f ∧ f_tenant_id f = tenant ∧ f_status f = "PENDING" ∧
    f_declared_size f = size ∧ a = scan_artifact id (ready_artifact size now f) ∧
    s_db s' = (s_db s)<| artifacts := <[id := ready_artifact size now f]> (artifacts (s_db s)) |>.
Proof.
  unfold CompleteArtifact. intros (rows & s1 & Hrow & H)%bind_Ok.
  apply pool_stmt_Ok in Hrow as [Hu _]. unfold update_artifacts in Hu. injection Hu as Hrows Hdb.
  set (now := env_now env (s_tick s)) in *.
  set (g := λ k f, bool_decide (k = id) && bool_decide (f_tenant_id f = tenant)
    && bool_decide (f_status f = "PENDING") && bool_decide (f_declared_size f = size)) in *.
  assert (∀ k f, g k f = true → k = id) as Hk by (unfold g; intros; by bool_split).
  rewrite (rows_where_key _ g _ id (λ k v _, Hk k v)) in Hrows.
  rewrite (update_where_key g _ _ id Hk) in Hdb.
  destruct (artifacts (s_db s) !! id) as [f|] eqn:Hf; [|by subst rows].
  destruct (g id f) eqn:Hg; [|by subst rows]. subst rows. simpl in H.
  apply ret_Ok in H as [<- <-]. unfold g in Hg. bool_split. exists f, now. by split_and!.
Qed.

(** The object under the row's key has the declared checksum, if one was
    declared; one byte more than the declared size is read. *)
Definition content_verified (sha256 : string → string) (objects : Objects) (f : ArtifactRow) : Prop :=
  coalesce (f_checksum_sha256 f) ≠ "" →
  ∃ n content, get_object objects n (f_object_key f) = Ok content ∧
    Checksum sha256 (limit_reader (f_declared_size f + 1) content) = coalesce (f_checksum_sha256 f).

Lemma Complete_change sha256 objects tenant id env s a s' :
  Complete sha256 objects tenant id env s = (Ok a, s') →
  ∃ f f', let db := s_db s in let db' := s_db s' in
    artifacts db !! id = Some f ∧ f_tenant_id f = tenant ∧ artifacts db' !! id = Some f' ∧ a = scan_artifact id f' ∧
    f_status f' = "READY" ∧
    ((f_status f = "READY" ∧ db' = db) ∨
     (f_status f = "PENDING" ∧
      (∃ n, head_object objects n (f_object_key f) = Ok (Some (f_declared_size f))) ∧
      content_verified sha256 objects f ∧
      ∃ now, db' = db<| artifacts := <[id :=
        f<| f_status := "READY" |><| f_size_bytes := Some (f_declared_size f) |>
         <| f_ready_at := Some now |>]> (artifacts db) |>)).
Proof.
  unfold Complete, GetArtifact. intros (a0 & s1 & Ha & H)%bind_Ok.
  apply getArtifact_Ok in Ha as (Hdb1 & id' & f & Hf & Ht & Hid & ->). bool_split. subst id'.
  cbn [scan_artifact f_Status f_ObjectKey f_DeclaredSize f_ChecksumSHA256] in H.
  exists f. case_bool_decide as Hst.
  { apply ret_Ok in H as [<- <-]. exists f. rewrite Hdb1. split_and!; try done. by left. }
  apply bind_Ok in H as (len & s2 & Hh & H). apply ask_Ok in Hh as [Hh%wrap_Ok Hdb2].
  destruct len as [len|]; [|done]. case_bool_decide as Hlen; [done|]. subst len.
  assert (∃ s3, s_db s3 = s_db s ∧ CompleteArtifact tenant id (f_declared_size f) env s3 = (Ok a, s') ∧
    content_verified sha256 objects f) as (s3 & Hdb3 & Hc & Hsum).
  { unfold content_verified. case_bool_decide as Hsum; [exists s2; by rewrite Hdb2|].
    apply bind_Ok in H as (content & s3 & Hs & H). apply ask_Ok in Hs as [Hs%wrap_Ok Hdb3].
    cbv zeta in H. case_bool_decide as Heq; [done|]. exists s3.
    split_and!; [congruence|done|]. intros _. eauto. }
  apply CompleteArtifact_Ok in Hc as (f' & now & Hf' & _ & Hp & _ & -> & Hdb').
  rewrite Hdb3 in Hf', Hdb'. simplify_eq. exists (ready_artifact (f_declared_size f) now f). rewrite Hdb'. simpl.
  rewrite lookup_insert_eq. split_and!; try done. right. split_and!; eauto.
Qed.

(** C31: completion of an upload.  The artifact belongs to the tenant and is READY
    afterwards: either it already was and nothing changed, or it was PENDING,
    the object store reported exactly the declared size, the stored object had
    the declared checksum if one was declared, and only this row changed. *)
Theorem Complete_effect sha256 objects tenant id env s a s' :
  Complete sha256 objects tenant id env s = (Ok a, s') →
  ∃ f, let db := s_db s in let db' := s_db s' in
    artifacts db !! id = Some f ∧ f_tenant_id f = tenant ∧ f_ID a = id ∧ f_Status a = "READY" ∧
    ((f_status f = "READY" ∧ db' = db) ∨
     (f_status f = "PENDING" ∧
      (∃ n, head_object objects n (f_object_key f) = Ok (Some (f_declared_size f))) ∧
      content_verified sha256 objects f ∧
      ∃ now, db' = db<| artifacts := <[id :=
        f<| f_status := "READY" |><| f_size_bytes := Some (f_declared_size f) |>
         <| f_ready_at := Some now |>]> (artifacts db) |>)).
Proof.
  intros (f & f' & Hf & Ht & _ & -> & Hst & H)%Complete_change. exists f. by split_and!.
Qed.

(** What is handed out.  A download changes nothing and is signed for the
    object of a READY artifact of the caller's tenant, the one that was asked
    for by identifier or by URI. *)
Theorem download_ready expiry objects tenant x env s d s' :
  download expiry objects tenant x env s = (Ok d, s') →
  s_db s' = s_db s ∧ ∃ id f, artifacts (s_db s) !! id = Some f ∧ f_tenant_id f = tenant ∧
    f_status f = "READY" ∧ (id = x ∨ f_object_uri f = x) ∧
    presign_get objects (f_object_key f) = Ok (w_URL d) ∧ w_Artifact d = scan_artifact id f.
Proof.
  unfold download. intros (a & s1 & Ha & H)%bind_Ok.
  assert (s_db s1 = s_db s ∧ ∃ id f, artifacts (s_db s) !! id = Some f ∧ f_tenant_id f = tenant ∧
    (id = x ∨ f_object_uri f = x) ∧ a = scan_artifact id f) as (Hdb1 & id & f & Hf & Ht & Hx & ->).
  { destruct (has_prefix "s3://" x); apply getArtifact_Ok in Ha as (? & id & f & ? & ? & Hp & ?);
      bool_split; (split; [done|]); exists id, f; auto. }
  cbn [scan_artifact f_Status f_ObjectKey] in H. case_bool_decide as Hst; [done|].
  apply bind_Ok in H as (url & s2 & Hu & H). apply ask_Ok in Hu as [Hu%wrap_Ok Hdb2].
  repeat run_step. simpl. split; [congruence|]. exists id, f. by split_and!.
Qed.

Lemma insert_artifact_Ok id row env n db a db' :
  insert_artifact id row env n db = Ok (a, db') →
  artifacts db !! id = None ∧ a = scan_artifact id (row (env_now env n)) ∧
  db' = db<| artifacts := <[id := row (env_now env n)]> (artifacts db) |>.
Proof.
  unfold insert_artifact. intros H. repeat case_match; try done.
  all: injection H as <- <-; bool_split; split_and!; [by apply eq_None_not_Some|done..].
Qed.

Lemma TaskBelongsToTenant_Ok t tenant env s u s' :
  TaskBelongsToTenant t tenant env s = (Ok u, s') →
  s_db s' = s_db s ∧ ∃ row r, task_runs (s_db s) !! t = Some row ∧
    workflow_runs (s_db s) !! t_workflow_run_id row = Some r ∧ r_tenant_id r = tenant.
Proof.
  unfold TaskBelongsToTenant. intros (row & s1 & Hrow & H)%bind_Ok.
  apply pool_stmt_Ok in Hrow as [Hsel _]. destruct row as [[row r]|]; [|done].
  apply ret_Ok in H as [_ <-]. unfold select_task_run, sql_select in Hsel. injection Hsel as Hsel Hdb.
  split; [done|]. exists row, r. apply bind_Some in Hsel as (t' & Ht & Hsel).
  apply bind_Some in Hsel as (r' & Hr & Hsel). case_match; [|done]. bool_split. by simplify_eq.
Qed.

(** Registration of an upload.  The kind is known and the declared size within
    its limit; a task named in the request belongs to the tenant; the artifact
    is a new PENDING row of the tenant, stored under a key made of the tenant,
    the kind and the fresh identifier; and nothing else has changed. *)
Theorem createUpload_effect bucket expiry objects tenant user kind ct size sum task env s u s' :
  createUpload bucket expiry objects tenant user kind ct size sum task env s = (Ok u, s') →
  ∃ id f, let db := s_db s in
    kind ∈ ["input"; "output"; "log"] ∧ 0 ≤ size ≤ size_limit kind ∧
    (∀ t, task = Some t → ∃ row r, task_runs db !! t = Some row ∧
       workflow_runs db !! t_workflow_run_id row = Some r ∧ r_tenant_id r = tenant) ∧
    artifacts db !! id = None ∧ f_tenant_id f = tenant ∧ f_kind f = kind ∧ f_status f = "PENDING" ∧
    f_declared_size f = size ∧ f_checksum_sha256 f = nullif_empty (to_lower (trim_space sum)) ∧
    f_task_run_id f = task ∧ f_object_key f = object_key tenant kind id ∧
    f_object_uri f = object_uri bucket (object_key tenant kind id) ∧
    u_Artifact u = scan_artifact id f ∧ s_db s' = db<| artifacts := <[id := f]> (artifacts db) |>.
Proof.
  unfold createUpload. destruct (artifact_kind kind) eqn:Hkind; [|done]. simpl.
  destruct (_ || bool_decide (size_limit kind < size)) eqn:Hsize; [done|].
  destruct (_ && negb (hex_sha256 _)); [done|]. intros (u0 & s1 & Htask & H)%bind_Ok.
  assert (s_db s1 = s_db s ∧ ∀ t, task = Some t → ∃ row r, task_runs (s_db s) !! t = Some row ∧
    workflow_runs (s_db s) !! t_workflow_run_id row = Some r ∧ r_tenant_id r = tenant) as [Hdb1 Ht].
  { destruct task as [t|]; [|by apply ret_Ok in Htask as [_ <-]].
    apply TaskBelongsToTenant_Ok in Htask as [? ?]. split; [done|]. by intros t' [= <-]. }
  apply bind_Ok in H as (id & s2 & Hid & H).
  unfold new_uuid in Hid. injection Hid as <- <-.
  apply bind_Ok in H as (a & s3 & Ha & H). apply pool_stmt_Ok in Ha as [Ha _]. simpl in Ha.
  apply insert_artifact_Ok in Ha as (Hnone & -> & Hdb3).
  apply bind_Ok in H as (req & s4 & Hreq & H). apply ask_Ok in Hreq as [_ Hdb4].
  repeat run_step. simpl. unfold artifact_kind in Hkind. bool_split.
  rewrite Hdb1 in Hnone, Hdb3. exists (env_uuid env (s_tick s1)).
  eexists (new_artifact tenant user kind _ _ _ size _ task _).
  split_and!; try done; try lia. congruence.
Qed.

(** A checksum as [Checksum] writes it is stored as it is. *)
Lemma hex_normal s : to_lower (trim_space (hex_encode s)) = hex_encode s.
Proof.
  assert (every_ascii (λ c, let n := N_of_ascii c in let p d := negb (is_space d) && Ascii.eqb (lower d) d in
    p (hex_char (n / 16)) && p (hex_char (n mod 16)))%N = true) as H by (by vm_compute).
  rewrite trim_space_lacks.
  - induction s as [|c s IH]; [done|]. apply every_ascii_spec with (c := c) in H. cbv zeta in H. bool_split.
    cbn [hex_encode to_lower]. rewrite IH. by do 2 f_equal; [apply Ascii.eqb_eq|f_equal; apply Ascii.eqb_eq].
  - induction s as [|c s IH]; [done|]. apply every_ascii_spec with (c := c) in H. cbv zeta in H. bool_split.
    cbn [hex_encode all_chars]. by rewrite IH, !andb_true_iff, !negb_true_iff.
Qed.

(** * Addresses of objects *)

(** Names of buckets: lower-case letters, digits, dots and hyphens; segments of
    a key: no character that has a meaning in a URL. *)
Definition bucket_char (c : ascii) : bool := between 97 122 c || decimal c || one_of ".-" c.

Definition key_char (c : ascii) : bool := negb (control c || one_of "%#?" c).

Lemma chars_impl (p q : ascii → bool) s :
  every_ascii (λ c, implb (p c) (q c)) = true → all_chars p s = true → all_chars q s = true.
Proof.
  intros H. apply all_chars_impl. intros c Hp. apply every_ascii_spec with (c := c) in H.
  by rewrite Hp in H.
Qed.

Lemma parseAuthority_bucket bucket :
  all_chars bucket_char bucket = true → bucket ≠ "" → parseAuthority bucket = Some bucket.
Proof.
  intros Hb Hne. unfold parseAuthority.
  rewrite cut_last_lacks by (revert Hb; apply chars_impl; by vm_compute).
  assert (unescape EncodeHost bucket = Some bucket) as Hu.
  { apply unescape_plain. revert Hb. apply chars_impl. by vm_compute. }
  assert (cut_last ":" bucket = None) as Hc.
  { apply cut_last_lacks. revert Hb. apply chars_impl. by vm_compute. }
  destruct bucket as [|c bucket]; [done|]. apply andb_true_iff in Hb as [Hb _].
  transitivity (match cut_last ":" (String c bucket) with
    | Some (_, port) => if valid_port (":" +:+ port) then unescape EncodeHost (String c bucket) else None
    | None => unescape EncodeHost (String c bucket)
    end); [|by rewrite Hc].
  destruct c as [[] [] [] [] [] [] [] []]; first [reflexivity|discriminate Hb].
Qed.

Lemma Parse_s3 bucket key :
  bucket ≠ "" → all_chars bucket_char bucket = true → all_chars key_char key = true →
  Parse ("s3://" +:+ bucket +:+ "/" +:+ key) = Some (mkURL "s3" bucket ("/" +:+ key)).
Proof.
  intros Hne Hb Hk. set (rest := bucket +:+ "/" +:+ key).
  assert (all_chars key_char rest = true) as Hrest.
  { unfold rest. rewrite !all_chars_app. apply andb_true_iff. split; [|by rewrite Hk].
    revert Hb. apply chars_impl. by vm_compute. }
  unfold Parse. rewrite cut_lacks.
  2: { simpl. revert Hrest. apply chars_impl. by vm_compute. }
  assert (parse ("s3://" +:+ rest) = Some (mkURL "s3" bucket ("/" +:+ key))) as ->; [|done].
  unfold parse.
  assert (all_chars (negb ∘ control) ("s3://" +:+ rest) = true) as ->.
  { rewrite all_chars_app. apply andb_true_iff. split; [done|]. revert Hrest. apply chars_impl. by vm_compute. }
  rewrite (bool_decide_false ("s3://" +:+ rest = "*")) by done.
  change (getScheme ("s3://" +:+ rest)) with (Some ("s3", "//" +:+ rest)). cbn [negb mbind option_bind].
  rewrite (cut_lacks "?" ("//" +:+ rest)) by (simpl; revert Hrest; apply chars_impl; by vm_compute).
  simpl.
  change ("" +:+ rest) with rest.
  assert (cut "/" rest = (bucket, Some key)) as ->.
  { apply cut_app. revert Hb. apply chars_impl. by vm_compute. }
  rewrite parseAuthority_bucket by done. simpl.
  change (String "/" key) with ("/" +:+ key). rewrite unescape_plain; [done|].
  rewrite all_chars_app. simpl. revert Hk. apply chars_impl. by vm_compute.
Qed.

(** Addresses of objects.  The URI under which an artifact is recorded
    leads back to its bucket and its key, for every tenant, kind and identifier
    without characters that have a meaning in URLs. *)
Theorem ParseURI_object_uri bucket tenant kind id :
  bucket ≠ "" → all_chars bucket_char bucket = true →
  all_chars key_char (tenant +:+ kind +:+ id) = true →
  ParseURI (object_uri bucket (object_key tenant kind id)) = Ok (bucket, object_key tenant kind id).
Proof.
  intros Hne Hb Hk. rewrite !all_chars_app in Hk. bool_split.
  set (key := object_key tenant kind id).
  assert (all_chars key_char key = true) as Hkey.
  { unfold key, object_key. rewrite !all_chars_app. by repeat (apply andb_true_iff; split). }
  unfold ParseURI, object_uri. rewrite (Parse_s3 bucket key) by done. simpl.
  rewrite !bool_decide_true; [done| |done..]. unfold key, object_key. by destruct tenant.
Qed.
