(* ===== verification/Requests.v ===== *)
(** Requests as executions of the engine: every HTTP request, scheduler cycle
    and outbox batch is a sequence of the system's operations, and what
    authorization keeps a request from doing. *)
From S2P Require Import Prelude Go Model Dag State Json Schema Sql StoreWorker StoreWorkflow Scheduler Outbox Auth Stream Artifacts RateLimit Api Mux Http Preserve Frame Lifecycle Refinement Creation Aloof System WorkerSpec AuthSpec.

(** * Operations as steps *)

Lemma steps_op o : preserves (rtc step) (exec o).
Proof. intros env [n open db] r s' H. apply rtc_once. by eapply step_op. Qed.

Lemma preserves_of_unit {A} R (m : M A) : preserves R (run_unit m) → preserves R m.
Proof.
  intros Hm env s r s' H. unfold run_unit, mbind, M_bind, mret, M_ret, preserves in Hm.
  specialize (Hm env s). rewrite H in Hm. destruct r; by eapply Hm.
Qed.

Lemma steps_unit {A} (m : M A) o : exec o = run_unit m → preserves (rtc step) m.
Proof. intros Ho. apply preserves_of_unit. rewrite <-Ho. apply steps_op. Qed.

Ltac by_op :=
  lazymatch goal with
  | |- preserves _ (CreateWorkflow ?t ?u ?n ?d) => exact (steps_unit _ (OpCreateWorkflow t u n d) eq_refl)
  | |- preserves _ (CreateVersion ?t ?u ?i ?d) => exact (steps_unit _ (OpCreateVersion t u i d) eq_refl)
  | |- preserves _ (CreateRun ?t ?u ?d ?k ?i ?a) => exact (steps_unit _ (OpCreateRun t u d k i a) eq_refl)
  | |- preserves _ (CancelRun ?t ?u ?i) => exact (steps_op (OpCancelRun t u i))
  | |- preserves _ (RetryRun ?t ?u ?i) => exact (steps_op (OpRetryRun t u i))
  | |- preserves _ (LeaseTask ?i ?w ?l) => exact (steps_unit _ (OpLeaseTask i w l) eq_refl)
  | |- preserves _ (StartTask ?i ?w) => exact (steps_unit _ (OpStartTask i w) eq_refl)
  | |- preserves _ (HeartbeatTask ?i ?w ?l) => exact (steps_unit _ (OpHeartbeatTask i w l) eq_refl)
  | |- preserves _ (CompleteTask ?i ?w ?o ?a ?l) =>
      exact (steps_unit _ (OpCompleteTask i w o a l) eq_refl)
  | |- preserves _ (FailTask ?i ?w ?f) => exact (steps_unit _ (OpFailTask i w f) eq_refl)
  | |- preserves _ (ReplayDead ?t ?u ?i) => exact (steps_op (OpReplayDead t u i))
  | |- preserves _ (WorkerHeartbeat ?t ?w ?h ?a ?m) => exact (steps_op (OpWorkerHeartbeat t w h a m))
  | |- preserves _ promote_retries => exact (steps_op OpPromoteRetries)
  | |- preserves _ recoverExpired => exact (steps_op OpRecoverExpired)
  | |- preserves _ dispatch_ready => exact (steps_op OpDispatchReady)
  | |- preserves _ (CreateAPIKey ?i ?t ?u ?n ?s ?e ?h) =>
      exact (steps_unit _ (OpCreateAPIKey i t u n s e h) eq_refl)
  | |- preserves _ (RotateAPIKey ?i ?t ?u ?h) => exact (steps_unit _ (OpRotateAPIKey i t u h) eq_refl)
  | |- preserves _ (RevokeAPIKey ?i ?t ?u) => exact (steps_op (OpRevokeAPIKey i t u))
  | |- preserves _ (pool_stmt (touch_api_key ?i)) => exact (steps_op (OpTouchAPIKey i))
  | |- preserves _ (CreateArtifact ?i ?t ?u ?k ?y ?r ?c ?z ?s ?a) =>
      exact (steps_unit _ (OpCreateArtifact i t u k y r c z s a) eq_refl)
  | |- preserves _ (CompleteArtifact ?t ?i ?z) => exact (steps_unit _ (OpCompleteArtifact t i z) eq_refl)
  | |- preserves _ (pool_stmt (insert_schedule ?r)) =>
      exact (steps_unit _ (OpInsertSchedule r) eq_refl)
  | |- preserves _ (pool_stmt (update_schedule_row ?i ?t (λ _, None))) =>
      exact (steps_unit _ (OpDeleteSchedule i t) eq_refl)
  | |- preserves _ (pool_stmt (update_schedule_row ?i ?t (Some ∘ patched ?req))) =>
      exact (steps_unit _ (OpPatchSchedule i t req) eq_refl)
  | |- preserves _ (pool_stmt (claim_stmt ?b ?t ?l)) =>
      exact (steps_unit _ (OpClaimEvents b t l) eq_refl)
  | |- preserves _ (pool_stmt (ack_stmt ?t ?i)) => exact (steps_unit _ (OpAckEvent t i) eq_refl)
  | |- preserves _ (pool_stmt (release_stmt ?t)) => exact (steps_unit _ (OpReleaseClaims t) eq_refl)
  end.

(** * Handlers *)

Section Rules.
Context (R : Db → Db → Prop) `{!PreOrder R}.

Lemma preserves_writeJSON st b : preserves R (writeJSON st b).
Proof. unfold writeJSON. preserve. Qed.

Lemma preserves_handleErr e : preserves R (handleErr e).
Proof. destruct e; unfold handleErr, writeError; repeat case_match; apply preserves_writeJSON. Qed.

Lemma preserves_checked {A} (m : M A) k :
  preserves R m → (∀ a, preserves R (k a)) → preserves R (checked m k).
Proof. intros Hm Hk. unfold checked. preserve. apply preserves_handleErr. Qed.

Lemma preserves_decode {A} (b : Body A) k : (∀ a, preserves R (k a)) → preserves R (decode b k).
Proof. intros Hk. destruct b; simpl; [apply preserves_writeJSON..|apply Hk]. Qed.

Lemma preserves_ask {A} (f : nat → result A) : preserves R (ask f).
Proof. by intros env s r s' [= <- <-]. Qed.

Lemma preserves_mmap {A B} (f : A → M B) l : (∀ a, preserves R (f a)) → preserves R (mmap f l).
Proof. intros Hf. induction l as [|x l IH]; simpl; preserve. Qed.

Lemma preserves_active t tenant w : preserves R (ActiveTaskLeaseBelongsToWorker t tenant w).
Proof.
  unfold ActiveTaskLeaseBelongsToWorker. preserve. intros env n db a db' H.
  destruct (select_task_run _ _ env n db) as [[[[t0 r0]|] db1]|] eqn:Hs; [..|done];
    injection Hs as _ <-; by injection H as _ <-.
Qed.
End Rules.

(** Take a handler apart into the store's operations. *)
Ltac handler_step :=
  lazymatch goal with
  | |- preserves _ (checked _ _) => apply preserves_checked; [apply _| |intros ?]
  | |- preserves _ (decode _ _) => apply preserves_decode; [apply _|intros ?]
  | |- preserves _ (writeJSON _ _) => apply preserves_writeJSON; apply _
  | |- preserves _ (writeError _ _) => apply preserves_writeJSON; apply _
  | |- preserves _ (writeHeader _) => apply preserves_writeJSON; apply _
  | |- preserves _ (handleErr _) => apply preserves_handleErr; apply _
  | |- preserves _ (ask _) => apply preserves_ask; apply _
  | |- preserves _ (mmap _ _) => apply preserves_mmap; [apply _|intros ?]
  | |- preserves _ (ActiveTaskLeaseBelongsToWorker _ _ _) => apply preserves_active; apply _
  | |- preserves _ (require_worker _ _) => unfold require_worker
  | |- preserves _ (authorizeTask _ _ _) => unfold authorizeTask
  | |- preserves _ (authorizeActiveTask _ _ _ _) => unfold authorizeActiveTask
  | |- preserves _ (with_artifacts _ _) => unfold with_artifacts
  | |- preserves _ (upload_answer _) => unfold upload_answer
  | |- preserves _ (stream_response _) => unfold stream_response
  | |- preserves _ (affected _) => unfold affected
  | |- preserves _ (key_expired _) => unfold key_expired
  | |- preserves _ (sign _ _ _) => unfold sign
  | |- preserves _ (sign_task _ _ _) => unfold sign_task
  | |- preserves _ (sign_attempt _ _ _) => unfold sign_attempt
  | |- preserves _ (GetArtifact _ _) => unfold GetArtifact
  | |- preserves _ (GetArtifactByURI _ _) => unfold GetArtifactByURI
  | |- preserves _ (getArtifact _ _) => unfold getArtifact
  | |- preserves _ (Manager_Download _ _ _) => unfold Manager_Download
  | |- preserves _ (DownloadInternal _ _ _) => unfold DownloadInternal
  | |- preserves _ (CreateUpload _ _ _ _ _ _ _ _) => unfold CreateUpload
  | |- preserves _ (CreateInternalUpload _ _ _ _ _ _ _ _) => unfold CreateInternalUpload
  | |- preserves _ (download _ _ _ _) => unfold download
  | |- preserves _ (Complete _ _ _ _) => unfold Complete
  | |- preserves _ (createUpload _ _ _ _ _ _ _ _ _ _) => unfold createUpload
  | |- preserves _ (TaskBelongsToTenant _ _) => unfold TaskBelongsToTenant
  | |- preserves _ (GenerateAPIKey _ _ _ _) => unfold GenerateAPIKey
  | |- preserves _ (let _ := _ in _) => cbv zeta
  | |- preserves _ (ListWorkflows _) => unfold ListWorkflows
  | |- preserves _ (GetWorkflow _ _) => unfold GetWorkflow
  | |- preserves _ (GetRun _ _) => unfold GetRun
  | |- preserves _ (ListRuns _ _) => unfold ListRuns
  | |- preserves _ (Events _ _) => unfold Events
  | |- preserves _ (ListWorkers _) => unfold ListWorkers
  | |- preserves _ (DeadLetter _) => unfold DeadLetter
  | |- preserves _ (ListAPIKeys _) => unfold ListAPIKeys
  end.

(** The outbox batch: its statements are steps, deliveries are not seen by the
    database. *)
Definition batch_preserves {A} (R : Db → Db → Prop) (m : P A) : Prop :=
  ∀ env bus w r w', m env bus w = (r, w') → R (s_db (w_sess w)) (s_db (w_sess w')).

Section Batch.
Context (R : Db → Db → Prop) `{!PreOrder R}.

Lemma batch_ret {A} (a : A) : batch_preserves R (mret a).
Proof. by intros env bus w r w' [= _ <-]. Qed.

Lemma batch_throw {A} e : batch_preserves R (pthrow (A := A) e).
Proof. by intros env bus w r w' [= _ <-]. Qed.

Lemma batch_bind {A B} (m : P A) (k : A → P B) :
  batch_preserves R m → (∀ a, batch_preserves R (k a)) → batch_preserves R (m ≫= k).
Proof.
  intros Hm Hk env bus w r w'. unfold mbind, P_bind.
  destruct (m env bus w) as [[a|e] w1] eqn:H1; apply Hm in H1.
  - intros H2%Hk. by etransitivity.
  - by intros [= _ <-].
Qed.

Lemma batch_try {A} (m : P A) : batch_preserves R m → batch_preserves R (ptry m).
Proof.
  intros Hm env bus w r w'. unfold ptry. destruct (m env bus w) as [x w1] eqn:H1.
  intros [= _ <-]. by eapply Hm.
Qed.

Lemma batch_lift {A} (m : M A) : preserves R m → batch_preserves R (lift m).
Proof.
  intros Hm env bus w r w'. unfold lift. destruct (m env (w_sess w)) as [x s1] eqn:H1.
  intros [= _ <-]. by apply Hm in H1.
Qed.

Lemma batch_Publish e : batch_preserves R (Publish e).
Proof. intros env bus w r w'. unfold Publish. case_match; by intros [= _ <-]. Qed.

Lemma batch_Live t e : batch_preserves R (Live_Publish t e).
Proof. intros env bus w r w'. unfold Live_Publish. repeat case_match; by intros [= _ <-]. Qed.
End Batch.

Ltac batch_step :=
  lazymatch goal with
  | |- batch_preserves _ (mbind _ _) => apply batch_bind; [apply _| |intros ?]
  | |- batch_preserves _ (mret _) => apply batch_ret; apply _
  | |- batch_preserves _ (pthrow _) => apply batch_throw; apply _
  | |- batch_preserves _ (ptry _) => apply batch_try
  | |- batch_preserves _ (lift _) => apply batch_lift
  | |- batch_preserves _ (Publish _) => apply batch_Publish; apply _
  | |- batch_preserves _ (Live_Publish _ _) => apply batch_Live; apply _
  | |- batch_preserves _ (match ?x with _ => _ end) => destruct x
  | |- batch_preserves _ (releaseClaims _) => unfold releaseClaims
  | |- batch_preserves _ (publish_acked _ _ _) => unfold publish_acked
  | |- batch_preserves _ (publish_one _ _ _) => unfold publish_one
  | |- batch_preserves _ (notify _ _) => unfold notify
  end.

Lemma publish_all_steps s token l : batch_preserves (rtc step) (publish_all s token l).
Proof.
  induction l as [|e l IH]; simpl; repeat first [exact IH | by_op | batch_step].
Qed.

Lemma publishClaimedBatch_steps s : batch_preserves (rtc step) (publishClaimedBatch s).
Proof.
  unfold publishClaimedBatch. cbv zeta.
  repeat first [by_op | apply publish_all_steps | batch_step]. apply preserves_new_uuid, _.
Qed.

Section Requests.
Context {location cron : Type}.
Context (LoadLocation : string → result location) (cron_parse : string → result cron).
Context (cron_next : cron → location → time → time) (format_rfc3339 : time → string).
Context (uuid_Parse : string → bool) (sha256 : string → string) (rand : nat → result (list Z)).
Context (srv : Server) (config : AuthConfig) (verify : string → result (list (string * json))).

Local Abbreviation handle := (handle LoadLocation cron_parse cron_next uuid_Parse sha256 rand srv).
Local Abbreviation handle_worker := (handle_worker sha256 srv).
Local Abbreviation guarded := (guarded LoadLocation cron_parse cron_next uuid_Parse sha256 rand srv).

Lemma handle_steps r p : preserves (rtc step) (handle r p).
Proof.
  destruct r; simpl;
    unfold createWorkflow, createVersion, listWorkflows, getWorkflow, createRun, getRun, listRuns,
      cancelRun, retryRun, events, workers, deadLetter, replay, createSchedule, patchSchedule,
      deleteSchedule, listAPIKeys, createAPIKey, rotateAPIKey, revokeAPIKey, createArtifactUpload,
      completeArtifactUpload, downloadArtifact;
    repeat first [by_op | handler_step | preserve_step | preserve_leaf].
Qed.

Lemma handle_worker_steps r p : preserves (rtc step) (handle_worker r p).
Proof.
  destruct r; simpl;
    unfold lease, start, heartbeat, complete, fail, workerHeartbeat, createArtifactUpload,
      completeArtifactUpload, downloadArtifact;
    repeat first [by_op | handler_step | preserve_step | preserve_leaf].
Qed.

Lemma guarded_steps r p : preserves (rtc step) (guarded r p).
Proof.
  unfold guarded. destruct (route_guard r p) as [[st msg]|]; [|apply handle_steps].
  apply preserves_writeJSON, _.
Qed.

Lemma Authenticate_steps raw : preserves (rtc step) (Authenticate uuid_Parse sha256 config verify raw).
Proof.
  unfold Authenticate, authenticateAPIKey, authenticateOIDC.
  repeat first [by_op | handler_step | preserve_step | preserve_leaf].
Qed.

Lemma serve_public_steps auth proto path limit inner :
  (∀ p, preserves (rtc step) (inner p)) →
  preserves (rtc step) (serve_public uuid_Parse sha256 config verify auth proto path limit inner).
Proof.
  intros Hi. unfold serve_public, limited, authenticateRequest, writeError, writeJSON.
  preserve; try apply Authenticate_steps; apply Hi.
Qed.

Lemma serve_worker_steps auth inner :
  (∀ p, preserves (rtc step) (inner p)) →
  preserves (rtc step) (serve_worker uuid_Parse sha256 config verify auth inner).
Proof.
  intros Hi. unfold serve_worker, AuthenticateWorker, writeError, writeJSON.
  preserve; try apply Authenticate_steps; apply Hi.
Qed.

(** The server as a whole. *)
Context (dec : Decoders) (limit : Principal → gate).
Context (ping : nat → result unit) (dependency : option (nat → result unit)).
Context (metrics openapi docs : string).

Local Abbreviation Handler := (Handler LoadLocation cron_parse cron_next uuid_Parse sha256 rand srv config
  verify dec limit ping dependency metrics openapi docs).

Lemma mux_answer_steps {A} (f : A → M Response) r :
  (∀ a, preserves (rtc step) (f a)) → preserves (rtc step) (mux_answer f r).
Proof. intros Hf. destruct r; simpl; [apply Hf|preserve..]. Qed.

Lemma Handler_steps rq : preserves (rtc step) (Handler rq).
Proof.
  unfold Handler, cors. repeat preserve_step. apply mux_answer_steps. intros []; simpl.
  - apply serve_public_steps. intros p. apply mux_answer_steps. intros r. apply guarded_steps.
  - apply serve_worker_steps. intros p. apply mux_answer_steps. intros r. apply handle_worker_steps.
  - apply preserves_writeJSON, _.
  - unfold ready. repeat first [handler_step | preserve_step | preserve_leaf].
  - apply preserves_writeJSON, _.
  - apply preserves_writeJSON, _.
  - apply preserves_writeJSON, _.
Qed.

Lemma tick_steps :
  preserves (rtc step) (tick LoadLocation cron_parse cron_next format_rfc3339).
Proof.
  unfold tick, fireSchedules, fire_one. apply preserves_bind; [apply _| |intros ?].
  - apply preserves_bind; [apply _| |intros ?]; [|repeat first [by_op | preserve_step | preserve_leaf]].
    eapply preserves_mono; [|apply advance_unchanged]. by intros db db' <-.
  - repeat first [by_op | preserve_step | preserve_leaf].
Qed.

(** * What authorization excludes *)

Definition read_scopes : list string :=
  ["workflows:read"; "runs:read"; "workers:read"; "dead-letter:read"; "artifacts:read"].

(** A user in the role of a viewer, or a key with scopes for reading only. *)
Definition read_only (p : Principal) : Prop :=
  if bool_decide (Kind p = "api_key") then ∀ sc, sc ∈ Scopes p → sc ∈ read_scopes
  else roleLevel (Role p) ≤ 1.

Lemma read_only_refused p role scope :
  read_only p → scope ∉ read_scopes → 1 < roleLevel role → is_Some (Require role scope p).
Proof.
  unfold read_only, Require. intros Hr Hs Hl. case_bool_decide.
  - destruct (HasScope p scope) eqn:Hh; [|by eexists]. exfalso. apply Hs, Hr.
    unfold HasScope in Hh. apply existsb_exists in Hh as (sc & Hin & Heq). bool_split. subst.
    by apply list_elem_of_In.
  - rewrite bool_decide_true by lia. by eexists.
Qed.

Lemma read_only_not_admin p : read_only p → is_Some (RequireHumanRole "admin" p).
Proof.
  unfold read_only, RequireHumanRole. case_bool_decide; [by eexists|]. intros Hr.
  rewrite bool_decide_true; [by eexists|]. vm_compute (roleLevel "admin"). lia.
Qed.

Definition reads (r : route) : bool :=
  match r with
  | GetWorkflows | GetWorkflow_ _ | GetRuns | GetRun_ _ | GetEvents _ | GetWorkers | GetDeadLetter
  | GetKeys | GetDownload _ | GetStream _ => true
  | _ => false
  end.

Lemma reads_unchanged r p : reads r = true → preserves (=) (handle r p).
Proof.
  destruct r; simpl; try done; intros _;
    unfold listWorkflows, getWorkflow, getRun, listRuns, events, workers, deadLetter, listAPIKeys,
      downloadArtifact;
    repeat first [handler_step | preserve_step | preserve_leaf].
Qed.

Lemma writes_refused r p : reads r = false → read_only p → is_Some (route_guard r p).
Proof.
  destruct r; simpl; try done; intros _ Hr; (by apply read_only_not_admin) ||
    (apply read_only_refused; [done|apply (bool_decide_unpack _); by vm_compute|by vm_compute]).
Qed.

Lemma guarded_read_only r p env s x s' : read_only p → guarded r p env s = (x, s') → s_db s' = s_db s.
Proof.
  intros Hr. destruct (reads r) eqn:Hk.
  - unfold guarded. destruct (route_guard r p) as [[st msg]|]; [by intros [= _ <-]|].
    intros H. symmetry. by apply (reads_unchanged r p Hk) in H.
  - destruct (writes_refused r p Hk Hr) as [[st msg] Hg]. unfold guarded. rewrite Hg.
    by intros [= _ <-].
Qed.

(** Nothing has changed but the time at which the API key of the token was last
    used. *)
Definition touched (raw : string) (db db' : Db) : Prop :=
  db' = db ∨ ∃ id k t, APIKeyID uuid_Parse raw = Some id ∧ api_keys db !! id = Some k ∧
    db' = db<| api_keys := <[id := k<| k_last_used_at := Some t |>]> (api_keys db) |>.

Lemma authenticateAPIKey_touched raw env s r s' :
  authenticateAPIKey uuid_Parse sha256 config raw env s = (r, s') → touched raw (s_db s) (s_db s').
Proof.
  destruct r as [p|e]; [|intros ?%authenticateAPIKey_failure; by left].
  unfold authenticateAPIKey. destruct (APIKeyID uuid_Parse raw) as [id|] eqn:Hid; [|done].
  intros (row & s1 & Hrow & H)%bind_Ok. apply pool_stmt_Ok in Hrow as [[= Hrow Hdb] _].
  destruct row as [k|]; [|done]. case_bool_decide as Hhash; [done|].
  apply bind_Ok in H as (e & s2 & He & H). apply key_expired_Ok in He as [Hdb2 _].
  destruct e; [done|]. apply bind_Ok in H as (u & s3 & Ht & H). apply ret_Ok in H as [_ <-].
  apply bind_Some in Hrow as (k' & Hk & Hrow). case_bool_decide; [|done]. injection Hrow as ->.
  unfold try in Ht. destruct (pool_stmt (touch_api_key id) env s2) as [x s4] eqn:Hp. injection Ht as _ ->.
  apply pool_stmt_db in Hp as [Hp|(a & db & Hf & Hp & _)]; [left; congruence|].
  right. exists id, k, (env_now env (s_tick s2)). split_and!; [done..|]. injection Hf as _ <-.
  rewrite Hp, Hdb2, <-Hdb. set (f := λ k : ApiKeyRow, _).
  assert (alter f id (api_keys (s_db s)) = <[id := f k]> (api_keys (s_db s))) as ->; [|done].
  apply map_eq. intros i. destruct (decide (i = id)) as [->|].
  - by rewrite lookup_alter_eq, lookup_insert_eq, Hk.
  - by rewrite lookup_alter_ne, lookup_insert_ne.
Qed.

Lemma authenticateOIDC_unchanged raw env s r s' :
  authenticateOIDC config verify raw env s = (r, s') → s_db s' = s_db s.
Proof.
  assert (preserves eq (authenticateOIDC config verify raw)) as H
    by (unfold authenticateOIDC; repeat first [handler_step | preserve_step | preserve_leaf]).
  intros E. symmetry. exact (H _ _ _ _ E).
Qed.

Lemma authenticateRequest_touched auth proto path env s r s' :
  authenticateRequest uuid_Parse sha256 config verify auth proto path env s = (r, s') →
  touched (request_token auth proto path) (s_db s) (s_db s').
Proof.
  unfold authenticateRequest. destruct (Dev config); [intros [= _ <-]; by left|].
  unfold Authenticate. case_bool_decide; [intros [= _ <-]; by left|]. destruct (has_prefix "rm_" _).
  - apply authenticateAPIKey_touched.
  - intros Hdb%authenticateOIDC_unchanged. by left.
Qed.

(** C22: readers change nothing.  Whatever request to the public interface, of any
    method and path and with any body, authenticates as a viewer or as an API key
    with read scopes only, or not at all, the database afterwards is the one before,
    except that the key's own [last_used_at] may be new. *)
Theorem read_only_requests rq env s x s' :
  (∀ p s1, authenticateRequest uuid_Parse sha256 config verify (rq_Authorization rq) (rq_Protocol rq) (rq_Path rq) env s
     = (Ok p, s1) → read_only p) →
  serve_root LoadLocation cron_parse cron_next uuid_Parse sha256 rand srv config verify dec limit ping dependency
    metrics openapi docs rq Public env s = (x, s') →
  touched (request_token (rq_Authorization rq) (rq_Protocol rq) (rq_Path rq)) (s_db s) (s_db s').
Proof.
  intros Hread. simpl. unfold serve_public, mbind at 1, M_bind at 1, try.
  destruct (authenticateRequest _ _ _ _ _ _ _ env s) as [r s1] eqn:Ha.
  pose proof (authenticateRequest_touched _ _ _ _ _ _ _ Ha) as Ht.
  destruct r as [p|e]; [|by intros [= _ <-]]. specialize (Hread p s1 eq_refl).
  assert (∀ env s x s', mux_answer (λ r, guarded r p) (mux (public_table dec rq) (rq_Method rq) (rq_EscapedPath rq))
    env s = (x, s') → s_db s' = s_db s) as Hsame.
  { intros env1 s2 x1 s2'. destruct (mux _ _ _); simpl; [by apply guarded_read_only|by intros [= _ <-]..]. }
  unfold limited. destruct (limit p) as [hs|st hs msg]; [|by intros [= _ <-]].
  unfold mbind, M_bind. destruct (mux_answer _ _ env s1) as [[resp|e] s2] eqn:Hm; intros [= _ <-];
    apply Hsame in Hm; by rewrite Hm.
Qed.

(** The task a worker request is about. *)
Definition task_route (r : worker_route) : option string :=
  match r with
  | PostLease id _ | PostStart id _ | PostHeartbeat id _ | PostComplete id _ | PostFail id _ => Some id
  | _ => None
  end.

Definition answers (l : list Z) (m : M Response) (env : Env) (s : Sess) : Prop :=
  ∃ resp s', m env s = (Ok resp, s') ∧ s_db s' = s_db s ∧ resp_status resp ∈ l.

Lemma handleErr_fault f env s : answers [422; 500] (handleErr (fault_error f)) env s.
Proof.
  destruct f; simpl; case_match; do 2 eexists; (split_and!; [done..|]); [by left|by right; left| |];
    [by left|by right; left].
Qed.

Lemma authorizeTask_foreign p id k env s :
  (∀ t r, task_runs (s_db s) !! id = Some t → workflow_runs (s_db s) !! t_workflow_run_id t = Some r →
     r_tenant_id r ≠ TenantID p) →
  answers [404; 422; 500] (authorizeTask p id k) env s.
Proof.
  intros Hf. unfold answers, authorizeTask, checked, TaskBelongsToTenant, try.
  unfold mbind, M_bind, pool_stmt.
  assert (∀ f n, ∃ resp s', handleErr (fault_error f) env (mkSess n (s_rows_open s) (s_db s)) = (Ok resp, s') ∧
    s_db s' = s_db s ∧ resp_status resp ∈ [404; 422; 500]) as Hfault.
  { intros f n. destruct (handleErr_fault f env (mkSess n (s_rows_open s) (s_db s)))
      as (resp & s' & ? & ? & ?). exists resp, s'. split_and!; [done..|by right]. }
  destruct (env_fault env (s_tick s)) as [f|]; [apply Hfault|].
  rewrite select_task_run_join by (intros t r Ht Hr; by rewrite bool_decide_false by eauto).
  unfold commit. destruct (env_commit env _) as [|f|f]; [|apply Hfault..].
  do 2 eexists. split_and!; [done..|by left].
Qed.

Lemma with_worker_foreign {A} (b : Body A) (worker : A → string) (k : A → M Response) p id env s :
  (∀ t r, task_runs (s_db s) !! id = Some t → workflow_runs (s_db s) !! t_workflow_run_id t = Some r →
     r_tenant_id r ≠ TenantID p) →
  answers [400; 404; 422; 500]
    (decode b (λ req, require_worker (worker req) (authorizeTask p id (k req)))) env s.
Proof.
  intros Hf. destruct b as [m| |req]; simpl; [do 2 eexists; (split_and!; [done..|by left])..|].
  unfold require_worker. case_bool_decide; [do 2 eexists; (split_and!; [done..|by left])|].
  destruct (authorizeTask_foreign p id (k req) env s Hf) as (resp & s' & ? & ? & ?).
  exists resp, s'. split_and!; [done..|by right].
Qed.

(** Workers stay in their tenant.  A request to lease, start, renew, complete
    or fail a task of another tenant's run is answered with an error (404 unless
    the request is malformed or the database fails) and changes nothing. *)
Theorem foreign_tasks_refused r id p env s :
  task_route r = Some id →
  (∀ t rn, task_runs (s_db s) !! id = Some t → workflow_runs (s_db s) !! t_workflow_run_id t = Some rn →
     r_tenant_id rn ≠ TenantID p) →
  answers [400; 404; 422; 500] (handle_worker r p) env s.
Proof.
  intros Hr Hf. destruct r; simpl in Hr; try done; injection Hr as ->; simpl.
  - by apply (with_worker_foreign b wk_WorkerID).
  - by apply (with_worker_foreign b wk_WorkerID).
  - by apply (with_worker_foreign b wk_WorkerID).
  - by apply (with_worker_foreign b cr_WorkerID).
  - by apply (with_worker_foreign b fr_WorkerID).
Qed.

Lemma Authenticate_aloof raw : preserves aloof (Authenticate uuid_Parse sha256 config verify raw).
Proof.
  unfold Authenticate, authenticateAPIKey, authenticateOIDC.
  repeat first [handler_step | preserve_step | preserve_leaf].
Qed.

(** C25: no entry without identity.  In production a public request is answered
    401 and changes nothing, unless the bearer token it carries is an accepted
    API key or an OIDC token of a known user; then its answer is that of the
    handler, behind the rate limit and the authorization checks, for exactly that
    principal, and before it no table of the engine has changed. *)
Theorem public_requests_authenticated auth proto path inner env s x s' :
  Dev config = false →
  serve_public uuid_Parse sha256 config verify auth proto path limit inner env s = (x, s') →
  (x = Ok (mkResponse 401 [] (BError "unauthenticated")) ∧ s_db s' = s_db s) ∨
  ∃ p s1, let raw := request_token auth proto path in
    ((∃ now id k, accepted_key uuid_Parse sha256 config (s_db s) raw now p id k) ∨
     (∃ id u, accepted_user config verify (s_db s) raw p id u)) ∧
    aloof (s_db s) (s_db s1) ∧
    limited (limit p) (inner p) env s1 = (x, s').
Proof.
  intros Hdev. unfold serve_public, authenticateRequest. rewrite Hdev.
  set (raw := request_token auth proto path).
  unfold mbind at 1, M_bind at 1, try.
  destruct (Authenticate uuid_Parse sha256 config verify raw env s) as [[p|e] s1] eqn:Ha.
  - intros Hx. right. exists p, s1. cbv zeta. split; [|split; [by eapply Authenticate_aloof|done]].
    unfold Authenticate in Ha. case_bool_decide; [done|]. destruct (has_prefix "rm_" raw).
    + left. by eapply authenticateAPIKey_Ok.
    + right. by eapply authenticateOIDC_Ok.
  - intros [= <- <-]. left. split; [done|]. by eapply authenticate_failure.
Qed.
End Requests.
