(* ===== verification/Progress.v ===== *)
(** The worker protocol when nothing fails: what a worker that leases, starts
    and completes a dispatched task gets done, and what it leaves alone. *)
From S2P Require Import Prelude State Json Schema Sql StoreWorker StoreWorkflow Scheduler Preserve Lifecycle Refinement Creation System WorkerSpec SchedulerSpec Numbering Requests.

Lemma update_task_run id g f env n db t :
  task_runs db !! id = Some t → g t = true →
  update_task id g f env n db = Ok ([(id, f t)], db<| task_runs := <[id := f t]> (task_runs db) |>).
Proof.
  intros Ht Hg. destruct (update_task_total id g f env n db) as (rows & db' & Hu & _). rewrite Hu.
  apply update_task_cases in Hu as [(t' & Ht' & _ & -> & ->)|(_ & _ & Hno)].
  - by simplify_eq.
  - by rewrite (Hno _ Ht) in Hg.
Qed.

Lemma select_task_run_run id g env n db t r :
  task_runs db !! id = Some t → workflow_runs db !! t_workflow_run_id t = Some r → g t r = true →
  select_task_run id g env n db = Ok (Some (t, r), db).
Proof.
  intros Ht Hr Hg. unfold select_task_run, sql_select. rewrite Ht. simpl. rewrite Hr. simpl. by rewrite Hg.
Qed.

Lemma insert_attempt_run now id k w sch env n db :
  task_attempts db !! (id, k) = None →
  ∃ row, insert_attempt now id k w sch env n db
    = Ok (tt, db<| task_attempts := <[(id, k) := row]> (task_attempts db) |>).
Proof.
  intros Hn. unfold insert_attempt. rewrite bool_decide_false by (rewrite Hn; apply is_Some_None).
  by eexists.
Qed.

Lemma insert_outbox_run now ty id ev p tr env n db :
  outbox_events db !! env_uuid env n = None →
  ∃ e, insert_outbox now ty id ev p tr env n db
    = Ok (tt, db<| outbox_events := <[env_uuid env n := e]> (outbox_events db) |>).
Proof.
  intros Hn. unfold insert_outbox. rewrite bool_decide_false by (rewrite Hn; apply is_Some_None).
  by eexists.
Qed.

Lemma in_tx_run {A} (body : time → M (outcome A)) env n open db a n' db' :
  calm env → body (env_now env n) env (mkSess (S n) false db) = (Ok (Commit a), mkSess n' false db') →
  in_tx body env (mkSess n open db) = (Ok a, mkSess (S n') false db').
Proof.
  intros [Hc Hm] Hb. unfold in_tx. cbn [s_tick s_db]. rewrite Hc, Hb. unfold commit. simpl. by rewrite Hm.
Qed.

(** When nothing fails, a transaction that reports an error has changed
    nothing. *)
Lemma in_tx_error {A} (body : time → M (outcome A)) env s e s' :
  calm env → in_tx body env s = (Err e, s') → s_db s' = s_db s.
Proof.
  intros [Hc Hm]. unfold in_tx. rewrite Hc. destruct (body _ _ _) as [[[a|a]|e1] s1].
  - unfold commit. by rewrite Hm.
  - done.
  - by intros [= _ <-].
Qed.

Section Calm.
Context (env : Env) (Hcalm : calm env) (Huuid : Inj (=) (=) (env_uuid env)).
Implicit Types (n : nat) (db : Db).

Let Hno_fault n : env_fault env n = None := proj1 Hcalm n.

(** Execute a statement whose outcome is known. *)
Ltac statement H := erewrite bind_run; [|apply tx_stmt_run; [apply Hno_fault|exact H]]; cbv iota beta.

(** A dispatched task can be leased. *)
Lemma LeaseTask_run id w l n open db t :
  system_reachable db → fresh_from env n db → task_runs db !! id = Some t → t_status t = DISPATCHING →
  ∃ tr db', LeaseTask id w l env (mkSess n open db) = (Ok tr, mkSess (7 + n) false db') ∧
    task_runs db' = <[id := leased_row w (env_clock env (S n) + l) (env_now env n) t]> (task_runs db) ∧
    workflow_runs db' = workflow_runs db.
Proof.
  intros Hreach Hf Ht Hst. pose proof (task_run_exists _ _ _ Hreach Ht) as [r Hr].
  set (t' := leased_row w (env_clock env (S n) + l) (env_now env n) t).
  set (db1 := db<| task_runs := <[id := t']> (task_runs db) |>).
  destruct (insert_attempt_run (env_now env n) id (t_attempt_count t') w (t_available_at t') env
    (S (S (S (S n)))) db1) as [row Ha].
  { apply eq_None_not_Some. intros Hs.
    apply (attempt_history _ _ _ (t_attempt_count t') Hreach Ht) in Hs. simpl in Hs. lia. }
  set (db2 := db1<| task_attempts := _ |>) in Ha.
  destruct (insert_outbox_run (env_now env n) "task_run" id "task.leased"
    (JObj [("workflow_run_id", JStr (t_workflow_run_id t')); ("task_run_id", JStr id);
           ("task_key", JStr (t_task_key t')); ("worker_id", JStr w);
           ("attempt", JNum (t_attempt_count t'))]) (Some (env_trace env)) env (S (S (S (S (S n))))) db2)
    as [e He]; [apply Hf; lia|].
  assert (sql_select (λ _ _ db, workflow_runs db !! t_workflow_run_id t') env (S (S (S n))) db1
    = Ok (Some r, db1)) as Hsel by (unfold sql_select; simpl; by rewrite Hr).
  set (db3 := db2<| outbox_events := _ |>) in He.
  exists (mkTaskRun id t' (r_input_artifact_uri r)), db3. split; [|done]. unfold LeaseTask.
  eapply in_tx_run; [done|]. unfold nowPlus. erewrite bind_run; [|by erewrite bind_run].
  erewrite bind_run; [|apply tx_stmt_run; [apply Hno_fault|apply update_task_run; [exact Ht|]]].
  2: by rewrite bool_decide_true.
  fold t' db1. cbv iota beta.
  statement Hsel.
  statement Ha.
  erewrite bind_run; [|reflexivity].
  statement He. reflexivity.
Qed.
(** A leased task can be started by the worker that leased it. *)
Lemma StartTask_run id w n open db t r :
  task_runs db !! id = Some t → t_status t = LEASED → holds_lease (env_now env n) w t = true →
  workflow_runs db !! t_workflow_run_id t = Some r → r_status r = RUN_RUNNING →
  ∃ tr db', StartTask id w env (mkSess n open db) = (Ok tr, mkSess (5 + n) false db') ∧
    task_runs db' = <[id := t<| t_status := RUNNING |><| t_updated_at := env_now env n |>]> (task_runs db) ∧
    workflow_runs db' = workflow_runs db.
Proof.
  intros Ht Hst Hl Hr Hrun. set (g := λ t : TaskRow, bool_decide (t_status t = LEASED) && holds_lease (env_now env n) w t).
  assert (g t = true) as Hg by (unfold g; by rewrite bool_decide_true, Hl).
  pose proof (select_task_run_run id (λ t _, g t) env (S n) db t r Ht Hr Hg) as Hsel.
  set (f := λ t : TaskRow, t<| t_status := RUNNING |><| t_updated_at := env_now env n |>).
  pose proof (update_task_run id g f env (S (S n)) db t Ht Hg) as Hup.
  set (db1 := db<| task_runs := _ |>) in Hup.
  edestruct (update_attempt_total id (t_attempt_count (f t))) as (db2 & Hatt & Hsame).
  exists (mkTaskRun id (f t) None), db2. split.
  - unfold StartTask. eapply in_tx_run; [done|]. statement Hsel. unfold run_running.
    rewrite bool_decide_true by done. cbn [negb].
    statement Hup. statement Hatt. reflexivity.
  - pose proof (core_update_attempt _ _ _ _ _ _ _ _ _ Hatt) as [-> -> _ _]. done.
Qed.

(** A task can be completed by the worker that runs it. *)
Lemma CompleteTask_run id w out uri logs n open db t r :
  fresh_from env n db →
  task_runs db !! id = Some t → t_status t = RUNNING → holds_lease (env_now env n) w t = true →
  workflow_runs db !! t_workflow_run_id t = Some r → r_status r = RUN_RUNNING →
  ∃ tr n' db', CompleteTask id w out uri logs env (mkSess n open db) = (Ok tr, mkSess n' false db').
Proof.
  intros Hf Ht Hst Hl Hr Hrun. set (g := λ t : TaskRow, bool_decide (t_status t = RUNNING) && holds_lease (env_now env n) w t).
  assert (g t = true) as Hg by (unfold g; by rewrite bool_decide_true, Hl).
  pose proof (select_task_run_run id (λ t _, g t) env (S n) db t r Ht Hr Hg) as Hsel.
  set (f := completed_row (default empty_object out) uri (env_now env n)).
  pose proof (update_task_run id g f env (S (S n)) db t Ht Hg) as Hup.
  set (db1 := db<| task_runs := _ |>) in Hup.
  destruct (update_attempt_total id (t_attempt_count (f t)) (λ _, true)
    (λ a, a<| a_ended_at := Some (env_now env n) |><| a_exit_status := Some "SUCCEEDED" |>
           <| a_artifact_uri := nullif_empty uri |>
           <| a_log_artifact_uri := nullif_empty (default "" (head logs)) |>) env (S (S (S n))) db1) as (db2 & Hatt & Hsame).
  destruct (update_tasks (unblocked_by (t_workflow_run_id (f t)) id) (λ _ _, ready_row (env_now env n)) env
    (S (S (S (S n)))) db2) as [[children db3]|] eqn:Hch; [|done].
  assert (outbox_events db3 = outbox_events db) as He3.
  { injection Hch as _ <-. exact Hsame. }
  destruct (mfor_total (fresh_from env) children (λ c, trace ← trace_parent;
      tx_stmt (insert_outbox (env_now env n) "task_run" c.1 "task.ready"
        (task_payload (t_workflow_run_id (f t)) c.1 (t_task_key c.2) []) (Some trace)))
      env (S (S (S (S (S n))))) db3) as (n4 & db4 & Hloop & Hf4).
  { intros c m db' _ Hfm. edestruct (insert_outbox_total env m db') as (db'' & Hi & Hf'); [done..|].
    exists (S m), db''. split; [|done]. erewrite bind_run; [|reflexivity]. by apply tx_stmt_run. }
  { by eapply fresh_later; [exact Hf|lia|]. }
  edestruct (insert_outbox_total env n4 db4) as (db5 & Ho & Hf5); [done..|].
  destruct (update_run (t_workflow_run_id (f t)) run_running (finish_run (env_now env n) RUN_SUCCEEDED)
    env (S (S n4)) db5) as [[runs db6]|] eqn:Hru; [|done].
  exists (mkTaskRun id (f t) None).
  assert (∃ n' db', complete_tx id w (default empty_object out) uri logs (env_now env n) env (mkSess (S n) false db)
    = (Ok (Commit (mkTaskRun id (f t) None)), mkSess n' false db')) as (n' & db' & Hbody).
  { unfold complete_tx. statement Hsel. unfold run_running at 1. rewrite bool_decide_true by done.
    cbn [negb]. statement Hup. statement Hatt. statement Hch.
    erewrite bind_run; [|exact Hloop]. erewrite bind_run; [|reflexivity]. statement Ho.
    erewrite bind_run; [|by apply tx_stmt_run; [apply Hno_fault|]].
    case_bool_decide; [|erewrite bind_run by reflexivity; by do 2 eexists].
    erewrite bind_run; [|erewrite bind_run; [reflexivity|apply tx_stmt_run; [apply Hno_fault|exact Hru]]].
    by do 2 eexists. }
  exists (S n'), db'. unfold CompleteTask. by eapply in_tx_run.
Qed.
End Calm.

(** * What the operations leave alone *)

(** The rows after a completion: the task is SUCCEEDED, blocked tasks of its run
    may have become READY, its run is RUNNING or SUCCEEDED, and nothing else has
    changed among tasks and runs. *)
Lemma CompleteTask_rows id w out uri logs env s tr s' :
  CompleteTask id w out uri logs env s = (Ok tr, s') →
  ∃ t r', let db := s_db s in let db' := s_db s' in let rid := t_workflow_run_id t in
    let now := env_now env (s_tick s) in
    task_runs db !! id = Some t ∧
    (∃ t', task_runs db' !! id = Some t' ∧ t_status t' = SUCCEEDED ∧ t_workflow_run_id t' = rid) ∧
    (∀ k, k ≠ id → task_runs db' !! k = task_runs db !! k ∨
       ∃ c, task_runs db !! k = Some c ∧ t_status c = BLOCKED ∧ t_workflow_run_id c = rid ∧
         task_runs db' !! k = Some (ready_row now c)) ∧
    workflow_runs db' !! rid = Some r' ∧ (r_status r' = RUN_RUNNING ∨ r_status r' = RUN_SUCCEEDED) ∧
    (∀ k, k ≠ rid → workflow_runs db' !! k = workflow_runs db !! k).
Proof.
  intros Hl. apply in_tx_committed in Hl as (s1 & Hb & ->); [|unfold complete_tx; no_abandon].
  apply complete_tx_Ok in Hb as (t & r & db1 & (Ht & _ & _ & Hr & Hrun) & Ht1 & Hd1 & Ht2 & _ & _ & Hr2).
  assert (∃ r', workflow_runs (s_db s1) !! t_workflow_run_id t = Some r' ∧
    (r_status r' = RUN_RUNNING ∨ r_status r' = RUN_SUCCEEDED) ∧
    ∀ k, k ≠ t_workflow_run_id t → workflow_runs (s_db s1) !! k = workflow_runs (s_db s) !! k) as (r' & Hr' & Hst' & Hother).
  { destruct Hr2 as [[-> _]|[-> _]]; [by eauto|]. unfold end_run.
    rewrite lookup_alter_eq. cbn [s_db] in Hr. rewrite Hr. simpl. unfold run_running. rewrite bool_decide_true by done.
    eexists. split_and!; [done|by right|]. intros k Hk. by rewrite lookup_alter_ne. }
  exists t, r'. split_and!; try done.
  - exists (completed_row (default empty_object out) uri (env_now env (s_tick s)) t).
    split; [by eapply completed_task|done].
  - intros k Hne. rewrite Ht2, Ht1, lookup_insert_ne by done. cbn [s_db] in *.
    destruct (task_runs (s_db s) !! k) as [c|] eqn:Hc; [|by left]. simpl.
    destruct (unblocked_by _ _ _ _ c) eqn:Hu; [|by left]. unfold unblocked_by in Hu.
    right. exists c. bool_split. done.
Qed.

Lemma StartTask_rows id w env s tr s' :
  StartTask id w env s = (Ok tr, s') →
  workflow_runs (s_db s') = workflow_runs (s_db s) ∧
  ∃ t, task_runs (s_db s) !! id = Some t ∧ t_status t = LEASED ∧
    task_runs (s_db s') = <[id := t<| t_status := RUNNING |><| t_updated_at := env_now env (s_tick s) |>]>
                            (task_runs (s_db s)).
Proof.
  intros Hl. apply in_tx_committed in Hl as (s1 & Hb & ->); [|no_abandon].
  repeat body_step. repeat stmt_step. bool_split.
  match goal with H : core _ _ |- _ => destruct H as [-> -> _ _] end. simpl. split; [done|]. eauto.
Qed.
