(* ===== verification/RpcSpec.v ===== *)
(** The gRPC interface keeps the promises of the HTTP one: its calls are
    executions of the engine and it refuses tasks of other tenants. *)
From S2P Require Import Prelude Go Model Dag State Json Schema Sql StoreWorker StoreWorkflow Scheduler Outbox Auth Artifacts RateLimit Api Rpc Preserve Frame Lifecycle Refinement Creation Aloof System WorkerSpec AuthSpec ArtifactSpec Requests.

Section Rpc.
Context (uuid_Parse : string → bool) (sha256 : string → string).
Context (config : AuthConfig) (verify : string → result (list (string * json))).
Context (leaseDuration : Z) (artifacts_ : option Manager).

(** The methods of the service with their requests. *)
Inductive call : Type :=
  | CallLease (md : list string) (taskID workerID : string)
  | CallStart (md : list string) (taskID workerID : string)
  | CallHeartbeat (md : list string) (taskID workerID : string)
  | CallComplete (md : list string) (taskID workerID : string) (output : option json)
      (outputURI logURI : string)
  | CallFail (md : list string) (taskID workerID : string) (f : Failure)
  | CallCreateUpload (md : list string) (taskID workerID kind contentType : string) (size : Z)
      (checksum : string)
  | CallCompleteUpload (md : list string) (taskID workerID artifactID : string)
  | CallDownload (md : list string) (taskID workerID uri : string).

(** The status a call ends with, if it is not a message. *)
Definition status_of {A} (m : RM A) : M (option code) :=
  r ← m; mret (match r with Reply _ => None | Status c _ => Some c end).

Definition dispatch_call (c : call) : M (option code) :=
  match c with
  | CallLease md t w => status_of (Lease uuid_Parse sha256 config verify leaseDuration md t w)
  | CallStart md t w => status_of (Start uuid_Parse sha256 config verify md t w)
  | CallHeartbeat md t w => status_of (Heartbeat uuid_Parse sha256 config verify leaseDuration md t w)
  | CallComplete md t w o ou lu =>
      status_of (rpc_Complete uuid_Parse sha256 config verify artifacts_ md t w o ou lu)
  | CallFail md t w f => status_of (Fail uuid_Parse sha256 config verify md t w f)
  | CallCreateUpload md t w k ct sz sum =>
      status_of (CreateArtifactUpload uuid_Parse sha256 config verify artifacts_ md t w k ct sz sum)
  | CallCompleteUpload md t w a =>
      status_of (CompleteArtifactUpload uuid_Parse sha256 config verify artifacts_ md t w a)
  | CallDownload md t w u =>
      status_of (GetArtifactDownload uuid_Parse sha256 config verify artifacts_ md t w u)
  end.

Definition call_task (c : call) : string :=
  match c with
  | CallLease _ t _ | CallStart _ t _ | CallHeartbeat _ t _ | CallComplete _ t _ _ _ _
  | CallFail _ t _ _ | CallCreateUpload _ t _ _ _ _ _ | CallCompleteUpload _ t _ _
  | CallDownload _ t _ _ => t
  end.

Lemma authorize_steps md : preserves (rtc step) (authorize uuid_Parse sha256 config verify md).
Proof.
  unfold authorize, AuthenticateWorker. cbv zeta. preserve; apply Authenticate_steps.
Qed.

Lemma call_steps c : preserves (rtc step) (dispatch_call c).
Proof.
  destruct c; simpl; unfold status_of, Lease, Start, Heartbeat, Fail, rpc_Complete, CreateArtifactUpload,
    CompleteArtifactUpload, GetArtifactDownload, rpc_authorizeTask, principalForActiveTask,
    check_artifact, after, stored_call;
    repeat first [apply authorize_steps | by_op | handler_step | preserve_step | preserve_leaf].
Qed.

(** Calls are executions.  From a reachable database every gRPC call leads to
    a reachable database. *)
Theorem calls_are_executions c env s x s' :
  system_reachable (s_db s) → dispatch_call c env s = (x, s') → system_reachable (s_db s').
Proof.
  intros (db0 & H0 & Hr) Hc. exists db0. split; [done|]. etransitivity; [done|]. by eapply call_steps.
Qed.

(** * The tenant of a call *)

Definition call_metadata (c : call) : list string :=
  match c with
  | CallLease md _ _ | CallStart md _ _ | CallHeartbeat md _ _ | CallComplete md _ _ _ _ _
  | CallFail md _ _ _ | CallCreateUpload md _ _ _ _ _ _ | CallCompleteUpload md _ _ _
  | CallDownload md _ _ _ => md
  end.

(** The metadata authenticates a principal for workers, and the run of the task
    is one of its tenant. *)
Definition in_tenant (md : list string) (taskID : string) (env : Env) (s : Sess) : Prop :=
  ∃ p s1 t r, authorize uuid_Parse sha256 config verify md env s = (Ok (Reply p), s1) ∧
    HasScope p "workers:execute" = true ∧ task_runs (s_db s) !! taskID = Some t ∧
    workflow_runs (s_db s) !! t_workflow_run_id t = Some r ∧ r_tenant_id r = TenantID p.

Lemma authorize_aloof md : preserves aloof (authorize uuid_Parse sha256 config verify md).
Proof.
  unfold authorize, AuthenticateWorker, Authenticate, authenticateAPIKey, authenticateOIDC. cbv zeta.
  repeat first [handler_step | preserve_step | preserve_leaf].
Qed.

Lemma authorize_Ok md env s p s' :
  authorize uuid_Parse sha256 config verify md env s = (Ok (Reply p), s') →
  aloof (s_db s) (s_db s') ∧ HasScope p "workers:execute" = true.
Proof.
  intros H. split; [by eapply authorize_aloof|]. unfold authorize in H.
  destruct md as [|v [|]]; [done| |done]. destruct (negb _); [done|]. cbv zeta in H.
  case_bool_decide; [done|]. apply bind_Ok in H as (r & s1 & Hr & H). unfold try in Hr.
  destruct (AuthenticateWorker _ _ _ _ _ env s) as [x s0] eqn:Ha. injection Hr as <- <-.
  destruct x as [p'|]; [|done]. apply ret_Ok in H as [[= ->] _].
  by eapply AuthenticateWorker_scope.
Qed.

Lemma after_Ok {A B} (m : RM A) (k : A → RM B) env s b s' :
  after m k env s = (Ok (Reply b), s') →
  ∃ a s1, m env s = (Ok (Reply a), s1) ∧ k a env s1 = (Ok (Reply b), s').
Proof. intros ([a|c t] & s1 & Hm & H)%bind_Ok; [eauto|done]. Qed.

Lemma stored_call_Ok {A B} (m : M A) (k : A → RM B) env s b s' :
  stored_call m k env s = (Ok (Reply b), s') →
  ∃ a s1, m env s = (Ok a, s1) ∧ k a env s1 = (Ok (Reply b), s').
Proof.
  intros (r & s1 & Hm & H)%bind_Ok. unfold try in Hm. destruct (m env s) as [x s0] eqn:Hx.
  injection Hm as <- <-. destruct x as [a|e]; [eauto|]. apply ret_Ok in H as [H _].
  unfold rpcError in H. by repeat case_match.
Qed.

(** ** Refused calls *)

Abbreviation refusal t := (Ok (Status FailedPrecondition t)).

Lemma after_refused {A B} (m : RM A) (k : A → RM B) env s t s' :
  after m k env s = (refusal t, s') →
  m env s = (refusal t, s') ∨ ∃ a s1, m env s = (Ok (Reply a), s1) ∧ k a env s1 = (refusal t, s').
Proof.
  intros ([a|c t'] & s1 & Hm & H)%bind_Ok; [eauto|]. apply ret_Ok in H as [[= <- <-] <-]. by left.
Qed.

Lemma rpcError_refused {A} (e : error) t :
  rpcError (A := A) e = Status FailedPrecondition t → conflicting e = true.
Proof. unfold rpcError, conflicting. case_bool_decide; [done|]. by case_bool_decide. Qed.

Lemma stored_call_refused {A B} (m : M A) (k : A → RM B) env s t s' :
  stored_call m k env s = (refusal t, s') →
  (∃ e, m env s = (Err e, s') ∧ conflicting e = true) ∨
  ∃ a s1, m env s = (Ok a, s1) ∧ k a env s1 = (refusal t, s').
Proof.
  intros (r & s1 & Hm & H)%bind_Ok. unfold try in Hm. destruct (m env s) as [x s0] eqn:Hx.
  injection Hm as <- <-. destruct x as [a|e]; [eauto|]. apply ret_Ok in H as [H%rpcError_refused <-]. eauto.
Qed.

Lemma TaskBelongsToTenant_unconflicted id tenant : unconflicted (TaskBelongsToTenant id tenant).
Proof.
  apply unconflicted_bind; [|intros [x|]; [apply unconflicted_ret|by apply unconflicted_throw]].
  intros env s e s'. unfold pool_stmt, commit, select_task_run, sql_select.
  repeat case_match; intros [= <- _]; apply fault_not_conflicting.
Qed.

Lemma authorize_not_refused md env s t s' :
  authorize uuid_Parse sha256 config verify md env s ≠ (refusal t, s').
Proof.
  unfold authorize, invalid_credential. destruct md as [|v [|]]; [done| |done].
  destruct (negb _); [done|]. cbv zeta. case_bool_decide; [done|].
  intros (r & s1 & _ & Hr)%bind_Ok. apply ret_Ok in Hr as [Hr _]. by destruct r.
Qed.

Lemma authorizeTask_not_refused md id env s t s' :
  rpc_authorizeTask uuid_Parse sha256 config verify md id env s ≠ (refusal t, s').
Proof.
  intros [H|(p & s1 & _ & H)]%after_refused; [by apply authorize_not_refused in H|].
  apply stored_call_refused in H as [(e & He & Hc)|(? & ? & _ & H)]; [|done].
  apply TaskBelongsToTenant_unconflicted in He. congruence.
Qed.

(** A lease is refused as lost only for a task that was no longer waiting. *)
Lemma Lease_refused md id w env s t s' :
  Lease uuid_Parse sha256 config verify leaseDuration md id w env s = (refusal t, s') →
  ∃ row, task_runs (s_db s') !! id = Some row ∧ t_status row ≠ DISPATCHING.
Proof.
  intros [H|(u & s1 & Ha & H)]%after_refused; [by apply authorizeTask_not_refused in H|].
  apply stored_call_refused in H as [(e & He & Hc)|(? & ? & _ & H)]; [|done].
  destruct (LeaseTask_conflict _ _ _ _ _ _ _ He Hc) as [-> Hno].
  apply after_Ok in Ha as (p & s0 & _ & Ha).
  apply stored_call_Ok in Ha as (v & s2 & [Hdb (row & r & Hrow & _)]%TaskBelongsToTenant_Ok & Ha).
  apply ret_Ok in Ha as [_ <-]. rewrite <-Hdb in Hrow. eauto.
Qed.

Lemma authorizeTask_in_tenant md id env s u s' :
  rpc_authorizeTask uuid_Parse sha256 config verify md id env s = (Ok (Reply u), s') →
  in_tenant md id env s.
Proof.
  intros (p & s1 & Ha & H)%after_Ok. pose proof Ha as [[_ _ Hr Ht _ _] Hs]%authorize_Ok.
  apply stored_call_Ok in H as (v & s2 & [_ (t & r & H1 & H2 & H3)]%TaskBelongsToTenant_Ok & _).
  rewrite Ht in H1. rewrite Hr in H2. by exists p, s1, t, r.
Qed.

Lemma active_Ok id tenant w env s u s' :
  ActiveTaskLeaseBelongsToWorker id tenant w env s = (Ok u, s') →
  ∃ t r, task_runs (s_db s) !! id = Some t ∧ workflow_runs (s_db s) !! t_workflow_run_id t = Some r ∧
    r_tenant_id r = tenant.
Proof.
  intros (row & s1 & [Hrow _]%pool_stmt_Ok & H)%bind_Ok.
  destruct (select_task_run _ _ _ _ _) as [[[[t r]|] db1]|] eqn:Hsel; [| |done].
  - apply select_task_run_Some in Hsel as (_ & Ht & Hr & _). injection Hrow as <- _. simpl in H.
    case_bool_decide; [done|]. exists t, r. by split_and!.
  - injection Hrow as <- _. done.
Qed.

Lemma active_in_tenant md id w env s p s' :
  principalForActiveTask uuid_Parse sha256 config verify md id w env s = (Ok (Reply p), s') →
  in_tenant md id env s.
Proof.
  intros (q & s1 & Ha & H)%after_Ok. pose proof Ha as [[_ _ Hr Ht _ _] Hs]%authorize_Ok.
  apply stored_call_Ok in H as (v & s2 & (t & r & H1 & H2 & H3)%active_Ok & _).
  rewrite Ht in H1. rewrite Hr in H2. by exists q, s1, t, r.
Qed.

(** C23: calls stay in their tenant.  When a gRPC call does not end in an error
    status, the credential in its metadata authenticates a principal with the
    scope for workers, and the task the call names belongs to a run of that
    principal's tenant. *)
Theorem calls_in_tenant c env s s' :
  dispatch_call c env s = (Ok None, s') → in_tenant (call_metadata c) (call_task c) env s.
Proof.
  assert (∀ A (m : RM A), status_of m env s = (Ok None, s') →
    ∃ a s1, m env s = (Ok (Reply a), s1)) as Hst.
  { intros A m ([a|cd t] & s1 & Hm & H)%bind_Ok; [eauto|done]. }
  destruct c; simpl; intros (a & s1 & H)%Hst.
  1-3, 5: apply after_Ok in H as (u & s2 & H%authorizeTask_in_tenant & _); exact H.
  1: apply after_Ok in H as (u & s2 & H%active_in_tenant & _); exact H.
  all: destruct artifacts_ as [m|]; [|done];
    apply after_Ok in H as (u & s2 & H%active_in_tenant & _); exact H.
Qed.
End Rpc.
