(* ===== verification/WorkerGoSpec.v ===== *)
(** The worker and the engine together.

    [WorkerServiceSpec] is what the worker relies on: the calls of the service
    are executions of the engine, and what a reply means.  The gRPC server
    ([Rpc]) provides it; the theorems on the worker are proved against it, for
    any behaviour of the network and of the other parties. *)
From stdpp Require Import pretty.
From S2P Require Import Prelude Go Url Mux Model Dag State Json Schema Sql StoreWorker StoreWorkflow Scheduler Outbox Auth Stream Artifacts RateLimit Api Http Rpc Client WorkerGo Preserve Frame Lifecycle Refinement Creation Aloof System History WorkerSpec AuthSpec ArtifactSpec Requests RpcSpec.

(** * The contract of the service *)

Class WorkerServiceSpec (WS : WorkerService) := {
  wss_steps_Lease md id w : preserves (rtc step) (ws_Lease md id w);
  wss_steps_Start md id w : preserves (rtc step) (ws_Start md id w);
  wss_steps_Heartbeat md id w : preserves (rtc step) (ws_Heartbeat md id w);
  wss_steps_Complete md id w o u l : preserves (rtc step) (ws_Complete md id w o u l);
  wss_steps_Fail md id w f : preserves (rtc step) (ws_Fail md id w f);
  wss_steps_CreateUpload md id w k ct n sum :
    preserves (rtc step) (ws_CreateArtifactUpload md id w k ct n sum);
  wss_steps_CompleteUpload md id w a : preserves (rtc step) (ws_CompleteArtifactUpload md id w a);
  wss_steps_Download md id w u : preserves (rtc step) (ws_GetArtifactDownload md id w u);
  (** a lease was granted for the task the snapshot describes *)
  wss_Lease md id w env s v s' :
    ws_Lease md id w env s = (Ok (Reply v), s') →
    ∃ t r, task_runs (s_db s') !! id = Some t ∧ t_status t = LEASED ∧ t_lease_owner t = Some w ∧
      workflow_runs (s_db s') !! t_workflow_run_id t = Some r ∧
      v = snapshot (mkTaskRun id t (r_input_artifact_uri r));
  (** a lease is refused as lost only for a task that is not waiting for one *)
  wss_Lease_refused md id w env s text s' :
    ws_Lease md id w env s = (Ok (Status FailedPrecondition text), s') →
    ∃ t, task_runs (s_db s') !! id = Some t ∧ t_status t ≠ DISPATCHING;
  (** a completion was recorded with the output it carried *)
  wss_Complete md id w o u l env s v s' :
    ws_Complete md id w o u l env s = (Ok (Reply v), s') →
    ∃ t, task_runs (s_db s') !! id = Some t ∧ t_status t = SUCCEEDED ∧
      t_output t = Some (default empty_object o) ∧ t_output_artifact_uri t = nullif_empty u;
  (** an upload was registered for the task, with the declared size and checksum *)
  wss_CreateUpload md id w k ct n sum env s u s' :
    ws_CreateArtifactUpload md id w k ct n sum env s = (Ok (Reply u), s') →
    ∃ f, artifacts (s_db s') !! f_ID (u_Artifact u) = Some f ∧ f_kind f = k ∧ f_declared_size f = n ∧
      f_task_run_id f = Some id ∧ f_checksum_sha256 f = nullif_empty (to_lower (trim_space sum));
  (** an upload was found complete *)
  wss_CompleteUpload md id w a env s uri s' :
    ws_CompleteArtifactUpload md id w a env s = (Ok (Reply uri), s') →
    ∃ f, artifacts (s_db s') !! a = Some f ∧ f_status f = "READY" ∧ f_object_uri f = uri
}.

(** A download is a URL signed for the object of the READY artifact that was asked
    for by identifier or by URI. *)
Class DownloadSpec (WS : WorkerService) (signs : string → string → Prop) := {
  wss_Download md id w uri env s d s' :
    ws_GetArtifactDownload md id w uri env s = (Ok (Reply d), s') →
    ∃ a f, artifacts (s_db s') !! a = Some f ∧ f_status f = "READY" ∧ (a = uri ∨ f_object_uri f = uri) ∧
      signs (f_object_key f) (w_URL d)
}.

(** ** The gRPC server provides it *)

Section Server.
Context (uuid_Parse : string → bool) (sha256 : string → string).
Context (config : AuthConfig) (verify : string → result (list (string * json))).
Context (leaseDuration : Z) (artifacts_ : option Manager).

Definition rpc_service : WorkerService := {|
  ws_Lease := Lease uuid_Parse sha256 config verify leaseDuration;
  ws_Start := Start uuid_Parse sha256 config verify;
  ws_Heartbeat := Heartbeat uuid_Parse sha256 config verify leaseDuration;
  ws_Complete := rpc_Complete uuid_Parse sha256 config verify artifacts_;
  ws_Fail := Fail uuid_Parse sha256 config verify;
  ws_CreateArtifactUpload := CreateArtifactUpload uuid_Parse sha256 config verify artifacts_;
  ws_CompleteArtifactUpload := CompleteArtifactUpload uuid_Parse sha256 config verify artifacts_;
  ws_GetArtifactDownload := GetArtifactDownload uuid_Parse sha256 config verify artifacts_
|}.

(** The database after a method is that after the call of the dispatcher. *)
Lemma status_of_steps {A} (m : RM A) : preserves (rtc step) (status_of m) → preserves (rtc step) m.
Proof.
  intros Hm env s r s' Hs. destruct r as [x|e].
  - apply (Hm env s (Ok (match x with Reply _ => None | Status c _ => Some c end)) s').
    unfold status_of. by rewrite (bind_run _ _ _ _ _ _ Hs).
  - apply (Hm env s (Err e) s'). unfold status_of, mbind, M_bind. by rewrite Hs.
Qed.

Local Abbreviation steps := (call_steps uuid_Parse sha256 config verify leaseDuration artifacts_).

#[local] Instance rpc_service_spec : WorkerServiceSpec rpc_service.
Proof.
  split.
  - intros md id w. apply status_of_steps, (steps (CallLease md id w)).
  - intros md id w. apply status_of_steps, (steps (CallStart md id w)).
  - intros md id w. apply status_of_steps, (steps (CallHeartbeat md id w)).
  - intros md id w o u l. apply status_of_steps, (steps (CallComplete md id w o u l)).
  - intros md id w f. apply status_of_steps, (steps (CallFail md id w f)).
  - intros md id w k ct n sum. apply status_of_steps, (steps (CallCreateUpload md id w k ct n sum)).
  - intros md id w a. apply status_of_steps, (steps (CallCompleteUpload md id w a)).
  - intros md id w u. apply status_of_steps, (steps (CallDownload md id w u)).
  - intros md id w env s v s' (? & s1 & _ & H)%after_Ok.
    apply stored_call_Ok in H as (tr & s2 & Hl & H). apply ret_Ok in H as [[= <-] <-].
    destruct (LeaseTask_leases _ _ _ _ _ _ _ Hl) as (t & r & ? & ? & ? & ? & ->). by exists t, r.
  - intros md id w env s text s'. apply Lease_refused.
  - intros md id w o u l env s v s' (p & s1 & _ & H)%after_Ok.
    destruct (_ && _); [done|].
    apply after_Ok in H as (? & s2 & _ & H). apply after_Ok in H as (? & s3 & _ & H).
    apply stored_call_Ok in H as (tr & s4 & Hc & H). apply ret_Ok in H as [_ <-].
    by apply CompleteTask_succeeds in Hc.
  - intros md id w k ct n sum env s u s'. simpl. unfold CreateArtifactUpload. destruct artifacts_ as [m|]; [|done].
    intros (p & s1 & _ & H)%after_Ok. apply stored_call_Ok in H as (u' & s2 & Hc & H). apply ret_Ok in H as [[= <-] <-].
    destruct (createUpload_effect _ _ _ _ _ _ _ _ _ _ _ _ _ _ Hc)
      as (a & f & _ & _ & _ & _ & _ & Hk & _ & Hn & Hsum & Ht & _ & _ & Hu & Hdb).
    exists f. rewrite Hu, Hdb. simpl. by rewrite lookup_insert_eq.
  - intros md id w a env s uri s'. simpl. unfold CompleteArtifactUpload. destruct artifacts_ as [m|]; [|done].
    intros (p & s1 & _ & H)%after_Ok. apply bind_Ok in H as (pending & s2 & _ & H).
    destruct pending as [x|]; [|done]. case_bool_decide; [|done].
    apply stored_call_Ok in H as (y & s3 & Hc & H). apply ret_Ok in H as [[= <-] <-].
    destruct (Complete_change _ _ _ _ _ _ _ _ Hc) as (f & f' & _ & _ & Hf' & -> & Hst & _). by exists f'.
Qed.

(** The URLs the manager signs for workers. *)
Definition rpc_signs (key url : string) : Prop :=
  ∃ m, artifacts_ = Some m ∧ presign_get (mg_internalPresign m) key = Ok url.

#[local] Instance rpc_download_spec : DownloadSpec rpc_service rpc_signs.
Proof.
  split. intros md id w uri env s d s'. simpl. unfold GetArtifactDownload, rpc_signs. destruct artifacts_ as [m|]; [|done].
  intros (p & s1 & _ & H)%after_Ok. apply stored_call_Ok in H as (d' & s2 & Hc & H). apply ret_Ok in H as [[= <-] <-].
  destruct (download_ready _ _ _ _ _ _ _ _ Hc) as (Hdb & a & f & Hf & _ & Hst & Hx & Hu & _).
  exists a, f. rewrite Hdb. split_and!; eauto.
Qed.
End Server.
#[export] Existing Instance rpc_service_spec.
#[export] Existing Instance rpc_download_spec.

(** * Runs of a process *)

Definition proc_db (p : Proc) : Db := s_db (pr_sess p).

(** What the other parties do are executions of the engine. *)
Definition honest (net : Net) : Prop := ∀ n db, rtc step db (net_others net n db).

(** ** Relations a process respects *)

(** [R] relates the sessions with the database before and after each call of the
    service for the tasks of [B] and each change of the others; then it does so for
    whatever a process does that calls the service, and sends heartbeats, for
    these tasks only. *)
Section Drives.
Context (R : Env → Sess → Sess → Prop) (quiet : Net → Prop) (B : string → Prop).

Definition respects {A} (m : M A) : Prop := ∀ env s r s', m env s = (r, s') → R env s s'.

Class Respected (WS : WorkerService) := {
  rd_preorder env :: PreOrder (R env);
  rd_others env net n s : quiet net → R env s (with_db (net_others net n) s);
  rd_Lease md id w : B id → respects (ws_Lease md id w);
  rd_Start md id w : B id → respects (ws_Start md id w);
  rd_Heartbeat md id w : B id → respects (ws_Heartbeat md id w);
  rd_CreateUpload md id w k ct n sum : B id → respects (ws_CreateArtifactUpload md id w k ct n sum);
  rd_CompleteUpload md id w a : B id → respects (ws_CompleteArtifactUpload md id w a);
  rd_Download md id w u : B id → respects (ws_GetArtifactDownload md id w u)
}.

(** The calls that end an attempt. *)
Class EndRespected (WS : WorkerService) := {
  rd_Complete md id w o u l : B id → respects (ws_Complete md id w o u l);
  rd_Fail md id w f : B id → respects (ws_Fail md id w f)
}.

Definition beats (p : Proc) : Prop := ∀ id, pr_beating p = Some id → B id.

(** Heartbeats go on for the same task, or have ended. *)
Definition calmer (p p' : Proc) : Prop := pr_beating p' = None ∨ pr_beating p' = pr_beating p.

Lemma calmer_trans p1 p2 p3 : calmer p1 p2 → calmer p2 p3 → calmer p1 p3.
Proof. unfold calmer. intros [H1|H1] [H2|H2]; rewrite ?H2, ?H1; auto. Qed.

Lemma calmer_beats p p' : calmer p p' → beats p → beats p'.
Proof. intros [H|H] Hb id; rewrite H; [done|apply Hb]. Qed.

Definition drives {A} (m : W A) : Prop :=
  ∀ env net p r p', quiet net → beats p → m env net p = (r, p') →
    R env (pr_sess p) (pr_sess p') ∧ calmer p p'.

Section Rules.
Context {Hpre : ∀ env, PreOrder (R env)} {A C : Type}.

Lemma drives_ret (a : A) : drives (mret a).
Proof. intros env net p r p' _ Hb [= <- <-]. split; [reflexivity|by right]. Qed.

Lemma drives_throw e : drives (wthrow (A := A) e).
Proof. intros env net p r p' _ Hb [= <- <-]. split; [reflexivity|by right]. Qed.

Lemma drives_look (f : Net → Proc → A) : drives (look f).
Proof. intros env net p r p' _ Hb [= <- <-]. split; [reflexivity|by right]. Qed.

Lemma drives_bind (m : W A) (k : A → W C) : drives m → (∀ a, drives (k a)) → drives (m ≫= k).
Proof.
  intros Hm Hk env net p r p' Hn Hb. unfold mbind, W_bind.
  destruct (m env net p) as [[a|e] p1] eqn:Hp; destruct (Hm _ _ _ _ _ Hn Hb Hp) as [H1 Hc1].
  - intros H. destruct (Hk a _ _ _ _ _ Hn (calmer_beats _ _ Hc1 Hb) H) as [H2 Hc2].
    split; [by etransitivity|by eapply calmer_trans].
  - by intros [= <- <-].
Qed.

Lemma drives_try (m : W A) : drives m → drives (wtry m).
Proof.
  intros Hm env net p r p' Hn Hb. unfold wtry. destruct (m env net p) eqn:Hp.
  intros [= <- <-]. by eapply Hm.
Qed.

Lemma drives_wrapped prefix (m : W A) : drives m → drives (wrapped prefix m).
Proof.
  intros Hm env net p r p' Hn Hb. unfold wrapped. destruct (m env net p) eqn:Hp.
  intros [= <- <-]. by eapply Hm.
Qed.

Lemma drives_checked sc (m : W A) : drives m → drives (checked sc m).
Proof.
  intros Hm env net p r p' Hn Hb. unfold checked.
  destruct (ctx_err sc p); [|by apply Hm]. intros [= <- <-]. split; [reflexivity|by right].
Qed.

Lemma drives_transmit (m : RM A) : respects m → drives (transmit m).
Proof.
  intros Hm env net p r p' Hn Hb. unfold transmit.
  destruct (m env (pr_sess p)) as [x s'] eqn:Hs. apply Hm in Hs.
  destruct (net_rpc net (pr_tick p)); intros [= <- <-]; (split; [done|by right]).
Qed.

Lemma drives_ready c (m : W A) : drives m → drives (ready c m).
Proof. intros Hm. unfold ready. destruct (cl_initErr c); [apply drives_throw|done]. Qed.

Lemma drives_with_task id timeout (m : W A) : B id → drives m → drives (with_task id timeout m).
Proof.
  intros Hid Hm env net p r p' Hn Hb. unfold with_task. cbv zeta. destruct (m _ _ _) as [x p1] eqn:Hp.
  intros [= <- <-]. apply (Hm _ _ _ _ _ Hn) in Hp as [Hp _]; [split; [done|by left]|]. by intros ? [= <-].
Qed.
End Rules.

Create HintDb drive discriminated.

Ltac drive :=
  repeat lazymatch goal with
  | |- drives (mbind _ _) => apply drives_bind; [|intros ?]
  | |- drives (mret _) => apply drives_ret
  | |- drives (wthrow _) => apply drives_throw
  | |- drives (look _) => apply drives_look
  | |- drives (wtry _) => apply drives_try
  | |- drives (wrapped _ _) => apply drives_wrapped
  | |- drives (checked _ _) => apply drives_checked
  | |- drives (ready _ _) => apply drives_ready
  | |- drives (with_task _ _ _) => apply drives_with_task
  | |- drives (match ?x with _ => _ end) => destruct x eqn:?
  | |- drives _ => solve [eauto with drive]
  | |- B _ => solve [eauto]
  end.

Section Calls.
Context `{HR : Respected} (sha256 : string → string) (format_rfc3339 : time → string).
Context (unicode_ToUpper : string → string).
Context (json_Unmarshal : string → GoError + list (string * json)).
Context (c : Client).

Hint Resolve rd_Lease rd_Start rd_Heartbeat rd_CreateUpload rd_CompleteUpload rd_Download : drive.

Lemma drives_heartbeats ticks env net p :
  quiet net → beats p →
  R env (pr_sess p) (pr_sess (heartbeats c ticks env net p)) ∧ calmer p (heartbeats c ticks env net p).
Proof.
  intros Hn. revert p. induction ticks as [|ticks IH]; intros p Hb; cbn [heartbeats]; [by split; [|right]|].
  destruct (pr_beating p) as [id|] eqn:Hid; [|by split; [|right]]. destruct (pr_ctx p); [by split; [|right]|].
  cbv zeta. pose proof (rd_others env net (pr_tick p) (pr_sess p) Hn) as H1.
  assert (pr_beating (occur net p) = pr_beating p) as E1 by done.
  destruct (pr_ctx (occur net p)); [by split; [|right]|].
  destruct (transmit _ env net (occur net p)) as [r p1] eqn:Ht.
  apply (drives_transmit _ (rd_Heartbeat _ _ _ (Hb id Hid)) _ _ _ _ _ Hn) in Ht as [H2 Hc2]; [|done].
  assert (calmer p p1) as Hc1 by (by destruct Hc2; [left|right; congruence]).
  assert (R env (pr_sess p) (pr_sess p1)) as H3 by (by etransitivity).
  destruct r as [[? []]|]; [split; [done|by left]|..];
    (destruct (IH p1 (calmer_beats _ _ Hc1 Hb)); split; [by etransitivity|by eapply calmer_trans]).
Qed.

Lemma drives_wait : drives (wait c).
Proof.
  intros env net p r p' Hn Hb [= <- <-]. pose proof (rd_others env net (pr_tick p) (pr_sess p) Hn) as H1.
  destruct (drives_heartbeats (net_beats net (pr_tick p)) env net (occur net p) Hn Hb) as [H2 Hc2].
  split; [by etransitivity|exact Hc2].
Qed.
Hint Resolve drives_wait : drive.

Lemma drives_invoke {A} sc (m : RM A) : respects m → drives (invoke c sc m).
Proof. intros Hm. unfold invoke. drive. by apply drives_transmit. Qed.
Hint Resolve drives_invoke : drive.

Lemma drives_http_do sc f : drives (http_do c sc f).
Proof. unfold http_do. drive. intros env net p r p' _ Hb [= <- <-]. split; [reflexivity|by right]. Qed.
Hint Resolve drives_http_do : drive.

Lemma drives_UploadArtifact sc id kind ct data :
  B id → drives (UploadArtifact sha256 c sc id kind ct data).
Proof. intros Hid. unfold UploadArtifact. drive. Qed.
Hint Resolve drives_UploadArtifact : drive.

Lemma drives_DownloadArtifact sc id uri : B id → drives (DownloadArtifact c sc id uri).
Proof. intros Hid. unfold DownloadArtifact. drive. Qed.
Hint Resolve drives_DownloadArtifact : drive.

Lemma drives_client_Lease id : B id → drives (client_Lease c id).
Proof. intros Hid. unfold client_Lease. drive. Qed.

Lemma drives_client_Start id : B id → drives (client_Start c id).
Proof. intros Hid. unfold client_Start. drive. Qed.
Hint Resolve drives_client_Lease drives_client_Start : drive.

Lemma drives_sleep delay : drives (sleep c delay).
Proof. unfold sleep. drive. Qed.
Hint Resolve drives_sleep : drive.

Lemma drives_CommitMessages m : drives (CommitMessages c m).
Proof.
  unfold CommitMessages. drive. intros env net p r p' _ Hb.
  destruct (net_commit net (pr_tick p)); intros [= <- <-]; (split; [reflexivity|by right]).
Qed.
Hint Resolve drives_CommitMessages : drive.

Lemma drives_report serve rounds :
  (∀ rq, respects (serve rq)) → drives (report format_rfc3339 c serve rounds).
Proof.
  intros Hs. induction rounds as [|rounds IH]; simpl; unfold Report, postHTTP; drive.
  apply drives_invoke. intros env s r s'. unfold mbind, M_bind.
  destruct (serve _ env s) as [[a|e] s1] eqn:H1; intros [= _ <-]; by eapply Hs.
Qed.

Context {HE : EndRespected _}.
Hint Resolve rd_Complete rd_Fail : drive.

Lemma drives_client_Complete id output :
  B id → drives (client_Complete sha256 format_rfc3339 c id output).
Proof. intros Hid. unfold client_Complete. cbv zeta. drive. Qed.

Lemma drives_client_Fail id retryable err : B id → drives (client_Fail c id retryable err).
Proof. intros Hid. unfold client_Fail. drive. Qed.
Hint Resolve drives_client_Complete drives_client_Fail : drive.

Lemma drives_handle id h input : B id → drives (handle format_rfc3339 unicode_ToUpper c id h input).
Proof. intros Hid. unfold handle, fail_with. cbv zeta. drive. Qed.
Hint Resolve drives_handle : drive.

Lemma drives_execute id :
  B id → drives (execute sha256 format_rfc3339 unicode_ToUpper json_Unmarshal c id).
Proof. intros Hid. unfold execute, fail_with. drive. Qed.
Hint Resolve drives_execute : drive.

Lemma drives_handle_message m :
  (∀ d, unmarshal_dispatch (m_value m) = Some d → B (d_TaskRunID d)) →
  drives (handle_message sha256 format_rfc3339 unicode_ToUpper json_Unmarshal c m).
Proof. intros Hm. unfold handle_message. drive. Qed.

Lemma drives_consume fuel messages :
  (∀ m d, m ∈ messages → unmarshal_dispatch (m_value m) = Some d → B (d_TaskRunID d)) →
  drives (consume sha256 format_rfc3339 unicode_ToUpper json_Unmarshal c fuel messages).
Proof.
  revert messages. induction fuel as [|fuel IH]; intros messages Hm; simpl; [apply drives_ret|].
  apply drives_bind; [apply drives_wait|intros _]. apply drives_bind; [apply drives_look|intros fetched].
  destruct fetched as [e|], messages as [|m messages]; [case_bool_decide; [apply drives_ret|by apply IH]..|apply drives_ret|].
  apply drives_bind; [apply drives_handle_message|intros _; apply IH].
  - intros d. apply Hm. by left.
  - intros m' d Hin. apply Hm. by right.
Qed.
End Calls.
End Drives.

(** ** Executions *)

(** Whatever the process does, with the others, is an execution. *)
Definition stepping (env : Env) (s s' : Sess) : Prop := rtc step (s_db s) (s_db s').

Definition advances {A} (m : W A) : Prop :=
  ∀ env net p r p', honest net → m env net p = (r, p') → rtc step (proc_db p) (proc_db p').

Lemma drives_advances {A} (m : W A) : drives stepping honest (λ _, True) m → advances m.
Proof. intros Hm env net p r p' Hn H. by apply (Hm _ _ _ _ _ Hn) in H as [H _]. Qed.

#[export] Instance stepping_preorder env : PreOrder (stepping env).
Proof. unfold stepping. split; [intros s; done|]. intros x y z ? ?. by etransitivity. Qed.

#[export] Instance stepping_respected `{WorkerServiceSpec} : Respected stepping honest (λ _, True) _.
Proof.
  split; [apply _|intros env net n s Hn; apply Hn|..]; intros; intros env s r s' Hs; unfold stepping; revert Hs.
  - apply wss_steps_Lease.
  - apply wss_steps_Start.
  - apply wss_steps_Heartbeat.
  - apply wss_steps_CreateUpload.
  - apply wss_steps_CompleteUpload.
  - apply wss_steps_Download.
Qed.

#[export] Instance stepping_end_respected `{WorkerServiceSpec} : EndRespected stepping (λ _, True) _.
Proof.
  split; intros; intros env s r s' Hs; unfold stepping; revert Hs.
  - apply wss_steps_Complete.
  - apply wss_steps_Fail.
Qed.

Section Rules.
Context {A B : Type}.

Lemma W_bind_Ok (m : W A) (k : A → W B) env net p b p' :
  (m ≫= k) env net p = (Ok b, p') →
  ∃ a p1, m env net p = (Ok a, p1) ∧ k a env net p1 = (Ok b, p').
Proof. unfold mbind, W_bind. destruct (m env net p) as [[a|e] p1]; naive_solver. Qed.

Lemma W_ret_Ok (a : A) env net p b p' : mret (M := W) a env net p = (Ok b, p') → a = b ∧ p = p'.
Proof. by intros [= <- <-]. Qed.

Lemma ready_Ok c (m : W A) env net p a p' : ready c m env net p = (Ok a, p') → m env net p = (Ok a, p').
Proof. unfold ready. by destruct (cl_initErr c). Qed.

Lemma wrapped_Ok prefix (m : W A) env net p a p' :
  wrapped prefix m env net p = (Ok a, p') → m env net p = (Ok a, p').
Proof. unfold wrapped. destruct (m env net p) as [[x|e] p1]; simpl; congruence. Qed.

Lemma with_task_Ok id timeout (m : W A) env net p a p' :
  with_task id timeout m env net p = (Ok a, p') →
  ∃ p0 p1, m env net p0 = (Ok a, p1) ∧ proc_db p0 = proc_db p ∧ proc_db p' = proc_db p1.
Proof.
  unfold with_task. cbv zeta. destruct (m env net _) as [x p1] eqn:Hm. intros [= -> <-]. eauto.
Qed.

Lemma transmit_Ok (m : RM A) env net p a p' :
  transmit m env net p = (Ok a, p') → m env (pr_sess p) = (Ok (Reply a), pr_sess p').
Proof.
  unfold transmit. destruct (net_rpc net (pr_tick p)); [|done..].
  destruct (m env (pr_sess p)) as [[[x|]|] s'] eqn:Hs; simpl; intros [= <- <-]. done.
Qed.
End Rules.

Section Worker.
Context `{WSS : WorkerServiceSpec} (sha256 : string → string) (format_rfc3339 : time → string).
Context (unicode_ToUpper : string → string).
Context (json_Unmarshal : string → GoError + list (string * json)).
Context (c : Client).

Lemma advances_invoke {A} sc (m : RM A) : preserves (rtc step) m → advances (invoke c sc m).
Proof. intros Hm. by apply drives_advances, (drives_invoke _ _ _ _ _ _ Hm). Qed.

Lemma advances_http_do sc f : advances (http_do c sc f).
Proof. apply drives_advances, drives_http_do, _. Qed.

Lemma advances_UploadArtifact sc id kind ct data : advances (UploadArtifact sha256 c sc id kind ct data).
Proof. by apply drives_advances, drives_UploadArtifact; [apply _|]. Qed.

Lemma advances_DownloadArtifact sc id uri : advances (DownloadArtifact c sc id uri).
Proof. by apply drives_advances, drives_DownloadArtifact; [apply _|]. Qed.

Lemma advances_client_Start id : advances (client_Start c id).
Proof. by apply drives_advances, drives_client_Start; [apply _|]. Qed.

Lemma advances_client_Complete id output : advances (client_Complete sha256 format_rfc3339 c id output).
Proof. by apply drives_advances, drives_client_Complete; [apply _..|]. Qed.

Lemma advances_handle id h input : advances (handle format_rfc3339 unicode_ToUpper c id h input).
Proof. by apply drives_advances, drives_handle; [apply _..|]. Qed.

Lemma advances_consume fuel messages :
  advances (consume sha256 format_rfc3339 unicode_ToUpper json_Unmarshal c fuel messages).
Proof. by apply drives_advances, drives_consume; [apply _..|]. Qed.

Lemma advances_report serve rounds :
  (∀ rq, preserves (rtc step) (serve rq)) → advances (report format_rfc3339 c serve rounds).
Proof. intros Hs. apply drives_advances, drives_report; [apply _|exact Hs]. Qed.
End Worker.

(** * What the identity of a task depends on never changes *)

Lemma step_static db db' : step db db' → history (same task_static) db db'.
Proof.
  intros [o env n open r s' H]. destruct (history_exec o) as [Ho|Ho]; apply Ho in H; revert H;
    apply history_mono; intros k t t' _ _ Ht; [exact (f_equal (fst ∘ fst) Ht)|apply Ht].
Qed.

Lemma steps_static db db' : rtc step db db' → history (same task_static) db db'.
Proof.
  induction 1 as [|db1 db2 db3 H12 _ IH]; [done|]. transitivity db2; [by apply step_static|done].
Qed.

(** * A task the worker executed *)

Section Execute.
Context `{WSS : WorkerServiceSpec} {signs : string → string → Prop} {DS : DownloadSpec _ signs}.
Context (sha256 : string → string) (format_rfc3339 : time → string).
Context (unicode_ToUpper : string → string).
Context (json_Unmarshal : string → GoError + list (string * json)).
Context (c : Client).

(** What a handler computes; the others end in a failure. *)
Definition handler_output (id handler : string) (input : list (string * json)) : option json :=
  if bool_decide (handler = "examples.greet") then Some (greet format_rfc3339 input)
  else if bool_decide (handler = "examples.upper") then
    Some (upper_text format_rfc3339 unicode_ToUpper input)
  else if bool_decide (handler = "examples.notify") then Some (notify_output id)
  else if bool_decide (handler = "examples.slow") then Some (slept (slow_delay input))
  else None.

Lemma handle_Ok id h input env net p output p' :
  handle format_rfc3339 unicode_ToUpper c id h input env net p = (Ok output, p') →
  handler_output id h input = Some output.
Proof.
  unfold handle, handler_output, fail_with.
  repeat (case_bool_decide; [try (intros [<- _]%W_ret_Ok; done)|]).
  - cbv zeta. by intros (? & p1 & _ & [<- _]%W_ret_Ok)%W_bind_Ok.
  - by intros (? & p1 & _ & Hf)%W_bind_Ok.
  - by intros (? & p1 & _ & Hf)%W_bind_Ok.
Qed.

Lemma invoke_Ok {A} sc (m : RM A) env net p a p' :
  invoke c sc m env net p = (Ok a, p') → ∃ s, m env s = (Ok (Reply a), pr_sess p').
Proof.
  intros (? & p1 & _ & H)%W_bind_Ok. unfold checked in H. destruct (ctx_err sc p1); [done|].
  apply transmit_Ok in H. eauto.
Qed.

(** The input object of a task whose run has no input artifact. *)
Definition object_fields (v : json) : list (string * json) :=
  match v with JObj fields => fields | _ => [] end.

(** What came back for an artifact: the bytes the object store returned for the URL
    the service signed for the object of that READY artifact. *)
Definition downloaded (net : Net) (db : Db) (uri data : string) : Prop :=
  ∃ a f url n reply body, artifacts db !! a = Some f ∧ f_status f = "READY" ∧ (a = uri ∨ f_object_uri f = uri) ∧
    signs (f_object_key f) url ∧ net_get net n url = Ok reply ∧ success reply = true ∧ hr_Body reply = Ok body ∧
    data = limit_reader (MaxArtifactBytes + 1) body.

(** A READY artifact of the task that was declared with the size and the checksum
    of the given bytes. *)
Definition uploaded (db : Db) (id kind data uri : string) : Prop :=
  ∃ a f, artifacts db !! a = Some f ∧ f_status f = "READY" ∧ f_object_uri f = uri ∧ f_kind f = kind ∧
    f_task_run_id f = Some id ∧ f_declared_size f = Z.of_nat (String.length data) ∧
    f_checksum_sha256 f = nullif_empty (hex_encode (sha256 data)).

Lemma downloaded_later net db db' uri data : rtc step db db' → downloaded net db uri data → downloaded net db' uri data.
Proof.
  intros Hs (a & f & url & n & reply & body & Hf & Hst & Hx & Hrest).
  destruct (hi_artifacts _ _ _ (steps_static _ _ Hs) _ _ Hf) as (f' & Hf' & Hsame & Hready).
  destruct (Hready Hst) as [Hst' _]. unfold same, artifact_columns in Hsame.
  assert (f_object_uri f' = f_object_uri f ∧ f_object_key f' = f_object_key f) as [Eu Ek] by (by injection Hsame).
  exists a, f', url, n, reply, body. by rewrite Eu, Ek.
Qed.

Lemma http_do_Ok sc f env net p r p' :
  http_do c sc f env net p = (Ok r, p') → ∃ n, f net n = Ok r.
Proof.
  intros (? & p1 & _ & H)%W_bind_Ok. unfold checked in H. destruct (ctx_err sc p1); [done|].
  injection H as H _. eauto.
Qed.

Lemma DownloadArtifact_Ok sc id uri env net p data p' :
  honest net → DownloadArtifact c sc id uri env net p = (Ok data, p') → downloaded net (proc_db p') uri data.
Proof.
  intros Hn (d & p1 & Hd & H)%W_bind_Ok. apply W_bind_Ok in H as (reply & p2 & Hg & H).
  destruct (invoke_Ok _ _ _ _ _ _ _ Hd) as [s Hs].
  destruct (wss_Download _ _ _ _ _ _ _ _ Hs) as (a & f & Hf & Hst & Hx & Hu).
  pose proof (advances_http_do _ _ _ _ _ _ _ _ Hn Hg) as H12.
  destruct (http_do_Ok _ _ _ _ _ _ _ Hg) as [n Hget].
  destruct (success reply) eqn:Hok; [|done]. simpl in H. destruct (hr_Body reply) as [body|] eqn:Hb; [|done].
  apply W_ret_Ok in H as [<- <-]. eapply downloaded_later; [exact H12|].
  by exists a, f, (w_URL d), n, reply, body.
Qed.

Lemma UploadArtifact_Ok sc id kind ct data env net p uri p' :
  honest net → UploadArtifact sha256 c sc id kind ct data env net p = (Ok uri, p') →
  uploaded (proc_db p') id kind data uri.
Proof.
  intros Hn (u & p1 & Hc & H)%W_bind_Ok. cbv zeta in H. apply W_bind_Ok in H as (put & p2 & Hp & H).
  destruct (success put) eqn:Hok; [|done]. simpl in H.
  destruct (invoke_Ok _ _ _ _ _ _ _ Hc) as [s Hs].
  destruct (wss_CreateUpload _ _ _ _ _ _ _ _ _ _ _ Hs) as (f & Hf & Hk & Hsz & Ht & Hsum).
  pose proof (advances_http_do _ _ _ _ _ _ _ _ Hn Hp) as H12.
  pose proof (advances_invoke _ _ _ (wss_steps_CompleteUpload _ _ _ _) _ _ _ _ _ Hn H) as H23.
  destruct (invoke_Ok _ _ _ _ _ _ _ H) as [s' Hs'].
  destruct (wss_CompleteUpload _ _ _ _ _ _ _ _ Hs') as (f' & Hf' & Hst & Huri).
  assert (rtc step (proc_db p1) (proc_db p')) as H13 by (by etransitivity).
  destruct (hi_artifacts _ _ _ (steps_static _ _ H13) _ _ Hf) as (f2 & Hf2 & Hsame & _).
  assert (f2 = f') as -> by (unfold proc_db in Hf2; congruence). unfold same, artifact_columns in Hsame.
  injection Hsame as _ Ek _ _ _ En Es Et _ _. rewrite hex_normal in Hsum.
  exists (f_ID (u_Artifact u)), f'. unfold proc_db. split_and!; try done; congruence.
Qed.

Lemma client_Lease_Ok id env net p task p' :
  honest net → client_Lease c id env net p = (Ok task, p') →
  ∃ t r db, task_runs db !! id = Some t ∧ workflow_runs db !! t_workflow_run_id t = Some r ∧
    rtc step db (proc_db p') ∧ tk_Handler task = t_handler t ∧
    (coalesce (r_input_artifact_uri r) = "" →
     unmarshal_input json_Unmarshal (tk_Input task) = inr (object_fields (t_input t))) ∧
    (coalesce (r_input_artifact_uri r) ≠ "" → ∃ data,
     downloaded net (proc_db p') (coalesce (r_input_artifact_uri r)) data ∧ tk_Input task = Bytes data).
Proof.
  intros Hn H%ready_Ok. apply W_bind_Ok in H as (v & p1 & Hl & H).
  destruct (invoke_Ok _ _ _ _ _ _ _ Hl) as [s Hs].
  destruct (wss_Lease _ _ _ _ _ _ _ Hs) as (t & r & Ht & _ & _ & Hr & ->).
  exists t, r, (proc_db p1). cbv zeta in H. case_bool_decide as Hu.
  - apply W_ret_Ok in H as [<- <-]. split_and!; try done. intros _. simpl.
    by destruct (t_input t).
  - apply W_bind_Ok in H as (data & p2 & Hd%wrapped_Ok & H). apply W_ret_Ok in H as [<- <-].
    split_and!; try done; [by eapply advances_DownloadArtifact|].
    intros _. exists data. split; [by eapply DownloadArtifact_Ok|done].
Qed.

Definition large (output : json) : bool :=
  bool_decide (inlineLimit < Z.of_nat (String.length (Marshal format_rfc3339 output))).

Lemma uploaded_later db db' id kind data uri : rtc step db db' → uploaded db id kind data uri → uploaded db' id kind data uri.
Proof.
  intros Hs (a & f & Hf & Hst & Hrest).
  destruct (hi_artifacts _ _ _ (steps_static _ _ Hs) _ _ Hf) as (f' & Hf' & Hsame & Hready).
  destruct (Hready Hst) as [Hst' _]. unfold same, artifact_columns in Hsame. injection Hsame as _ E1 _ E2 _ E3 E4 E5 _ _.
  exists a, f'. by rewrite E1, E2, E3, E4, E5.
Qed.

Lemma client_Complete_Ok id output env net p v p' :
  honest net → client_Complete sha256 format_rfc3339 c id output env net p = (Ok v, p') →
  ∃ t, task_runs (proc_db p') !! id = Some t ∧ t_status t = SUCCEEDED ∧
    (large output = true → t_output t = Some empty_object ∧ ∃ uri, t_output_artifact_uri t = nullif_empty uri ∧
       uploaded (proc_db p') id "output" (Marshal format_rfc3339 output) uri) ∧
    (large output = false → t_output t = Some output ∧ t_output_artifact_uri t = None).
Proof.
  intros Hn H%ready_Ok. cbv zeta in H. fold (large output) in H.
  apply W_bind_Ok in H as (uri & p1 & Hu & H). apply W_bind_Ok in H as (log & p2 & Hlog & H).
  apply W_bind_Ok in H as (r & p3 & Hc & H). apply W_ret_Ok in H as [_ <-].
  destruct (invoke_Ok _ _ _ _ _ _ _ Hc) as [s Hs].
  destruct (wss_Complete _ _ _ _ _ _ _ _ _ _ Hs) as (t & Ht & Hst & Ho & Ha).
  exists t. split_and!; [done|done|..]; intros Hl; rewrite Hl in *; simpl in *.
  - split; [done|]. exists uri. split; [done|]. apply wrapped_Ok in Hu. apply UploadArtifact_Ok in Hu; [|done].
    revert Hu. apply uploaded_later. etransitivity.
    + apply wrapped_Ok in Hlog. by eapply advances_UploadArtifact.
    + eapply advances_invoke; [apply wss_steps_Complete|exact Hn|exact Hc].
  - apply W_ret_Ok in Hu as [<- _]. done.
Qed.

(** C8: a task the worker executed without error has its handler's output.
    Whatever the network, the heartbeats and the other parties did meanwhile, when
    [execute] returns no error the task is SUCCEEDED and its output is what its
    handler computes from its input.  The input is the task's own; or, when the run
    was given an input artifact, the JSON text of the bytes that the object store
    returned for the URL signed for that READY artifact, as far as the size limit.
    The output is recorded inline; or, when its text is larger than 256 KiB, as a
    READY artifact of the task declared with the size and the SHA-256 checksum of
    that text. *)
Theorem execute_success id env net p p' :
  honest net →
  execute sha256 format_rfc3339 unicode_ToUpper json_Unmarshal c id env net p = (Ok tt, p') →
  ∃ t r input output, task_runs (proc_db p') !! id = Some t ∧ t_status t = SUCCEEDED ∧
    workflow_runs (proc_db p') !! t_workflow_run_id t = Some r ∧
    (let uri := coalesce (r_input_artifact_uri r) in
     if bool_decide (uri = "") then input = object_fields (t_input t)
     else ∃ data, downloaded net (proc_db p') uri data ∧ json_Unmarshal data = inr input) ∧
    handler_output id (t_handler t) input = Some output ∧
    (if large output then t_output t = Some empty_object ∧ ∃ uri, t_output_artifact_uri t = nullif_empty uri ∧
       uploaded (proc_db p') id "output" (Marshal format_rfc3339 output) uri
     else t_output t = Some output ∧ t_output_artifact_uri t = None).
Proof.
  intros Hn (task & p1 & Hl & H)%W_bind_Ok. apply W_bind_Ok in H as (started & p2 & Hst & H).
  pose proof (advances_client_Start _ _ _ _ _ _ _ Hn Hst) as H12.
  destruct (client_Lease_Ok _ _ _ _ _ _ Hn Hl) as (t0 & r0 & db & Ht0 & Hr0 & H01 & Hh & Hin & Hdown).
  apply with_task_Ok in H as (p2' & p3 & Hb & E2 & ->). rewrite <-E2 in H12.
  destruct (unmarshal_input _ _) as [err|input] eqn:Hinput; [by apply W_bind_Ok in Hb as (? & ? & _ & Hb)|].
  apply W_bind_Ok in Hb as (output & p4 & Ho & Hb). apply W_bind_Ok in Hb as (v & p5 & Hc & Hb).
  apply W_ret_Ok in Hb as [_ ->].
  pose proof (advances_handle _ _ _ _ _ _ _ _ _ _ _ Hn Ho) as H24.
  pose proof (advances_client_Complete _ _ _ _ _ _ _ _ _ _ Hn Hc) as H43.
  destruct (client_Complete_Ok _ _ _ _ _ _ _ Hn Hc) as (t & Ht & Hs & Hlarge & Hsmall).
  apply handle_Ok in Ho.
  assert (rtc step (proc_db p1) (proc_db p3)) as H13 by (do 2 (etransitivity; [done|]); done).
  assert (rtc step db (proc_db p3)) as Hall by (by etransitivity).
  pose proof (steps_static _ _ Hall) as Hist.
  destruct (hi_tasks _ _ _ Hist _ _ Ht0) as (t' & Ht' & Hts). simplify_eq.
  destruct (hi_runs _ _ _ Hist _ _ Hr0) as (r & Hr & Hrs).
  assert (t_workflow_run_id t = t_workflow_run_id t0 ∧ t_handler t = t_handler t0 ∧
    t_input t = t_input t0) as (Erun & Ehandler & Einput) by (by injection Hts).
  assert (r_input_artifact_uri r = r_input_artifact_uri r0) as Euri by (by injection Hrs).
  exists t, r, input, output. rewrite Erun, Ehandler, Einput, Euri, <-Hh. cbv zeta.
  split_and!; try done; [|by destruct (large output); [apply Hlarge|apply Hsmall]].
  case_bool_decide as Hu; [apply Hin in Hu; congruence|].
  destruct (Hdown Hu) as (data & Hd & Hbytes). rewrite Hbytes in Hinput. exists data.
  split; [exact (downloaded_later _ _ _ _ _ H13 Hd)|done].
Qed.
End Execute.
