(* ===== verification/PythonSpec.v ===== *)
(** The Python worker and the engine together, against the contract of the
    service ([WorkerServiceSpec]), for any behaviour of the network, the
    handlers and the other parties.

    What a consumer slot does is an execution of the engine.  The offset of a
    dispatch message is committed only once its task was leased or was found
    leased before; a run cancelled under a handler ends the slot. *)
From stdpp Require Import pretty.
From S2P Require Import Prelude Go Url Mux Model Dag State Json Schema Sql StoreWorker StoreWorkflow Scheduler Outbox Auth Stream Artifacts RateLimit Api Http Rpc Client WorkerGo Python Preserve Frame Lifecycle Refinement Creation Aloof System History WorkerSpec AuthSpec ArtifactSpec Requests RpcSpec WorkerGoSpec.

Definition slot_db (s : Slot) : Db := s_db (sl_sess s).

(** The engine went on, and no offset was committed. *)
Definition goes (s s' : Slot) : Prop :=
  rtc step (slot_db s) (slot_db s') ∧ sl_committed s' = sl_committed s.

#[export] Instance goes_preorder : PreOrder goes.
Proof.
  split; [by intros s|]. intros s1 s2 s3 [H12 E12] [H23 E23]. split; [by etransitivity|congruence].
Qed.

Definition works {A} (m : Y A) : Prop :=
  ∀ env net s r s', honest net → m env net s = (r, s') → goes s s'.

Section Rules.
Context {A B : Type}.

Lemma works_ret (a : A) : works (mret a).
Proof. by intros env net s r s' _ [= <- <-]. Qed.

Lemma works_raise e : works (raise (A := A) e).
Proof. by intros env net s r s' _ [= <- <-]. Qed.

Lemma works_peek (f : Net → Slot → A) : works (peek f).
Proof. by intros env net s r s' _ [= <- <-]. Qed.

Lemma works_update f : (∀ s, goes s (f s)) → works (update f).
Proof. intros Hf env net s r s' _ [= <- <-]. apply Hf. Qed.

Lemma works_bind (m : Y A) (k : A → Y B) : works m → (∀ a, works (k a)) → works (m ≫= k).
Proof.
  intros Hm Hk env net s r s' Hn. unfold mbind, Y_bind.
  destruct (m env net s) as [[e|a] s1] eqn:Hs.
  - intros [= <- <-]. by eapply Hm.
  - intros H. etransitivity; [by eapply Hm|by eapply Hk].
Qed.

Lemma works_except (m : Y A) h : works m → (∀ e, works (h e)) → works (except m h).
Proof.
  intros Hm Hh env net s r s' Hn. unfold except. destruct (m env net s) as [[e|a] s1] eqn:Hs.
  - intros H. etransitivity; [by eapply Hm|by eapply Hh].
  - intros [= <- <-]. by eapply Hm.
Qed.

Lemma works_finally (m : Y A) last : works m → works last → works (finally m last).
Proof.
  intros Hm Hl env net s r s' Hn. unfold finally. destruct (m env net s) as [x s1] eqn:Hs.
  destruct (last env net s1) as [y s2] eqn:Hs1. intros H.
  assert (s' = s2) as -> by (destruct y; congruence).
  etransitivity; [by eapply Hm|by eapply Hl].
Qed.

Lemma works_caught (m : Y A) : works m → works (caught m).
Proof.
  intros Hm env net s r s' Hn. unfold caught. destruct (m env net s) eqn:Hs.
  intros [= <- <-]. by eapply Hm.
Qed.

Lemma works_subscript v key (k : json → Y A) : (∀ x, works (k x)) → works (subscript v key k).
Proof.
  intros Hk. unfold subscript. destruct v as [| | | | | |fields]; try apply works_raise.
  destruct (assoc key fields); [apply Hk|apply works_raise].
Qed.

Lemma works_rpc (m : RM A) : preserves (rtc step) m → works (rpc m).
Proof.
  intros Hm env net s r s' Hn. unfold rpc, goes, slot_db.
  destruct (m env (sl_sess s)) as [x sess] eqn:Hs. apply Hm in Hs.
  by destruct (net_rpc net (sl_tick s)); intros [= <- <-].
Qed.

Lemma Y_bind_inr (m : Y A) (k : A → Y B) env net s b s' :
  (m ≫= k) env net s = (inr b, s') →
  ∃ a s1, m env net s = (inr a, s1) ∧ k a env net s1 = (inr b, s').
Proof. unfold mbind, Y_bind. destruct (m env net s) as [[e|a] s1]; naive_solver. Qed.

Lemma Y_bind_run (m : Y A) (k : A → Y B) env net s a s1 :
  m env net s = (inr a, s1) → (m ≫= k) env net s = k a env net s1.
Proof. intros Hm. unfold mbind, Y_bind. by rewrite Hm. Qed.

Lemma Y_bind_raises (m : Y A) (k : A → Y B) env net s e s1 :
  m env net s = (inl e, s1) → (m ≫= k) env net s = (inl e, s1).
Proof. intros Hm. unfold mbind, Y_bind. by rewrite Hm. Qed.

Lemma Y_ret_inr (a b : A) env net s s' : mret (M := Y) a env net s = (inr b, s') → a = b ∧ s = s'.
Proof. by intros [= <- <-]. Qed.

Lemma rpc_inr (m : RM A) env net s a s' :
  rpc m env net s = (inr a, s') → m env (sl_sess s) = (Ok (Reply a), sl_sess s').
Proof.
  unfold rpc. destruct (net_rpc net (sl_tick s)); [|done..].
  destruct (m env (sl_sess s)) as [[[x|]|] sess] eqn:Hs; simpl; intros [= <- <-]. done.
Qed.

Lemma rpc_status (m : RM A) env net s c t s' :
  rpc m env net s = (inl (AioRpcError (Some c) t), s') →
  m env (sl_sess s) = (Ok (Status c t), sl_sess s').
Proof.
  unfold rpc. destruct (net_rpc net (sl_tick s)); [|done..].
  destruct (m env (sl_sess s)) as [[[x|]|] sess] eqn:Hs; simpl; intros [= <- <- <-]. done.
Qed.
End Rules.

Lemma turn_goes net s : honest net → goes s (turn net s).
Proof. intros Hn. split; [apply Hn|done]. Qed.

Create HintDb works discriminated.

Ltac work :=
  repeat lazymatch goal with
  | |- works (mbind _ _) => apply works_bind; [|intros ?]
  | |- works (mret _) => apply works_ret
  | |- works (raise _) => apply works_raise
  | |- works (peek _) => apply works_peek
  | |- works (except _ _) => apply works_except; [|intros ?]
  | |- works (finally _ _) => apply works_finally
  | |- works (caught _) => apply works_caught
  | |- works (subscript _ _ _) => apply works_subscript; intros ?
  | |- works (update _) => apply works_update; intros ?; by split
  | |- works (suppress _ _) => unfold suppress
  | |- works (match ?x with _ => _ end) => destruct x
  | |- works _ => solve [auto with works]
  end.

Section Worker.
Context `{WSS : WorkerServiceSpec} (sha256 : string → string) (isoformat : time → string).
Context (json_loads : string → exc + json) (py_str : json → string).
Context (rpc_str : option code → string → string) (w : Worker).
Context (serve : Request → M Response).
Context (serve_steps : ∀ rq, preserves (rtc step) (serve rq)).

Hint Resolve works_rpc wss_steps_Lease wss_steps_Start wss_steps_Heartbeat wss_steps_Complete
  wss_steps_Fail wss_steps_CreateUpload wss_steps_CompleteUpload wss_steps_Download : works.

Lemma works_task_rpc path payload : works (task_rpc py_str w path payload).
Proof. unfold task_rpc, task_action, struct_update. work. Qed.
Hint Resolve works_task_rpc : works.

Lemma beat_goes id env net s : honest net → goes s (beat py_str w id env net s).
Proof.
  intros Hn. unfold beat. cbv zeta.
  destruct (task_rpc _ _ _ _ env net _) as [r s1] eqn:Hr.
  apply (works_task_rpc _ _ _ _ _ _ _ Hn) in Hr.
  transitivity s1; [etransitivity; [by apply (turn_goes net)|exact Hr]|].
  destruct r as [e|[]]; try destruct (truthy _); by split.
Qed.

Lemma heartbeat_rounds_goes rounds env net s :
  honest net → goes s (heartbeat_rounds py_str w rounds env net s).
Proof.
  intros Hn. revert s. induction rounds as [|rounds IH]; intros s; cbn [heartbeat_rounds]; [done|].
  destruct (sl_beating s); [|done]. etransitivity; [by apply beat_goes|apply IH].
Qed.

Lemma works_await : works (await py_str w).
Proof.
  intros env net s r s' Hn. unfold await. cbv zeta. intros H.
  etransitivity; [by apply (turn_goes net)|]. revert H.
  set (s1 := heartbeat_rounds _ _ _ env net _). transitivity s1; [by apply heartbeat_rounds_goes|].
  destruct (_ && _); injection H as _ <-; by split.
Qed.
Hint Resolve works_await : works.

Lemma works_post path payload : works (post isoformat py_str rpc_str w serve path payload).
Proof.
  unfold post, post_http. work. apply works_rpc. preserve.
Qed.
Hint Resolve works_post : works.

Lemma works_fetch f : works (fetch py_str w f).
Proof. unfold fetch. work. Qed.

Lemma works_read_body r : works (read_body py_str w r).
Proof. unfold read_body. work. Qed.
Hint Resolve works_fetch works_read_body : works.

Lemma works_upload_artifact id kind ct data : works (upload_artifact sha256 py_str w id kind ct data).
Proof. unfold upload_artifact. work. Qed.

Lemma works_download_artifact id uri : works (download_artifact py_str w id uri).
Proof. unfold download_artifact. work. Qed.
Hint Resolve works_upload_artifact works_download_artifact : works.

Lemma works_in_time : works in_time.
Proof. unfold in_time. work. Qed.
Hint Resolve works_in_time : works.

Lemma works_run_program id p : works (run_program sha256 isoformat py_str w id p).
Proof.
  induction p as [v|e|next IH|next IH|next IH|d kind ct next IH]; cbn [run_program]; work; auto.
Qed.
Hint Resolve works_run_program : works.

Lemma works_run_handler f task ctx : works (run_handler sha256 isoformat json_loads py_str w f task ctx).
Proof. unfold run_handler, loads. cbv zeta. work. Qed.
Hint Resolve works_run_handler : works.

Lemma works_deliver id v : works (deliver sha256 isoformat py_str rpc_str w serve id v).
Proof. unfold deliver, raise_if_cancelled. cbv zeta. work. Qed.

Lemma works_report_failure id e retryable :
  works (report_failure isoformat py_str rpc_str w serve id e retryable).
Proof. unfold report_failure. work. Qed.
Hint Resolve works_deliver works_report_failure : works.

Lemma works_stop_heartbeat : works (stop_heartbeat py_str w).
Proof. unfold stop_heartbeat. work. Qed.
Hint Resolve works_stop_heartbeat : works.

Lemma works_execute_task id f task :
  works (execute_task sha256 isoformat json_loads py_str rpc_str w serve id f task).
Proof. unfold execute_task, on_failure, start_heartbeat. cbv zeta. work. Qed.

Lemma works_report_worker version active rounds :
  works (report_worker isoformat py_str rpc_str w serve version active rounds).
Proof. induction rounds as [|rounds IH]; cbn [report_worker]; work. Qed.

(** ** The path of a call *)

Definition no_slash (s : string) : bool := all_chars (λ c, negb (Ascii.eqb c "/")) s.

Lemma after_tasks_path id action :
  after_tasks (task_path id action) = Some (id +:+ "/" +:+ action).
Proof. done. Qed.

(** The identifier ends at the first slash; with a slash in it, so does the
    action. *)
Lemma cut_path id action :
  cut "/" (id +:+ "/" +:+ action) = (id, Some action) ∨
  ∃ x y, cut "/" (id +:+ "/" +:+ action) = (x, Some (y +:+ "/" +:+ action)).
Proof.
  induction id as [|c id IH]; [by left|]. simpl. destruct (Ascii.eqb c "/").
  - right. by exists "", id.
  - destruct IH as [->|(x & y & ->)]; [by left|]. right. by exists (String c x), y.
Qed.

Lemma contains_tasks id action : string_contains (task_path id action) "/tasks/" = true.
Proof. done. Qed.

(** An action with a slash is none of the five. *)
Lemma task_action_slash id y action payload env net s :
  ∃ t, task_action py_str w id (y +:+ "/" +:+ action) payload env net s = (inl (Raised "ValueError" t), s).
Proof.
  unfold task_action.
  assert (no_slash (y +:+ "/" +:+ action) = false) as Hs.
  { unfold no_slash. rewrite all_chars_app. simpl. by rewrite andb_false_r. }
  rewrite !bool_decide_false by (intros Ha; by rewrite Ha in Hs). by eexists.
Qed.

(** ** The lease *)

(** The task is not waiting for a worker any more. *)
Definition acquired (id : uuid) (db : Db) : Prop :=
  ∃ t, task_runs db !! id = Some t ∧ t_status t ≠ DISPATCHING.

(** A lease that was granted, or refused as a conflict. *)
Definition decided_lease {A} (r : exc + A) : bool :=
  match r with inr _ | inl (Conflict _) => true | _ => false end.

Lemma lease_action id payload env net s r s' :
  task_rpc py_str w (task_path id "lease") payload env net s = (r, s') →
  decided_lease r = true → acquired id (slot_db s').
Proof.
  unfold task_rpc. rewrite after_tasks_path.
  destruct (cut_path id "lease") as [->|(x & y & ->)]; unfold except; cycle 1.
  { destruct (task_action_slash x y "lease" payload env net s) as [t ->]. by intros [= <- <-]. }
  unfold task_action. rewrite bool_decide_true by done. unfold mbind, Y_bind.
  destruct (rpc _ env net s) as [[e|v] s1] eqn:Hr; cycle 1.
  - intros [= <- <-] _. apply rpc_inr, wss_Lease in Hr as (t & _ & Ht & Hst & _).
    exists t. by rewrite Hst.
  - destruct e as [| [c|] t| | | | |]; try (by intros [= <- <-]);
      [unfold rpc in Hr; repeat case_match; simplify_eq|].
    destruct c; intros [= <- <-]; try done. intros _. by apply rpc_status, wss_Lease_refused in Hr.
Qed.

Lemma lease_post id env net s r s' :
  post isoformat py_str rpc_str w serve (task_path id "lease") [] env net s = (r, s') →
  decided_lease r = true → acquired id (slot_db s').
Proof.
  unfold post, mbind, Y_bind. destruct (await _ _ env net s) as [[e|[]] s1] eqn:Ha.
  - intros [= <- <-] Hd. unfold await in Ha. cbv zeta in Ha.
    destruct (_ && _) in Ha; [|done]. by injection Ha as <- _.
  - rewrite contains_tasks. by apply lease_action.
Qed.

(** ** Offsets *)

(** The message dispatches task [id] to a handler of the worker. *)
Definition owned (m : Message) (id : uuid) : Prop :=
  header_of m "event_type" = Some "task.dispatch" ∧
  ∃ fields name f, m_value m = JObj fields ∧ assoc "task_run_id" fields = Some (JStr id) ∧
    assoc "handler" fields = Some (JStr name) ∧ wk_handlers w !! name = Some f.

(** On the way the task was acquired, by this worker or before. *)
Definition acquired_between (id : uuid) (db db' : Db) : Prop :=
  ∃ db1, rtc step db db1 ∧ acquired id db1 ∧ rtc step db1 db'.

Lemma commit_run m env net s r s' :
  honest net → Python.commit py_str w m env net s = (r, s') →
  rtc step (slot_db s) (slot_db s') ∧
  sl_committed s' = sl_committed s ++ (if r is inr _ then [m] else []).
Proof.
  intros Hn. unfold Python.commit, mbind, Y_bind, peek, update.
  destruct (await _ _ env net s) as [[e|[]] s1] eqn:Ha.
  all: apply works_await in Ha as [Hr Hc]; [|done].
  - intros [= <- <-]. by rewrite app_nil_r.
  - destruct (net_commit net _); intros [= <- <-]; simpl; rewrite ?app_nil_r, ?Hc; done.
Qed.

Definition processes (m : Message) : Y unit :=
  process sha256 isoformat json_loads py_str rpc_str w serve m.

(** What a message leaves behind: its offset is committed when processing ends
    without an exception, and then the task it dispatches was acquired. *)
Definition processed (m : Message) (s : Slot) (r : exc + unit) (s' : Slot) : Prop :=
  rtc step (slot_db s) (slot_db s') ∧
  sl_committed s' = sl_committed s ++ (if r is inr _ then [m] else []) ∧
  ∀ id, owned m id → r = inr tt → acquired_between id (slot_db s) (slot_db s').

Lemma processed_idle m s e : processed m s (inl e) s.
Proof. split_and!; [done|by rewrite app_nil_r|done]. Qed.

Lemma processed_after m s s1 r s' :
  goes s s1 → processed m s1 r s' → processed m s r s'.
Proof.
  intros [Hr Hc] (Hr' & Hc' & Ho). rewrite Hc in Hc'. split_and!; [by etransitivity|done|].
  intros id Hm Hi. destruct (Ho id Hm Hi) as (db & H1 & Ha & H2). exists db. split_and!; try done.
  by etransitivity.
Qed.

(** Once the task was acquired, what follows and the commit. *)
Lemma processed_lease m id env net s s1 (k : Y unit) r s' :
  honest net → goes s s1 → acquired id (slot_db s1) → (∀ id', owned m id' → id' = id) → works k →
  (k ;; Python.commit py_str w m) env net s1 = (r, s') → processed m s r s'.
Proof.
  intros Hn Hs1 Ha Hid Hk. unfold mbind, Y_bind.
  destruct (k env net s1) as [[e|[]] s2] eqn:Hk2; pose proof (Hk _ _ _ _ _ Hn Hk2) as Hs2.
  - intros [= <- <-]. apply (processed_after m s s2); [by etransitivity|apply processed_idle].
  - intros [Hr Hc]%commit_run; [|done]. destruct Hs1 as [Hs1 Ec1]. destruct Hs2 as [Hs2 Ec2].
    split_and!; [by do 2 (etransitivity; [done|])|congruence|].
    intros id' ->%Hid _. exists (slot_db s1). split_and!; try done. by etransitivity.
Qed.

(** The message is of no handler of this worker. *)
Lemma processed_other m env net s r s' :
  honest net → (∀ id, ¬ owned m id) → Python.commit py_str w m env net s = (r, s') → processed m s r s'.
Proof.
  intros Hn Ho [Hr Hc]%commit_run; [|done]. split_and!; [done..|]. by intros id ?%Ho.
Qed.

Lemma process_processed m env net s r s' :
  honest net → processes m env net s = (r, s') → processed m s r s'.
Proof.
  intros Hn. unfold processes, process. cbv zeta.
  destruct (m_value m) as [| | | | | |fields] eqn:Hv; unfold subscript at 1, raise;
    try (intros [= <- <-]; apply processed_idle).
  destruct (assoc "task_run_id" fields) as [id|] eqn:Hid; [|intros [= <- <-]; apply processed_idle].
  unfold subscript, raise.
  destruct (assoc "handler" fields) as [name|] eqn:Hname; [|intros [= <- <-]; apply processed_idle].
  assert (∀ id', owned m id' → ∃ h f, name = JStr h ∧ wk_handlers w !! h = Some f ∧ id = JStr id') as Hm.
  { intros id' (_ & fields' & h & f & Hv' & Hi & Hh & Hf). rewrite Hv in Hv'. simplify_eq. eauto. }
  destruct name as [| | |h| | |]; try (intros [= <- <-]; apply processed_idle).
  1-3,5: by apply processed_other; [done|]; intros id' (? & ? & ? & _)%Hm.
  rewrite (Y_bind_run _ _ _ _ _ _ _ eq_refl).
  destruct (wk_handlers w !! h) as [f|] eqn:Hf; cycle 1.
  { apply processed_other; [done|]. intros id' (? & ? & ? & ? & _)%Hm. simplify_eq. }
  unfold caught, mbind, Y_bind. destruct (post _ _ _ _ _ _ _ env net s) as [x s1] eqn:Hl.
  pose proof (works_post _ _ _ _ _ _ _ Hn Hl) as Hs1.
  assert (∀ id', owned m id' → id' = str py_str id) as Hid'.
  { intros id' (? & ? & _ & _ & ->)%Hm. done. }
  destruct (decided_lease x) eqn:Hd.
  - pose proof (lease_post _ _ _ _ _ _ Hl Hd) as Ha. destruct x as [[]|task]; try done.
    + refine (processed_lease m _ env net s s1 (mret tt) r s' Hn Hs1 Ha Hid' _). apply works_ret.
    + refine (processed_lease m _ env net s s1 _ r s' Hn Hs1 Ha Hid' _). apply works_execute_task.
  - destruct x as [[]|]; try done; intros [= <- <-];
      (apply (processed_after m s s1); [done|apply processed_idle]).
Qed.

Definition consumes (fuel : nat) (messages : list Message) : Y unit :=
  consume_loop sha256 isoformat json_loads py_str rpc_str w serve fuel messages.

Lemma acquired_later id db0 db db1 db' :
  rtc step db0 db → acquired_between id db db1 → rtc step db1 db' → acquired_between id db0 db'.
Proof.
  intros H0 (db2 & H1 & Ha & H2) H3. exists db2. split_and!; [by etransitivity|done|by etransitivity].
Qed.

(** The body of the loop on one message. *)
Lemma message_processed m env net s r s' :
  honest net →
  (if bool_decide (header_of m "event_type" = Some "task.dispatch") then processes m
   else Python.commit py_str w m) env net s = (r, s') →
  processed m s r s'.
Proof.
  intros Hn. case_bool_decide as Hh; [by apply process_processed|].
  apply processed_other; [done|]. by intros id [? _].
Qed.

(** The loop from where the first message was fetched: the offsets of a prefix
    of the messages are committed. *)
Lemma consume_loop_run fuel messages env net s r s' :
  honest net → consumes fuel messages env net s = (r, s') →
  rtc step (slot_db s) (slot_db s') ∧
  ∃ done_ rest, messages = done_ ++ rest ∧ sl_committed s' = sl_committed s ++ done_ ∧
    ∀ m id, m ∈ done_ → owned m id → acquired_between id (slot_db s) (slot_db s').
Proof.
  intros Hn. revert messages s. induction fuel as [|fuel IH]; intros messages s.
  { intros [= <- <-]. split; [done|]. exists [], messages. rewrite app_nil_r. split_and!; [done..|].
    by intros m id ?%elem_of_nil. }
  assert (∀ s1, goes s s1 → rtc step (slot_db s) (slot_db s1) ∧
    ∃ done_ rest, messages = done_ ++ rest ∧ sl_committed s1 = sl_committed s ++ done_ ∧
      ∀ m id, m ∈ done_ → owned m id → acquired_between id (slot_db s) (slot_db s1)) as Hstop.
  { intros s1 [Hr Hc]. split; [done|]. exists [], messages. rewrite app_nil_r. split_and!; [done..|].
    by intros m id ?%elem_of_nil. }
  unfold consumes. cbn [consume_loop]. unfold mbind at 1, Y_bind at 1.
  destruct (await _ _ env net s) as [[e|[]] s1] eqn:Ha; apply works_await in Ha; [|done| |done].
  { intros [= <- <-]. by apply Hstop. }
  unfold mbind at 1, Y_bind at 1, peek at 1.
  destruct (net_fetch net (sl_tick s1)); [intros [= <- <-]; by apply Hstop|].
  destruct messages as [|m messages]; [intros [= <- <-]; by apply Hstop|].
  unfold mbind at 1, Y_bind at 1, peek at 1. destruct (sl_stopping s1); [intros [= <- <-]; by apply Hstop|].
  unfold mbind at 1, Y_bind at 1. fold (processes m). fold (consumes fuel messages).
  destruct ((if bool_decide _ then processes m else _) env net s1) as [x s2] eqn:Hp.
  apply message_processed in Hp as (H12 & Hc & Hown); [|done]. destruct Ha as [H01 Hc1].
  destruct x as [e|[]].
  { intros [= <- <-]. apply Hstop. split; [by etransitivity|]. by rewrite Hc, app_nil_r. }
  intros (H23 & done_ & rest & -> & Hc' & Hacq)%IH. split; [by do 2 (etransitivity; [done|])|].
  exists (m :: done_), rest. split_and!; [done| |].
  { rewrite Hc', Hc, Hc1. by rewrite <-app_assoc. }
  intros m' id [->|Hm]%elem_of_cons Ho.
  - by apply (acquired_later _ _ (slot_db s1) (slot_db s2)); [|apply Hown|].
  - apply (acquired_later _ _ (slot_db s2) (slot_db s')); [by etransitivity|by apply (Hacq m')|done].
Qed.

(** C9: offsets of the Python worker.  Whatever the network, the handlers, the
    heartbeats and the other parties do, and however a consumer slot ends, the
    messages whose offset it committed are a prefix of those it was sent, in
    order; and for each committed dispatch of a handler of the worker there was
    a moment, while the slot ran, at which the task was no longer DISPATCHING:
    it had been leased, by this worker or before. *)
Theorem python_offsets fuel messages env net s r s' :
  honest net →
  consume_loop sha256 isoformat json_loads py_str rpc_str w serve fuel messages env net s = (r, s') →
  ∃ done_ rest, messages = done_ ++ rest ∧ sl_committed s' = sl_committed s ++ done_ ∧
    ∀ m id, m ∈ done_ → owned m id → acquired_between id (slot_db s) (slot_db s').
Proof. intros Hn Hc. by apply (consume_loop_run _ _ _ _ _ _ _ Hn Hc). Qed.

Lemma works_consume_loop fuel messages env net s r s' :
  honest net → consumes fuel messages env net s = (r, s') → rtc step (slot_db s) (slot_db s').
Proof. intros Hn Hc. by apply (consume_loop_run _ _ _ _ _ _ _ Hn Hc). Qed.

(** ** A run cancelled under its handler *)

Definition raises {A} (m : Y A) (env : Env) (net : Net) (s : Slot) : Prop :=
  ∃ e s', m env net s = (inl e, s').

Lemma raises_bind {A B} (m : Y A) (k : A → Y B) env net s : raises m env net s → raises (m ≫= k) env net s.
Proof. intros (e & s' & H). exists e, s'. by apply Y_bind_raises. Qed.

Lemma raises_after {A B} (m : Y A) (k : A → Y B) env net s a s1 :
  m env net s = (inr a, s1) → raises (k a) env net s1 → raises (m ≫= k) env net s.
Proof. intros Hm (e & s' & H). exists e, s'. by rewrite (Y_bind_run _ _ _ _ _ _ _ Hm). Qed.

Lemma raises_then {A B} (m : Y A) e env net s : raises (m ≫= λ _, raise (A := B) e) env net s.
Proof. unfold raises, mbind, Y_bind, raise. destruct (m env net s) as [[x|a] s1]; eauto. Qed.

Lemma raises_except {A} (m : Y A) h env net s e s1 :
  m env net s = (inl e, s1) → raises (h e) env net s1 → raises (except m h) env net s.
Proof. intros Hm (e' & s' & H). exists e', s'. unfold except. by rewrite Hm. Qed.

Lemma raises_finally {A} (m : Y A) last env net s : raises m env net s → raises (finally m last) env net s.
Proof.
  intros (e & s1 & H). unfold raises, finally. rewrite H. destruct (last env net s1) as [[x|[]] s2]; eauto.
Qed.

(** The state in which the handler of a leased and started task begins, and its
    context. *)
Definition beginning (id : uuid) (s : Slot) : Slot :=
  s<| sl_beating := Some id |><| sl_beat_exc := None |><| sl_requested := false |>
   <| sl_cancelled := false |>.

Definition context_of (id : uuid) (v : TaskSnapshot) : TaskContext :=
  mkTaskContext id (JStr (sn_WorkflowRunId v)) (JNum (sn_Attempt v)) (JNum (sn_TimeoutSeconds v)).

(** The slot leased and started the task of message [m], and its handler
    returned after a heartbeat had told that the run was cancelled. *)
Inductive cancelled_under (m : Message) (id : uuid) (env : Env) (net : Net) (s : Slot) : Prop :=
  cancelled_under_intro fields name f v started s1 s2 result s3 :
    m_value m = JObj fields → assoc "task_run_id" fields = Some (JStr id) →
    assoc "handler" fields = Some (JStr name) → wk_handlers w !! name = Some f →
    post isoformat py_str rpc_str w serve (task_path id "lease") [] env net s
      = (inr (task_message v), s1) →
    post isoformat py_str rpc_str w serve (task_path id "start") [] env net s1 = (inr started, s2) →
    run_handler sha256 isoformat json_loads py_str w f (task_message v) (context_of id v) env net
      (beginning id s2) = (inr result, s3) →
    sl_cancelled s3 = true →
    cancelled_under m id env net s.

Lemma deliver_cancelled id v env net s :
  sl_cancelled s = true →
  deliver sha256 isoformat py_str rpc_str w serve id v env net s
    = (inl (CancelledError "workflow run was cancelled"), s).
Proof.
  intros Hc. unfold deliver. apply Y_bind_raises. unfold raise_if_cancelled.
  rewrite (Y_bind_run _ _ _ _ _ _ _ eq_refl). by rewrite Hc.
Qed.

Lemma cancelled_raises m id env net s : cancelled_under m id env net s → raises (processes m) env net s.
Proof.
  intros [fields name f v started s1 s2 result s3 Hv Hid Hname Hf Hl Hst Hrun Hc].
  unfold processes, process. cbv zeta. rewrite Hv. unfold subscript. rewrite Hid, Hname.
  apply (raises_after _ _ _ _ _ (Some f) s); [by unfold find_handler; rewrite Hf|].
  apply (raises_after _ _ _ _ _ (inr (task_message v)) s1).
  { unfold caught. simpl str. by rewrite Hl. }
  apply raises_bind. unfold execute_task. apply (raises_after _ _ _ _ _ _ _ Hst).
  apply (raises_after _ _ _ _ _ tt (beginning id s2)); [done|].
  apply raises_finally. apply (raises_except _ _ _ _ _ (CancelledError "workflow run was cancelled") s3).
  - rewrite (Y_bind_run _ _ _ _ _ _ _ Hrun). by apply deliver_cancelled.
  - apply raises_then.
Qed.

(** C36: a cancelled run ends a slot.  When the run of the task a slot executes
    is cancelled, a heartbeat tells it and the handler then returns, the slot
    ends with an exception: the offset of the message is not committed, and none
    of the messages that follow is processed by this slot. *)
Theorem cancelled_run_ends_slot fuel m rest id env net s0 s :
  honest net →
  await py_str w env net s0 = (inr tt, s) → net_fetch net (sl_tick s) = None → sl_stopping s = false →
  header_of m "event_type" = Some "task.dispatch" →
  cancelled_under m id env net s →
  ∃ e s', consume_loop sha256 isoformat json_loads py_str rpc_str w serve (S fuel) (m :: rest) env net s0
    = (inl e, s') ∧ sl_committed s' = sl_committed s0.
Proof.
  intros Hn Ha Hfetch Hstop Hh Hcu. destruct (cancelled_raises _ _ _ _ _ Hcu) as (e & s' & Hp).
  exists e, s'. cbn [consume_loop]. rewrite (Y_bind_run _ _ _ _ _ _ _ Ha).
  rewrite (Y_bind_run _ _ _ _ _ _ _ eq_refl), Hfetch, (Y_bind_run _ _ _ _ _ _ _ eq_refl), Hstop.
  rewrite bool_decide_true by done. split; [by apply Y_bind_raises|].
  apply process_processed in Hp as (_ & Hc & _); [|done]. apply works_await in Ha as [_ Hc0]; [|done].
  by rewrite Hc, app_nil_r.
Qed.

(** ** The output of a task *)

(** What is stored of a handler's result: an object, unless it is stored as an
    artifact. *)
Definition output_value (result : json) : json := match result with JNull => empty_object | v => v end.

Definition large_result (result : json) : bool :=
  bool_decide (inline_bytes < Z.of_nat (String.length (dumps isoformat "," ":" (output_value result)))).

Lemma complete_action id payload env net s r s' :
  task_rpc py_str w (task_path id "complete") payload env net s = (inr r, s') →
  ∃ fields t, (if truthy (key_get payload "output") then key_get payload "output" else empty_object)
      = JObj fields ∧
    task_runs (slot_db s') !! id = Some t ∧ t_status t = SUCCEEDED ∧ t_output t = Some (JObj fields) ∧
    t_output_artifact_uri t = nullif_empty (text_at py_str payload "output_artifact_uri").
Proof.
  unfold task_rpc. rewrite after_tasks_path.
  destruct (cut_path id "complete") as [->|(x & y & ->)]; unfold except; cycle 1.
  { destruct (task_action_slash x y "complete" payload env net s) as [t ->]. by intros [=]. }
  unfold task_action. do 3 (rewrite bool_decide_false by done). rewrite bool_decide_true by done.
  unfold struct_update. destruct (if truthy _ then _ else _) as [| | | | | |fields]; try (by intros [=]).
  unfold mbind, Y_bind. destruct (rpc _ env net s) as [[e|v] s1] eqn:Hr.
  { repeat case_match; by intros [=]. }
  intros [= _ <-]. apply rpc_inr, wss_Complete in Hr as (t & Ht & Hst & Ho & Hu). by exists fields, t.
Qed.

(** When the delivery of a result raises nothing, the task is SUCCEEDED and
    holds the result, or refers to the artifact with it. *)
Theorem deliver_records id result env net s s' :
  deliver sha256 isoformat py_str rpc_str w serve id result env net s = (inr tt, s') →
  ∃ t, task_runs (slot_db s') !! id = Some t ∧ t_status t = SUCCEEDED ∧
    (large_result result = true → t_output t = Some empty_object) ∧
    (large_result result = false → t_output_artifact_uri t = None ∧
       (truthy result = true → t_output t = Some result)).
Proof.
  unfold deliver. intros (? & s1 & _ & H)%Y_bind_inr. cbv zeta in H.
  fold (output_value result) in H. fold (large_result result) in H.
  apply Y_bind_inr in H as (uri & s2 & Hu & H). apply Y_bind_inr in H as (log & s3 & _ & H).
  apply Y_bind_inr in H as (r & s4 & Hp & H). apply Y_ret_inr in H as [_ <-].
  unfold post in Hp. apply Y_bind_inr in Hp as (? & s5 & _ & Hp). rewrite contains_tasks in Hp.
  apply complete_action in Hp as (fields & t & Hf & Ht & Hst & Ho & Ha).
  exists t. split_and!; [done|done|..]; intros Hl; rewrite Hl in *.
  - simpl in Hf. by rewrite Ho, <-Hf.
  - apply Y_ret_inr in Hu as [<- _]. split; [done|]. intros Htr. rewrite Ho, <-Hf.
    change (key_get _ "output") with (output_value result).
    destruct result; try done; simpl in *; by rewrite Htr.
Qed.
End Worker.
