(* ===== verification/Deployment.v ===== *)
(** The deployed system: the HTTP and gRPC servers of the control plane, the
    scheduler, the outbox publisher, the metrics and the workers on one
    database.

    Every activity of every component is an execution of the engine, so the
    theorems about reachable databases hold of the system as it is deployed.
    The last section follows a dispatch message that reaches a worker whose
    lease request is lost. *)
From stdpp Require Import pretty.
From S2P Require Import Prelude Go Url Mux Model Dag State Json Schema Sql StoreWorker StoreWorkflow Scheduler Outbox Auth Stream Artifacts RateLimit Config Metrics Api Service Http Rpc Client WorkerGo Python Preserve Frame Lifecycle Refinement Creation Aloof System History WorkerSpec SchedulerSpec OutboxSpec AuthSpec ArtifactSpec Requests RpcSpec WorkerGoSpec PythonSpec.

(** [RegisterWorkerServiceServer] of the control plane. *)
Definition worker_server (uuid_Parse : string → bool) (sha256 : string → string)
    (verify : string → result (list (string * json))) (cfg : Config) (manager : Manager) : WorkerService :=
  rpc_service uuid_Parse sha256 (authenticator_config cfg) verify (Config.LeaseDuration cfg) (Some manager).

(** * Activities *)

Lemma publishBatch_steps fuel svc env bus w r w' :
  publishBatch fuel svc env bus w = (r, w') → rtc step (s_db (w_sess w)) (s_db (w_sess w')).
Proof.
  revert w. induction fuel as [|fuel IH]; intros w; simpl; [by intros [= _ <-]|].
  unfold mbind, P_bind. destruct (publishClaimedBatch svc env bus w) as [x w1] eqn:Hp.
  apply publishClaimedBatch_steps in Hp. destruct x as [n|e]; [|by intros [= _ <-]].
  case_bool_decide; [by intros [= _ <-]|]. intros Hr. etransitivity; [done|by eapply IH].
Qed.

Section Deployment.
Context {location cron : Type}.
Context (LoadLocation : string → result location) (cron_parse : string → result cron).
Context (cron_next : cron → location → time → time) (format_rfc3339 : time → string).
Context (uuid_Parse : string → bool) (sha256 : string → string) (rand : nat → result (list Z)).
Context (srv : Server) (config : AuthConfig) (verify : string → result (list (string * json))).
Context (dec : Decoders) (limit : Principal → gate).
Context (ping : nat → result unit) (dependency : option (nat → result unit)).
Context (metrics openapi docs : string).
Context (leaseDuration : Z) (artifacts_ : option Manager).
Context (unicode_ToUpper : string → string).
Context (json_Unmarshal : string → GoError + list (string * json)).
Context (json_loads : string → exc + json) (py_str : json → string).
Context (rpc_str : option code → string → string).

Local Abbreviation handler := (Handler LoadLocation cron_parse cron_next uuid_Parse sha256 rand srv config
  verify dec limit ping dependency metrics openapi docs).

#[local] Instance service : WorkerService :=
  rpc_service uuid_Parse sha256 config verify leaseDuration artifacts_.

(** What a component of the deployment does to the database: a request to
    either server, the loops of the scheduler process, a single cycle or batch
    of them, a scrape of the metrics, and the run of a worker (of either SDK) or
    of its reports, during which the others go on. *)
Inductive activity (db : Db) : Db → Prop :=
  | act_http rq env n open r s' :
      handler rq env (mkSess n open db) = (r, s') → activity db (s_db s')
  | act_grpc c env n open r s' :
      dispatch_call uuid_Parse sha256 config verify leaseDuration artifacts_ c env (mkSess n open db)
        = (r, s') → activity db (s_db s')
  | act_tick env n open r s' :
      tick LoadLocation cron_parse cron_next format_rfc3339 env (mkSess n open db) = (r, s') →
      activity db (s_db s')
  | act_outbox svc env bus w r w' :
      s_db (w_sess w) = db → publishClaimedBatch svc env bus w = (r, w') →
      activity db (s_db (w_sess w'))
  | act_service svc si oi fuel ctx_Done turns env bus w r w' :
      s_db (w_sess w) = db →
      Run LoadLocation cron_parse cron_next format_rfc3339 svc si oi fuel ctx_Done turns env bus w
        = (r, w') → activity db (s_db (w_sess w'))
  | act_scrape lost env n open r s' :
      Collect lost env (mkSess n open db) = (r, s') → activity db (s_db s')
  | act_worker c fuel messages env net p r p' :
      honest net → proc_db p = db →
      consume sha256 format_rfc3339 unicode_ToUpper json_Unmarshal c fuel messages env net p = (r, p') →
      activity db (proc_db p')
  | act_report c rounds env net p r p' :
      honest net → proc_db p = db → report format_rfc3339 c handler rounds env net p = (r, p') →
      activity db (proc_db p')
  | act_python w fuel messages env net s r s' :
      honest net → slot_db s = db →
      consume_loop sha256 format_rfc3339 json_loads py_str rpc_str w handler fuel messages env net s
        = (r, s') → activity db (slot_db s')
  | act_python_report w version active rounds env net s r s' :
      honest net → slot_db s = db →
      report_worker format_rfc3339 py_str rpc_str w handler version active rounds env net s = (r, s') →
      activity db (slot_db s').

Lemma Run_steps svc si oi fuel ctx_Done turns env bus w r w' :
  Run LoadLocation cron_parse cron_next format_rfc3339 svc si oi fuel ctx_Done turns env bus w = (r, w') →
  rtc step (s_db (w_sess w)) (s_db (w_sess w')).
Proof.
  revert w. induction turns as [|g turns IH]; intros w; simpl; [by intros [= _ <-]|].
  unfold mbind, P_bind, loop_round. destruct (NewTicker _); [by intros [= _ <-]|].
  unfold mbind, P_bind, select_done.
  destruct (cycle _ _ _ _ _ _ g env bus w) as [x w1] eqn:Hc.
  assert (rtc step (s_db (w_sess w)) (s_db (w_sess w1))) as H1.
  { destruct g; unfold cycle, mbind, P_bind, ptry, lift in Hc.
    - destruct (tick _ _ _ _ env (w_sess w)) as [y s1] eqn:Ht. injection Hc as _ <-.
      by apply tick_steps in Ht.
    - destruct (publishBatch fuel svc env bus w) as [y w2] eqn:Hp. injection Hc as _ <-.
      by apply publishBatch_steps in Hp. }
  destruct x as [[]|e]; [|by intros [= _ <-]].
  destruct (ctx_Done _); simpl; [by intros [= _ <-]|]. intros Hr.
  etransitivity; [done|]. apply IH in Hr. done.
Qed.

Lemma activity_steps db db' : activity db db' → rtc step db db'.
Proof.
  assert (∀ rq, preserves (rtc step) (handler rq)) as Hserve.
  { intros rq env1 s1 r1 s1' H1. by apply Handler_steps in H1. }
  intros [rq env n open r s' H|c env n open r s' H|env n open r s' H|svc env bus w r w' <- H
    |svc si oi fuel ctx_Done turns env bus w r w' <- H|lost env n open r s' H|c fuel ms env net p r p' Hn <- H
    |c rounds env net p r p' Hn <- H|w fuel ms env net s r s' Hn <- H
    |w version active rounds env net s r s' Hn <- H].
  - by apply Handler_steps in H.
  - by apply call_steps in H.
  - by apply tick_steps in H.
  - by apply publishClaimedBatch_steps in H.
  - by apply Run_steps in H.
  - destruct (Collect_described lost env (mkSess n open db)) as (a & s1 & Hc & Hdb & _).
    rewrite Hc in H. injection H as _ <-. by rewrite Hdb.
  - by eapply advances_consume in H.
  - eapply advances_report in H; [done|exact Hserve|done].
  - eapply works_consume_loop in H; [done|exact Hserve|done].
  - eapply works_report_worker in H; [apply H|exact Hserve|done].
Qed.

(** C3: the deployment is an execution of the engine.  However HTTP requests,
    gRPC calls, the loops of the scheduler, metric scrapes, Go and Python
    workers follow each other, from a database without definitions and runs they
    lead to databases the system can reach: all theorems about reachable databases
    hold of the deployed system, whatever clients send, whatever fails and
    whatever messages are lost. *)
Theorem deployment_is_execution db0 db :
  initial db0 → rtc activity db0 db → system_reachable db.
Proof.
  intros H0 Hr. exists db0. split; [done|]. clear H0.
  induction Hr as [|db1 db2 db3 H12 _ IH]; [done|].
  etransitivity; [by apply activity_steps|done].
Qed.
End Deployment.

(** * A dispatch whose lease request is lost *)

(** Dispatched tasks are left as they are. *)
Definition dispatched_kept (t t' : TaskRow) : Prop := t_status t = DISPATCHING → t' = t.

#[export] Instance dispatched_kept_preorder : PreOrder dispatched_kept.
Proof.
  split; [by intros t|]. intros x y z Hxy Hyz Hx. pose proof (Hxy Hx) as ->. by apply Hyz.
Qed.

Notation waits := (history dispatched_kept).

Lemma waits_promote_retries : preserves waits promote_retries.
Proof.
  unfold promote_retries. preserve. intros env n. apply history_update_tasks; [apply _|].
  intros db k t H. bool_split. unfold dispatched_kept. congruence.
Qed.

Lemma waits_dispatch_one now e : preserves waits (dispatch_one now e).
Proof.
  destruct e as [[id t] r]. unfold dispatch_one. preserve. apply history_update_tasks; [apply _|].
  intros db k t' H. bool_split. unfold dispatched_kept. congruence.
Qed.

Lemma waits_dispatch_ready : preserves waits dispatch_ready.
Proof. unfold dispatch_ready. preserve. apply waits_dispatch_one. Qed.

(** What the database remembers of its tasks. *)
Definition still_dispatched (id : uuid) (db : Db) : Prop :=
  ∃ t, task_runs db !! id = Some t ∧ t_status t = DISPATCHING.

Lemma waits_still id db db' : waits db db' → still_dispatched id db → still_dispatched id db'.
Proof.
  intros Hw (t & Ht & Hst). destruct (hi_tasks _ _ _ Hw _ _ Ht) as (t' & Ht' & Heq).
  rewrite (Heq Hst) in Ht'. by exists t.
Qed.

Definition still_rel (id : uuid) (db db' : Db) : Prop := still_dispatched id db → still_dispatched id db'.

#[export] Instance still_rel_preorder id : PreOrder (still_rel id).
Proof. split; [by intros db ?|]. intros x y z Hxy Hyz H. by apply Hyz, Hxy. Qed.

Lemma still_waits {A} id (m : M A) : preserves waits m → preserves (still_rel id) m.
Proof. apply preserves_mono. intros db db' Hw Hs. by eapply waits_still. Qed.

(** Only leases that a worker holds are recovered. *)
Lemma still_recoverExpired id : preserves (still_rel id) recoverExpired.
Proof.
  apply preserves_committed; [apply _|]. intros now env n db a s Hb. do 2 run_step.
  run_step. run_step. apply select_expired_spec in Hf as (-> & Hnd & He).
  match goal with H : mfor _ _ _ _ = _ |- _ => apply recover_loop_effect in H as (Hsame & _); [|done|] end.
  - intros (t & Ht & Hst). exists t. split; [|done]. rewrite Hsame; [done|].
    intros (kt & Hk & (e & -> & Hin)%list_elem_of_fmap)%list_elem_of_fmap.
    destruct (He _ Hin) as [He1 _], e as [[id' t'] r']. simpl in *. destruct He1 as (Ht' & Ha & _).
    simplify_eq. unfold leased_or_running in Ha. rewrite Hst in Ha. done.
  - intros id' t' r' Hin. by destruct (He _ Hin) as [(? & _) _].
Qed.

(** The operations of the scheduler, with the runs its schedules create, and of
    the publisher. *)
Definition scheduler_op (o : op) : bool :=
  match o with
  | OpPromoteRetries | OpRecoverExpired | OpDispatchReady | OpCreateRun _ _ _ _ _ _
  | OpClaimEvents _ _ _ | OpAckEvent _ _ | OpReleaseClaims _ => true
  | _ => false
  end.

Inductive scheduler_step (db : Db) : Db → Prop :=
  | sstep o env n open r s' :
      scheduler_op o = true → exec o env (mkSess n open db) = (r, s') → scheduler_step db (s_db s').

Lemma still_exec id o : scheduler_op o = true → preserves (still_rel id) (exec o).
Proof.
  intros Ho. destruct o; try done; cbn [exec].
  - apply preserves_run_unit; [apply _|]. apply still_waits, history_CreateRun, _.
  - apply still_waits, waits_promote_retries.
  - apply still_recoverExpired.
  - apply still_waits, waits_dispatch_ready.
  - apply preserves_run_unit; [apply _|]. apply still_waits. preserve.
  - apply preserves_run_unit; [apply _|]. apply still_waits. preserve.
  - apply preserves_run_unit; [apply _|]. apply still_waits. preserve.
Qed.

Section Lost.
Context `{WorkerService} (sha256 : string → string) (format_rfc3339 : time → string).
Context (unicode_ToUpper : string → string).
Context (json_Unmarshal : string → GoError + list (string * json)).
Context (c : Client).

(** Nothing happens beside the worker, and no request of its arrives. *)
Record severed (net : Net) (err : error) : Prop := {
  sv_others : ∀ n db, net_others net n db = db;
  sv_rpc : ∀ n, net_rpc net n = RequestLost err;
  sv_stop : ∀ n, net_stop net n = None;
  sv_commit : ∀ n, net_commit net n = None
}.

Lemma wait_severed env net err p :
  severed net err → pr_beating p = None → pr_parent p = None →
  ∃ p', wait c env net p = (Ok tt, p') ∧ proc_db p' = proc_db p ∧ pr_parent p' = None ∧
    pr_beating p' = None ∧ pr_committed p' = pr_committed p.
Proof.
  intros S Hb Hp. eexists. split; [done|].
  assert (heartbeats c (net_beats net (pr_tick p)) env net (occur net p) = occur net p) as ->.
  { destruct (net_beats net (pr_tick p)); [done|]. cbn [heartbeats]. simpl pr_beating. by rewrite Hb. }
  unfold proc_db, occur. simpl. by rewrite (sv_others _ _ S), (sv_stop _ _ S), Hp, Hb.
Qed.

Lemma execute_severed id env net err p :
  severed net err → pr_beating p = None → pr_parent p = None → cl_initErr c = None →
  ∃ p', execute sha256 format_rfc3339 unicode_ToUpper json_Unmarshal c id env net p = (Err err, p') ∧
    proc_db p' = proc_db p ∧ pr_parent p' = None ∧ pr_beating p' = None ∧
    pr_committed p' = pr_committed p.
Proof.
  intros S Hb Hp Hi. destruct (wait_severed env net err p S Hb Hp) as (p' & Hw & Hrest).
  exists p'. split; [|done]. unfold execute, client_Lease, ready. rewrite Hi.
  unfold mbind at 1, W_bind at 1. unfold mbind at 1, W_bind at 1. unfold invoke.
  unfold mbind at 1, W_bind at 1. rewrite Hw. unfold checked. simpl ctx_err.
  destruct Hrest as (_ & -> & _). unfold transmit. by rewrite (sv_rpc _ _ S).
Qed.

(** C35: a dispatch is not delivered at least once.  When the worker's lease
    request does not reach the control plane, the worker commits the offset of
    the message all the same, nothing has changed in the database, and however
    long the scheduler and the publisher then run, the task stays DISPATCHING:
    only leased and running tasks are recovered, so the task is never
    dispatched again. *)
Theorem lost_lease_strands_task m d t env net err p :
  m_event_type m = "task.dispatch" → unmarshal_dispatch (m_value m) = Some d →
  supported (d_Handler d) = true → cl_initErr c = None → severed net err →
  pr_beating p = None → pr_parent p = None →
  task_runs (proc_db p) !! d_TaskRunID d = Some t → t_status t = DISPATCHING →
  ∃ p', handle_message sha256 format_rfc3339 unicode_ToUpper json_Unmarshal c m env net p = (Ok tt, p') ∧
    pr_committed p' = pr_committed p ++ [m] ∧ proc_db p' = proc_db p ∧
    ∀ db, rtc scheduler_step (proc_db p') db → still_dispatched (d_TaskRunID d) db.
Proof.
  intros Hev Hd Hsup Hi S Hb Hp Ht Hst.
  destruct (execute_severed (d_TaskRunID d) env net err p S Hb Hp Hi) as (p1 & He & E1 & Hp1 & Hb1 & Hc1).
  destruct (wait_severed env net err p1 S Hb1 Hp1) as (p2 & Hw & E2 & Hp2 & _ & Hc2).
  assert (CommitMessages c m env net p1 = (Ok tt, p2<| pr_committed := pr_committed p2 ++ [m] |>)) as Hcm.
  { unfold CommitMessages, mbind, W_bind. rewrite Hw. unfold checked. simpl ctx_err.
    by rewrite Hp2, (sv_commit _ _ S). }
  eexists. split_and!.
  - unfold handle_message. change (header (headers_of m) "event_type") with (m_event_type m). rewrite Hev, bool_decide_false, Hd, Hsup by naive_solver.
    simpl. unfold mbind, W_bind, wtry. by rewrite He, Hcm.
  - simpl. by rewrite Hc2, Hc1.
  - unfold proc_db in *. simpl. congruence.
  - intros db Hr. assert (still_dispatched (d_TaskRunID d) (proc_db p)) as Hs by (by exists t).
    replace (proc_db p) with (proc_db (p2<| pr_committed := pr_committed p2 ++ [m] |>)) in Hs
      by (unfold proc_db in *; simpl; congruence).
    induction Hr as [|db1 db2 db3 [o env' n open r s' Ho Hx] _ IH]; [done|].
    apply IH. by apply (still_exec (d_TaskRunID d) _ Ho) in Hx; apply Hx.
Qed.
End Lost.
