(* ===== verification/Settling.v ===== *)
(** What the operations of a round respect.

    [accrues]: schedules stay, events are only added.  [settles]: tasks that are
    over stay over and none is added.  [posts]: the publisher changes events
    only.  And the run of the recovery of expired leases when nothing fails. *)
From S2P Require Import Prelude Go State Json Schema Sql StoreWorker StoreWorkflow Scheduler Outbox Preserve Frame Lifecycle Refinement Creation System History WorkerSpec SchedulerSpec OutboxSpec Numbering Requests Progress WorkerGo.

(** * Events and schedules *)

(** Schedules stay, events are only added, and new events are unclaimed. *)
Record accrues (db db' : Db) : Prop := {
  ac_schedules : schedules db' = schedules db;
  ac_events : outbox_events db ⊆ outbox_events db';
  ac_new : ∀ k o, outbox_events db' !! k = Some o → outbox_events db !! k = Some o ∨ o_claim_token o = None
}.

#[export] Instance accrues_preorder : PreOrder accrues.
Proof.
  split; [split; eauto|]. intros x y z [Sxy Exy Nxy] [Syz Eyz Nyz].
  split; [congruence|by etransitivity|]. intros k o [?%Nxy|?]%Nyz; eauto.
Qed.

Lemma accrues_same db db' :
  schedules db' = schedules db → outbox_events db' = outbox_events db → accrues db db'.
Proof. intros Hs He. split; [done|by rewrite He|rewrite He; by left]. Qed.

Lemma accrues_update_tasks P f : stmt_preserves accrues (update_tasks P f).
Proof. intros env n db a db' [= _ <-]. by apply accrues_same. Qed.

Lemma accrues_update_task id g f : stmt_preserves accrues (update_task id g f).
Proof. apply accrues_update_tasks. Qed.

Lemma accrues_update_run id g f : stmt_preserves accrues (update_run id g f).
Proof. intros env n db a db' [= _ <-]. by apply accrues_same. Qed.

Lemma accrues_update_attempt id k g f : stmt_preserves accrues (update_attempt id k g f).
Proof. intros env n db a db' [= _ <-]. by apply accrues_same. Qed.

Lemma accrues_insert_attempt now id k w sch : stmt_preserves accrues (insert_attempt now id k w sch).
Proof.
  intros env n db a db' (_ & row & -> & _)%insert_attempt_Ok. by apply accrues_same.
Qed.

Lemma accrues_insert_outbox now ty id ev p tr : stmt_preserves accrues (insert_outbox now ty id ev p tr).
Proof.
  intros env n db a db' [Hn ->]%insert_outbox_Ok. split; simpl; [done|by apply insert_subseteq|].
  intros k o. destruct (decide (k = env_uuid env n)) as [->|].
  - rewrite lookup_insert_eq. intros [= <-]. by right.
  - rewrite lookup_insert_ne by done. by left.
Qed.

Lemma accrues_insert_outbox_from_run now id ev p rid :
  stmt_preserves accrues (insert_outbox_from_run now id ev p rid).
Proof.
  intros env n db a db'. unfold insert_outbox_from_run. destruct (workflow_runs db !! rid).
  - apply accrues_insert_outbox.
  - by intros [= _ <-].
Qed.

#[export] Hint Resolve accrues_update_tasks accrues_update_task accrues_update_run accrues_update_attempt
  accrues_insert_attempt accrues_insert_outbox accrues_insert_outbox_from_run : preserve.

Lemma accrues_promote_retries : preserves accrues promote_retries.
Proof. unfold promote_retries. preserve. intros env n. exact (accrues_update_tasks _ _ env n). Qed.

Lemma accrues_recoverExpired : preserves accrues recoverExpired.
Proof. unfold recoverExpired, recover_one, available_at, nowPlus. cbv zeta. preserve. Qed.

Lemma accrues_dispatch_ready : preserves accrues dispatch_ready.
Proof. unfold dispatch_ready, dispatch_one. preserve. Qed.

Lemma accrues_LeaseTask id w l : preserves accrues (LeaseTask id w l).
Proof. unfold LeaseTask, nowPlus. preserve. Qed.

Lemma accrues_StartTask id w : preserves accrues (StartTask id w).
Proof. unfold StartTask. preserve. Qed.

(** The renewal of a lease is an update of the task's row. *)
Lemma heartbeat_stmt_update id w expires env n db x db' :
  heartbeat_stmt id w expires env n db = Ok (x, db') →
  ∃ rows, update_task id (λ t, leased_or_running t && holds_lease (env_now env n) w t)
    (λ t, t<| t_lease_expires_at := Some expires |><| t_updated_at := env_now env n |>) env n db = Ok (rows, db').
Proof. unfold heartbeat_stmt. destruct (update_task _ _ _ _ _ _) as [[rows db1]|]; naive_solver. Qed.

Lemma accrues_HeartbeatTask id w l : preserves accrues (HeartbeatTask id w l).
Proof.
  unfold HeartbeatTask, nowPlus. preserve. intros env n db x db' (rows & H)%heartbeat_stmt_update.
  by apply accrues_update_task in H.
Qed.

Lemma accrues_FailTask id w f : preserves accrues (FailTask id w f).
Proof. unfold FailTask, cancel_not_started, available_at, nowPlus. cbv zeta. preserve. Qed.

Lemma accrues_CreateRun t u d k i a : preserves accrues (CreateRun t u d k i a).
Proof.
  unfold CreateRun, populate_run, attach_artifact, insert_tasks, insert_dependencies, getRunTx, input_artifact_uri.
  preserve. all: intros env n db a' db' H.
  all: unfold insert_run, update_artifacts, insert_task, insert_dependency, insert_audit, sql_check in H.
  all: repeat case_match; simplify_eq; by apply accrues_same.
Qed.

Lemma accrues_CompleteTask id w out uri logs : preserves accrues (CompleteTask id w out uri logs).
Proof. unfold CompleteTask, complete_tx. preserve. Qed.

(** * Tasks *)

(** Tasks that are over stay over, tasks stay with their run, and there are no
    new tasks. *)
Definition closed (t : TaskRow) : bool :=
  match t_status t with SUCCEEDED | DEAD | CANCELLED => true | _ => false end.

Definition settles (db db' : Db) : Prop :=
  ∀ k t', task_runs db' !! k = Some t' →
    ∃ t, task_runs db !! k = Some t ∧ t_workflow_run_id t = t_workflow_run_id t' ∧ (closed t = true → closed t' = true).

#[export] Instance settles_preorder : PreOrder settles.
Proof.
  split; [intros x k t' Ht'; by exists t'|].
  intros x y z Hxy Hyz k t' (t1 & (t & Ht & ? & ?)%Hxy & ? & ?)%Hyz. exists t. split_and!; [done|congruence|auto].
Qed.

Lemma settles_same db db' : task_runs db' = task_runs db → settles db db'.
Proof. intros He k t'. rewrite He. eauto. Qed.

Lemma settles_update_tasks P f :
  (∀ db k t, P db k t = true → closed t = false) →
  (∀ db k t, t_workflow_run_id (f db k t) = t_workflow_run_id t) → stmt_preserves settles (update_tasks P f).
Proof.
  intros HP Hf env n db a db' Hu k t'. rewrite (lookup_update_tasks _ _ _ _ _ _ _ k Hu).
  intros (t & Ht & ->)%fmap_Some. exists t. split; [done|]. destruct (P db k t) eqn:E; [|done].
  by rewrite (HP _ _ _ E), Hf.
Qed.

Lemma settles_core {A} (f : Stmt A) : stmt_preserves core f → stmt_preserves settles f.
Proof. intros Hf env n db a db' [_ He _ _]%Hf. by apply settles_same. Qed.

#[export] Hint Extern 10 (stmt_preserves settles _) => apply settles_core : preserve.

Lemma settles_insert_attempt now id k w sch : stmt_preserves settles (insert_attempt now id k w sch).
Proof. intros env n db a db' (_ & row & -> & _)%insert_attempt_Ok. by apply settles_same. Qed.

Lemma settles_update_run id g f : stmt_preserves settles (update_run id g f).
Proof. intros env n db a db' [= _ <-]. by apply settles_same. Qed.

#[export] Hint Resolve settles_insert_attempt settles_update_run : preserve.

(** The rows a statement selects by a status that is not final. *)
Ltac guarded_rows :=
  apply settles_update_tasks; [|done];
  let H := fresh in
  intros ? ? ? H; unfold unblocked_by, leased_or_running in H; bool_split; unfold closed;
  match goal with Hs : t_status _ = _ |- _ => by rewrite Hs end.

Lemma settles_promote_retries : preserves settles promote_retries.
Proof.
  unfold promote_retries. preserve. intros env n db a db' Hu.
  refine (settles_update_tasks _ _ _ _ env n db a db' Hu); [|done]. intros ? ? t H. bool_split. unfold closed. by rewrite H.
Qed.

Lemma settles_dispatch_ready : preserves settles dispatch_ready.
Proof. unfold dispatch_ready, dispatch_one. preserve. all: guarded_rows. Qed.

Lemma settles_LeaseTask id w l : preserves settles (LeaseTask id w l).
Proof. unfold LeaseTask, nowPlus. preserve. all: guarded_rows. Qed.

Lemma settles_StartTask id w : preserves settles (StartTask id w).
Proof. unfold StartTask. preserve. all: guarded_rows. Qed.

Lemma settles_HeartbeatTask id w l : preserves settles (HeartbeatTask id w l).
Proof.
  unfold HeartbeatTask, nowPlus. preserve. intros env n db x db' (rows & H)%heartbeat_stmt_update.
  eapply settles_update_tasks in H; [exact H| |done]. intros ? ? t Hg. bool_split. unfold closed.
  match goal with Hl : leased_or_running _ = true |- _ => apply leased_or_running_true in Hl as [-> | ->]; done end.
Qed.

Lemma settles_CompleteTask id w out uri logs : preserves settles (CompleteTask id w out uri logs).
Proof. unfold CompleteTask, complete_tx. preserve. all: guarded_rows. Qed.

(** Dispatching leaves the runs alone. *)
Definition same_runs (db db' : Db) : Prop := workflow_runs db' = workflow_runs db.

#[export] Instance same_runs_preorder : PreOrder same_runs.
Proof. split; [done|]. unfold same_runs. congruence. Qed.

Lemma same_runs_update_tasks P f : stmt_preserves same_runs (update_tasks P f).
Proof. by intros env n db a db' [= _ <-]. Qed.

Lemma same_runs_insert_outbox now ty id ev p tr : stmt_preserves same_runs (insert_outbox now ty id ev p tr).
Proof. by intros env n db a db' [Hn ->]%insert_outbox_Ok. Qed.

Lemma same_runs_dispatch_ready : preserves same_runs dispatch_ready.
Proof.
  unfold dispatch_ready, dispatch_one. preserve.
  all: first [apply same_runs_update_tasks | apply same_runs_insert_outbox].
Qed.

(** Recovery takes leases away from tasks that are held, and ends only their
    runs. *)
Lemma recover_loop_runs now l env s u s' rid :
  mfor l (recover_one now) env s = (Ok u, s') → NoDup (l.*1.*1) →
  (∀ id t r, (id, t, r) ∈ l → task_runs (s_db s) !! id = Some t ∧ t_workflow_run_id t ≠ rid) →
  workflow_runs (s_db s') !! rid = workflow_runs (s_db s) !! rid.
Proof.
  revert s. induction l as [|[[id0 t0] r0] l IH]; intros s Hb Hnd Hl; simpl in Hb; [by run_step|].
  rewrite !fmap_cons in Hnd. cbn [fst] in *. apply NoDup_cons in Hnd as [Hnew Hnd]. run_step.
  destruct (Hl id0 t0 r0) as [Ht0 Hne]; [by left|].
  destruct (recover_one_effect _ _ _ _ _ _ _ _ Hm Ht0) as [[m Ht1] Hr1].
  rewrite (IH _ Hb Hnd), Hr1.
  - case_bool_decide; [|done]. unfold end_run. by rewrite lookup_alter_ne.
  - intros id t r Hin. destruct (Hl id t r) as [Ht ?]; [by right|]. split; [|done].
    rewrite Ht1, lookup_insert_ne; [done|]. intros ->. apply Hnew.
    by apply (list_elem_of_fmap_2 fst _ (id, t)), (list_elem_of_fmap_2 fst _ (id, t, r)).
Qed.

Lemma recoverExpired_run env s :
  calm env → Inj (=) (=) (env_uuid env) → fresh_from env (s_tick s) (s_db s) →
  ∃ s', recoverExpired env s = (Ok tt, s') ∧ settles (s_db s) (s_db s') ∧
    ∀ rid, (∀ k t, task_runs (s_db s) !! k = Some t → t_workflow_run_id t = rid → leased_or_running t = false) →
      workflow_runs (s_db s') !! rid = workflow_runs (s_db s) !! rid ∧
      ∀ k t, task_runs (s_db s) !! k = Some t → t_workflow_run_id t = rid → task_runs (s_db s') !! k = Some t.
Proof.
  intros Hcalm Hinj Hfresh. pose proof Hcalm as [Hc Hcm]. set (now := env_now env (s_tick s)).
  destruct (select_expired now env (S (s_tick s)) (s_db s)) as [[l db]|] eqn:Hsel; [|done].
  pose proof (select_expired_lost _ _ _ _ _ _ Hsel) as (-> & Hnd & Hl).
  destruct (mfor_total (fresh_from env) l (recover_one now) env (S (S (s_tick s))) (s_db s))
    as (n' & db' & Hloop & _).
  { intros e n db _. by apply recover_one_total. }
  { eapply fresh_later; [exact Hfresh|lia|done]. }
  destruct (recover_loop_effect _ _ _ _ _ _ Hloop Hnd) as (Hsame & _ & Hdone); [naive_solver|].
  assert (∀ id t r, (id, t, r) ∈ l → leased_or_running t = true) as Hheld.
  { intros id t r [_ Hlost]%Hl. unfold lost in Hlost. unfold leased_or_running. by bool_split. }
  exists (mkSess (S n') false db'). split_and!.
  - destruct s as [n open db]. eapply in_tx_run; [done|]. fold now.
    erewrite bind_run; [|apply tx_stmt_run; [apply Hc|exact Hsel]].
    by erewrite bind_run; [|exact Hloop].
  - intros k t' Ht'. cbn [s_db] in *. destruct (decide (k ∈ l.*1.*1)) as [Hin|Hout].
    + apply list_elem_of_fmap in Hin as ([k1 t] & -> & ([[k2 t2] r] & [= -> ->] & Hin)%list_elem_of_fmap).
      destruct (Hl _ _ _ Hin) as [Ht _]. destruct (Hdone _ _ _ Hin) as [[m Ht2] _]. exists t2.
      simpl in *. simplify_eq. split_and!; [done..|].
      pose proof (Hheld _ _ _ Hin) as Hh%leased_or_running_true. unfold closed.
      destruct Hh as [-> | ->]; done.
    + rewrite Hsame in Ht' by done. eauto.
  - intros rid Hfree. split.
    + eapply (recover_loop_runs _ _ _ _ _ _ rid) in Hloop; [done..|]. intros id t r Hin.
      destruct (Hl _ _ _ Hin) as [Ht _]. split; [done|]. intros Hrid.
      pose proof (Hfree _ _ Ht Hrid) as Hf. by rewrite (Hheld _ _ _ Hin) in Hf.
    + intros k t Ht Hrid. cbn [s_db] in *. rewrite Hsame; [done|].
      intros ([k1 t1] & -> & ([[k2 t2] r] & [= -> ->] & Hin)%list_elem_of_fmap)%list_elem_of_fmap.
      destruct (Hl _ _ _ Hin) as [Ht2 _]. simpl in *. simplify_eq.
      pose proof (Hfree _ _ Ht eq_refl) as Hf. by rewrite (Hheld _ _ _ Hin) in Hf.
Qed.

(** The tasks that are not over. *)
Definition open_tasks (db : Db) : gmap uuid TaskRow := filter (λ kt, closed kt.2 = false) (task_runs db).

Lemma open_tasks_rows rank P db :
  (∀ k t, P k t = true → closed t = false) →
  (length (rows_where rank P (task_runs db)) ≤ size (open_tasks db))%nat.
Proof.
  intros HP. rewrite <-(length_fmap fst), <-size_dom, <-(size_list_to_set (C := gset uuid)) by apply NoDup_rows_where.
  apply subseteq_size. intros k ([k' t] & -> & [Ht Hp]%elem_of_rows_where)%elem_of_list_to_set%list_elem_of_fmap.
  apply elem_of_dom. exists t. apply map_lookup_filter_Some. split; [done|]. by apply (HP k').
Qed.

Lemma settles_open db db' : settles db db' → (size (open_tasks db') ≤ size (open_tasks db))%nat.
Proof.
  intros Hs. rewrite <-!size_dom. apply subseteq_size. intros k [t' [Ht' Hc']%map_lookup_filter_Some]%elem_of_dom.
  destruct (Hs k t' Ht') as (t & Ht & _ & Hc). apply elem_of_dom. exists t. apply map_lookup_filter_Some.
  split; [done|]. simpl in *. destruct (closed t); [|done]. by rewrite Hc in Hc'.
Qed.

(** * The publisher *)

(** The publisher changes events only, and adds none. *)
Record posted (s s' : Sess) : Prop := {
  po_tick : (s_tick s ≤ s_tick s')%nat;
  po_tasks : task_runs (s_db s') = task_runs (s_db s);
  po_runs : workflow_runs (s_db s') = workflow_runs (s_db s);
  po_schedules : schedules (s_db s') = schedules (s_db s);
  po_events : dom (outbox_events (s_db s')) = dom (outbox_events (s_db s))
}.

#[export] Instance posted_preorder : PreOrder posted.
Proof. split; [done|]. intros x y z [] []. split; [lia|congruence..]. Qed.

Definition posts {A} (m : P A) : Prop :=
  ∀ env bus w r w', m env bus w = (r, w') → posted (w_sess w) (w_sess w').

Lemma posted_tick n n' open open' db : (n ≤ n')%nat → posted (mkSess n open db) (mkSess n' open' db).
Proof. by split. Qed.

Lemma posts_ret {A} (a : A) : posts (mret a).
Proof. by intros env bus w r w' [= _ <-]. Qed.

Lemma posts_throw {A} e : posts (pthrow (A := A) e).
Proof. by intros env bus w r w' [= _ <-]. Qed.

Lemma posts_bind {A B} (m : P A) (k : A → P B) : posts m → (∀ a, posts (k a)) → posts (m ≫= k).
Proof.
  intros Hm Hk env bus w r w'. unfold mbind, P_bind.
  destruct (m env bus w) as [[a|e] w1] eqn:H1; apply Hm in H1.
  - intros H2%Hk. by etransitivity.
  - by intros [= _ <-].
Qed.

Lemma posts_try {A} (m : P A) : posts m → posts (ptry m).
Proof.
  intros Hm env bus w r w'. unfold ptry. destruct (m env bus w) as [x w1] eqn:H1.
  intros [= _ <-]. by eapply Hm.
Qed.

(** Statements that rewrite events where they are. *)
Definition rewrites_events {A} (f : Stmt A) : Prop := ∀ env n db a db', f env n db = Ok (a, db') →
  ∃ g, db' = db<| outbox_events := g |> ∧ dom g = dom (outbox_events db).

Lemma posts_stmt {A} (f : Stmt A) : rewrites_events f → posts (lift (pool_stmt f)).
Proof.
  intros Hf env bus [[n open db] top lv] r w'. unfold lift, pool_stmt. cbn [w_sess s_tick s_db].
  destruct (env_fault env n); [intros [= _ <-]; apply posted_tick; lia|].
  destruct (f env n db) as [[a db']|e] eqn:Hr; [|intros [= _ <-]; apply posted_tick; lia].
  apply Hf in Hr as (g & -> & Hg). unfold commit.
  destruct (env_commit env (S n)); intros [= _ <-]; simpl; split; simpl; try lia; done.
Qed.

Lemma rewrites_claim b token ttl : rewrites_events (claim_stmt b token ttl).
Proof. intros env n db a db' [= _ <-]. eexists. split; [done|]. apply dom_update_where. Qed.

Lemma rewrites_ack token id : rewrites_events (ack_stmt token id).
Proof. intros env n db a db' [= _ <-]. eexists. split; [done|]. apply dom_update_where. Qed.

Lemma rewrites_release token : rewrites_events (release_stmt token).
Proof. intros env n db a db' [= _ <-]. eexists. split; [done|]. apply dom_update_where. Qed.

Lemma posts_Publish e : posts (Publish e).
Proof.
  intros env bus [[n open db] top lv] r w'. unfold Publish.
  destruct (bus_publish bus _); intros [= _ <-]; apply posted_tick; simpl; lia.
Qed.

Lemma posts_Live t e : posts (Live_Publish t e).
Proof.
  intros env bus [[n open db] top lv] r w'. unfold Live_Publish. case_bool_decide; [by intros [= _ <-]|].
  destruct (bus_live bus _); intros [= _ <-]; apply posted_tick; simpl; lia.
Qed.

Lemma posts_new_uuid : posts (lift new_uuid).
Proof. intros env bus [[n open db] top lv] r w' [= _ <-]. apply posted_tick; simpl; lia. Qed.

Ltac post_step :=
  lazymatch goal with
  | |- posts (mbind _ _) => apply posts_bind; [|intros ?]
  | |- posts (mret _) => apply posts_ret
  | |- posts (pthrow _) => apply posts_throw
  | |- posts (ptry _) => apply posts_try
  | |- posts (lift new_uuid) => apply posts_new_uuid
  | |- posts (lift _) => apply posts_stmt; first [apply rewrites_claim | apply rewrites_ack | apply rewrites_release]
  | |- posts (Publish _) => apply posts_Publish
  | |- posts (Live_Publish _ _) => apply posts_Live
  | |- posts (match ?x with _ => _ end) => destruct x
  end.

Lemma posts_publish_all s token l : posts (publish_all s token l).
Proof.
  induction l as [|e l IH]; simpl; unfold publish_one, publish_acked, notify, releaseClaims;
    repeat first [exact IH | post_step].
Qed.

Lemma posts_publishBatch fuel s : posts (publishBatch fuel s).
Proof.
  induction fuel as [|fuel IH]; simpl; unfold publishClaimedBatch; cbv zeta;
    repeat first [exact IH | apply posts_publish_all | post_step].
Qed.

(** The message of a dispatch announces its task. *)
Lemma dispatch_event_fields k t e :
  dispatch_event k t e →
  o_published_at e = None ∧ o_event_type e = "task.dispatch" ∧
  unmarshal_dispatch (o_payload e) = Some (mkDispatch k (t_handler t)).
Proof. intros [[_ -> _ [-> _]] ->]. done. Qed.
