(* ===== verification/Calls.v ===== *)
(** What the calls of the worker's service respect.

    A call authenticates, looks at the task, and performs one operation of the
    store.  All but that operation stays [aside]: tasks, runs, events and
    schedules are as they were.  So a relation that contains [aside] and that the
    operations respect is respected by the calls, and with [WorkerGoSpec] by
    whatever the worker does.  Three such relations: [sound] for every call;
    [keeps] for what the calls of a task leave alone while it executes; and
    [elsewhere] for what the calls of a task leave alone in other runs. *)
From S2P Require Import Prelude Go Model State Json Schema Sql StoreWorker StoreWorkflow Scheduler Outbox Auth Stream Artifacts RateLimit Api Http Rpc Client WorkerGo Preserve Frame Lifecycle Refinement Creation Aloof System History WorkerSpec AuthSpec ArtifactSpec SchedulerSpec OutboxSpec Numbering Requests Progress RpcSpec WorkerGoSpec Settling.

(** * Aside *)

Record bystander (db db' : Db) : Prop := {
  by_aloof : aloof db db';
  by_events : outbox_events db' = outbox_events db;
  by_schedules : schedules db' = schedules db
}.

#[export] Instance bystander_preorder : PreOrder bystander.
Proof. split; [by split|]. intros x y z [? ? ?] [? ? ?]. split; [by etransitivity|congruence..]. Qed.

Lemma bystander_touch_api_key id : stmt_preserves bystander (touch_api_key id).
Proof. by intros env n db a db' [= _ <-]. Qed.

Lemma bystander_insert_artifact id row : stmt_preserves bystander (insert_artifact id row).
Proof. intros env n db a db' H. unfold insert_artifact, sql_check in H. repeat case_match; by simplify_eq. Qed.

Lemma bystander_update_artifacts g f : stmt_preserves bystander (update_artifacts g f).
Proof. by intros env n db a db' [= _ <-]. Qed.
#[export] Hint Resolve bystander_touch_api_key bystander_insert_artifact bystander_update_artifacts : preserve.

Definition aside (env : Env) (s s' : Sess) : Prop :=
  (s_tick s ≤ s_tick s')%nat ∧ bystander (s_db s) (s_db s').

#[export] Instance aside_preorder env : PreOrder (aside env).
Proof. split; [by split|]. intros x y z [? ?] [? ?]. split; [lia|by etransitivity]. Qed.

Lemma bystander_same_events {A} (f : Stmt A) : stmt_preserves bystander f → stmt_numbers f.
Proof. intros Hf. apply stmt_numbers_same. intros env n db a db' H. by apply Hf in H as [_ ? _]. Qed.

Lemma numbers_ask {A} (f : nat → result A) : numbers (ask f).
Proof. intros env s r s' [= _ <-]. apply numbered_same; simpl; [lia|done]. Qed.

Lemma respects_aside {A} (m : M A) : preserves bystander m → numbers m → respects aside m.
Proof. intros Hp Hn env s r s' H. split; [by apply Hn in H as [? _]|by eapply Hp]. Qed.

(** Both at once, for the parts of a call. *)
Ltac leave_aside :=
  apply respects_aside;
  [ repeat first [handler_step | preserve_step | preserve_leaf
                 | intros ? ?; apply bystander_update_artifacts]
  | repeat lazymatch goal with
    | |- numbers (ask _) => apply numbers_ask
    | |- numbers (let _ := _ in _) => cbv zeta
    | |- numbers new_uuid => apply numbers_new_uuid
    | |- stmt_numbers _ =>
        apply bystander_same_events;
        repeat first [preserve_step | preserve_leaf | intros ? ?; apply bystander_update_artifacts]
    | |- _ => number_step
    end ].

Section Parts.
Context (uuid_Parse : string → bool) (sha256 : string → string).
Context (config : AuthConfig) (verify : string → result (list (string * json))).

Lemma aside_authorize md : respects aside (authorize uuid_Parse sha256 config verify md).
Proof.
  unfold authorize, AuthenticateWorker, Authenticate, authenticateAPIKey, authenticateOIDC, key_expired.
  cbv zeta. leave_aside.
Qed.

Lemma aside_TaskBelongsToTenant id tenant : respects aside (TaskBelongsToTenant id tenant).
Proof. unfold TaskBelongsToTenant. leave_aside. Qed.

Lemma aside_active id tenant w : respects aside (ActiveTaskLeaseBelongsToWorker id tenant w).
Proof.
  apply respects_aside; [apply preserves_active, _|]. unfold ActiveTaskLeaseBelongsToWorker. number.
Qed.

Lemma aside_getArtifact g tenant : respects aside (getArtifact g tenant).
Proof. unfold getArtifact. leave_aside. Qed.

Lemma aside_CreateInternalUpload m tenant user kind ct size sum task :
  respects aside (CreateInternalUpload m tenant user kind ct size sum task).
Proof. unfold CreateInternalUpload, createUpload, CreateArtifact, TaskBelongsToTenant. leave_aside. Qed.

Lemma aside_Complete objects tenant id : respects aside (Complete sha256 objects tenant id).
Proof. unfold Complete, CompleteArtifact, GetArtifact, getArtifact. leave_aside. Qed.

Lemma aside_DownloadInternal m tenant uri : respects aside (DownloadInternal m tenant uri).
Proof. unfold DownloadInternal, download, GetArtifactByURI, GetArtifact, getArtifact. leave_aside. Qed.

End Parts.

(** ** Calls *)

(** Relations that contain [aside]. *)
Class Lenient (R : Env → Sess → Sess → Prop) : Prop := {
  lenient_preorder env :: PreOrder (R env);
  lenient_aside env s s' : aside env s s' → R env s s'
}.

#[export] Instance aside_lenient : Lenient aside.
Proof. by split; [apply _|]. Qed.

Section Respects.
Context (R : Env → Sess → Sess → Prop) `{!Lenient R}.

Lemma respects_ret {A} (a : A) : respects R (mret a).
Proof. by intros env s r s' [= _ <-]. Qed.

Lemma respects_bind {A B} (m : M A) (k : A → M B) :
  respects R m → (∀ a, respects R (k a)) → respects R (m ≫= k).
Proof.
  intros Hm Hk env s r s'. unfold mbind, M_bind. destruct (m env s) as [[a|e] s1] eqn:H1.
  - intros H2. etransitivity; [by eapply Hm|by eapply Hk].
  - intros [= _ <-]. by eapply Hm.
Qed.

Lemma respects_try {A} (m : M A) : respects R m → respects R (try m).
Proof.
  intros Hm env s r s'. unfold try. destruct (m env s) as [x s1] eqn:H1. intros [= _ <-]. by eapply Hm.
Qed.

Lemma respects_lenient {A} (m : M A) : respects aside m → respects R m.
Proof. intros Hm env s r s' H. by eapply lenient_aside, Hm. Qed.
End Respects.

#[export] Hint Resolve aside_authorize aside_TaskBelongsToTenant aside_active aside_getArtifact
  aside_CreateInternalUpload aside_Complete aside_DownloadInternal : aside.

Ltac respect :=
  repeat lazymatch goal with
  | |- respects _ (mbind _ _) => apply respects_bind; [apply _| |intros ?]
  | |- respects _ (mret _) => apply respects_ret; apply _
  | |- respects _ (try _) => apply respects_try
  | |- respects _ (after _ _) => unfold after
  | |- respects _ (stored_call _ _) => unfold stored_call
  | |- respects _ (rpc_authorizeTask _ _ _ _ _ _) => unfold rpc_authorizeTask
  | |- respects _ (principalForActiveTask _ _ _ _ _ _ _) => unfold principalForActiveTask
  | |- respects _ (check_artifact _ _ _ _ _) => unfold check_artifact
  | |- respects _ (GetArtifact _ _) => unfold GetArtifact
  | |- respects _ (GetArtifactByURI _ _) => unfold GetArtifactByURI
  | |- respects _ (match ?x with _ => _ end) => destruct x
  | |- respects _ _ =>
      first [solve [auto] | apply respects_lenient; [apply _|solve [auto with aside]]]
  end.

Section Calls.
Context (uuid_Parse : string → bool) (sha256 : string → string).
Context (config : AuthConfig) (verify : string → result (list (string * json))).
Context (leaseDuration : Z) (artifacts_ : option Manager).

Local Abbreviation service := (rpc_service uuid_Parse sha256 config verify leaseDuration artifacts_).

Context (R : Env → Sess → Sess → Prop) `{!Lenient R} (quiet : Net → Prop) (B : string → Prop).
Context (Hothers : ∀ env net n s, quiet net → R env s (with_db (net_others net n) s)).

Lemma service_respected :
  (∀ id w, B id → respects R (LeaseTask id w leaseDuration)) →
  (∀ id w, B id → respects R (StartTask id w)) →
  (∀ id w, B id → respects R (HeartbeatTask id w leaseDuration)) → Respected R quiet B service.
Proof.
  intros HL HS HH. split; [apply _|done|..]; intros; simpl;
    unfold Lease, Start, Heartbeat, CreateArtifactUpload, CompleteArtifactUpload, GetArtifactDownload; respect.
Qed.

Lemma service_end_respected :
  (∀ id w o u l, B id → respects R (CompleteTask id w o u l)) →
  (∀ id w f, B id → respects R (FailTask id w f)) → EndRespected R B service.
Proof. intros HC HF. split; intros; simpl; unfold rpc_Complete, Fail; respect. Qed.
End Calls.

(** * What every call respects *)

(** Nobody else changes the database. *)
Definition alone (net : Net) : Prop := ∀ n db, net_others net n db = db.

Lemma alone_others net n s : alone net → with_db (net_others net n) s = s.
Proof. intros Hn. destruct s. unfold with_db. simpl. by rewrite Hn. Qed.

Lemma alone_honest net : alone net → honest net.
Proof. intros Hn n db. by rewrite Hn. Qed.

Record soundly (env : Env) (s s' : Sess) : Prop := {
  so_numbered : numbered env s s';
  so_accrues : accrues (s_db s) (s_db s');
  so_settles : settles (s_db s) (s_db s')
}.

#[export] Instance soundly_preorder env : PreOrder (soundly env).
Proof. split; [by split|]. intros x y z [] []. split; by etransitivity. Qed.

(** When the database does not fail. *)
Definition sound (env : Env) (s s' : Sess) : Prop := calm env → soundly env s s'.

#[export] Instance sound_preorder env : PreOrder (sound env).
Proof. split; [by intros s _|]. intros x y z Hxy Hyz Hc. transitivity y; auto. Qed.

(** A failure adds no task. *)
Definition no_new_tasks (db db' : Db) : Prop := dom (task_runs db') ⊆ dom (task_runs db).

#[local] Instance no_new_tasks_preorder : PreOrder no_new_tasks.
Proof. unfold no_new_tasks. split; [intros db; reflexivity|]. intros x y z ? ?. by etransitivity. Qed.

Lemma no_new_tasks_core {A} (f : Stmt A) : stmt_preserves core f → stmt_preserves no_new_tasks f.
Proof. intros Hf env n db a db' [_ He _ _]%Hf. unfold no_new_tasks. by rewrite He. Qed.

Lemma no_new_tasks_update_tasks P f : stmt_preserves no_new_tasks (update_tasks P f).
Proof.
  intros env n db a db' Hu k. rewrite !elem_of_dom, (lookup_update_tasks _ _ _ _ _ _ _ k Hu). apply fmap_is_Some.
Qed.

Lemma no_new_tasks_update_run id g f : stmt_preserves no_new_tasks (update_run id g f).
Proof. intros env n db a db' [= _ <-]. unfold no_new_tasks. simpl. reflexivity. Qed.

Lemma no_new_tasks_FailTask id w f : preserves no_new_tasks (FailTask id w f).
Proof.
  unfold FailTask, cancel_not_started, available_at, nowPlus, update_task. cbv zeta. preserve.
  all: first [apply no_new_tasks_update_tasks | apply no_new_tasks_update_run
             | apply no_new_tasks_core; solve [eauto with preserve]].
Qed.

Lemma settles_FailTask id w f env s r s' :
  calm env → FailTask id w f env s = (r, s') → settles (s_db s) (s_db s').
Proof.
  intros Hc H. pose proof (no_new_tasks_FailTask _ _ _ _ _ _ _ H) as Hnew.
  destruct r as [tr|e]; [|by rewrite (in_tx_error _ _ _ _ _ Hc H)].
  apply FailTask_change in H as (t & r & m & Ht & Hst & _ & _ & Ht' & Hothers & _).
  assert (closed t = false) as Hopen by (unfold closed; by destruct Hst as [-> | ->]).
  intros k t' Hk. assert (k ∈ dom (task_runs (s_db s))) as [c Hc']%elem_of_dom by (by eapply Hnew, elem_of_dom_2).
  exists c. split; [done|]. destruct (decide (k = id)) as [->|Hne].
  - rewrite Ht' in Hk. simplify_eq. simpl. by rewrite Hopen.
  - rewrite (Hothers k c Hne Hc') in Hk. injection Hk as <-. by destruct (_ && _).
Qed.

Section Service.
Context (uuid_Parse : string → bool) (sha256 : string → string).
Context (config : AuthConfig) (verify : string → result (list (string * json))).
Context (leaseDuration : Z) (artifacts_ : option Manager).

Local Abbreviation service := (rpc_service uuid_Parse sha256 config verify leaseDuration artifacts_).

Lemma aside_soundly env s s' : aside env s s' → soundly env s s'.
Proof.
  intros [Hle [[_ _ _ Ht _ _] He Hsc]]. split; [by apply numbered_same|by apply accrues_same|by apply settles_same].
Qed.

Lemma sound_op {A} (m : M A) : numbers m → preserves accrues m → preserves settles m → respects sound m.
Proof. intros Hn Ha Hset env s r s' H Hc. split; eauto. Qed.

#[export] Instance sound_lenient : Lenient sound.
Proof. split; [apply _|]. intros env s s' H _. by apply aside_soundly. Qed.

#[export] Instance sound_respected : Respected sound alone (λ _, True) service.
Proof.
  apply service_respected; [apply _|..].
  - intros env net n s Hn. by rewrite alone_others.
  - intros id w _. apply sound_op; [apply numbers_LeaseTask|apply accrues_LeaseTask|apply settles_LeaseTask].
  - intros id w _. apply sound_op; [apply numbers_StartTask|apply accrues_StartTask|apply settles_StartTask].
  - intros id w _. apply sound_op; [apply numbers_HeartbeatTask|apply accrues_HeartbeatTask|apply settles_HeartbeatTask].
Qed.

#[export] Instance sound_end_respected : EndRespected sound (λ _, True) service.
Proof.
  apply service_end_respected; [apply _|..].
  - intros id w o u l _.
    apply sound_op; [apply numbers_CompleteTask|apply accrues_CompleteTask|apply settles_CompleteTask].
  - intros id w f _ env s r s' H Hc.
    split; [by eapply numbers_FailTask|by eapply accrues_FailTask|by eapply settles_FailTask].
Qed.

(** * What an execution leaves alone *)

(** Until it ends, the attempt of a task changes the row of that task only. *)
Record keeps (id : uuid) (env : Env) (s s' : Sess) : Prop := {
  ke_tick : (s_tick s ≤ s_tick s')%nat;
  ke_runs : workflow_runs (s_db s') = workflow_runs (s_db s);
  ke_tasks : ∀ k, k ≠ id → task_runs (s_db s') !! k = task_runs (s_db s) !! k;
  ke_settles : settles (s_db s) (s_db s')
}.

#[export] Instance keeps_preorder id env : PreOrder (keeps id env).
Proof.
  split; [by split|]. intros x y z [? ? Hxy ?] [? ? Hyz ?]. split; [lia|congruence| |by etransitivity].
  intros k Hk. by rewrite Hyz, Hxy.
Qed.

#[export] Instance keeps_lenient id : Lenient (keeps id).
Proof.
  split; [apply _|]. intros env s s' [Hle [[_ _ Hr Ht _ _] _ _]]. split; [done..| |by apply settles_same]. intros k _. by rewrite Ht.
Qed.

Definition keeps_rows (id : uuid) (db db' : Db) : Prop :=
  workflow_runs db' = workflow_runs db ∧ ∀ k, k ≠ id → task_runs db' !! k = task_runs db !! k.

#[local] Instance keeps_rows_preorder id : PreOrder (keeps_rows id).
Proof.
  split; [done|]. intros x y z [? Hxy] [? Hyz]. split; [congruence|]. intros k Hk. by rewrite Hyz, Hxy.
Qed.

Lemma keeps_update_task id g f : stmt_preserves (keeps_rows id) (update_task id g f).
Proof.
  intros env n db a db' Hu. split; [by injection Hu as _ <-|]. intros k Hk.
  rewrite (lookup_update_tasks _ _ _ _ _ _ _ k Hu). rewrite bool_decide_false by done. simpl.
  by destruct (task_runs db !! k).
Qed.

Lemma keeps_core id {A} (f : Stmt A) : stmt_preserves core f → stmt_preserves (keeps_rows id) f.
Proof. intros Hf env n db a db' [Hr Ht _ _]%Hf. split; [done|]. by rewrite Ht. Qed.

Lemma keeps_insert_attempt id now k n w sch : stmt_preserves (keeps_rows id) (insert_attempt now k n w sch).
Proof. by intros env m db a db' (_ & row & -> & _)%insert_attempt_Ok. Qed.

Ltac keep :=
  preserve; first [apply keeps_update_task | apply keeps_insert_attempt
                  | apply keeps_core; solve [eauto with preserve]].

Lemma keeps_op id {A} (m : M A) :
  numbers m → preserves (keeps_rows id) m → preserves settles m → respects (keeps id) m.
Proof.
  intros Hn Hk Hs env s r s' H. destruct (Hk _ _ _ _ H). split; [by apply Hn in H as [? _]|done..|by eapply Hs].
Qed.

Lemma keeps_LeaseTask id w l : respects (keeps id) (LeaseTask id w l).
Proof. apply keeps_op; [apply numbers_LeaseTask| |apply settles_LeaseTask]. unfold LeaseTask, nowPlus. keep. Qed.

Lemma keeps_StartTask id w : respects (keeps id) (StartTask id w).
Proof. apply keeps_op; [apply numbers_StartTask| |apply settles_StartTask]. unfold StartTask. keep. Qed.

Lemma keeps_HeartbeatTask id w l : respects (keeps id) (HeartbeatTask id w l).
Proof.
  apply keeps_op; [apply numbers_HeartbeatTask| |apply settles_HeartbeatTask]. unfold HeartbeatTask, nowPlus.
  preserve. intros env n db x db' (rows & H)%heartbeat_stmt_update. by eapply keeps_update_task.
Qed.

#[export] Instance keeps_respected id : Respected (keeps id) alone (λ i, i = id) service.
Proof.
  apply service_respected; [apply _|..].
  - intros env net n s Hn. by rewrite alone_others.
  - intros i w ->. apply keeps_LeaseTask.
  - intros i w ->. apply keeps_StartTask.
  - intros i w ->. apply keeps_HeartbeatTask.
Qed.

(** * What an execution leaves alone in other runs *)

(** The run and its tasks are as they were. *)
Definition same_run (rid : uuid) (db db' : Db) : Prop :=
  workflow_runs db' !! rid = workflow_runs db !! rid ∧
  ∀ k t, t_workflow_run_id t = rid → task_runs db' !! k = Some t ↔ task_runs db !! k = Some t.

#[export] Instance same_run_preorder rid : PreOrder (same_run rid).
Proof.
  split; [done|]. intros x y z [Rxy Txy] [Ryz Tyz]. split; [congruence|].
  intros k t Ht. by rewrite Tyz, Txy.
Qed.

Definition outside (rid id : uuid) (db : Db) : Prop :=
  ∀ t, task_runs db !! id = Some t → t_workflow_run_id t ≠ rid.

Lemma same_run_outside rid id db db' : same_run rid db db' → outside rid id db → outside rid id db'.
Proof. intros [_ Ht] Ho t Hid Hr. apply (Ho t); [|done]. by apply Ht. Qed.

(** Of a task of another run, a change of its own row, and of rows of its run. *)
Lemma settles_same_run rid id db db' :
  settles db db' → outside rid id db → workflow_runs db' !! rid = workflow_runs db !! rid →
  (∀ k, k ≠ id → task_runs db' !! k = task_runs db !! k ∨
     ∃ c c', task_runs db !! k = Some c ∧ t_workflow_run_id c ≠ rid ∧
       task_runs db' !! k = Some c' ∧ t_workflow_run_id c' ≠ rid) →
  same_run rid db db'.
Proof.
  intros Hs Ho Hr Hothers. split; [done|]. intros k t Hrid. destruct (decide (k = id)) as [->|Hk].
  - split; intros Ht; [|by destruct (Ho t)]. destruct (Hs _ _ Ht) as (t0 & Ht0 & Heq & _).
    destruct (Ho t0 Ht0). congruence.
  - destruct (Hothers k Hk) as [->|(c & c' & -> & ? & -> & ?)]; [done|]. naive_solver.
Qed.

Definition elsewhere (rid id : uuid) (env : Env) (s s' : Sess) : Prop :=
  calm env → outside rid id (s_db s) → same_run rid (s_db s) (s_db s').

#[export] Instance elsewhere_preorder rid id env : PreOrder (elsewhere rid id env).
Proof.
  split; [by intros s|]. intros x y z Hxy Hyz Hc Ho. pose proof (Hxy Hc Ho) as Hs.
  etransitivity; [exact Hs|]. apply Hyz; [done|]. by eapply same_run_outside.
Qed.

#[export] Instance elsewhere_lenient rid id : Lenient (elsewhere rid id).
Proof. split; [apply _|]. intros env s s' [_ [[_ _ Hr Ht _ _] _ _]] _ _. split; [by rewrite Hr|]. by rewrite Ht. Qed.

Lemma elsewhere_keeps rid id {A} (m : M A) : respects (keeps id) m → respects (elsewhere rid id) m.
Proof.
  intros Hk env s r s' H _ Ho. destruct (Hk _ _ _ _ H) as [_ Hr Ht Hs].
  apply (settles_same_run _ id); [done|done|by rewrite Hr|]. intros k Hne. left. by apply Ht.
Qed.

#[export] Instance elsewhere_respected rid id : Respected (elsewhere rid id) alone (λ i, i = id) service.
Proof.
  apply service_respected; [apply _|..].
  - intros env net n s Hn. by rewrite alone_others.
  - intros i w ->. apply elsewhere_keeps, keeps_LeaseTask.
  - intros i w ->. apply elsewhere_keeps, keeps_StartTask.
  - intros i w ->. apply elsewhere_keeps, keeps_HeartbeatTask.
Qed.

Lemma elsewhere_CompleteTask rid id w o u l : respects (elsewhere rid id) (CompleteTask id w o u l).
Proof.
  intros env s r s' H Hc Ho. pose proof (settles_CompleteTask _ _ _ _ _ _ _ _ _ H) as Hset.
  destruct r as [tr|e]; [|by rewrite (in_tx_error _ _ _ _ _ Hc H)].
  apply CompleteTask_rows in H as (t & r' & Ht & _ & Hothers & _ & _ & Hruns).
  apply (settles_same_run _ id); [done|done|by apply Hruns, not_eq_sym, Ho|].
  intros k Hk. destruct (Hothers k Hk) as [?|(c & Hk1 & _ & Hrc & Hk2)]; [by left|]. right.
  pose proof (Ho t Ht). exists c. eexists. split_and!; [done|congruence|exact Hk2|simpl; congruence].
Qed.

Lemma elsewhere_FailTask rid id w f : respects (elsewhere rid id) (FailTask id w f).
Proof.
  intros env s r s' H Hc Ho. pose proof (settles_FailTask _ _ _ _ _ _ _ Hc H) as Hset.
  pose proof (no_new_tasks_FailTask _ _ _ _ _ _ _ H) as Hnew.
  destruct r as [tr|e]; [|by rewrite (in_tx_error _ _ _ _ _ Hc H)].
  apply FailTask_change in H as (t & r' & m & Ht & _ & _ & _ & _ & Hothers & Hruns). pose proof (Ho t Ht).
  apply (settles_same_run _ id); [done|done|rewrite Hruns; case_bool_decide; [by rewrite lookup_alter_ne|done]|].
  intros k Hk. destruct (task_runs (s_db s) !! k) as [c|] eqn:Hc'.
  - rewrite (Hothers k c Hk Hc'). destruct (_ && _) eqn:Hb; [|by left]. right. bool_split.
    exists c. eexists. split_and!; [done|congruence|done|simpl; congruence].
  - left. apply not_elem_of_dom. intros Hin%Hnew. by apply elem_of_dom in Hin as [? ?]; congruence.
Qed.

#[export] Instance elsewhere_end_respected rid id : EndRespected (elsewhere rid id) (λ i, i = id) service.
Proof.
  apply service_end_respected; [apply _|..].
  - intros i w o u l ->. apply elsewhere_CompleteTask.
  - intros i w f ->. apply elsewhere_FailTask.
Qed.

(** * An execution without error *)

Context (format_rfc3339 : time → string) (unicode_ToUpper : string → string).
Context (json_Unmarshal : string → GoError + list (string * json)) (c : Client).

(** A handler that computes an output only waits. *)
Lemma handle_waits R quiet B `{!Respected R quiet B service} id h input env net p output p' :
  quiet net → beats B p → handle (H := service) format_rfc3339 unicode_ToUpper c id h input env net p = (Ok output, p') →
  R env (pr_sess p) (pr_sess p') ∧ calmer p p'.
Proof.
  intros Hn Hb. unfold handle, fail_with. repeat (case_bool_decide; [try (intros [_ <-]%W_ret_Ok; split; [reflexivity|by right])|]).
  - cbv zeta. intros (u & p1 & Hs & [_ <-]%W_ret_Ok)%W_bind_Ok. exact (drives_sleep R quiet B _ _ _ _ _ _ _ Hn Hb Hs).
  - by intros (? & p1 & _ & Hf)%W_bind_Ok.
  - by intros (? & p1 & _ & Hf)%W_bind_Ok.
Qed.

Lemma aside_authorizeTask md id : respects aside (rpc_authorizeTask uuid_Parse sha256 config verify md id).
Proof. respect. Qed.

Lemma aside_principal md id w : respects aside (principalForActiveTask uuid_Parse sha256 config verify md id w).
Proof. respect. Qed.

Lemma aside_check tenant uri kind id msg : respects aside (check_artifact tenant uri kind id msg).
Proof. respect. Qed.

Lemma rpc_Complete_Ok md id w o u l env s v s' :
  rpc_Complete uuid_Parse sha256 config verify artifacts_ md id w o u l env s = (Ok (Reply v), s') →
  ∃ s1 tr, aside env s s1 ∧ CompleteTask id w (Some (default empty_object o)) u [l] env s1 = (Ok tr, s').
Proof.
  intros (p & s1 & Hp & H)%after_Ok. destruct (_ && _); [done|].
  apply after_Ok in H as (? & s2 & H2 & H). apply after_Ok in H as (? & s3 & H3 & H).
  apply stored_call_Ok in H as (tr & s4 & Hc & H). apply ret_Ok in H as [_ <-].
  exists s3, tr. split; [|done]. 
  etransitivity; [by eapply aside_principal|]. etransitivity; by eapply aside_check.
Qed.

Local Abbreviation run_execute := (execute (H := service) sha256 format_rfc3339 unicode_ToUpper json_Unmarshal c).

Lemma client_Complete_completes id output env net p v p' :
  alone net → beats (λ i, i = id) p →
  client_Complete (H := service) sha256 format_rfc3339 c id output env net p = (Ok v, p') →
  ∃ s1 o u l tr, keeps id env (pr_sess p) s1 ∧ CompleteTask id (cl_workerID c) o u l env s1 = (Ok tr, pr_sess p').
Proof.
  intros Hn Hb H%ready_Ok. cbv zeta in H.
  apply W_bind_Ok in H as (uri & p1 & Hu & H). apply W_bind_Ok in H as (log & p2 & Hlog & H).
  apply W_bind_Ok in H as (r & p3 & Hc & H). apply W_ret_Ok in H as [_ <-].
  assert (keeps id env (pr_sess p) (pr_sess p1) ∧ calmer p p1) as [K1 C1].
  { case_bool_decide; [|apply W_ret_Ok in Hu as [_ <-]; split; [reflexivity|by right]].
    apply wrapped_Ok in Hu. by eapply (drives_UploadArtifact (keeps id) alone (λ i, i = id)) in Hu. }
  pose proof (calmer_beats _ _ _ C1 Hb) as Hb1. apply wrapped_Ok in Hlog.
  eapply (drives_UploadArtifact (keeps id) alone (λ i, i = id)) in Hlog as [K2 C2]; [|done..].
  pose proof (calmer_beats _ _ _ C2 Hb1) as Hb2.
  apply W_bind_Ok in Hc as ([] & p4 & Hw & Hc). unfold checked in Hc. destruct (ctx_err _ p4); [done|].
  apply (drives_wait (keeps id) alone (λ i, i = id)) in Hw as [K3 _]; [|done..].
  apply transmit_Ok, rpc_Complete_Ok in Hc as (s1 & tr & Ha & Hc).
  exists s1. do 4 eexists. split; [|exact Hc].
  do 2 (etransitivity; [done|]). etransitivity; [exact K3|]. by apply lenient_aside.
Qed.

(** An execution that returns no error ends with a completion; before it, it has
    changed the row of its task only. *)
Lemma execute_completes id env net p p' :
  alone net → pr_beating p = None → run_execute id env net p = (Ok tt, p') →
  ∃ s1 o u l tr, keeps id env (pr_sess p) s1 ∧ CompleteTask id (cl_workerID c) o u l env s1 = (Ok tr, pr_sess p').
Proof.
  intros Hn Hb (task & p1 & Hl & H)%W_bind_Ok. apply W_bind_Ok in H as (started & p2 & Hs & H).
  assert (beats (λ i, i = id) p) as Hb0 by (intros i; by rewrite Hb).
  apply (drives_client_Lease (keeps id) alone (λ i, i = id)) in Hl as [K1 C1]; [|done..].
  pose proof (calmer_beats _ _ _ C1 Hb0) as Hb1.
  apply (drives_client_Start (keeps id) alone (λ i, i = id)) in Hs as [K2 C2]; [|done..].
  unfold with_task in H. cbv zeta in H. destruct (match unmarshal_input _ _ with _ => _ end _ _ _) as [x p3] eqn:Hx in H.
  injection H as -> <-. destruct (unmarshal_input _ _) as [err|input]; [by apply W_bind_Ok in Hx as (? & ? & _ & Hx)|].
  apply W_bind_Ok in Hx as (output & p4 & Ho & Hx). apply W_bind_Ok in Hx as (v & p5 & Hc & Hx).
  apply W_ret_Ok in Hx as [_ <-].
  set (p2' := _ : Proc) in Ho. assert (beats (λ i, i = id) p2') as Hb2 by (intros i [= <-]; done).
  destruct (handle_waits (keeps id) alone (λ i, i = id) _ _ _ _ _ _ _ _ Hn Hb2 Ho) as [K3 C3].
  destruct (client_Complete_completes _ _ _ _ _ _ _ Hn (calmer_beats _ _ _ C3 Hb2) Hc) as (s1 & o & u & l & tr & K4 & Hc').
  exists s1, o, u, l, tr. split; [|exact Hc'].
  etransitivity; [exact K1|]. etransitivity; [exact K2|]. etransitivity; [exact K3|exact K4].
Qed.

(** A task that is not waiting for a worker is not executed. *)
Lemma Lease_undispatched md id w env s r s' :
  calm env → (∀ t, task_runs (s_db s) !! id = Some t → t_status t ≠ DISPATCHING) →
  Lease uuid_Parse sha256 config verify leaseDuration md id w env s = (r, s') →
  aside env s s' ∧ ∀ v, r ≠ Ok (Reply v).
Proof.
  intros Hc Hno. unfold Lease, after. unfold mbind at 1, M_bind at 1.
  destruct (rpc_authorizeTask _ _ _ _ md id env s) as [x s1] eqn:Ha.
  assert (aside env s s1) as A1 by (revert Ha; apply aside_authorizeTask).
  destruct x as [[u|cd text]|e]; [|by intros [= <- <-]..].
  unfold stored_call, try, mbind, M_bind. destruct (LeaseTask id w leaseDuration env s1) as [y s2] eqn:Hl.
  destruct y as [tr|e].
  - exfalso. apply LeaseTask_change in Hl as (t & r' & e & row & ev & o & Ht & Hst & _).
    apply (Hno t); [|done]. destruct A1 as [_ [[_ _ _ Heq _ _] _ _]]. by rewrite Heq in Ht.
  - intros [= <- <-]. split; [|intros v Hv; unfold rpcError in Hv; by repeat case_match].
    etransitivity; [exact A1|]. split; [by apply numbers_LeaseTask in Hl as [? _]|].
    by rewrite (in_tx_error _ _ _ _ _ Hc Hl).
Qed.

Lemma heartbeats_none ticks env net p :
  pr_beating p = None → heartbeats (H := service) c ticks env net p = p.
Proof. intros Hb. destruct ticks; cbn [heartbeats]; [done|]. by rewrite Hb. Qed.

Lemma execute_undispatched id env net p r p' :
  calm env → alone net → pr_beating p = None →
  (∀ t, task_runs (proc_db p) !! id = Some t → t_status t ≠ DISPATCHING) →
  run_execute id env net p = (r, p') → aside env (pr_sess p) (pr_sess p') ∧ pr_beating p' = None.
Proof.
  intros Hc Hn Hb Hno. unfold execute, client_Lease, ready. unfold mbind at 1, W_bind at 1.
  destruct (cl_initErr c); [by intros [= _ <-]|].
  destruct ((_ : W Task) env net p) as [x p1] eqn:Hl.
  assert (aside env (pr_sess p) (pr_sess p1) ∧ pr_beating p1 = None ∧ ∃ e, x = Err e) as (A1 & B1 & e & ->).
  { revert Hl. unfold invoke, mbind, W_bind, wait. cbv beta iota zeta.
    rewrite (heartbeats_none _ _ _ (occur net p) Hb).
    assert (pr_sess (occur net p) = pr_sess p) as Es by (by apply alone_others).
    unfold checked. destruct (ctx_err _ _); [intros [= <- <-]; rewrite Es; split_and!; [reflexivity|exact Hb|eauto]|].
    unfold transmit. rewrite Es. simpl ws_Lease.
    destruct (Lease _ _ _ _ _ _ id _ env (pr_sess p)) as [y s1] eqn:Hlease.
    destruct (Lease_undispatched _ _ _ _ _ _ _ Hc Hno Hlease) as [A1 Hy].
    destruct (net_rpc net _); [|intros [= <- <-]; rewrite ?Es; split_and!; [first [done|reflexivity]|exact Hb|eauto]..].
    destruct y as [[v|]|]; [by destruct (Hy v)|intros [= <- <-]; split_and!; [done|exact Hb|eauto]..]. }
  by intros [= _ <-].
Qed.
End Service.
