(* ===== verification/Completion.v ===== *)
(** Runs complete.

    Scheduler, outbox, topic and worker put together: a round is a cycle of the
    scheduler, the publication of the events it left, and the consumer loop of
    the Go worker on the messages that are new on the topic, over the gRPC
    service.  Every round that begins with an unfinished run finishes a task of
    it, as long as the worker's executions of the run's tasks return no error; so
    the run is SUCCEEDED after as many rounds as it has unfinished tasks. *)
From S2P Require Import Prelude Go Model State Json Schema Sql StoreWorker StoreWorkflow Scheduler Outbox Auth Stream Artifacts RateLimit Api Http Rpc Client WorkerGo Preserve Frame Lifecycle Refinement Creation Aloof System History WorkerSpec RunSpec SchedulerSpec OutboxSpec Numbering Requests Progress RpcSpec WorkerGoSpec Deployment Settling Calls.

(** * The messages of a round *)

Section Worker.
Context (uuid_Parse : string → bool) (sha256 : string → string).
Context (config : AuthConfig) (verify : string → result (list (string * json))).
Context (leaseDuration : Z) (artifacts_ : option Manager).
Context (format_rfc3339 : time → string) (unicode_ToUpper : string → string).
Context (json_Unmarshal : string → GoError + list (string * json)) (c : Client).

Local Abbreviation service := (rpc_service uuid_Parse sha256 config verify leaseDuration artifacts_).
Local Abbreviation run_execute := (execute (H := service) sha256 format_rfc3339 unicode_ToUpper json_Unmarshal c).
Local Abbreviation run_message :=
  (handle_message (H := service) sha256 format_rfc3339 unicode_ToUpper json_Unmarshal c).
Local Abbreviation run_wait := (wait (H := service) c).
Local Abbreviation run_consume := (consume (H := service) sha256 format_rfc3339 unicode_ToUpper json_Unmarshal c).

Context (env : Env) (net : Net).

(** The task a message announces, for this worker. *)
Definition announced (m : Message) : option uuid :=
  if bool_decide (m_event_type m = "task.dispatch") then
    d ← unmarshal_dispatch (m_value m); if supported (d_Handler d) then Some (d_TaskRunID d) else None
  else None.

Definition no_error {A} (r : result A) : bool := match r with Ok _ => true | Err _ => false end.

(** The task of the run that the message announces, if it waits for a worker, is
    executed without error. *)
Definition executed (rid : uuid) (m : Message) (p : Proc) : bool :=
  match announced m with
  | Some id =>
      match task_runs (proc_db p) !! id with
      | Some t =>
          if bool_decide (t_workflow_run_id t = rid ∧ t_status t = DISPATCHING)
          then no_error (run_execute id env net p).1 else true
      | None => true
      end
  | None => true
  end.

(** So are the tasks of all messages, when [consume] comes to them. *)
Fixpoint all_executed (rid : uuid) (ms : list Message) (p : Proc) : bool :=
  match ms with
  | [] => true
  | m :: ms =>
      let p1 := (run_wait env net p).2 in
      executed rid m p1 && all_executed rid ms (run_message m env net p1).2
  end.

Context (Hcalm : calm env) (Huuid : Inj (=) (=) (env_uuid env)).
Context (Halone : alone net) (Hfetch : ∀ n, net_fetch net n = None).

(** An execution without error on the rows of the run. *)
Lemma execute_run id p p' t :
  pr_beating p = None → task_runs (proc_db p) !! id = Some t → run_execute id env net p = (Ok tt, p') →
  ∃ m r', (m ≤ s_tick (pr_sess p'))%nat ∧
    let db := proc_db p in let db' := proc_db p' in let rid := t_workflow_run_id t in
    (∃ t', task_runs db' !! id = Some t' ∧ t_status t' = SUCCEEDED ∧ t_workflow_run_id t' = rid) ∧
    (∀ k, k ≠ id → task_runs db' !! k = task_runs db !! k ∨
       ∃ c, task_runs db !! k = Some c ∧ t_status c = BLOCKED ∧ t_workflow_run_id c = rid ∧
         task_runs db' !! k = Some (ready_row (env_now env m) c)) ∧
    workflow_runs db' !! rid = Some r' ∧ (r_status r' = RUN_RUNNING ∨ r_status r' = RUN_SUCCEEDED).
Proof.
  intros Hb Ht H. destruct (execute_completes _ _ _ _ _ _ _ _ _ _ _ _ _ _ _ Halone Hb H)
    as (s1 & o & u & l & tr & [Hle1 Hr1 Hk1 Hs1] & Hc).
  pose proof (numbers_CompleteTask _ _ _ _ _ _ _ _ _ Hc) as [Hle2 _].
  pose proof (CompleteTask_rows _ _ _ _ _ _ _ _ _ Hc) as (t1 & r' & Ht1 & Hdone & Hothers & Hr' & Hst' & _).
  destruct (Hs1 _ _ Ht1) as (t0 & Ht0 & Hrid & _). unfold proc_db in Ht. rewrite Ht in Ht0. injection Ht0 as <-.
  rewrite Hrid. exists (s_tick s1), r'. cbv zeta. split_and!; [done|done| |done|done].
  intros k Hne. specialize (Hothers k Hne). by rewrite Hk1 in Hothers.
Qed.

Context (Hmono : ∀ n m, (n ≤ m)%nat → env_now env n ≤ env_now env m).

Record healthy (s : Sess) : Prop := {
  he_reachable : system_reachable (s_db s);
  he_fresh : fresh_from env (s_tick s) (s_db s)
}.

Lemma healthy_later s s' : numbered env s s' → rtc step (s_db s) (s_db s') → healthy s → healthy s'.
Proof.
  intros Hn Hs [(db0 & H0 & Hr) Hf]. split; [|by eapply numbered_fresh].
  exists db0. split; [done|]. by etransitivity.
Qed.

Lemma healthy_after {A} (m : M A) s r s' :
  preserves (rtc step) m → numbers m → m env s = (r, s') → healthy s → healthy s'.
Proof. intros Hm Hn Hr. apply healthy_later; [by eapply Hn|by eapply Hm]. Qed.

(** The run goes on: its dispatched tasks are those with a message to come, and
    what is ready is due. *)
Record advancing (rid : uuid) (ms : list Message) (s : Sess) : Prop := {
  ad_run : ∃ r, workflow_runs (s_db s) !! rid = Some r ∧ (r_status r = RUN_RUNNING ∨ r_status r = RUN_SUCCEEDED);
  ad_status : ∀ k t, task_runs (s_db s) !! k = Some t → t_workflow_run_id t = rid →
    t_status t ∈ [BLOCKED; READY; DISPATCHING; SUCCEEDED];
  ad_due : ∀ k t, task_runs (s_db s) !! k = Some t → t_workflow_run_id t = rid → t_status t = READY →
    t_available_at t ≤ env_now env (s_tick s);
  ad_message : ∀ k t, task_runs (s_db s) !! k = Some t → t_workflow_run_id t = rid →
    t_status t = DISPATCHING → ∃ m, m ∈ ms ∧ announced m = Some k
}.

(** No task leaves the run, none joins it, and those that were dispatched or
    over are so. *)
Definition under_way (t : TaskRow) : Prop := t_status t = DISPATCHING ∨ t_status t = SUCCEEDED.

Record moves (rid : uuid) (db db' : Db) : Prop := {
  mv_kept : ∀ k t, task_runs db !! k = Some t → t_workflow_run_id t = rid →
    ∃ t', task_runs db' !! k = Some t' ∧ t_workflow_run_id t' = rid ∧ (under_way t → under_way t');
  mv_back : ∀ k t', task_runs db' !! k = Some t' → t_workflow_run_id t' = rid →
    ∃ t, task_runs db !! k = Some t ∧ t_workflow_run_id t = rid
}.

#[local] Instance moves_preorder rid : PreOrder (moves rid).
Proof.
  split; [split; eauto|]. intros x y z [Kxy Bxy] [Kyz Byz]. split.
  - intros k t Ht Hr. destruct (Kxy k t Ht Hr) as (t1 & H1 & Hr1 & P1).
    destruct (Kyz k t1 H1 Hr1) as (t2 & H2 & Hr2 & P2). exists t2. auto.
  - intros k t Ht Hr. destruct (Byz k t Ht Hr) as (t1 & H1 & Hr1). eauto.
Qed.

Lemma same_run_moves rid db db' : same_run rid db db' → moves rid db db'.
Proof. intros [_ Ht]. split; intros k t Hk Hr; exists t; rewrite ?Ht in *; auto. Qed.

Lemma same_run_advancing rid ms s s' :
  same_run rid (s_db s) (s_db s') → (s_tick s ≤ s_tick s')%nat → advancing rid ms s → advancing rid ms s'.
Proof.
  intros [Hr Ht] Hle [A B C D]. split.
  - by rewrite Hr.
  - intros k t Hk Hrid. apply Ht in Hk; eauto.
  - intros k t Hk Hrid Hst. apply Ht in Hk; [|done]. etransitivity; [by eapply C|by apply Hmono].
  - intros k t Hk Hrid Hst. apply Ht in Hk; eauto.
Qed.

(** A message that announces no dispatched task of the run is no loss. *)
Lemma advancing_skip rid m ms s :
  (∀ k t, announced m = Some k → task_runs (s_db s) !! k = Some t → t_workflow_run_id t = rid → t_status t ≠ DISPATCHING) →
  advancing rid (m :: ms) s → advancing rid ms s.
Proof.
  intros Hm [A B C D]. split; try done. intros k t Hk Hr Hst.
  destruct (D k t Hk Hr Hst) as (x & [->|Hx]%elem_of_cons & Ha); [|eauto]. by destruct (Hm k t Ha Hk Hr).
Qed.

(** A dispatched task belongs to a run that is not over yet. *)
Lemma dispatched_running rid ms s k t :
  healthy s → advancing rid ms s → task_runs (s_db s) !! k = Some t → t_workflow_run_id t = rid →
  t_status t = DISPATCHING → ∃ r, workflow_runs (s_db s) !! rid = Some r ∧ r_status r = RUN_RUNNING.
Proof.
  intros [Hreach _] A Ht Hr Hst. destruct (ad_run _ _ _ A) as (r & Hrun & [?|Hs]); [eauto|].
  destruct (run_status_tasks _ _ _ Hreach Hrun) as ((Hall & _) & _).
  by rewrite (Hall Hs k t Ht Hr) in Hst.
Qed.

(** ** A message *)

(** Waiting and committing offsets leave the database alone. *)
Lemma wait_idle p : pr_beating p = None → run_wait env net p = (Ok tt, occur net p) ∧
  pr_sess (occur net p) = pr_sess p ∧ pr_beating (occur net p) = None.
Proof.
  intros Hb. unfold wait. rewrite (heartbeats_none _ _ _ _ _ _ _ _ _ _ (occur net p) Hb).
  split_and!; [done|by apply alone_others|done].
Qed.

Lemma commit_idle m p : pr_beating p = None →
  ∃ r p', CommitMessages (H := service) c m env net p = (r, p') ∧ pr_sess p' = pr_sess p ∧ pr_beating p' = None.
Proof.
  intros Hb. destruct (wait_idle p Hb) as (Hw & Hs & Hb').
  unfold CommitMessages, mbind, W_bind. rewrite Hw. unfold checked.
  destruct (ctx_err _ _); [by do 2 eexists|]. destruct (net_commit net _); by do 2 eexists.
Qed.

(** A message is an execution of the task it announces, or nothing. *)
Lemma message_cases m p r p' :
  pr_beating p = None → run_message m env net p = (r, p') →
  r = Ok tt ∧ match announced m with
    | None => pr_sess p' = pr_sess p ∧ pr_beating p' = None
    | Some id => ∃ x p1, run_execute id env net p = (x, p1) ∧ pr_sess p' = pr_sess p1 ∧ pr_beating p' = None
    end.
Proof.
  intros Hb. unfold handle_message, announced, mbind, W_bind, wtry, option_bind.
  change (header (headers_of m) "event_type") with (m_event_type m).
  destruct (commit_idle m p Hb) as (y & q & Hq & Hsq & Hbq).
  destruct (decide (m_event_type m = "task.dispatch")) as [He|He].
  2: { rewrite (bool_decide_true (_ ≠ _)), (bool_decide_false (_ = _)) by done. rewrite Hq. by intros [= <- <-]. }
  rewrite (bool_decide_false (_ ≠ _)), (bool_decide_true (_ = _)) by naive_solver.
  destruct (unmarshal_dispatch (m_value m)) as [d|]; [|rewrite Hq; by intros [= <- <-]].
  destruct (supported (d_Handler d)); cbn [negb]; cbv beta iota; [|rewrite Hq; by intros [= <- <-]].
  destruct (run_execute (d_TaskRunID d) env net p) as [x p1] eqn:Hx.
  assert (pr_beating p1 = None) as Hb1.
  { destruct (drives_execute (WS := service) sound alone (λ _, True) sha256 format_rfc3339 unicode_ToUpper json_Unmarshal c
      (d_TaskRunID d) I env net p x p1 Halone) as [_ [?|?]]; [done|done|done|congruence]. }
  destruct (commit_idle m p1 Hb1) as (z & q1 & Hq1 & Hsq1 & Hbq1). rewrite Hq1. intros [= <- <-].
  split; [done|]. by exists x, p1.
Qed.

Lemma message_sound m p r p' :
  run_message m env net p = (r, p') → pr_beating p = None →
  soundly env (pr_sess p) (pr_sess p') ∧ rtc step (proc_db p) (proc_db p').
Proof.
  intros H Hb. split.
  - destruct (drives_handle_message (WS := service) sound alone (λ _, True) sha256 format_rfc3339 unicode_ToUpper json_Unmarshal c
      m (λ _ _, I) env net p r p' Halone) as [Hs _]; [by intros ?|done|by apply Hs].
  - destruct (drives_handle_message (WS := service) stepping honest (λ _, True) sha256 format_rfc3339 unicode_ToUpper json_Unmarshal c
      m (λ _ _, I) env net p r p' (alone_honest _ Halone)) as [Hs _]; [by intros ?|done|exact Hs].
Qed.

(** A message whose task was executed without error. *)
Lemma executed_advancing rid m ms id p p1 t :
  announced m = Some id → pr_beating p = None → advancing rid (m :: ms) (pr_sess p) →
  (s_tick (pr_sess p) ≤ s_tick (pr_sess p1))%nat →
  task_runs (proc_db p) !! id = Some t → t_workflow_run_id t = rid → t_status t = DISPATCHING →
  run_execute id env net p = (Ok tt, p1) →
  advancing rid ms (pr_sess p1) ∧ moves rid (proc_db p) (proc_db p1).
Proof.
  intros Hm Hb [_ B C D] Hle Ht Hr Hst Hx. subst rid.
  destruct (execute_run id p p1 t Hb Ht Hx)
    as (m0 & r' & Hm0 & (t' & Ht' & Hst' & Hrid') & Hothers & Hr' & Hrst'). unfold proc_db in *.
  split; split.
  - eauto.
  - intros k x Hk Hrid. destruct (decide (k = id)) as [->|Hne]; [simplify_eq; rewrite Hst'; set_solver|].
    destruct (Hothers k Hne) as [Heq|(b & Hb' & _ & _ & Heq)]; rewrite Heq in Hk; [eauto|].
    injection Hk as <-. simpl. set_solver.
  - intros k x Hk Hrid Hready. destruct (decide (k = id)) as [->|Hne]; [simplify_eq; congruence|].
    destruct (Hothers k Hne) as [Heq|(b & Hb' & _ & _ & Heq)]; rewrite Heq in Hk.
    + etransitivity; [by eapply C|by apply Hmono].
    + injection Hk as <-. simpl. by apply Hmono.
  - intros k x Hk Hrid Hdisp. destruct (decide (k = id)) as [->|Hne]; [simplify_eq; congruence|].
    destruct (Hothers k Hne) as [Heq|(b & Hb' & _ & _ & Heq)]; rewrite Heq in Hk; [|simplify_eq; congruence].
    destruct (D k x Hk Hrid Hdisp) as (y & [->|Hx']%elem_of_cons & Ha); [|eauto]. congruence.
  - intros k x Hk Hrid. destruct (decide (k = id)) as [->|Hne].
    { exists t'. split_and!; [done..|]. intros _. by right. }
    destruct (Hothers k Hne) as [Heq|(b & Hb' & Hst0 & _ & Heq)]; rewrite Heq; [eauto|]. simplify_eq.
    eexists. split_and!; [done..|]. intros [|]; congruence.
  - intros k x Hk Hrid. destruct (decide (k = id)) as [->|Hne]; [eauto|].
    destruct (Hothers k Hne) as [Heq|(b & Hb' & _ & Hrb & _)]; [rewrite Heq in Hk|]; eauto.
Qed.

(** Executing a task of another run, or one that is not waiting. *)
Lemma execute_other rid id p x p1 :
  pr_beating p = None →
  (∀ t, task_runs (proc_db p) !! id = Some t → t_workflow_run_id t ≠ rid ∨ t_status t ≠ DISPATCHING) →
  run_execute id env net p = (x, p1) → same_run rid (proc_db p) (proc_db p1).
Proof.
  intros Hb Hid Hx. assert (outside rid id (proc_db p) ∨
    ∀ t, task_runs (proc_db p) !! id = Some t → t_status t ≠ DISPATCHING) as [Ho|Hno].
  { destruct (task_runs (proc_db p) !! id) as [t|] eqn:Ht; [|left; by intros t; rewrite Ht].
    destruct (Hid t eq_refl); [left; intros t0; rewrite Ht|right]; naive_solver. }
  - destruct (drives_execute (WS := service) (elsewhere rid id) alone (λ i, i = id) sha256 format_rfc3339 unicode_ToUpper
      json_Unmarshal c id eq_refl env net p x p1 Halone) as [Hs _]; [intros i; by rewrite Hb|done|by apply Hs].
  - destruct (execute_undispatched _ _ _ _ _ _ _ _ _ _ _ _ _ _ _ _ Hcalm Halone Hb Hno Hx) as [Ha _].
    destruct Ha as [_ [[_ _ Hr Ht _ _] _ _]]. unfold proc_db. split; [by rewrite Hr|by rewrite Ht].
Qed.

Lemma message_run rid m ms p r p' :
  healthy (pr_sess p) → pr_beating p = None → advancing rid (m :: ms) (pr_sess p) → executed rid m p = true →
  run_message m env net p = (r, p') →
  r = Ok tt ∧ pr_beating p' = None ∧ soundly env (pr_sess p) (pr_sess p') ∧ healthy (pr_sess p') ∧
  advancing rid ms (pr_sess p') ∧ moves rid (proc_db p) (proc_db p').
Proof.
  intros Hh Hb A Hex Hrun. destruct (message_sound _ _ _ _ Hrun Hb) as [Hs Hsteps].
  destruct (message_cases _ _ _ _ Hb Hrun) as [-> Hcase].
  pose proof (healthy_later _ _ (so_numbered _ _ _ Hs) Hsteps Hh) as Hh'.
  destruct (so_numbered _ _ _ Hs) as [Hle _]. unfold executed in Hex.
  destruct (announced m) as [id|] eqn:Hm.
  2: { destruct Hcase as [Es Eb]. unfold proc_db. rewrite Es in *. split_and!; [done..| |reflexivity].
       eapply advancing_skip; [|exact A]. congruence. }
  destruct Hcase as (x & p1 & Hx & Es & Eb). unfold proc_db. rewrite Es in *.
  assert ((∃ t, task_runs (proc_db p) !! id = Some t ∧ t_workflow_run_id t = rid ∧ t_status t = DISPATCHING) ∨
    ∀ t, task_runs (proc_db p) !! id = Some t → t_workflow_run_id t ≠ rid ∨ t_status t ≠ DISPATCHING)
    as [(t & Ht & Hr & Hst)|Hno].
  { destruct (task_runs (proc_db p) !! id) as [t|]; [|by right].
    destruct (decide (t_workflow_run_id t = rid)); [|right; naive_solver].
    destruct (decide (t_status t = DISPATCHING)); [left; eauto|right; naive_solver]. }
  - rewrite Ht, bool_decide_true, Hx in Hex by done. destruct x as [[]|]; [|done].
    destruct (executed_advancing rid m ms id p p1 t) as [? ?]; done.
  - pose proof (execute_other rid id p x p1 Hb Hno Hx) as Hsame.
    split_and!; [done..| |by apply same_run_moves]. eapply same_run_advancing; [exact Hsame|done|].
    eapply advancing_skip; [|exact A]. intros k t Hk Ht Hr Hst. assert (k = id) as -> by congruence.
    by destruct (Hno t Ht).
Qed.

(** ** The consumer *)

Lemma consume_run rid ms fuel p :
  (length ms < fuel)%nat → healthy (pr_sess p) → pr_beating p = None → advancing rid ms (pr_sess p) →
  all_executed rid ms p = true →
  ∃ p', run_consume fuel ms env net p = (Ok tt, p') ∧ pr_beating p' = None ∧
    soundly env (pr_sess p) (pr_sess p') ∧ healthy (pr_sess p') ∧ advancing rid [] (pr_sess p') ∧
    moves rid (proc_db p) (proc_db p').
Proof.
  revert fuel p. induction ms as [|m ms IH]; intros fuel p Hlt Hh Hb A Hex;
    (destruct fuel as [|fuel]; [simpl in Hlt; lia|]); destruct (wait_idle p Hb) as (Hw & Es & Eb);
    cbn [consume]; unfold mbind, W_bind, look; rewrite Hw, Hfetch.
  - exists (occur net p). unfold proc_db. rewrite Es. split_and!; [done..|reflexivity|done|done|reflexivity].
  - cbn [all_executed] in Hex. rewrite Hw in Hex. simpl in Hex. apply andb_true_iff in Hex as [Hex Hall].
    destruct (run_message m env net (occur net p)) as [r p1] eqn:Hrun.
    destruct (message_run rid m ms (occur net p) r p1) as (-> & Hb1 & Hs1 & Hh1 & A1 & M1);
      [by rewrite Es|done|by rewrite Es|done|done|].
    destruct (IH fuel p1) as (p2 & H2 & Hb2 & Hs2 & Hh2 & A2 & M2); [simpl in Hlt; lia|done..|].
    exists p2. unfold proc_db in M1. rewrite Es in Hs1, M1. split_and!; [done..| |done|done|by etransitivity].
    by etransitivity.
Qed.
End Worker.
(** * Rounds *)

Section Rounds.
Context {location cron : Type}.
Context (LoadLocation : string → result location) (cron_parse : string → result cron).
Context (cron_next : cron → location → time → time) (format_rfc3339 : time → string).
Context (svc : Service).
Context (uuid_Parse : string → bool) (sha256 : string → string).
Context (config : AuthConfig) (verify : string → result (list (string * json))).
Context (leaseDuration : Z) (artifacts_ : option Manager) (unicode_ToUpper : string → string).
Context (json_Unmarshal : string → GoError + list (string * json)) (c : Client).

Local Abbreviation cycle_once := (tick LoadLocation cron_parse cron_next format_rfc3339).

(** Everything the outbox holds is published. *)
Definition drain : P unit := λ env bus w,
  (publishBatch (S (size (pending (outbox w)))) svc ;; mret tt) env bus w.

Definition schedule_and_publish : P unit := lift cycle_once ;; drain.

Context (env : Env) (bus : Bus) (net : Net).

Local Abbreviation run_consume := (consume (H := rpc_service uuid_Parse sha256 config verify leaseDuration artifacts_)
  sha256 format_rfc3339 unicode_ToUpper json_Unmarshal c).
Local Abbreviation run_all_executed := (all_executed uuid_Parse sha256 config verify leaseDuration artifacts_
  format_rfc3339 unicode_ToUpper json_Unmarshal c env net).

(** The database and the topic, the process of the worker, and the number of
    messages it has fetched. *)
Record Site := mkSite {
  si_world : World;
  si_worker : Proc;
  si_offset : nat
}.

(** The process sees the database as it is after the cycle. *)
Definition worker_at (x : Site) (w : World) : Proc := (si_worker x)<| pr_sess := w_sess w |>.

Definition fetched (x : Site) (w : World) : list Message := drop (si_offset x) (w_topic w).

Definition round (x : Site) : result unit * Site :=
  match schedule_and_publish env bus (si_world x) with
  | (Err e, w) => (Err e, mkSite w (si_worker x) (si_offset x))
  | (Ok _, w) =>
      let ms := fetched x w in
      let '(r, p) := run_consume (S (length ms)) ms env net (worker_at x w) in
      (r, mkSite (w<| w_sess := pr_sess p |>) p (si_offset x + length ms))
  end.

Fixpoint rounds (n : nat) (x : Site) : result unit * Site :=
  match n with
  | O => (Ok tt, x)
  | S n => match round x with (Ok _, x') => rounds n x' | r => r end
  end.

(** The worker's executions of tasks of the run return no error. *)
Definition round_executed (rid : uuid) (x : Site) : bool :=
  match schedule_and_publish env bus (si_world x) with
  | (Err _, _) => true
  | (Ok _, w) => run_all_executed rid (fetched x w) (worker_at x w)
  end.

Fixpoint rounds_executed (rid : uuid) (n : nat) (x : Site) : bool :=
  match n with
  | O => true
  | S n => round_executed rid x && rounds_executed rid n (round x).2
  end.

Context (Hcalm : calm env) (Huuid : Inj (=) (=) (env_uuid env)).
Context (Hmono : ∀ n m, (n ≤ m)%nat → env_now env n ≤ env_now env m).

(** No schedule is enabled. *)
Definition unscheduled (db : Db) : Prop := ∀ k sc, schedules db !! k = Some sc → s_enabled sc = false.

Lemma fireSchedules_idle s :
  unscheduled (s_db s) →
  ∃ n, (s_tick s ≤ n)%nat ∧
    fireSchedules LoadLocation cron_parse cron_next format_rfc3339 env s = (Ok tt, mkSess n false (s_db s)).
Proof.
  intros Hoff. destruct s as [n open db]. cbn [s_db s_tick] in *. exists (3 + n)%nat. split; [lia|].
  pose proof Hcalm as [Hc Hm].
  assert (select_due (env_now env n) env (S n) db = Ok ([], db)) as Hsel.
  { unfold select_due, sql_select. do 2 f_equal.
    assert (rows_where (env_rank env (S n)) (λ k s, s_enabled s && bool_decide (s_next_execution_at s ≤ env_now env n)
      && negb (env_locked env (S n) k)) (schedules db) = []) as ->; [|done].
    apply elem_of_nil_inv. intros [k sc] [Hk Hg]%elem_of_rows_where. bool_split.
    by rewrite (Hoff _ _ Hk) in *. }
  unfold fireSchedules. rewrite (bind_run _ _ _ _ [] (mkSess (3 + n) false db)); [done|].
  apply in_tx_run; [done|]. erewrite bind_run; [|unfold tx_query_open; by rewrite (tx_stmt_run _ _ _ _ _ _ (Hc (S n)) Hsel)].
  done.
Qed.

(** A run between two rounds. *)
Record resting (rid : uuid) (s : Sess) : Prop := {
  rs_run : ∃ r, workflow_runs (s_db s) !! rid = Some r ∧ (r_status r = RUN_RUNNING ∨ r_status r = RUN_SUCCEEDED);
  rs_status : ∀ k t, task_runs (s_db s) !! k = Some t → t_workflow_run_id t = rid →
    t_status t ∈ [BLOCKED; READY; RETRY_WAIT; SUCCEEDED];
  rs_due : ∀ k t, task_runs (s_db s) !! k = Some t → t_workflow_run_id t = rid →
    t_status t = READY ∨ t_status t = RETRY_WAIT → t_available_at t ≤ env_now env (s_tick s)
}.

(** The row of a task after the retries have been promoted. *)
Definition promoted (now : time) (t : TaskRow) : TaskRow :=
  if bool_decide (t_status t = RETRY_WAIT) && bool_decide (t_available_at t ≤ now)
  then t<| t_status := READY |><| t_updated_at := now |> else t.

Lemma promoted_run now t : t_workflow_run_id (promoted now t) = t_workflow_run_id t.
Proof. unfold promoted. by case_match. Qed.

Lemma promoted_kept now t : t_status t ≠ RETRY_WAIT → promoted now t = t.
Proof. intros Hs. unfold promoted. by rewrite bool_decide_false. Qed.

Lemma promoted_ready now t :
  t_status t = READY ∨ t_status t = RETRY_WAIT → t_available_at t ≤ now →
  t_status (promoted now t) = READY ∧ t_available_at (promoted now t) = t_available_at t.
Proof.
  unfold promoted. intros [Hs|Hs] Hd; rewrite Hs; [done|]. by rewrite (bool_decide_true (_ ≤ _)).
Qed.

Lemma promoted_free now t :
  t_status t ∈ [BLOCKED; READY; RETRY_WAIT; SUCCEEDED] → leased_or_running (promoted now t) = false.
Proof.
  unfold leased_or_running, promoted. rewrite !elem_of_cons, elem_of_nil.
  intros [Hs|[Hs|[Hs|[Hs|[]]]]]; case_match; simpl; by rewrite ?Hs.
Qed.

Lemma promote_retries_run s :
  ∃ s', promote_retries env s = (Ok tt, s') ∧ workflow_runs (s_db s') = workflow_runs (s_db s) ∧
    ∀ k, task_runs (s_db s') !! k = promoted (env_now env (s_tick s)) <$> task_runs (s_db s) !! k.
Proof.
  unfold promote_retries. eexists. split.
  - erewrite bind_run; cycle 1; [by apply pool_stmt_run|done].
  - split; [done|]. intros k. simpl. rewrite map_lookup_imap. by destruct (task_runs (s_db s) !! k).
Qed.

Context (Hlocks : ∀ n k, env_locked env n k = false).

Lemma tick_run rid s :
  healthy env s → unscheduled (s_db s) → (size (open_tasks (s_db s)) ≤ 100)%nat → resting rid s →
  ∃ s', cycle_once env s = (Ok tt, s') ∧ healthy env s' ∧ accrues (s_db s) (s_db s') ∧ settles (s_db s) (s_db s') ∧
    (s_tick s ≤ s_tick s')%nat ∧ workflow_runs (s_db s') !! rid = workflow_runs (s_db s) !! rid ∧
    ∀ k t, task_runs (s_db s) !! k = Some t → t_workflow_run_id t = rid →
      ∃ t', task_runs (s_db s') !! k = Some t' ∧ t_workflow_run_id t' = rid ∧
        (t' = t ∧ (t_status t = BLOCKED ∨ t_status t = SUCCEEDED) ∨
         t_status t' = DISPATCHING ∧ ∃ ev e t0, outbox_events (s_db s') !! ev = Some e ∧ dispatch_event k t0 e ∧ t_handler t0 = t_handler t).
Proof.
  intros Hh Hoff Hopen [Hrun Hstatus Hdue].
  destruct (fireSchedules_idle s Hoff) as (n0 & Hn0 & H0). set (s0 := mkSess n0 false (s_db s)) in H0.
  assert (healthy env s0) as Hh0.
  { destruct Hh as [? Hf]. split; [done|]. by eapply fresh_later; [exact Hf| |]. }
  destruct (promote_retries_run s0) as (s1 & H1 & Hr1 & Ht1).
  pose proof (healthy_after env Huuid _ _ _ _ (steps_op OpPromoteRetries) numbers_promote_retries H1 Hh0) as Hh1.
  pose proof (numbers_promote_retries _ _ _ _ H1) as [Hle1 _].
  destruct (recoverExpired_run env s1 Hcalm Huuid (he_fresh _ _ Hh1)) as (s2 & H2 & Hset2 & Hfree2).
  pose proof (healthy_after env Huuid _ _ _ _ (steps_op OpRecoverExpired) numbers_recoverExpired H2 Hh1) as Hh2.
  pose proof (numbers_recoverExpired _ _ _ _ H2) as [Hle2 _].
  pose proof (settles_promote_retries _ _ _ _ H1) as Hset1.
  assert (settles (s_db s) (s_db s2)) as Hset by (by transitivity (s_db s1)).
  destruct (dispatch_ready_run env s2) as (s3 & H3 & Ht3); [apply Hh2|done|done|apply Hh2| |].
  { etransitivity; [apply open_tasks_rows|etransitivity; [by apply settles_open|done]].
    intros k t Hd. unfold dispatchable in Hd. bool_split. unfold closed.
    match goal with Hs : t_status t = _ |- _ => by rewrite Hs end. }
  pose proof (healthy_after env Huuid _ _ _ _ (steps_op OpDispatchReady) numbers_dispatch_ready H3 Hh2) as Hh3.
  pose proof (numbers_dispatch_ready _ _ _ _ H3) as [Hle3 _].
  pose proof (accrues_promote_retries _ _ _ _ H1) as Ha1. pose proof (accrues_recoverExpired _ _ _ _ H2) as Ha2.
  pose proof (accrues_dispatch_ready _ _ _ _ H3) as Ha3. cbn [s_db s0 s_tick] in *.
  destruct (Hfree2 rid) as [Hr2 Ht2].
  { intros k t1. rewrite Ht1. intros (t & Ht & ->)%fmap_Some Hrid. rewrite promoted_run in Hrid.
    apply promoted_free. by eapply Hstatus. }
  assert (∀ k t, task_runs (s_db s) !! k = Some t → t_workflow_run_id t = rid →
    task_runs (s_db s2) !! k = Some (promoted (env_now env n0) t)) as Hkt.
  { intros k t Ht Hrid. apply Ht2; [by rewrite Ht1, Ht|by rewrite promoted_run]. }
  exists s3. split_and!; [|done| | |lia| |].
  - unfold tick. erewrite bind_run; [|exact H0]. erewrite bind_run; [|exact H1].
    by erewrite bind_run; [|exact H2].
  - etransitivity; [exact Ha1|]. by etransitivity.
  - etransitivity; [exact Hset|]. by eapply settles_dispatch_ready.
  - rewrite (same_runs_dispatch_ready _ _ _ _ H3), Hr2, Hr1. done.
  - intros k t Ht Hrid. pose proof (Hkt k t Ht Hrid) as Hk2. destruct (Ht3 _ _ Hk2) as [Hk3 Hev].
    assert (env_now env (s_tick s) ≤ env_now env n0 ∧ env_now env n0 ≤ env_now env (s_tick s2)) as [? ?].
    { split; apply Hmono; lia. }
    rewrite Hk3. eexists. split; [done|]. split; [case_match; simpl; by rewrite promoted_run|].
    assert ((t_status t = BLOCKED ∨ t_status t = SUCCEEDED) ∨ (t_status t = READY ∨ t_status t = RETRY_WAIT))
      as [Hs|Hs].
    { pose proof (Hstatus k t Ht Hrid) as Hin. rewrite !elem_of_cons, elem_of_nil in Hin. naive_solver. }
    + left. split; [|done]. rewrite promoted_kept by (destruct Hs; congruence). unfold dispatchable.
      rewrite (bool_decide_false (t_status t = READY)) by (destruct Hs; congruence). done.
    + right. pose proof (Hdue k t Ht Hrid Hs) as Had.
      destruct (promoted_ready (env_now env n0) t Hs) as [Hps Hpa]; [lia|].
      assert (dispatchable env (env_now env (s_tick s2)) (S (s_tick s2)) k (promoted (env_now env n0) t) = true) as Hd.
      { unfold dispatchable. rewrite Hps, Hpa, Hlocks, !bool_decide_true; [done|lia|done]. }
      rewrite Hd. split; [done|]. destruct (Hev Hd) as (ev & e & _ & He & Hdis).
      exists ev, e, (promoted (env_now env n0) t). split_and!; [done..|]. unfold promoted. by destruct (_ && _).
Qed.

Context (Hbus : ∀ n, bus_publish bus n = Delivered).
Context (Httl : positive_or (OutboxPublishTimeout svc) defaultOutboxPublishTimeout
                < positive_or (OutboxClaimTTL svc) defaultOutboxClaimTTL).

Lemma drain_run w :
  healthy env (w_sess w) → unclaimed (outbox w) →
  ∃ w' ms, drain env bus w = (Ok tt, w') ∧ w_topic w' = w_topic w ++ ms ∧ healthy env (w_sess w') ∧
    posted (w_sess w) (w_sess w') ∧ unclaimed (outbox w') ∧
    (∀ k o, outbox w !! k = Some o → o_published_at o = None → message_for k o ∈ ms) ∧
    rtc step (s_db (w_sess w)) (s_db (w_sess w')).
Proof.
  intros [(db0 & H0 & Hsteps) Hf] Hq.
  destruct (publishBatch_run svc env bus w (S (size (pending (outbox w)))) Hcalm Hbus Hlocks Httl Hq)
    as (w' & ms & Hrun & Htop & Hms & Hpub); [lia|].
  pose proof (posts_publishBatch _ _ _ _ _ _ _ Hrun) as Hp. exists w', ms.
  assert (rtc step (s_db (w_sess w)) (s_db (w_sess w'))) as Hs by (by eapply publishBatch_steps).
  split_and!; [|done| |done| |done|done].
  - unfold drain, mbind, P_bind. by rewrite Hrun.
  - split.
    + exists db0. split; [done|]. by etransitivity.
    + intros m Hm. apply not_elem_of_dom. rewrite (po_events _ _ Hp). apply not_elem_of_dom, Hf.
      pose proof (po_tick _ _ Hp). lia.
  - intros k o Ho Hnone. by destruct (Hpub k o Ho).
Qed.

(** * A round *)

(** The tasks of a run that have not succeeded. *)
Definition remaining (rid : uuid) (db : Db) : gmap uuid TaskRow :=
  filter (λ kt, t_workflow_run_id kt.2 = rid ∧ t_status kt.2 ≠ SUCCEEDED) (task_runs db).

Lemma remaining_Some rid db k :
  k ∈ dom (remaining rid db) ↔
  ∃ t, task_runs db !! k = Some t ∧ t_workflow_run_id t = rid ∧ t_status t ≠ SUCCEEDED.
Proof.
  rewrite elem_of_dom. unfold is_Some, remaining. setoid_rewrite map_lookup_filter_Some. simpl. naive_solver.
Qed.

(** The worker supports the handlers of the run's tasks. *)
Definition handled (rid : uuid) (db : Db) : Prop :=
  ∀ k t, task_runs db !! k = Some t → t_workflow_run_id t = rid → supported (t_handler t) = true.

Lemma handled_later rid db db' :
  rtc step db db' → settles db db' → handled rid db → handled rid db'.
Proof.
  intros Hsteps Hset Hh k t' Ht' Hrid. destruct (Hset k t' Ht') as (t & Ht & Heq & _).
  destruct (hi_tasks _ _ _ (steps_static _ _ Hsteps) k t Ht) as (t1 & Ht1 & Hst). simplify_eq.
  assert (t_handler t' = t_handler t) as -> by (by injection Hst). apply (Hh k t); [done|congruence].
Qed.

(** The system at the beginning of a round. *)
Record between_rounds (rid : uuid) (x : Site) : Prop := {
  br_healthy : healthy env (w_sess (si_world x));
  br_unscheduled : unscheduled (s_db (w_sess (si_world x)));
  br_open : (size (open_tasks (s_db (w_sess (si_world x)))) ≤ 100)%nat;
  br_unclaimed : unclaimed (outbox (si_world x));
  br_offset : (si_offset x ≤ length (w_topic (si_world x)))%nat;
  br_handled : handled rid (s_db (w_sess (si_world x)));
  br_resting : resting rid (w_sess (si_world x));
  br_worker : pr_beating (si_worker x) = None
}.

Definition site_db (x : Site) : Db := s_db (w_sess (si_world x)).

(** What the cycle and the publication of its events leave for the worker. *)
Lemma schedule_and_publish_run rid x :
  between_rounds rid x →
  ∃ w2, schedule_and_publish env bus (si_world x) = (Ok tt, w2) ∧ healthy env (w_sess w2) ∧
    settles (site_db x) (s_db (w_sess w2)) ∧ rtc step (site_db x) (s_db (w_sess w2)) ∧
    unscheduled (s_db (w_sess w2)) ∧ unclaimed (outbox w2) ∧ (si_offset x ≤ length (w_topic w2))%nat ∧
    advancing env rid (fetched x w2) (w_sess w2) ∧
    ∀ k t, task_runs (site_db x) !! k = Some t → t_workflow_run_id t = rid → t_status t ≠ BLOCKED →
      ∃ t', task_runs (s_db (w_sess w2)) !! k = Some t' ∧ t_workflow_run_id t' = rid ∧ under_way t'.
Proof.
  destruct x as [w p offset]. unfold site_db, fetched. intros [Hh Hoff Hopen Hq Hlen Hsup Hrest Hb]. cbn [si_world si_worker si_offset] in *.
  destruct (tick_run rid (w_sess w) Hh Hoff Hopen Hrest) as (s1 & H1 & Hh1 & Ha1 & Hset1 & Hle1 & Hr1 & Ht1).
  set (w1 := w<| w_sess := s1 |>).
  destruct (drain_run w1 Hh1) as (w2 & ms & H2 & Htop2 & Hh2 & Hp2 & Hq2 & Hms & Hsteps2).
  { intros k o Ho Hnone. destruct (ac_new _ _ Ha1 k o Ho) as [Hk|?]; [by eapply Hq|done]. }
  change (w_topic w1) with (w_topic w) in Htop2. change (w_sess w1) with s1 in Hp2.
  destruct Hp2 as [Hle2 Hts2 Hrs2 Hsc2 Hev2]. destruct Hrest as [Hrun Hstatus Hdue].
  exists w2. split_and!; try done.
  - unfold schedule_and_publish, mbind, P_bind, lift. rewrite H1. exact H2.
  - etransitivity; [exact Hset1|by apply settles_same].
  - etransitivity; [by eapply tick_steps|exact Hsteps2].
  - unfold unscheduled. rewrite Hsc2, (ac_schedules _ _ Ha1). exact Hoff.
  - rewrite Htop2, length_app. lia.
  - assert (∀ k t', task_runs (s_db (w_sess w2)) !! k = Some t' → t_workflow_run_id t' = rid →
      t_status t' = BLOCKED ∨ t_status t' = SUCCEEDED ∨
      t_status t' = DISPATCHING ∧ ∃ ev e t0, outbox w1 !! ev = Some e ∧ dispatch_event k t0 e ∧
        supported (t_handler t0) = true) as Hback.
    { intros k t'. rewrite Hts2. intros Ht' Hrid. destruct (Hset1 k t' Ht') as (t & Ht & Heq & _).
      destruct (Ht1 k t Ht) as (t1 & Hk1 & _ & Hcase); [congruence|]. rewrite Ht' in Hk1. injection Hk1 as <-.
      destruct Hcase as [[-> [?|?]]|(? & ev & e & t0 & He & Hd & Hsame)]; [auto..|]. right. right. split; [done|].
      exists ev, e, t0. split_and!; [done..|]. rewrite Hsame. apply (Hsup k t); [done|congruence]. }
    split.
    + rewrite Hrs2, Hr1. exact Hrun.
    + intros k t' Ht' Hrid. destruct (Hback k t' Ht' Hrid) as [->|[->|[-> _]]]; set_solver.
    + intros k t' Ht' Hrid Hs. destruct (Hback k t' Ht' Hrid) as [?|[?|[? _]]]; congruence.
    + intros k t' Ht' Hrid Hs.
      destruct (Hback k t' Ht' Hrid) as [?|[?|(_ & ev & e & t0 & He & Hd & Hsupp)]]; [congruence..|].
      apply dispatch_event_fields in Hd as (Hnone & Hty & Hun). exists (message_for ev e). split.
      * rewrite Htop2, drop_app_le by done. apply elem_of_app. right. by apply Hms.
      * unfold announced. rewrite bool_decide_true by done. simpl m_value. rewrite Hun. simpl. by rewrite Hsupp.
  - intros k t Ht Hrid Hnb. rewrite Hts2. destruct (Ht1 k t Ht Hrid) as (t' & Ht' & Hrid' & Hcase).
    exists t'. split_and!; [done..|]. destruct Hcase as [[-> [?|?]]|[? _]]; [done|by right|by left].
Qed.

(** An unfinished run has a task that is ready or waits for its retry. *)
Lemma resting_frontier rid x :
  between_rounds rid x → remaining rid (site_db x) ≠ ∅ →
  ∃ k t, task_runs (site_db x) !! k = Some t ∧ t_workflow_run_id t = rid ∧
    t_status t ≠ BLOCKED ∧ t_status t ≠ SUCCEEDED.
Proof.
  intros [[Hreach _] _ _ _ _ _ [(r & Hr & Hst) Hstatus _] _] (k & t & [Ht [Hrid Hns]]%map_lookup_filter_Some)%map_choose.
  destruct Hst as [Hst|Hst].
  - destruct (running_frontier _ _ _ Hreach Hr Hst) as (id & t1 & Ht1 & Hrid1 & Hin). exists id, t1.
    split_and!; [done..| |]; intros Hs; rewrite Hs in Hin; set_solver.
  - destruct (run_status_tasks _ _ _ Hreach Hr) as ((Hall & _) & _). by destruct Hns; eapply Hall.
Qed.

Context (Halone : alone net) (Hfetch : ∀ n, net_fetch net n = None).

Lemma round_run rid x :
  between_rounds rid x → round_executed rid x = true →
  ∃ x', round x = (Ok tt, x') ∧ between_rounds rid x' ∧
    dom (remaining rid (site_db x')) ⊆ dom (remaining rid (site_db x)) ∧
    (remaining rid (site_db x) ≠ ∅ →
     ∃ k, k ∈ dom (remaining rid (site_db x)) ∧ k ∉ dom (remaining rid (site_db x'))).
Proof.
  intros Hb Hex. destruct (schedule_and_publish_run rid x Hb)
    as (w2 & H2 & Hh2 & Hset2 & Hsteps2 & Hoff2 & Hq2 & Hlen2 & A2 & Hway).
  unfold round_executed in Hex. rewrite H2 in Hex.
  assert (pr_beating (worker_at x w2) = None) as Hbeat by apply (br_worker _ _ Hb).
  destruct (consume_run _ _ _ _ _ _ _ _ _ _ _ _ Hcalm Huuid Halone Hfetch Hmono rid (fetched x w2)
    (S (length (fetched x w2))) (worker_at x w2) (Nat.lt_succ_diag_r _) Hh2 Hbeat A2 Hex)
    as (p3 & H3 & Hb3 & Hs3 & Hh3 & A3 & M3).
  pose proof (advances_consume _ _ _ _ _ _ _ _ _ _ _ _ (alone_honest _ Halone) H3) as Hsteps3.
  unfold proc_db in Hsteps3, M3. cbn [worker_at pr_sess] in Hs3, Hsteps3, M3.
  destruct Hs3 as [_ Ha3 Hset3].
  assert (settles (site_db x) (s_db (pr_sess p3))) as Hset by (by etransitivity).
  assert (∀ k t, task_runs (s_db (pr_sess p3)) !! k = Some t → t_workflow_run_id t = rid →
    t_status t = BLOCKED ∨ t_status t = READY ∨ t_status t = SUCCEEDED) as Hend.
  { intros k t Ht Hrid. pose proof (ad_status _ _ _ _ A3 k t Ht Hrid) as Hin.
    rewrite !elem_of_cons, elem_of_nil in Hin. destruct Hin as [?|[?|[Hd|[?|[]]]]]; [auto..| |auto].
    destruct (ad_message _ _ _ _ A3 k t Ht Hrid Hd) as (m & []%not_elem_of_nil & _). }
  assert (∀ k t, task_runs (site_db x) !! k = Some t → t_workflow_run_id t = rid → t_status t ≠ BLOCKED →
    k ∉ dom (remaining rid (s_db (pr_sess p3)))) as Hdone.
  { intros k t Ht Hrid Hnb (t3 & Ht3 & Hrid3 & Hns)%remaining_Some.
    destruct (Hway k t Ht Hrid Hnb) as (t2 & Ht2 & Hrid2 & Hu).
    destruct (mv_kept _ _ _ M3 k t2 Ht2 Hrid2) as (t3' & Ht3' & _ & Hu3). rewrite Ht3 in Ht3'. injection Ht3' as <-.
    destruct (Hend k t3 Ht3) as [?|[?|?]]; [done|destruct (Hu3 Hu); congruence..|done]. }
  eexists. split_and!.
  - unfold round. rewrite H2. cbv zeta. rewrite H3. reflexivity.
  - split; simpl; try done.
    + unfold unscheduled. rewrite (ac_schedules _ _ Ha3). exact Hoff2.
    + etransitivity; [by apply settles_open|apply Hb].
    + intros k o Ho Hnone. destruct (ac_new _ _ Ha3 k o Ho) as [Hk|?]; [by eapply Hq2|done].
    + unfold fetched. rewrite length_drop. lia.
    + eapply handled_later; [|exact Hset|apply Hb]. by etransitivity.
    + split.
      * apply (ad_run _ _ _ _ A3).
      * intros k t Ht Hrid. destruct (Hend k t Ht Hrid) as [-> | [-> | ->]]; set_solver.
      * intros k t Ht Hrid [Hs|Hs]; [by eapply (ad_due _ _ _ _ A3)|].
        destruct (Hend k t Ht Hrid) as [?|[?|?]]; congruence.
  - intros k Hk. pose proof Hk as (t3 & Ht3 & Hrid3 & Hns)%remaining_Some.
    destruct (Hset k t3 Ht3) as (t & Ht & Hrid & _). apply remaining_Some. exists t.
    split_and!; [done|congruence|]. intros Hs. apply (Hdone k t); [done|congruence..|done].
  - intros (k & t & Ht & Hrid & Hnb & Hns)%(resting_frontier _ _ Hb). exists k.
    split; [apply remaining_Some; eauto|by eapply Hdone].
Qed.

(** * Completion *)

Lemma between_rounds_over rid x :
  between_rounds rid x → remaining rid (site_db x) = ∅ →
  ∃ r, workflow_runs (site_db x) !! rid = Some r ∧ r_status r = RUN_SUCCEEDED.
Proof.
  intros Hb Hnone. destruct (rs_run _ _ (br_resting _ _ Hb)) as (r & Hr & _). exists r. split; [done|].
  apply (run_status_tasks _ _ _ (he_reachable _ _ (br_healthy _ _ Hb)) Hr). intros k t Ht Hrid.
  apply dec_stable. intros Hns. apply (map_filter_empty_not_lookup _ _ k t) in Hnone; [|done]. by apply Hnone.
Qed.

Lemma rounds_run n rid x :
  between_rounds rid x → rounds_executed rid n x = true → (size (remaining rid (site_db x)) ≤ n)%nat →
  ∃ x', rounds n x = (Ok tt, x') ∧ between_rounds rid x' ∧ remaining rid (site_db x') = ∅.
Proof.
  revert x. induction n as [|n IH]; intros x Hb Hex Hn.
  - exists x. split_and!; [done..|]. apply map_size_empty_inv. lia.
  - cbn [rounds_executed] in Hex. apply andb_true_iff in Hex as [Hex1 Hex].
    destruct (round_run rid x Hb Hex1) as (x1 & H1 & Hb1 & Hsub & Hless). rewrite H1 in Hex. simpl in Hex.
    destruct (IH x1 Hb1 Hex) as (x2 & H2 & Hb2 & Hnone).
    { destruct (decide (remaining rid (site_db x) = ∅)) as [He|Hne].
      - apply subseteq_size in Hsub. rewrite !size_dom, He, map_size_empty in Hsub. lia.
      - destruct (Hless Hne) as (k & Hin & Hout). assert (size (dom (remaining rid (site_db x1))) <
          size (dom (remaining rid (site_db x))))%nat as Hlt by (apply subset_size; set_solver).
        rewrite !size_dom in Hlt. lia. }
    exists x2. split_and!; [|done..]. cbn [rounds]. by rewrite H1.
Qed.

(** A run that has just been created. *)

Lemma remaining_tasks rid db dag :
  instance_of db rid dag → (size (remaining rid db) ≤ size (Tasks dag))%nat.
Proof.
  intros [ids [Hdom _ Honly _]]. rewrite <-(size_dom (Tasks dag)), <-Hdom, size_dom, <-size_dom.
  transitivity (length (map_to_list ids).*2); [|by rewrite length_fmap, length_map_to_list].
  apply submseteq_length, NoDup_submseteq; [apply NoDup_elements|].
  intros k (t & Ht & Hrid & _)%elem_of_elements%remaining_Some. apply list_elem_of_fmap.
  exists (t_task_key t, k). split; [done|]. apply elem_of_map_to_list. by apply Honly.
Qed.

Lemma created_between tenant user def key input aids s rid r s' top live p :
  healthy env s → unscheduled (s_db s) → unclaimed (outbox_events (s_db s)) →
  CreateRun tenant user def key input aids env s = (Ok ((rid, r), true), s') →
  (size (open_tasks (s_db s')) ≤ 100)%nat → handled rid (s_db s') → pr_beating p = None →
  between_rounds rid (mkSite (mkWorld s' top live) p (length top)).
Proof.
  intros Hh Hoff Hq Hc Hopen Hsup Hp. pose proof (accrues_CreateRun _ _ _ _ _ _ _ _ _ _ Hc) as Ha.
  pose proof (numbers_CreateRun _ _ _ _ _ _ _ _ _ _ Hc) as [Hle _].
  destruct (CreateRun_change _ _ _ _ _ _ _ _ _ _ _ (he_reachable _ _ Hh) Hc)
    as (d & dag & _ & _ & _ & _ & Hruns & _ & _ & Hrun & _ & Hinst & _ & Htasks & Havail).
  split; simpl; [|..|done|done| |done].
  - refine (healthy_after env Huuid _ _ _ _ _ (numbers_CreateRun tenant user def key input aids) Hc Hh). by_op.
  - unfold unscheduled. rewrite (ac_schedules _ _ Ha). exact Hoff.
  - done.
  - intros k o Ho Hnone. destruct (ac_new _ _ Ha k o Ho) as [Hk|?]; [by eapply Hq|done].
  - split.
    + exists r. rewrite Hruns, lookup_insert_eq. auto.
    + intros k t Ht Hrid. destruct Hinst as [ids [Hdom _ Honly _]].
      pose proof (Honly k t Ht Hrid) as Hkey%elem_of_dom_2. rewrite Hdom in Hkey.
      apply elem_of_dom in Hkey as [spec Hspec]. destruct (Htasks k t spec Ht Hrid Hspec) as [_ ->].
      case_bool_decide; set_solver.
    + intros k t Ht Hrid _. simpl in Ht. rewrite (Havail k t Ht Hrid). by apply Hmono.
Qed.

(** C4: runs complete.  A run was just created whose handlers the Go worker
    supports.  A round is a cycle of the scheduler, the publication of the outbox,
    and the worker's consumer loop on the new messages of the topic, over the gRPC
    service.  The database and the broker do not fail and nobody else uses them,
    clocks do not go back, no schedule is enabled, no event is claimed and at most
    a hundred tasks are open; and when the worker executes a dispatched task of
    the run, [execute] returns no error, whatever becomes of the tasks of other
    runs.  Then the rounds succeed, and after as many of them as the workflow has
    tasks the run is SUCCEEDED and all its tasks are. *)
Theorem created_run_completes tenant user def key input aids s rid r s' top live p d dag :
  healthy env s → unscheduled (s_db s) → unclaimed (outbox_events (s_db s)) →
  workflow_definitions (s_db s) !! def = Some d → unmarshal_dag (d_dag_spec d) = Some dag →
  CreateRun tenant user def key input aids env s = (Ok ((rid, r), true), s') →
  (size (open_tasks (s_db s')) ≤ 100)%nat → handled rid (s_db s') → pr_beating p = None →
  let x := mkSite (mkWorld s' top live) p (length top) in
  rounds_executed rid (size (Tasks dag)) x = true →
  ∃ x' r', rounds (size (Tasks dag)) x = (Ok tt, x') ∧
    workflow_runs (site_db x') !! rid = Some r' ∧ r_status r' = RUN_SUCCEEDED ∧
    ∀ k t, task_runs (site_db x') !! k = Some t → t_workflow_run_id t = rid → t_status t = SUCCEEDED.
Proof.
  intros Hh Hoff Hq Hd Hdag Hc Hopen Hsup Hp x Hex.
  pose proof (created_between _ _ _ _ _ _ _ _ _ _ top live p Hh Hoff Hq Hc Hopen Hsup Hp) as Hb.
  destruct (CreateRun_change _ _ _ _ _ _ _ _ _ _ _ (he_reachable _ _ Hh) Hc)
    as (d' & dag' & Hd' & _ & Hdag' & _ & _ & _ & _ & _ & _ & Hinst & _).
  assert (dag' = dag) as -> by congruence.
  destruct (rounds_run (size (Tasks dag)) rid _ Hb Hex (remaining_tasks _ _ _ Hinst)) as (x' & Hrun & Hb' & Hnone).
  destruct (between_rounds_over _ _ Hb' Hnone) as (r' & Hr' & Hst).
  exists x', r'. split_and!; try done.
  by apply (run_status_tasks _ _ _ (he_reachable _ _ (br_healthy _ _ Hb')) Hr').
Qed.
End Rounds.
