(* ===== verification/Scenario.v ===== *)
(** Concrete executions of the engine: they show that the hypotheses of the
    general theorems can be met, and exhibit the behaviours reported as
    findings. *)
From stdpp Require Import pretty.
From S2P Require Import Prelude Model Dag State Json Schema Sql StoreWorker StoreWorkflow Scheduler Preserve Frame Lifecycle Refinement Creation System.

(** An environment without failures: the clock advances one second per
    statement and identifiers are numbered. *)
Definition calm_env : Env :=
  {| env_now := λ n, Z.of_nat n * Second;
     env_clock := λ n, Z.of_nat n * Second;
     env_uuid := λ n, "id" +:+ pretty n;
     env_fault := λ _, None;
     env_commit := λ _, Committed;
     env_locked := λ _ _, false;
     env_rank := λ _ s, Z.of_nat (String.length s);
     env_trace := "trace" |}.

Definition empty_db : Db :=
  {| tenants := {["acme"]}; users := ∅; api_keys := ∅; workflow_definitions := ∅;
     workflow_runs := ∅; task_runs := ∅; task_dependencies := ∅; task_attempts := ∅;
     outbox_events := ∅; schedules := ∅; audit_events := []; worker_heartbeats := ∅;
     artifacts := ∅ |}.

(** Run operations one after the other in one environment. *)
Fixpoint play (env : Env) (n : nat) (db : Db) (ops : list op) : Db :=
  match ops with
  | [] => db
  | o :: ops => let s := (exec o env (mkSess n false db)).2 in play env (s_tick s) (s_db s) ops
  end.

Lemma play_steps env n db ops : rtc step db (play env n db ops).
Proof.
  revert n db. induction ops as [|o ops IH]; intros n db; simpl; [done|].
  eapply rtc_l; [|apply IH]. by eapply (step_op _ o env n false), surjective_pairing.
Qed.

Lemma empty_db_initial : initial empty_db.
Proof. done. Qed.

Lemma play_reachable n ops : system_reachable (play calm_env n empty_db ops).
Proof. exists empty_db. split; [apply empty_db_initial|apply play_steps]. Qed.

(** A diamond without its top: [load] after [fetch], and an independent [audit]. *)
Definition task_spec (deps : list string) : TaskSpec :=
  {| Handler := "h"; DependsOn := deps; MaximumAttempts := 1; TimeoutSeconds := 0;
     Priority := 0 |}.

Definition demo_dag : DAG :=
  {| dag_Name := "etl";
     Tasks := {["fetch" := task_spec []; "load" := task_spec ["fetch"]; "audit" := task_spec []]} |}.

Definition demo_setup : list op :=
  [OpCreateWorkflow "acme" "" "" demo_dag;
   OpCreateRun "acme" "" "id2" "key-1" None []].

Definition demo0 : Db := play calm_env 0 empty_db demo_setup.

Definition lease : Z := 3600 * Second.
Definition fatal : Failure :=
  {| Retryable := false; ErrorType := "E"; ErrorMessage := "m"; TraceID := "" |}.

(** In [demo0] the tasks are [audit] (id11), [fetch] (id12), [load] (id10) of
    run id8.  [fetch] is executed, which releases [load]. *)
Definition run_task (id w : string) : list op :=
  [OpLeaseTask id w lease; OpStartTask id w; OpCompleteTask id w None "" []].

Definition demo1_ops : list op :=
  demo_setup ++ [OpDispatchReady] ++ run_task "id12" "w1" ++ [OpDispatchReady]
  ++ [OpLeaseTask "id10" "w2" lease].

Definition demo1 : Db := play calm_env 0 empty_db demo1_ops.

Lemma demo1_reachable : system_reachable demo1.
Proof. apply play_reachable. Qed.

(** [fetch] fails for good, an operator retries the run and [fetch] succeeds. *)
Definition stranded_ops : list op :=
  demo_setup ++ [OpDispatchReady; OpLeaseTask "id12" "w1" lease; OpFailTask "id12" "w1" fatal;
                 OpRetryRun "acme" "" "id8"; OpDispatchReady] ++ run_task "id12" "w1".

Definition stranded : Db := play calm_env 0 empty_db stranded_ops.

Lemma stranded_reachable : system_reachable stranded.
Proof. apply play_reachable. Qed.

Definition any_task : TaskRow := new_task 0 "" JNull "" (task_spec []).
Definition any_run : RunRow := new_run 0 "" "" 0 JNull "" "" "".
Definition any_definition : DefinitionRow :=
  {| d_tenant_id := ""; d_name := ""; d_version := 0; d_dag_spec := JNull; d_created_by := None;
     d_created_at := 0 |}.

Definition task_at (db : Db) (id : uuid) : TaskRow := default any_task (task_runs db !! id).
Definition run_at (db : Db) (id : uuid) : RunRow := default any_run (workflow_runs db !! id).
Definition definition_at (db : Db) (id : uuid) : DefinitionRow :=
  default any_definition (workflow_definitions db !! id).

(** * The general theorems on the first scenario *)

Ltac evaluate := vm_compute; reflexivity.

Lemma system_refines_lifecycle_witness : reachable (abs demo1).
Proof. apply (system_refines_lifecycle demo1), demo1_reachable. Defined.

Lemma dependency_safety_witness :
  ∃ id' t', task_runs demo1 !! id' = Some t' ∧ t_workflow_run_id t' = "id8" ∧
            t_task_key t' = "fetch" ∧ t_status t' = SUCCEEDED.
Proof.
  apply (dependency_safety demo1 "id10" (task_at demo1 "id10") "id8" (run_at demo1 "id8")
    (definition_at demo1 "id2") demo_dag (task_spec ["fetch"]) "fetch");
    [apply demo1_reachable|evaluate|evaluate|evaluate|evaluate|evaluate|evaluate|right; evaluate|].
  by left.
Defined.

Lemma running_run_progress_witness :
  ∃ id t, task_runs demo1 !! id = Some t ∧ t_workflow_run_id t = "id8" ∧
    t_status t ∈ [READY; DISPATCHING; RETRY_WAIT; LEASED; RUNNING; DEAD; CANCELLED].
Proof.
  apply (running_run_progress demo1 "id8" (run_at demo1 "id8")); [apply demo1_reachable|evaluate..].
Defined.

Lemma run_status_agrees_witness : r_status (run_at stranded "id8") ≠ RUN_PENDING.
Proof.
  destruct (run_status_agrees stranded "id8" (run_at stranded "id8") stranded_reachable)
    as (_ & _ & H & _); [evaluate|exact H].
Defined.

Lemma lease_columns_witness : is_Some (t_lease_owner (task_at demo1 "id10")).
Proof.
  destruct (lease_columns demo1 "id10" (task_at demo1 "id10") demo1_reachable)
    as (_ & H & _); [evaluate|]. apply H. left. evaluate.
Defined.

Lemma attempt_history_witness : is_Some (task_attempts demo1 !! ("id10", 1)).
Proof.
  destruct (attempt_history demo1 "id10" (task_at demo1 "id10") 1 demo1_reachable)
    as [H _]; [evaluate|]. apply H. vm_compute. split; discriminate.
Defined.

Lemma run_instantiates_definition_witness :
  ∃ d dag, workflow_definitions demo1 !! r_workflow_definition_id (run_at demo1 "id8") = Some d ∧
           d_tenant_id d = r_tenant_id (run_at demo1 "id8") ∧
           d_version d = r_workflow_version (run_at demo1 "id8") ∧
           unmarshal_dag (d_dag_spec d) = Some dag ∧ valid_dag dag ∧ instance_of demo1 "id8" dag.
Proof.
  apply (run_instantiates_definition demo1 "id8"); [apply demo1_reachable|evaluate].
Defined.

Lemma idempotency_key_unique_witness : "id8" = "id8".
Proof.
  apply (idempotency_key_unique demo1 "id8" "id8" (run_at demo1 "id8") (run_at demo1 "id8"));
    [apply demo1_reachable|evaluate..].
Defined.

(** * Findings *)

(** All tasks of a database with their keys and statuses. *)
Definition view (db : Db) : list (string * task_status) :=
  (λ kt, (t_task_key kt.2, t_status kt.2)) <$> map_to_list (task_runs db).

(** [RetryRun] revives the dead task of a failed run but not the tasks its
    failure cancelled: once the revived task has succeeded the run is RUNNING
    with nothing left to execute. *)
Lemma retry_strands_run :
  system_reachable stranded ∧ r_status (run_at stranded "id8") = RUN_RUNNING ∧
  view stranded = [("audit", CANCELLED); ("fetch", SUCCEEDED); ("load", CANCELLED)].
Proof. split; [apply stranded_reachable|split; evaluate]. Qed.

(** When the last attempt of a task ends by an expired lease its run fails, but,
    unlike in [FailTask], the other tasks of the run stay eligible: here one is
    leased after the failure, and [StartTask] refuses it. *)
Definition expired_ops : list op :=
  demo_setup ++ [OpDispatchReady; OpLeaseTask "id12" "w1" 1; OpRecoverExpired;
                 OpLeaseTask "id11" "w2" lease; OpStartTask "id11" "w2"].
Definition expired_db : Db := play calm_env 0 empty_db expired_ops.

Lemma expiry_leaves_siblings :
  system_reachable expired_db ∧ r_status (run_at expired_db "id8") = RUN_FAILED ∧
  view expired_db = [("audit", LEASED); ("fetch", DEAD); ("load", BLOCKED)].
Proof. split; [apply play_reachable|split; evaluate]. Qed.

(** Replaying a dead task of a cancelled run rebuilds the cancelled tasks while
    the run stays CANCELLED, also one whose attempts were used up: its next
    lease exceeds [maximum_attempts]. *)
Definition three_tasks : DAG :=
  {| dag_Name := "three";
     Tasks := {["a" := task_spec []; "b" := task_spec []; "c" := task_spec []]} |}.

Definition exceed_ops : list op :=
  [OpCreateWorkflow "acme" "" "" three_tasks; OpCreateRun "acme" "" "id2" "key-1" None [];
   OpDispatchReady;
   OpLeaseTask "id10" "w" lease; OpLeaseTask "id11" "w" lease; OpLeaseTask "id12" "w" lease;
   OpFailTask "id10" "w" fatal; OpFailTask "id11" "w" fatal;
   OpReplayDead "acme" "" "id10"; OpCancelRun "acme" "" "id8"; OpFailTask "id12" "w" fatal;
   OpReplayDead "acme" "" "id11"; OpDispatchReady; OpLeaseTask "id12" "w" lease].
Definition exceed_db : Db := play calm_env 0 empty_db exceed_ops.

Lemma replay_exceeds_attempts :
  system_reachable exceed_db ∧ r_status (run_at exceed_db "id8") = RUN_CANCELLED ∧
  t_status (task_at exceed_db "id12") = LEASED ∧
  t_maximum_attempts (task_at exceed_db "id12") = 1 ∧
  t_attempt_count (task_at exceed_db "id12") = 2.
Proof. split; [apply play_reachable|split_and!; evaluate]. Qed.
