(* ===== verification/Witnesses.v ===== *)
(** The theorems about single operations, requests and protocols, each applied
    to a concrete execution that meets its hypotheses. *)
From stdpp Require Import pretty.
From Stdlib Require Import QArith Lqa.
From S2P Require Import Prelude Go Model Dag State Json Schema Sql StoreWorker StoreWorkflow Scheduler Outbox Auth Stream Artifacts RateLimit Config Api Mux Http Rpc Preserve Frame Lifecycle Refinement Creation Aloof System WorkerSpec RunSpec SchedulerSpec OutboxSpec AuthSpec ArtifactSpec Requests RpcSpec Scenario.

(** The value a call returned and the session after it. *)
Definition value {A} (d : A) (x : result A * Sess) : A := match x.1 with Ok a => a | Err _ => d end.

Definition at_db (db : Db) : Sess := mkSess 200 false db.

Lemma at_db_db db : s_db (at_db db) = db.
Proof. reflexivity. Qed.

Definition any_task_run : TaskRun := mkTaskRun "" any_task None.

(** [demo_setup] with its two ready tasks dispatched. *)
Definition dispatched : Db := play calm_env 0 empty_db (demo_setup ++ [OpDispatchReady]).

(** [fetch] is being executed by w1. *)
Definition executing : Db :=
  play calm_env 0 empty_db
    (demo_setup ++ [OpDispatchReady; OpLeaseTask "id12" "w1" lease; OpStartTask "id12" "w1"]).

(** * Worker protocol *)

Lemma stale_worker_fenced_witness : refused (CompleteTask "id10" "w1" None "" []) calm_env (at_db demo1).
Proof.
  destruct (stale_worker_fenced calm_env (at_db demo1) "id10" "w1" None "" [] fatal lease)
    as (_ & _ & H & _); [|exact H].
  intros n t Ht. vm_compute in Ht. injection Ht as <-. left. discriminate.
Defined.

Lemma LeaseTask_effect_witness :
  ∃ t, task_runs (s_db (at_db dispatched)) !! "id12" = Some t ∧ t_status t = DISPATCHING.
Proof.
  pose (x := LeaseTask "id12" "w1" lease calm_env (at_db dispatched)).
  destruct (LeaseTask_effect "id12" "w1" lease calm_env (at_db dispatched) (value any_task_run x) x.2)
    as (t & r & e & row & ev & o & Ht & Hs & _); [evaluate|]. exact (ex_intro _ t (conj Ht Hs)).
Defined.

Lemma duplicate_delivery_refused_witness :
  refused (LeaseTask "id12" "w2" lease) calm_env
    (at_db (s_db (LeaseTask "id12" "w1" lease calm_env (at_db dispatched)).2)).
Proof.
  pose (x := LeaseTask "id12" "w1" lease calm_env (at_db dispatched)).
  refine (duplicate_delivery_refused "id12" "w1" lease calm_env (at_db dispatched) (value any_task_run x) x.2
    "w2" lease calm_env (at_db (s_db x.2)) _ (at_db_db _)). evaluate.
Defined.

Lemma CompleteTask_effect_witness :
  ∃ t, task_runs (s_db (at_db executing)) !! "id12" = Some t ∧ t_status t = RUNNING.
Proof.
  pose (x := CompleteTask "id12" "w1" None "" [] calm_env (at_db executing)).
  destruct (CompleteTask_effect "id12" "w1" None "" [] calm_env (at_db executing) (value any_task_run x) x.2)
    as (t & r & Ht & Hs & _); [evaluate|]. exact (ex_intro _ t (conj Ht Hs)).
Defined.

Lemma FailTask_effect_witness :
  ∃ t, task_runs (s_db (at_db executing)) !! "id12" = Some t ∧ (t_status t = LEASED ∨ t_status t = RUNNING).
Proof.
  pose (x := FailTask "id12" "w1" fatal calm_env (at_db executing)).
  destruct (FailTask_effect "id12" "w1" fatal calm_env (at_db executing) (value any_task_run x) x.2)
    as (t & r & c & Ht & Hs & _); [evaluate|]. exact (ex_intro _ t (conj Ht Hs)).
Defined.

(** * Runs *)

Lemma CreateRun_effect_witness :
  ∃ d, workflow_definitions (s_db (at_db demo1)) !! "id2" = Some d ∧ d_tenant_id d = "acme".
Proof.
  pose (x := CreateRun "acme" "" "id2" "key-2" None [] calm_env (at_db demo1)).
  pose (v := value (("", any_run), false) x).
  destruct (CreateRun_effect "acme" "" "id2" "key-2" None [] calm_env (at_db demo1) v.1.1 v.1.2 x.2)
    as (d & dag & Hd & Ht & _); [apply demo1_reachable|evaluate|]. exact (ex_intro _ d (conj Hd Ht)).
Defined.

Lemma calm_env_calm : calm calm_env.
Proof. done. Qed.

Lemma CreateRun_idempotent_witness :
  ∃ s', CreateRun "acme" "" "id2" "key-1" None [] calm_env (at_db demo1)
          = (Ok (("id8", run_at demo1 "id8"), false), s') ∧ s_db s' = s_db (at_db demo1).
Proof.
  refine (CreateRun_idempotent "acme" "" "id2" "key-1" None calm_env (at_db demo1)
           (definition_at demo1 "id2") demo_dag "id8" (run_at demo1 "id8") _ _ _ _ _ _ _ _ _);
    [apply demo1_reachable|apply calm_env_calm|discriminate|evaluate..].
Defined.

Lemma CancelRun_effect_witness :
  ∃ r, workflow_runs (s_db (at_db demo1)) !! "id8" = Some r ∧ r_status r ∈ [RUN_PENDING; RUN_RUNNING].
Proof.
  destruct (CancelRun_effect "acme" "" "id8" calm_env (at_db demo1)
              (CancelRun "acme" "" "id8" calm_env (at_db demo1)).2) as (r & Hr & _ & Ho & _);
    [evaluate|]. exact (ex_intro _ r (conj Hr Ho)).
Defined.

(** [fetch] has failed for good. *)
Definition failed_db : Db :=
  play calm_env 0 empty_db
    (demo_setup ++ [OpDispatchReady; OpLeaseTask "id12" "w1" lease; OpFailTask "id12" "w1" fatal]).

Lemma RetryRun_effect_witness : ∃ r, workflow_runs (s_db (at_db failed_db)) !! "id8" = Some r ∧ r_tenant_id r = "acme".
Proof.
  destruct (RetryRun_effect "acme" "" "id8" calm_env (at_db failed_db)
              (RetryRun "acme" "" "id8" calm_env (at_db failed_db)).2) as (r & Hr & Ht & _);
    [evaluate|]. exact (ex_intro _ r (conj Hr Ht)).
Defined.

Lemma ReplayDead_effect_witness : ∃ t, task_runs (s_db (at_db failed_db)) !! "id12" = Some t ∧ t_status t = DEAD.
Proof.
  destruct (ReplayDead_effect "acme" "" "id12" calm_env (at_db failed_db)
              (ReplayDead "acme" "" "id12" calm_env (at_db failed_db)).2) as (t & r & Ht & Hs & _);
    [evaluate|]. exact (ex_intro _ t (conj Ht Hs)).
Defined.

Lemma tenant_isolation_witness : rejected ErrNotFound (CancelRun "rival" "" "id8") calm_env (at_db demo1).
Proof.
  destruct (tenant_isolation "rival" "" "id8" calm_env (at_db demo1)) as [H _]; [|exact H].
  intros r Hr. vm_compute in Hr. injection Hr as <-. discriminate.
Defined.

(** * Scheduler *)

#[local] Instance calm_uuid_inj : Inj (=) (=) (env_uuid calm_env).
Proof. intros n m H. simpl in H. apply (inj (String.append "id")) in H. by apply (inj pretty). Qed.

(** A numbered identifier from 200 on is in no table of the scenarios. *)
Lemma fresh_ids (m : gmap uuid OutboxRow) :
  map_Forall (λ k _, k ∈ (env_uuid calm_env <$> seq 0 200)) m →
  ∀ n, (200 ≤ n)%nat → m !! env_uuid calm_env n = None.
Proof.
  intros Hm n Hn. apply eq_None_not_Some. intros [o Ho]. apply Hm in Ho.
  apply list_elem_of_fmap in Ho as (i & Hi%calm_uuid_inj & Hin). apply elem_of_seq in Hin. lia.
Qed.

Ltac decided := apply (bool_decide_unpack _); vm_compute; exact I.

Definition ready_db : Db := play calm_env 0 empty_db demo_setup.

Lemma dispatch_ready_complete_witness :
  ∃ s', dispatch_ready calm_env (at_db ready_db) = (Ok tt, s').
Proof.
  destruct (dispatch_ready_complete calm_env (at_db ready_db)) as (s' & tasks & events & H & _);
    [apply play_reachable|apply calm_env_calm|apply calm_uuid_inj| | |exact (ex_intro _ s' H)].
  - intros n Hn. apply fresh_ids; [decided|exact Hn].
  - decided.
Defined.

(** [fetch] is held under a lease that has run out at statement 200. *)
Definition lost_db : Db :=
  play calm_env 0 empty_db (demo_setup ++ [OpDispatchReady; OpLeaseTask "id12" "w1" 1]).

Lemma recoverExpired_complete_witness :
  ∃ s', recoverExpired calm_env (at_db lost_db) = (Ok tt, s').
Proof.
  destruct (recoverExpired_complete calm_env (at_db lost_db)) as (s' & H & _);
    [apply play_reachable|apply calm_env_calm|apply calm_uuid_inj| | |exact (ex_intro _ s' H)].
  - intros n Hn. apply fresh_ids; [decided|exact Hn].
  - decided.
Defined.

Definition hourly : ScheduleRow :=
  {| s_tenant_id := "acme"; s_workflow_definition_id := "id2"; s_cron_expression := "0 * * * *";
     s_timezone := "UTC"; s_next_execution_at := 0; s_misfire_policy := "skip"; s_enabled := true;
     s_created_at := 0 |}.

Definition due_db : Db := ready_db<| schedules := {["s1" := hourly]} |>.

(** A time-zone database and a cron parser that know everything. *)
Definition any_location (_ : string) : result unit := Ok tt.
Definition any_cron (_ : string) : result unit := Ok tt.
Definition next_hour (_ _ : unit) (t : time) : time := t + 3600 * Second.

Lemma due_schedule_blocks_tick_witness :
  ∃ e s', tick any_location any_cron next_hour (λ _, "") calm_env (at_db due_db) = (Err e, s') ∧
          s_db s' = s_db (at_db due_db).
Proof.
  refine (due_schedule_blocks_tick any_location any_cron next_hour (λ _, "") calm_env (at_db due_db)
            "s1" hourly _ _ _ _); [evaluate|evaluate|decided|evaluate].
Defined.

(** * Outbox *)

Definition service : Service :=
  {| OutboxBatchSize := 10; OutboxClaimTTL := 30 * Second; OutboxPublishTimeout := 10 * Second;
     Live := true |}.

Definition good_bus : Bus := {| bus_publish := λ _, Delivered; bus_live := λ _, None |}.

Definition quiet_world : World := mkWorld (at_db dispatched) [] [].

Definition batch (w : World) : result nat * World := publishClaimedBatch service calm_env good_bus w.

(** Two batches: each sends the head of the run's events. *)
Definition one_batch : World := (batch quiet_world).2.
Definition two_batches : World := (batch one_batch).2.

Lemma quiet_world_reachable : cluster_reachable (cluster_of quiet_world ∅).
Proof.
  eexists. split; [|reflexivity]. split; [reflexivity|reflexivity|]. intros k o Ho.
  assert (map_Forall (λ _ o, o_published_at o = None) (outbox_events (s_db (w_sess quiet_world)))) as H
    by decided. exact (H k o Ho).
Qed.

Lemma one_batch_reachable : cluster_reachable (cluster_of one_batch ∅).
Proof. eapply batch_reachable; [apply quiet_world_reachable|apply surjective_pairing]. Qed.


Definition any_event : OutboxRow :=
  {| o_aggregate_type := ""; o_aggregate_id := ""; o_event_type := ""; o_payload := JNull;
     o_trace_parent := None; o_published_at := None; o_created_at := 0; o_claim_token := None;
     o_claim_expires_at := None; o_publish_attempts := 0 |}.

Definition event_at (w : World) (k : uuid) : OutboxRow := default any_event (outbox w !! k).
Definition message_at (w : World) (k : uuid) : Message := message_for k (event_at w k).

Lemma outbox_at_least_once_witness : message_at two_batches "id19" ∈ w_topic two_batches.
Proof.
  destruct (outbox_at_least_once service calm_env good_bus one_batch (batch one_batch).1 two_batches ∅
    one_batch_reachable (surjective_pairing _)) as [_ H].
  destruct (H "id19" (event_at two_batches "id19")) as [Hp _]; [evaluate|]. apply Hp. vm_compute. discriminate.
Defined.

Lemma outbox_key_order_witness : message_at one_batch "id19" ∈ w_topic one_batch.
Proof.
  destruct (outbox_key_order service calm_env good_bus one_batch (batch one_batch).1 two_batches ∅
    one_batch_reachable (surjective_pairing _)) as (l & Ht & Hl).
  assert (w_topic two_batches = w_topic one_batch ++ [message_at one_batch "id25"]) as E by evaluate.
  rewrite E in Ht. apply app_inv_head in Ht. destruct (Hl (message_at one_batch "id25")) as (o & Ho & _ & Hfirst).
  { rewrite <-Ht. by left. }
  assert (o = event_at one_batch "id25") as ->.
  { apply (inj Some). rewrite <-Ho. evaluate. }
  apply (Hfirst "id19" (event_at one_batch "id19")); evaluate.
Defined.

Lemma outbox_key_order_concurrent_witness : message_at two_batches "id19" ∈ [message_at two_batches "id19"].
Proof.
  refine (outbox_key_order_concurrent (cluster_of quiet_world ∅) (cluster_of two_batches ∅) "id19"
    (event_at quiet_world "id19") (event_at two_batches "id19") (event_at two_batches "id25")
    [message_at two_batches "id19"] (message_at two_batches "id25") [] quiet_world_reachable _ _ _ _ _ _ _ _);
    [|evaluate| |evaluate..].
  - etransitivity;
      [apply (batch_follows service calm_env good_bus quiet_world (batch quiet_world).1 one_batch 0 ∅)
      |apply (batch_follows service calm_env good_bus one_batch (batch one_batch).1 two_batches 0 ∅)];
      first [apply surjective_pairing|apply lookup_empty].
  - intros i p e H. simpl in H. rewrite lookup_empty in H. discriminate.
Defined.

Lemma publishClaimedBatch_follows_witness :
  rtc cstep (cluster_of quiet_world ∅) (cluster_of one_batch ∅).
Proof.
  exact (publishClaimedBatch_follows service calm_env good_bus quiet_world (batch quiet_world).1
    one_batch 0 ∅ (surjective_pairing _) (lookup_empty _)).
Defined.

(** ** A late commit *)





Lemma publishBatch_drains_witness :
  ∃ w', publishBatch 4 service calm_env good_bus quiet_world = (Ok (Some tt), w').
Proof.
  destruct (publishBatch_drains service calm_env good_bus quiet_world 4) as (w' & ms & H & _);
    [apply calm_env_calm|reflexivity|reflexivity|decided| |decided|exact (ex_intro _ w' H)].
  intros k o Ho Hp.
  assert (map_Forall (λ _ o, o_claim_token o = None) (outbox quiet_world)) as Hc by decided.
  exact (Hc k o Ho).
Defined.

(** * Authentication *)

Definition pepper_config : AuthConfig :=
  {| Dev := false; DevPrincipal := mkPrincipal "" "" "" "" []; DevWorkerToken := "";
     TenantClaim := ""; APIKeyPepper := "pepper" |}.

Definition no_oidc (_ : string) : result (list (string * json)) := Err (ErrText "no OIDC").
Definition plain (s : string) : string := s.

Definition token1 : string := "rm_k1_" +:+ base64 [1; 2; 3].

Definition key1 : ApiKeyRow :=
  {| k_tenant_id := "acme"; k_name := "ci"; k_key_hash := HashAPIKey plain token1 "pepper";
     k_scopes := ["runs:read"]; k_expires_at := None; k_revoked_at := None; k_last_used_at := None;
     k_created_by := None; k_created_at := 0 |}.

Definition keyed_db : Db := demo1<| api_keys := {["k1" := key1]} |>.

Lemma generated_key_authenticates_witness :
  ∃ s', Authenticate no_underscore plain pepper_config no_oidc token1 calm_env (at_db keyed_db) =
    (Ok (mkPrincipal "acme" "" "viewer" "api_key" ["runs:read"]), s').
Proof.
  refine (generated_key_authenticates no_underscore plain pepper_config no_oidc "k1" [1; 2; 3] token1
    (HashAPIKey plain token1 "pepper") calm_env (at_db keyed_db) key1 _ _ _ _ _ _ _ _);
    [evaluate|evaluate|discriminate|apply calm_env_calm|evaluate|evaluate|evaluate|discriminate].
Defined.

Lemma withdrawn_keys_rejected_witness :
  locked_out no_underscore plain pepper_config no_oidc token1
    (s_db (RevokeAPIKey "k1" "acme" "" calm_env (at_db keyed_db)).2).
Proof.
  destruct (withdrawn_keys_rejected no_underscore plain pepper_config no_oidc "k1" "acme" "" ""
    token1 calm_env (at_db keyed_db)) as [H _]; [evaluate|evaluate|].
  apply H. evaluate.
Defined.

(** * Artifacts *)

Definition pending_row : ArtifactRow :=
  new_artifact "acme" "" "output" "acme/output/a1" "s3://runmesh/acme/output/a1" "text/plain" 5 ""
    (Some "id10") 0.

Definition artifact_db : Db := demo1<| artifacts := {["a1" := pending_row]} |>.

(** An object store that holds five bytes under every key. *)
Definition five_bytes : Objects :=
  {| presign_put := λ _ _, Ok ("put", []); presign_get := λ _, Ok "get";
     head_object := λ _ _, Ok (Some 5); get_object := λ _ _, Ok "" |}.

Definition any_artifact : Artifact := scan_artifact "" pending_row.

Lemma Complete_effect_witness :
  ∃ f, artifacts (s_db (at_db artifact_db)) !! "a1" = Some f ∧ f_tenant_id f = "acme".
Proof.
  pose (x := Complete plain five_bytes "acme" "a1" calm_env (at_db artifact_db)).
  destruct (Complete_effect plain five_bytes "acme" "a1" calm_env (at_db artifact_db) (value any_artifact x) x.2)
    as (f & Hf & Ht & _); [evaluate|]. exact (ex_intro _ f (conj Hf Ht)).
Defined.

(** * Rate limiter *)

Lemma exact_rounding : rounding (λ x, x).
Proof.
  split; [done|done|]. intros x [H0 H1]. assert (0 <= ulp * x)%Q by (apply Qmult_le_0_compat; [done|exact H0]).
  assert (0 <= tiny)%Q by done. split; lra.
Qed.

Definition arrivals : list Z := [0; 0; 0; 500000; 1000000].

Lemma rate_limit_bound_witness :
  granted (serve (λ x, x) 1 2 None arrivals).1 = 3 ∧
  (inject_Z (granted (serve (λ x, x) 1 2 None arrivals).1) <=
   inject_Z 2 + ((inject_Z 1000000 - inject_Z 0) / inject_Z 1000000 + (2 # 1000000)) * inject_Z 1
   + inject_Z 5 * slack 2)%Q.
Proof.
  split; [evaluate|].
  apply (rate_limit_bound (λ x, x) 1 2 exact_rounding ltac:(lia) ltac:(lia) None 0 [0; 0; 500000; 1000000] 1000000).
  - discriminate.
  - repeat constructor; lia.
  - repeat constructor; lia.
  - lia.
Defined.

(** * Configuration *)

Definition dev_env (key : string) : string :=
  if bool_decide (key = "RUNMESH_DEV_AUTH") then "true" else "".

Lemma Load_sound_witness : ∃ c, Load dev_env = inr c ∧ 0 < RateLimitRate c.
Proof.
  destruct (Load dev_env) as [e|c] eqn:H; [exfalso; revert H; vm_compute; discriminate|].
  exists c. split; [reflexivity|].
  destruct (Load_sound dev_env c H) as (_ & Hr & _). exact Hr.
Defined.

(** * Requests *)

Definition server : Server :=
  {| srv_LeaseDuration := lease; srv_APIKeyPepper := "pepper"; srv_Artifacts := None;
     srv_CORSAllowlist := []; srv_Live := Some (λ _, Ok tt) |}.

Definition zeros (_ : nat) : result (list Z) := Ok [0; 0; 0].

(** Decoders that accept nothing, for requests without body. *)
Definition no_body {A} (_ : string) : Body A := Malformed "EOF".

Definition decoders : Decoders :=
  {| dec_workflow := no_body; dec_run := no_body; dec_upload := no_body; dec_key := no_body;
     dec_worker := no_body; dec_complete := no_body; dec_fail := no_body; dec_heartbeat := no_body;
     dec_schedule := no_body; dec_patch := no_body |}.

Definition request (method path : string) : Request :=
  {| rq_Method := method; rq_EscapedPath := path; rq_Host := "runmesh"; rq_Origin := "";
     rq_Authorization := "Bearer " +:+ token1; rq_Protocol := ""; rq_IdempotencyKey := "";
     rq_task_run_id := ""; rq_worker_id := ""; rq_Body := ""; rq_upgrade := λ _, None;
     rq_first := true; rq_signals := λ _, [] |}.

(** The request of [key1]'s holder for the tenant's runs. *)
Definition list_runs (db : Db) : result Response * Sess :=
  Handler any_location any_cron next_hour no_underscore plain zeros server pepper_config no_oidc decoders
    (λ _, Pass []) (λ _, Ok tt) None "" "" "" (request "GET" "/v1/runs") calm_env (at_db db).

Example list_runs_answer : resp_status (value (mkResponse 0 [] (BError "")) (list_runs keyed_db)) = 200.
Proof. evaluate. Qed.

Lemma routes_dispatched_witness :
  mux (public_table decoders (request "GET" "")) "POST" "/v1/runs/id8/cancel" = Handled (PostCancel "id8").
Proof.
  destruct (routes_dispatched decoders (request "GET" "") "id8" eq_refl) as [H _].
  destruct (H (parse_pattern "POST /v1/runs/{id}/cancel") (λ v, PostCancel (path_id v))) as (_ & Hr & _);
    [|exact Hr]. do 7 right. left.
Defined.

Definition runs_of_key (db : Db) : result Response * Sess :=
  serve_public no_underscore plain pepper_config no_oidc ("Bearer " +:+ token1) "" "/v1/runs"
    (λ _, Pass []) (guarded any_location any_cron next_hour no_underscore plain zeros server GetRuns)
    calm_env (at_db db).

Lemma public_requests_authenticated_witness :
  ∃ p s1, limited (Pass []) (guarded any_location any_cron next_hour no_underscore plain zeros server
    GetRuns p) calm_env s1 = runs_of_key keyed_db.
Proof.
  destruct (public_requests_authenticated no_underscore plain pepper_config no_oidc (λ _, Pass [])
    ("Bearer " +:+ token1) "" "/v1/runs"
    (guarded any_location any_cron next_hour no_underscore plain zeros server GetRuns) calm_env
    (at_db keyed_db) (runs_of_key keyed_db).1 (runs_of_key keyed_db).2) as [[H _]|(p & s1 & _ & _ & H)].
  - reflexivity.
  - apply surjective_pairing.
  - exfalso. revert H. vm_compute. discriminate.
  - exists p, s1. etransitivity; [exact H|symmetry; apply surjective_pairing].
Defined.

Definition viewer : Principal := mkPrincipal "acme" "u1" "viewer" "user" [].

(** The holder of [key1], who may read, asks for a cancellation. *)
Definition cancel_request : result Response * Sess :=
  serve_root any_location any_cron next_hour no_underscore plain zeros server pepper_config no_oidc decoders
    (λ _, Pass []) (λ _, Ok tt) None "" "" "" (request "POST" "/v1/runs/id8/cancel") Public calm_env (at_db keyed_db).

Lemma read_only_requests_witness :
  touched no_underscore token1 (s_db (at_db keyed_db)) (s_db cancel_request.2).
Proof.
  refine (read_only_requests any_location any_cron next_hour no_underscore plain zeros server pepper_config no_oidc
    decoders (λ _, Pass []) (λ _, Ok tt) None "" "" "" (request "POST" "/v1/runs/id8/cancel") calm_env (at_db keyed_db)
    cancel_request.1 cancel_request.2 _ (surjective_pairing _)).
  intros p s1 H. vm_compute in H. injection H as <- _. intros sc Hsc. apply list_elem_of_singleton in Hsc as ->.
  right. left.
Defined.

Definition rival : Principal := mkPrincipal "rival" "" "viewer" "api_key" ["workers:execute"].

Definition lease_request : worker_route := PostLease "id10" (One {| wk_WorkerID := "w9"; wk_TaskRunID := "" |}).

Lemma foreign_tasks_refused_witness :
  answers [400; 404; 422; 500] (handle_worker plain server lease_request rival) calm_env (at_db demo1).
Proof.
  refine (foreign_tasks_refused plain server lease_request "id10" rival calm_env (at_db demo1) eq_refl _).
  intros t rn _ Hr.
  assert (map_Forall (λ _ rn, r_tenant_id rn ≠ "rival") (workflow_runs (s_db (at_db demo1)))) as H
    by decided. exact (H _ _ Hr).
Defined.

Definition dev_config : AuthConfig :=
  {| Dev := true; DevPrincipal := mkPrincipal "acme" "u1" "admin" "development" [];
     DevWorkerToken := "tok"; TenantClaim := ""; APIKeyPepper := "" |}.

Lemma calls_in_tenant_witness :
  in_tenant no_underscore plain dev_config no_oidc ["Bearer tok"] "id12" calm_env (at_db dispatched).
Proof.
  pose (c := CallLease ["Bearer tok"] "id12" "w1").
  refine (calls_in_tenant no_underscore plain dev_config no_oidc lease None c calm_env (at_db dispatched)
    (dispatch_call no_underscore plain dev_config no_oidc lease None c calm_env (at_db dispatched)).2 _).
  evaluate.
Defined.

(** * Live stream and addresses *)

Definition live_log : list (string * LiveEvent) := w_live (batch quiet_world).2.

Lemma live_log_history : live_history [s_db (w_sess quiet_world)] live_log.
Proof. eapply lh_batch; [apply lh_start|apply surjective_pairing]. Qed.

(** What a viewer of the tenant receives. *)
Definition handshake : Handshake :=
  {| hs_origin := "http://localhost:3000"; hs_host := "runmesh"; hs_upgrade := λ ok, if ok then None else Some 403;
     hs_first := true;
     hs_signals := λ c, (λ e, (Incoming (Some e), true)) <$> on_channel c live_log |}.

Lemma arrived_all l : arrived ((λ e, (Incoming (Some e), true)) <$> l) = l.
Proof. induction l as [|e l IH]; [reflexivity|]. simpl. by f_equal. Qed.

Lemma live_stream_in_tenant_witness :
  length (shown (stream (Some (λ _, Ok tt)) handshake viewer)) = 1%nat ∧
  shown (stream (Some (λ _, Ok tt)) handshake viewer) `sublist_of` on_channel (channel "acme") live_log.
Proof.
  split; [evaluate|].
  destruct (live_stream_in_tenant [s_db (w_sess quiet_world)] live_log (Some (λ _, Ok tt)) handshake viewer)
    as [H _]; [apply live_log_history| |exact H].
  intros c. change (hs_signals handshake c) with ((λ e, (Incoming (Some e), true)) <$> on_channel c live_log).
  rewrite arrived_all. reflexivity.
Defined.

Lemma ParseURI_object_uri_witness :
  ParseURI (object_uri "runmesh" (object_key "acme" "input" "a1")) = Ok ("runmesh", object_key "acme" "input" "a1").
Proof. apply (ParseURI_object_uri "runmesh" "acme" "input" "a1"); [discriminate|evaluate|evaluate]. Defined.

(** * Statements PostgreSQL refuses *)

Example new_version_refused :
  (CreateVersion "acme" "" "id2" demo_dag calm_env (at_db demo1)).1 =
    Err (ErrPg indeterminate_datatype "could not determine data type of parameter $4").
Proof. evaluate. Qed.

(** A key is created, and its creation is not in the audit log. *)
Example key_creation_unaudited :
  let s' := (CreateAPIKey "key-id" "acme" "" "ci" ["runs:read"] None "hash" calm_env (at_db demo1)).2 in
  size (api_keys (s_db s')) = 1%nat ∧ audit_events (s_db s') = audit_events demo1.
Proof. split; evaluate. Qed.
