(* ===== verification/DeploymentWitnesses.v ===== *)
(** The worker and the deployment at work on concrete inputs: the hypotheses of
    their theorems can be met, and the defaults of the code lead where the
    findings say. *)
From stdpp Require Import pretty.
From S2P Require Import Prelude Go Url Mux Model Dag State Json Schema Sql StoreWorker StoreWorkflow Scheduler Outbox Auth Stream Artifacts RateLimit Config Metrics Api Service Http Rpc Preserve Frame Lifecycle Refinement Creation Aloof System History SchemaSpec MetricsSpec WorkerSpec SchedulerSpec AuthSpec Requests RpcSpec Scenario Witnesses Client WorkerGo WorkerGoSpec Deployment OutboxSpec Settling Calls Completion.

(** * History and well-formedness *)

(** What happens after [demo1]: the first task of the run has succeeded. *)
Definition later : Db :=
  play calm_env 300 demo1 [OpStartTask "id10" "w2"; OpCompleteTask "id10" "w2" None "" []].

Lemma history_kept_witness :
  ∃ t, task_runs later !! "id12" = Some t ∧ t_status t = SUCCEEDED ∧ t_output t = Some empty_object.
Proof.
  pose proof (history_kept demo1 later demo1_reachable (play_steps _ _ _ _)) as H.
  destruct (hi_tasks _ _ _ H "id12" (task_at demo1 "id12")) as (t & Ht & _ & Hs); [evaluate|].
  destruct Hs as [Hst Hr]; [evaluate|]. exists t. split_and!; [exact Ht|exact Hst|].
  apply (f_equal (λ x, x.1.2)) in Hr. transitivity (t_output (task_at demo1 "id12")); [exact Hr|evaluate].
Defined.

Lemma reachable_well_formed_witness : is_Some (workflow_runs demo1 !! "id8").
Proof.
  exact (wf_task_run _ (reachable_well_formed demo1 demo1_reachable) "id12" (task_at demo1 "id12")
    ltac:(evaluate)).
Defined.

(** * Metrics *)

Lemma histograms_equivalent_witness :
  ∃ ms s', histograms (λ _, None) schedulingDelay scheduling_delays 1 calm_env (at_db demo1) = (Ok ms, s') ∧
    ms ≡ₚ reference_histograms schedulingDelay
      (scheduling_delays (env_rank calm_env (s_tick (at_db demo1))) (s_db (at_db demo1))).
Proof.
  destruct (histograms_equivalent (λ _, None) schedulingDelay scheduling_delays 1 calm_env (at_db demo1))
    as (ms & s' & seen & H & _ & _ & Hms & Hall); [decided|].
  rewrite (Hall calm_env_calm eq_refl ltac:(decided)) in Hms. exists ms, s'. split; [exact H|exact Hms].
Defined.

(** A connection that breaks after the first row: the scrape succeeds and the
    histogram lacks the second attempt, which the scrape before it may have
    counted. *)
Example broken_scrape :
  (λ m, match m with ConstHistogram _ count _ _ _ => count | _ => 0 end) <$>
    match (histograms (λ _, Some 1%nat) schedulingDelay scheduling_delays 1 calm_env (at_db demo1)).1 with
    | Ok ms => ms | Err _ => [] end = [1]
  ∧ (λ m, match m with ConstHistogram _ count _ _ _ => count | _ => 0 end) <$>
    match (histograms (λ _, None) schedulingDelay scheduling_delays 1 calm_env (at_db demo1)).1 with
    | Ok ms => ms | Err _ => [] end = [2].
Proof. split; evaluate. Qed.

Lemma metrics_consistent_witness :
  total (status_label SUCCEEDED) (tenant_queue_depth (λ _, 0) demo1) = in_status demo1 SUCCEEDED.
Proof.
  destruct (metrics_consistent demo1 (λ _, 0) (λ _, 0) SUCCEEDED demo1_reachable) as [H _]. exact H.
Defined.

Example one_task_succeeded : in_status demo1 SUCCEEDED = 1.
Proof. evaluate. Qed.

(** * A worker at work *)

(** A workflow of one task for the example worker, dispatched. *)
Definition notify_dag : DAG :=
  {| dag_Name := "notify";
     Tasks := {["send" := {| Model.Handler := "examples.notify"; DependsOn := []; MaximumAttempts := 2;
                             TimeoutSeconds := 30; Priority := 0 |}]} |}.

Definition notify_db : Db :=
  play calm_env 0 empty_db [OpCreateWorkflow "acme" "" "" notify_dag;
                            OpCreateRun "acme" "" "id2" "key-1" None []; OpDispatchReady].

(** The task of the run. *)
Definition notify_task : string := default "" (head (map_to_list (task_runs notify_db)).*1).

Definition worker_config : AuthConfig :=
  {| Dev := true; DevPrincipal := mkPrincipal "acme" "" "admin" "" []; DevWorkerToken := "worker-token";
     TenantClaim := ""; APIKeyPepper := "" |}.

(** An object store that holds what was uploaded. *)
Definition constant_sha256 (_ : string) : string := String.concat "" (repeat (String "000" "") 32).

Definition log_store (id : string) : Objects :=
  {| presign_put := λ key _, Ok ("http://s3/" +:+ key, [("Host", ["s3"])]);
     presign_get := λ key, Ok ("http://s3/" +:+ key);
     head_object := λ _ _, Ok (Some (Z.of_nat (String.length (log_data (λ _, "") id))));
     get_object := λ _ _, Ok (log_data (λ _, "") id) |}.

Definition log_manager_for (id : string) : Manager :=
  {| mg_bucket := "runmesh"; mg_expiry := 900 * Second; mg_client := log_store id; mg_presign := log_store id |}.

Definition log_manager : Manager := log_manager_for notify_task.

#[local] Instance demo_service : WorkerService :=
  rpc_service no_underscore constant_sha256 worker_config no_oidc lease (Some log_manager).

#[local] Instance demo_service_spec : WorkerServiceSpec demo_service.
Proof. apply rpc_service_spec. Defined.

#[local] Instance demo_download_spec : DownloadSpec demo_service (rpc_signs (Some log_manager)).
Proof. apply rpc_download_spec. Defined.

Definition sdk : Client := NewClient (λ _, None) "http://localhost:7001/" "worker-token" "go-1".

Example sdk_addresses : cl_target sdk = "localhost:7001" ∧ cl_httpBaseURL sdk = "http://localhost:8080".
Proof. split; evaluate. Qed.

(** A network that delivers everything, with one heartbeat before each event. *)
Definition good_net : Net :=
  {| net_others := λ _ db, db; net_rpc := λ _, Answered; net_beats := λ _, 1%nat;
     net_stop := λ _, None; net_deadline := λ _, None; net_timer := λ _, true;
     net_put := λ _ _ _ _, Ok (mkHttpReply 200 "200 OK" (Ok ""));
     net_get := λ _ _, Ok (mkHttpReply 200 "200 OK" (Ok ""));
     net_fetch := λ _, None; net_commit := λ _, None |}.

Lemma good_net_honest : honest good_net.
Proof. intros n db. reflexivity. Qed.

Definition process (db : Db) : Proc := mkProc (at_db db) 0 None None None [].

Definition no_json (_ : string) : GoError + list (string * json) := inr [].

Definition worker_run : result unit * Proc :=
  execute constant_sha256 (λ _, "") id no_json sdk notify_task calm_env good_net (process notify_db).

Example worker_run_ok : worker_run.1 = Ok tt.
Proof. evaluate. Qed.

Definition notified : json := notify_output notify_task.

Lemma execute_success_witness :
  ∃ t, task_runs (proc_db worker_run.2) !! notify_task = Some t ∧ t_status t = SUCCEEDED ∧
    ∃ input output, handler_output (λ _, "") id notify_task (t_handler t) input = Some output.
Proof.
  destruct (execute_success constant_sha256 (λ _, "") id no_json sdk notify_task calm_env good_net
    (process notify_db) worker_run.2 good_net_honest) as (t & r & input & output & Ht & Hs & _ & _ & Ho & _).
  - transitivity worker_run; [reflexivity|]. transitivity (worker_run.1, worker_run.2);
      [apply surjective_pairing|]. rewrite worker_run_ok. reflexivity.
  - exact (ex_intro _ t (conj Ht (conj Hs (ex_intro _ input (ex_intro _ output Ho))))).
Defined.

(** The output recorded by that run. *)
Example worker_output :
  t_output <$> task_runs (proc_db worker_run.2) !! notify_task = Some (Some notified).
Proof. evaluate. Qed.

(** * The constraints of the schema *)

Lemma empty_db_constraints : constraints empty_db.
Proof. split; try apply map_Forall_empty; try apply unique_empty; constructor. Qed.

Lemma constraints_kept_witness :
  ∃ t, task_runs notify_db !! notify_task = Some t ∧ is_Some (workflow_runs notify_db !! t_workflow_run_id t).
Proof.
  pose proof (constraints_kept empty_db notify_db empty_db_constraints (play_steps _ _ _ _)) as H.
  exists (task_at notify_db notify_task).
  assert (task_runs notify_db !! notify_task = Some (task_at notify_db notify_task)) as Ht by evaluate.
  split; [exact Ht|]. exact (proj1 (con_tasks _ H _ _ Ht)).
Defined.

(** * The deployment *)

(** A control plane in development, and a request that creates a workflow. *)
Definition accept_workflow : Decoders :=
  {| dec_workflow := λ _, One {| wr_Name := "notify"; wr_Tasks := Tasks notify_dag |};
     dec_run := no_body; dec_upload := no_body; dec_key := no_body; dec_worker := no_body;
     dec_complete := no_body; dec_fail := no_body; dec_heartbeat := no_body; dec_schedule := no_body;
     dec_patch := no_body |}.

Definition create_workflow : result Response * Sess :=
  Handler any_location any_cron next_hour no_underscore constant_sha256 zeros server worker_config no_oidc
    accept_workflow (λ _, Pass []) (λ _, Ok tt) None "" "" "" (request "POST" "/v1/workflows") calm_env
    (mkSess 0 false empty_db).

Example create_workflow_answer :
  resp_status (value (mkResponse 0 [] (BError "")) create_workflow) = 201 ∧
  size (workflow_definitions (s_db create_workflow.2)) = 1%nat.
Proof. split; evaluate. Qed.

(** The scheduler's cycle after it. *)
Definition first_tick : result unit * Sess :=
  tick any_location any_cron next_hour (λ _, "") calm_env (mkSess 50 false (s_db create_workflow.2)).

Lemma deployment_is_execution_witness : system_reachable (s_db first_tick.2).
Proof.
  refine (deployment_is_execution any_location any_cron next_hour (λ _, "") no_underscore constant_sha256
    zeros server worker_config no_oidc accept_workflow (λ _, Pass []) (λ _, Ok tt) None "" "" "" lease
    (Some log_manager) id no_json (λ _, inr JNull) (λ _, "") (λ _ t, t) empty_db (s_db first_tick.2) empty_db_initial _).
  refine (rtc_l _ _ (s_db create_workflow.2) _ _ (rtc_once _ _ _)).
  - eapply act_http. exact (surjective_pairing create_workflow).
  - eapply act_tick. exact (surjective_pairing first_tick).
Defined.

(** * A lost lease request *)

Definition cut_net : Net :=
  {| net_others := λ _ db, db; net_rpc := λ _, RequestLost (ErrText "connection refused");
     net_beats := λ _, 0%nat; net_stop := λ _, None; net_deadline := λ _, None; net_timer := λ _, true;
     net_put := λ _ _ _ _, Err (ErrText "connection refused");
     net_get := λ _ _, Err (ErrText "connection refused");
     net_fetch := λ _, None; net_commit := λ _, None |}.

(** The message [dispatch_one] queued for the task. *)
Definition dispatch_message : Message :=
  mkMessage "id8" (JObj [("task_run_id", JStr notify_task); ("workflow_run_id", JStr "id8");
                         ("task_key", JStr "send"); ("handler", JStr "examples.notify")])
    "task.dispatch" "event".

Lemma lost_lease_strands_task_witness :
  ∃ p', handle_message constant_sha256 (λ _, "") id no_json sdk dispatch_message calm_env cut_net
          (process notify_db) = (Ok tt, p') ∧ pr_committed p' = [dispatch_message] ∧
    still_dispatched notify_task (proc_db p').
Proof.
  destruct (lost_lease_strands_task constant_sha256 (λ _, "") id no_json sdk dispatch_message
    (mkDispatch notify_task "examples.notify") (task_at notify_db notify_task) calm_env cut_net
    (ErrText "connection refused") (process notify_db)) as (p' & Hp & Hc & _ & Hs);
    [evaluate..|done|evaluate|evaluate|evaluate|evaluate|].
  refine (ex_intro _ p' (conj Hp (conj Hc _))). apply (Hs (proc_db p')). reflexivity.
Defined.

(** * The processes of the scheduler *)

Lemma Run_resilient_witness :
  ∃ w', Run any_location any_cron next_hour (λ _, "")
    {| OutboxBatchSize := 10; OutboxClaimTTL := 30 * Second; OutboxPublishTimeout := 10 * Second; Live := false |}
    Second Second 1 (λ _, None) [SchedulerLoop; OutboxLoop; SchedulerLoop] calm_env
    {| bus_publish := λ _, Undelivered (ErrText "kafka down"); bus_live := λ _, None |}
    (mkWorld (at_db notify_db) [] []) = (Ok None, w').
Proof.
  destruct (Run_resilient any_location any_cron next_hour (λ _, "")
    {| OutboxBatchSize := 10; OutboxClaimTTL := 30 * Second; OutboxPublishTimeout := 10 * Second; Live := false |}
    Second Second 1 (λ _, None) [SchedulerLoop; OutboxLoop; SchedulerLoop] calm_env
    {| bus_publish := λ _, Undelivered (ErrText "kafka down"); bus_live := λ _, None |}
    (mkWorld (at_db notify_db) [] []) eq_refl eq_refl) as (r & w' & H & _ & Hn).
  rewrite (Hn (λ _, eq_refl)) in H. exact (ex_intro _ w' H).
Defined.

(** A configuration with an interval of zero is accepted, and the scheduler
    panics at once. *)
Definition zero_env (key : string) : string :=
  if bool_decide (key = "RUNMESH_SCHEDULER_INTERVAL") then "0s" else dev_env key.

Theorem zero_interval_panics turns fuel ctx_Done env bus w :
  ∃ m, scheduler_main any_location any_cron next_hour (λ _, "") zero_env fuel ctx_Done (SchedulerLoop :: turns)
         = inr m ∧
       m env bus w = (Ok (Some (Panic "non-positive interval for NewTicker")), w).
Proof.
  unfold scheduler_main. destruct (Load zero_env) as [e|cfg] eqn:H; [exfalso; revert H; vm_compute; discriminate|].
  eexists. split; [reflexivity|]. apply Run_panics. simpl.
  assert (Load zero_env = inr cfg) as H' by exact H.
  assert (SchedulerInterval cfg = 0) as ->; [|done].
  apply (f_equal (λ r, match r with inr c => SchedulerInterval c | inl _ => 0 end)) in H'.
  rewrite <-H'. vm_compute. reflexivity.
Qed.

(** * A run completes *)

(** Two tasks for the example worker, one after the other. *)
Definition pair_dag : DAG :=
  let spec handler deps := {| Model.Handler := handler; DependsOn := deps; MaximumAttempts := 2;
                              TimeoutSeconds := 30; Priority := 0 |} in
  {| dag_Name := "pair"; Tasks := {["send" := spec "examples.notify" []; "greet" := spec "examples.greet" ["send"]]} |}.

Definition defined_db : Db := play calm_env 0 empty_db [OpCreateWorkflow "acme" "" "" pair_dag].

Definition pair_definition : DefinitionRow :=
  default {| d_tenant_id := ""; d_name := ""; d_version := 0; d_dag_spec := JNull; d_created_by := None; d_created_at := 0 |}
    (workflow_definitions defined_db !! "id2").

Definition creation : result ((uuid * RunRow) * bool) * Sess :=
  CreateRun "acme" "" "id2" "key-1" None [] calm_env (at_db defined_db).

Definition created : uuid * RunRow :=
  match creation.1 with Ok (x, _) => x | Err _ => ("", any_run) end.

Lemma creation_Ok : creation = (Ok (created, true), creation.2).
Proof. evaluate. Qed.

(** The logs of the two tasks have the same size. *)
Definition pair_manager : Manager := log_manager_for "id204".

(** The site when the run was created, with an idle worker. *)
Definition new_site : Site := mkSite (mkWorld creation.2 [] []) (process defined_db) 0.

Definition two_rounds : result unit * Site :=
  rounds any_location any_cron next_hour (λ _, "") Witnesses.service no_underscore constant_sha256 worker_config
    no_oidc lease (Some pair_manager) id no_json sdk calm_env good_bus good_net 2 new_site.

Lemma created_run_completes_witness :
  two_rounds.1 = Ok tt ∧ ∃ r', workflow_runs (site_db two_rounds.2) !! created.1 = Some r' ∧ r_status r' = RUN_SUCCEEDED.
Proof.
  destruct (created_run_completes any_location any_cron next_hour (λ _, "") Witnesses.service no_underscore
    constant_sha256 worker_config no_oidc lease (Some pair_manager) id no_json sdk
    calm_env good_bus good_net calm_env_calm calm_uuid_inj) with (tenant := "acme") (user := "") (def := "id2")
    (key := "key-1") (input := @None json) (aids := @nil string) (s := at_db defined_db) (rid := created.1)
    (r := created.2) (s' := creation.2) (top := @nil Message) (live := @nil (string * LiveEvent))
    (p := process defined_db) (d := pair_definition) (dag := pair_dag)
    as (x' & r' & Hrun & Hr & Hst & _).
  - intros n m Hle. unfold calm_env, Second. simpl. lia.
  - done.
  - done.
  - decided.
  - intros n db. reflexivity.
  - done.
  - split; [apply play_reachable|]. intros n Hn. apply fresh_ids; [decided|exact Hn].
  - intros k sc Hsc. assert (map_Forall (λ _ sc, s_enabled sc = false) (schedules (s_db (at_db defined_db)))) as Hall
      by decided. exact (Hall k sc Hsc).
  - intros k o Ho _.
    assert (map_Forall (λ _ o, o_claim_token o = None) (outbox_events (s_db (at_db defined_db)))) as Hall by decided.
    exact (Hall k o Ho).
  - evaluate.
  - evaluate.
  - rewrite <-surjective_pairing. exact creation_Ok.
  - decided.
  - intros k t Ht _.
    assert (map_Forall (λ _ t, supported (t_handler t) = true) (task_runs (s_db creation.2))) as Hall by decided.
    exact (Hall k t Ht).
  - done.
  - evaluate.
  - assert (two_rounds = (Ok tt, x')) as E by exact Hrun. rewrite E. split; [reflexivity|].
    exists r'. split; [exact Hr|exact Hst].
Defined.
