(* ===== verification/ProcessWitnesses.v ===== *)
(** The processes and the Python worker at work on concrete inputs: the
    hypotheses of their theorems can be met. *)
From stdpp Require Import pretty.
From S2P Require Import Prelude Go Url Mux Model Dag State Json Schema Sql StoreWorker StoreWorkflow Scheduler Outbox Auth Stream Artifacts RateLimit Config Metrics Api Service Http Rpc Preserve Frame Lifecycle Refinement Creation Aloof System History WorkerSpec AuthSpec Requests RpcSpec Scenario Witnesses Client WorkerGo WorkerGoSpec Python PythonSpec Deployment DeploymentWitnesses Process SchedulerSpec OutboxSpec Trace Console.

(** * A Python worker *)

(** A handler that awaits once. *)
Definition notify_handler : Handler_ := λ _ context,
  Await_ (Return_ (JObj [("delivered", JBool true); ("idempotency_key", JStr (idempotency_key context))])).

Definition bare_worker : Worker :=
  Worker_init "grpc://localhost:7001/" "worker-token" None None "runmesh.tasks" "runmesh-workers"
    (Some "py-1") 1 None "".

Example bare_worker_addresses :
  wk_endpoint bare_worker = "localhost:7001" ∧ wk_base_url bare_worker = "http://localhost:8080" ∧
  wk_brokers bare_worker = "localhost:19092".
Proof. split_and!; evaluate. Qed.

Definition py_worker : Worker :=
  match task_register "examples.notify" notify_handler bare_worker with inr w => w | inl _ => bare_worker end.

Definition no_loads (_ : string) : exc + json := inl (Raised "JSONDecodeError" "").
Definition no_str (_ : json) : string := "".
Definition rpc_text (_ : option code) (t : string) : string := t.
Definition no_serve (_ : Request) : M Response := mret (mkResponse 204 [] (BError "")).

Lemma no_serve_steps rq : preserves (rtc step) (no_serve rq).
Proof. by intros env s r s' [= <- <-]. Qed.

Definition slot (db : Db) : Slot := mkSlot (at_db db) 0 None None false false false false [].

(** An object store that holds the log. *)
Definition py_log : string := log_text (λ _, "") notify_task.

Definition py_store : Objects :=
  {| presign_put := λ key _, Ok ("http://s3/" +:+ key, [("Host", ["s3"])]);
     presign_get := λ key, Ok ("http://s3/" +:+ key);
     head_object := λ _ _, Ok (Some (Z.of_nat (String.length py_log)));
     get_object := λ _ _, Ok py_log |}.

Definition py_manager : Manager :=
  {| mg_bucket := "runmesh"; mg_expiry := 900 * Second; mg_client := py_store; mg_presign := py_store |}.

#[local] Instance py_service : WorkerService :=
  rpc_service no_underscore constant_sha256 worker_config no_oidc lease (Some py_manager).

#[local] Instance py_service_spec : WorkerServiceSpec py_service.
Proof. apply rpc_service_spec. Defined.

Definition py_consume (net : Net) (messages : list Message) : (exc + unit) * Slot :=
  consume_loop constant_sha256 (λ _, "") no_loads no_str rpc_text py_worker no_serve 3 messages calm_env net
    (slot notify_db).

Example py_consume_ok :
  (py_consume good_net [dispatch_message]).1 = inr tt ∧
  sl_committed (py_consume good_net [dispatch_message]).2 = [dispatch_message] ∧
  (t_status <$> task_runs (slot_db (py_consume good_net [dispatch_message]).2) !! notify_task)
    = Some SUCCEEDED.
Proof. split_and!; evaluate. Qed.

Lemma dispatch_message_owned : owned py_worker dispatch_message notify_task.
Proof.
  split; [evaluate|]. eexists _, "examples.notify", notify_handler. split_and!; evaluate.
Qed.

Lemma python_offsets_witness :
  acquired_between notify_task (slot_db (slot notify_db)) (slot_db (py_consume good_net [dispatch_message]).2).
Proof.
  destruct (python_offsets constant_sha256 (λ _, "") no_loads no_str rpc_text py_worker no_serve no_serve_steps
    3 [dispatch_message] calm_env good_net (slot notify_db) (py_consume good_net [dispatch_message]).1
    (py_consume good_net [dispatch_message]).2 good_net_honest) as (done_ & rest & _ & Hc & Ha);
    [exact (surjective_pairing (py_consume good_net [dispatch_message]))|].
  apply (Ha dispatch_message); [|exact dispatch_message_owned].
  rewrite (proj1 (proj2 py_consume_ok)) in Hc. simpl in Hc. rewrite <-Hc. by apply list_elem_of_singleton.
Defined.

(** ** The run is cancelled while the handler awaits *)

Definition cancel_net : Net :=
  {| net_others := λ n db, if (n =? 3)%nat then play calm_env 500 db [OpCancelRun "acme" "" "id8"] else db;
     net_rpc := λ _, Answered; net_beats := λ _, 1%nat; net_stop := λ _, None; net_deadline := λ _, None;
     net_timer := λ _, true; net_put := λ _ _ _ _, Ok (mkHttpReply 200 "200 OK" (Ok ""));
     net_get := λ _ _, Ok (mkHttpReply 200 "200 OK" (Ok "")); net_fetch := λ _, None; net_commit := λ _, None |}.

Lemma cancel_net_honest : honest cancel_net.
Proof. intros n db. unfold cancel_net, net_others. destruct (n =? 3)%nat; [apply play_steps|reflexivity]. Qed.

(** The slot after the fetch, the lease, the start and the handler. *)
Definition fetched : Slot := (await no_str py_worker calm_env cancel_net (slot notify_db)).2.

Definition py_post (action : string) (s : Slot) : (exc + json) * Slot :=
  post (λ _, "") no_str rpc_text py_worker no_serve (task_path notify_task action) [] calm_env cancel_net s.

Definition leased_slot : Slot := (py_post "lease" fetched).2.
Definition started_slot : Slot := (py_post "start" leased_slot).2.

Definition leased_task : TaskSnapshot :=
  snapshot (mkTaskRun notify_task (task_at (slot_db leased_slot) notify_task) None).

Definition handled : (exc + json) * Slot :=
  run_handler constant_sha256 (λ _, "") no_loads no_str py_worker notify_handler (task_message leased_task)
    (context_of notify_task leased_task) calm_env cancel_net (beginning notify_task started_slot).

Lemma cancelled_under_handler :
  cancelled_under constant_sha256 (λ _, "") no_loads no_str rpc_text py_worker no_serve dispatch_message
    notify_task calm_env cancel_net fetched.
Proof.
  refine (cancelled_under_intro _ _ _ _ _ _ _ dispatch_message notify_task calm_env cancel_net fetched _ "examples.notify" notify_handler leased_task
    (match (py_post "start" leased_slot).1 with inr v => v | inl _ => JNull end) leased_slot started_slot
    (match handled.1 with inr v => v | inl _ => JNull end) handled.2 eq_refl _ _ _ _ _ _ _); evaluate.
Qed.

Lemma cancelled_run_ends_slot_witness :
  ∃ e s', consume_loop constant_sha256 (λ _, "") no_loads no_str rpc_text py_worker no_serve 3
    [dispatch_message; dispatch_message] calm_env cancel_net (slot notify_db) = (inl e, s') ∧
    sl_committed s' = [].
Proof.
  refine (cancelled_run_ends_slot constant_sha256 (λ _, "") no_loads no_str rpc_text py_worker no_serve
    no_serve_steps 2 dispatch_message [dispatch_message] notify_task calm_env cancel_net (slot notify_db) fetched
    cancel_net_honest _ _ _ _ cancelled_under_handler); evaluate.
Defined.

(** The exception, and what the report of it left: the task is CANCELLED. *)
Example cancelled_slot :
  (py_consume cancel_net [dispatch_message; dispatch_message]).1
    = inl (CancelledError "workflow run was cancelled") ∧
  (t_status <$> task_runs (slot_db (py_consume cancel_net [dispatch_message]).2) !! notify_task)
    = Some CANCELLED.
Proof. split; evaluate. Qed.

(** * The control plane *)

(** A machine on which everything answers, with the development settings. *)
Definition dev_host : Host :=
  {| os_Args := ["control-plane"]; os_Getenv := dev_env; otlptracegrpc_New := λ _, Ok tt;
     resource_Merge := λ _, Ok tt; pgxpool_New := λ _, Ok tt; pgxpool_Ping := Ok tt;
     redis_ParseURL := λ _, Ok tt;
     registerer_Register := λ reg ds,
       if bool_decide (NoDup (fqName <$> (reg ++ ds))) then Ok tt else Err (ErrText "duplicate metrics collector");
     net_Listen := λ _, Ok tt; client_Get := λ _, Ok 200 |}.

Lemma dev_host_registers reg ds :
  ds ∈ registrations → NoDup (fqName <$> (reg ++ ds)) → registerer_Register dev_host reg ds = Ok tt.
Proof. intros _ H. unfold dev_host, registerer_Register. by rewrite bool_decide_true. Qed.

Definition s3_client : S3Client :=
  {| s3_objects := λ _, py_store; s3_head_bucket := λ _ _, Ok tt; s3_create_bucket := λ _ _, Ok tt |}.

(** A process with the collectors the library registers itself. *)
Definition fresh_process : Process :=
  mkProcess [] [] false [mkDesc "go_goroutines" []; mkDesc "process_open_fds" []] [] [] (at_db empty_db).

Lemma fresh_registry : registry_ok (pr_registry fresh_process).
Proof.
  split; [decided|]. intros d Hd.
  assert (Forall (λ d, runtime_name (fqName d) = true) (pr_registry fresh_process)) as Hall by decided.
  by apply (proj1 (Forall_forall _ _) Hall).
Qed.

Definition aws_default (_ : string) (_ : option (string * string)) : result unit := Ok tt.
Definition s3_new (_ : unit) (_ : bool) (_ : option string) : S3Client := s3_client.
Definition no_provider (_ _ _ _ : string) : result (list (string * json)) := Err (ErrText "no provider").
Definition subscribed (_ : string) : result unit := Ok tt.

Definition dev_start : step_end ControlPlane * Process :=
  control_plane_start dev_host aws_default s3_new no_provider subscribed calm_env fresh_process.

Lemma dev_start_run :
  control_plane_start dev_host aws_default s3_new no_provider subscribed calm_env fresh_process
    = (dev_start.1, dev_start.2).
Proof.
  unfold dev_start.
  by destruct (control_plane_start dev_host aws_default s3_new no_provider subscribed calm_env fresh_process).
Qed.

Lemma control_plane_start_outcome_witness :
  ∃ cp, dev_start.1 = Next cp ∧ pr_open (returned dev_start.2) = [].
Proof.
  pose proof (control_plane_start_outcome dev_host aws_default s3_new no_provider subscribed dev_host_registers
    calm_env fresh_process dev_start.1 dev_start.2 fresh_registry eq_refl eq_refl dev_start_run) as H.
  assert (first_failure (control_plane_checks dev_host aws_default s3_new calm_env
    (pr_sess fresh_process)) = None) as Hnone by evaluate.
  rewrite Hnone in H. destruct H as (cfg & manager & cp & _ & _ & Hr & _ & _ & _ & _ & Ho).
  exists cp. split; [exact Hr|exact Ho].
Defined.

(** The control plane after a signal that met one call, which ends before the
    process does. *)
Definition play_serving (es : list serving_event) (s : Serving) : option Serving :=
  foldl (λ s e, s ≫= serving_step e) (Some s) es.

Lemma play_serving_reachable p es s s' :
  serving_reachable p s → play_serving es s = Some s' → serving_reachable p s'.
Proof.
  revert s. induction es as [|e es IH]; intros s Hs; [by intros [= <-]|].
  unfold play_serving. simpl. destruct (serving_step e s) as [s1|] eqn:He.
  - apply IH. unfold serving_reachable. eapply rtc_r; [exact Hs|]. by exists e.
  - clear. intros H. exfalso. induction es as [|e' es IH]; [done|exact (IH H)].
Qed.

Lemma graceful_stop_witness :
  ∃ s, play_serving [CallArrives; Signalled; CallEnds; GracefulStop; Shutdown; ListenReturns]
         (serving_start fresh_process) = Some s ∧
    sv_exit s = Some 0 ∧ sv_rpcs s = 0%nat ∧ sv_process s = returned fresh_process.
Proof.
  destruct (play_serving [CallArrives; Signalled; CallEnds; GracefulStop; Shutdown; ListenReturns]
    (serving_start fresh_process)) as [s|] eqn:Hp; [|discriminate Hp].
  assert (sv_exit s = Some 0) as Hx by (revert Hp; vm_compute; by intros [= <-]).
  destruct (graceful_stop fresh_process s) as (H0 & _ & _).
  - exact (play_serving_reachable _ _ _ _ (rtc_refl _ _) Hp).
  - destruct (H0 Hx) as (_ & Hr & Hpr). exists s. split_and!; [reflexivity|exact Hx|exact Hr|exact Hpr].
Defined.

(** * Traces *)

(** A propagator whose contexts are trace identifiers. *)
Definition plain_inject (ctx : option string) (l : carrier) : carrier :=
  match ctx with Some t => ("traceparent", "00-" +:+ t) :: l | None => l end.

Definition plain_extract (ctx : option string) (l : carrier) : option string :=
  match assoc "traceparent" l with
  | Some (String _ (String _ (String _ t))) => Some t
  | _ => ctx
  end.

#[local] Instance plain_tracing : Tracing (option string) :=
  {| Inject := plain_inject; Extract := plain_extract; tracer_Start := λ _ ctx, ctx; span_trace := λ ctx, ctx |}.

#[local] Instance plain_tracing_spec : TracingSpec plain_tracing.
Proof.
  split; [| |done].
  - intros c l t Hc. simpl in Hc. subst c. by exists ("00-" +:+ t).
  - intros [t|] l key Hk; [|done]. apply not_elem_of_cons in Hk as [Hk _].
    cbn [Inject plain_tracing plain_inject assoc]. by rewrite (proj2 (String.eqb_neq _ _) (not_eq_sym Hk)).
Qed.

(** The run of the demonstration, created by a request of a trace. *)
Definition traced_env : Env :=
  {| env_now := env_now calm_env; env_clock := env_clock calm_env; env_uuid := env_uuid calm_env;
     env_fault := λ _, None; env_commit := λ _, Committed; env_locked := λ _ _, false;
     env_rank := env_rank calm_env; env_trace := FromContext (Some "4bf92f3577b34da6") |}.

Definition before_run : Sess :=
  mkSess 7 false (play calm_env 0 empty_db [OpCreateWorkflow "acme" "" "" demo_dag]).
Definition traced_creation := CreateRun "acme" "" "id2" "key-1" None [] traced_env before_run.
Definition traced_run : (uuid * RunRow) * bool := value (("", any_run), false) traced_creation.
Definition traced_db : Db := s_db traced_creation.2.
Definition traced_id : uuid :=
  default "" (head (filter (λ it, t_status it.2 = READY) (map_to_list (task_runs traced_db))).*1).
Definition traced_dispatch : result unit * Sess := dispatch_ready calm_env (mkSess 200 false traced_db).
Lemma trace_reaches_worker_witness :
  ∃ ev row, outbox_events (s_db traced_dispatch.2) !! ev = Some row ∧
    dispatch_event traced_id (task_at traced_db traced_id) row.
Proof.
  destruct (trace_reaches_worker (Some "4bf92f3577b34da6") "4bf92f3577b34da6" "acme" "" "id2" "key-1" None []
    traced_env before_run traced_run.1.1 traced_run.1.2 traced_creation.2 traced_db calm_env 200 false tt traced_dispatch.2
    traced_id (task_at traced_db traced_id) (task_at (s_db traced_dispatch.2) traced_id))
    as (ev & row & _ & He & Hd & _); [apply play_reachable|reflexivity|evaluate|evaluate|apply rtc_refl|evaluate|evaluate
    |vm_compute; discriminate|evaluate|evaluate|evaluate|].
  exists ev, row. split; [exact He|exact Hd].
Defined.

(** * The console *)

Definition launch_call : console_call := Launch "3f0e" "9c1b".

Lemma console_calls_routed_witness :
  mux root_table "POST" "/v1/workflows/3f0e/runs" = Handled Public.
Proof.
  destruct (console_calls_routed accept_workflow "runmesh.dev" "https://runmesh.dev" (Some "token") launch_call eq_refl)
    as [H _]. exact H.
Defined.

Lemma stream_token_received_witness :
  request_token "" "runmesh, bearer.rm_0123456789abcdef" "/v1/stream" = "rm_0123456789abcdef".
Proof. exact (stream_token_received "rm_0123456789abcdef" eq_refl ltac:(discriminate)). Defined.

(** A connection that is lost, tried again and then closed by the page. *)
Definition session : list browser_event :=
  [TokenArrives; SocketOpens 0; SocketMessage 0; SocketCloses 0; TimerFires 0; TokenArrives; SocketOpens 1;
   SocketMessage 1; Unsubscribe].

Lemma subscription_single_witness :
  ∃ s, browse session subscribed_ = Some s ∧ su_delays s = [1000] ∧ su_events s = 2%nat ∧
    Forall (λ ns, ns.2 = Closing) (su_sockets s) ∧ length (su_sockets s) = 1%nat.
Proof.
  destruct (browse session subscribed_) as [s|] eqn:Hb; [|discriminate Hb].
  destruct (subscription_single session s Hb) as (_ & _ & _ & Hc).
  assert (su_cancelled s = true ∧ su_delays s = [1000] ∧ su_events s = 2%nat ∧ length (su_sockets s) = 1%nat)
    as (Hx & Hd & He & Hl) by (revert Hb; vm_compute; by intros [= <-]).
  destruct (Hc Hx) as (_ & Hs & _).
  exists s. split_and!; [reflexivity|exact Hd|exact He|exact Hs|exact Hl].
Defined.
